(* ===== verification/_CoqProject ===== *)
-Q . S2P
Prelude.v
Proto.v
Header.v
Packet.v
Window.v
RingBuf.v
OrderedBytes.v
Reassembly.v
Close.v
Buffers.v
Net.v
ConnReader.v
Packetiser.v
Writer.v
Backpressure.v
FlushSteps.v
Reader.v
Routing.v
Handshake.v
Connection.v
Transfer.v
Text.v
Display.v
Sys.v
Io.v
Cmsg.v
Platform.v
ToolArgs.v
Tool.v
Bench.v
Throughput.v
Hosts.v
Acks.v
AckPolicy.v
Recycle.v
UnitTests.v
WriterTests.v
Tasks.v
Endpoint.v
Duplex.v
Session.v
