(* ===== verification/Prelude.v ===== *)
(** * Bluefin: a verification of the transport protocol library

    Bluefin is an ordered byte stream over UDP; it does not retransmit data.  A client and a server
    agree on connection ids and first packet numbers in a three-way handshake;
    each end then numbers its data packets, the other end reassembles them by
    number and acknowledges ranges of them; a FIN and a FIN-ACK close the
    connection.

    ** Parts and files

    - Prelude.v: the outcome of a Rust call ([Ok], [Err], a panic), the [?]
      notation, loops with fuel and their rule, machine-width integers, byte
      buffers, the shared lemmas, tactics and hint databases.
    - Proto.v (src/bluefin-proto/src): errors, host types, the handshake
      handler as a state machine.
    - Header.v, Packet.v (src/bluefin/src/core): the 20-byte header bit by bit,
      packets, and the two parsers of a datagram of packets.  [Serialisable] is
      the trait, [SerialisableLaws] the round trip its instances owe.
    - Window.v, RingBuf.v (src/bluefin/src/utils): the sliding window of
      acknowledged numbers, the ring buffer.
    - OrderedBytes.v (src/bluefin/src/net/ordered_bytes.rs): the circular
      reassembly buffer and its two ways of reading.
    - Reassembly.v: the abstract reassembly buffer, a map from packet numbers,
      which the circular one refines.
    - Display.v: the text of the reassembly buffer.
    - Close.v (src/bluefin/src/net/close_handler.rs): the close state machine,
      and the interface of a buffer with a waker ([Wakeable], [WakerSlot]) that
      the three shared buffers implement.
    - Buffers.v (src/bluefin/src/net/ack_handler.rs, connection.rs): the
      acknowledgement buffer with its consumer task, the connection buffer, the
      handshake future.
    - Net.v (src/bluefin/src/net/mod.rs): constants, what a connection shares
      between its tasks, the classification of handshake packets.
    - ConnReader.v (src/bluefin/src/worker/conn_reader.rs): what the receive
      task of a connection does with a datagram, and its two loops.
    - Packetiser.v, Writer.v (src/bluefin/src/worker/writer.rs): cutting the
      byte stream into datagrams; the handle an application holds; the pump,
      the sender task and the ack task as a transition system.
    - Backpressure.v (src/bluefin/src/worker/writer.rs): the same writer over
      its bounded channel, with sends that are refused and sends that wait.
    - FlushSteps.v (the same file): the same writer with each operation on its
      counter, and each check of [flush], as a step of its own.
    - Reader.v (src/bluefin/src/worker/reader.rs, the receiving half): the read
      future and the two reads, with the acknowledgements they send.
    - Routing.v (the same file, the transmitting half): the worker on a host's
      own socket, hello handling and the choice of the connection.
    - Handshake.v (src/bluefin/src/net/client.rs, server.rs): [connect] and
      [accept], cut at their awaits, and the exchange between two hosts.
    - Connection.v (src/bluefin/src/net/connection.rs): the send calls,
      [close], the task that answers FINs, and two ends that close against
      each other.
    - Transfer.v: the sending side, the wire format, the receive task and the
      reassembly buffer composed.
    - Acks.v: the loop of the ack task, the wire format, the acknowledgement
      window and its consumer composed, in the other direction.
    - AckPolicy.v: which of the packets that reads release are acknowledged.
    - Tasks.v (src/bluefin/src/net/mod.rs, src/bluefin/src/worker/conn_reader.rs):
      which tasks are started, and several receive tasks with the channel to
      the buffering task as a transition system.
    - Hosts.v: a host with its table of connections and all their tasks as a
      transition system, with the mutexes a panicking task poisons, and its
      well-formedness.
    - Text.v, Sys.v: what the drivers use of the standard library (text,
      number parsing and printing) and of the operating system (a sequence of
      calls, each of which may fail).
    - Io.v, Cmsg.v (src/bluefin-io/src): socket setup, the headers handed to
      the kernel, sending and receiving in the plain and the macOS variants;
      the buffer of control messages, over the interface [CmsgMacros] of the
      libc macros with the laws [CmsgLaws] and its Linux instance.
    - Platform.v (src/bluefin/src/utils): the UDP socket helpers, CPU affinity,
      the batched system calls.
    - ToolArgs.v, Tool.v (src/bluefintool/src/main.rs): the command line, hex
      and diagnostic output; the pipe between the terminal and a connection,
      listen and connect modes, the exit code.
    - Bench.v, Throughput.v (src/bluefin/src/bin): the settings, schedules and
      loops of the two benchmark programs; the figures the server prints.
    - Recycle.v (src/bluefin/src/worker/writer.rs): the writer with the vectors
      it packs its datagrams into, sends and gets back.
    - UnitTests.v, WriterTests.v: the unit tests of the repository as boolean
      functions on the model, with what they draw and list as arguments.
    - Endpoint.v: one end of a connection, all its tasks together: writer, ack
      task, receive task, ack consumer, reads, close and the FIN-ACK task.
    - Duplex.v: two ends and the network between them.
    - Session.v: the handshake and the two ends it makes.

    ** How the code is represented

    Definitions carry the source's names, [Struct_method] for a method.  State
    that one owner mutates is passed and returned.  State behind [Arc] is
    explicit: on a host the shared parts of the connections live in a heap that
    the connection table points into, so that two entries can share one; within
    a connection the shared part is a record ([ConnShared]) that every task
    reads and writes.  An asynchronous function is cut at its awaits, and what
    other tasks do there is an argument (the attempts of [close]) or another
    step of the same system (the writer's [writer_action], the receive tasks'
    [pool_action], an end's [ep_action], the tool's [tool_action], [host_step]).  A waker is the
    identity of the task it wakes, a [Notify] the number of its notifications,
    and what goes out of the modelled state (a wake-up, a request for a
    FIN-ACK, a diagnostic event) is a list of [effect]s.  Answers of the
    operating system and random draws are arguments; the calls a setup
    function makes are recorded in order ([sys]).

    A byte is a [Z] between 0 and 255; [u16], [u32] and [u64] values are [Z]
    with the wrap-around of a release build written out ([u64_add],
    [u64_sub]); lengths and indices are [nat].  An index out of range, a
    failing [unwrap] and [panic!] are [Panic].

    Loops that are not structural run on fuel: one more than the bytes left
    for the parsers, the bytes left and the queue for the packetisers, the
    capacity of the buffer for the drains, two rounds for the ack consumer.
    [NoFuel] is never the answer: every theorem about such a function states
    the value it returns.

    ** What is shown

    - The session.  [session_delivers], [connection_safety]: from the handshake
      on, in both directions at once and in every interleaving of all the tasks
      of both ends, over a network that loses, repeats and reorders, what an
      application reads is the beginning of what the other one sent, and what
      is published as acknowledged was released to the other application.  No
      task panics, and only a failing [recv] ends one
      ([connection_never_panics]); no task waits for what is already there
      ([no_wakeup_lost]).  What is lost, or refused by a full buffer, is never
      sent again; but once a writer is flushed and each of its datagrams has come
      at a time there was room, the other application has everything or finds
      it in its buffer, and after a FIN the end of the stream
      ([connection_delivers]).
    - The stream.  [stream_delivered]: what an application sends and flushes is
      what the peer reads, over a network that reorders and repeats datagrams.
      It rests on the wire being the accepted stream in consecutively numbered
      packets in every interleaving of the writer's tasks, on flush, on the
      parsers inverting the packetiser, on the receive task, and on reassembly
      delivering every packet once and in order whatever arrives and however it
      is read.  [stream_delivered_to_pool] is the same with several receive
      tasks, which refine the single one ([pool_refines_inline]).
      [recycling_refines_writer]: reusing the datagram vectors changes nothing.
      [bounded_writer]: nor does the bound of the channel, which is kept; a send
      that waits for room can always be completed by the tasks.
      [flush_step_by_step]: nor does taking the sends and the transmissions
      apart into their atomic operations, but for one notification of [flush]
      that a refused send can swallow.
    - The acknowledgements.  [acks_published]: over a network that also loses
      datagrams the sender ends up with the longest run the receiver
      acknowledged; [published_was_acked]: never with more.
      [silent_reads_unacknowledged]: what a read releases without an ack of its
      own is never acknowledged.
    - The connection.  The handshake ends with mirrored ids and with numbers
      that agree, but for a hello that was queued ([handshake_establishes]); a
      datagram reaches one connection at most, the one it is routed to; hellos
      and accepts are matched in order; once its flush has returned [close]
      returns, and [close_returns] says what each of its exits leaves behind.
      [host_well_formed]: the tables of a host are well formed in every state it
      reaches, and its worker survives the packets that come unless a task that
      panicked has poisoned a mutex it needs.
    - The tests.  [packetiser_tests_pass]: the unit tests of the packetisers,
      for every case their assertions admit; UnitTests.v evaluates the others.
    - The parts.  [reassembly_refines_map]: the circular reassembly buffer
      answers as a finite map does.  Round trips and totality of the codecs;
      the sliding window accounts for every number; the ring buffer is a bounded
      double-ended queue; the close state machine, the ack consumer and the read
      future keep their promises; optimised routines agree with the plain ones.
    - The drivers.  Control messages and batched calls stay in their buffers;
      socket setup makes its calls in order and stops at the first failure; the
      tool sends its input and writes its output in order, and ends after piped
      input if its flush and its close return; the benchmark's schedule, accounts and figures.
    - The limits.  Some behaviours fall short of the protocol document and are
      stated as theorems too: a send over 180,000 bytes is not sent in full, a
      hello that was queued costs the server the client's first packet, a FIN
      that overtakes data ends the stream too early, the packets of a read that
      sends no ack are never acknowledged, a FIN can take the number of a data
      packet, the end that closes second times out, early data survives the
      handshake, malformed datagrams end the receive tasks one by one, a panicking
      read takes the routing worker with it, a [flush] can miss its notification,
      and the benchmark server's idle timer can end an active connection.

    Some operations on shared state that follow each other are one step: the
    flag and the wake-up of a FIN (two lock regions), which nothing comes between
    that could tell them apart but a read that finds the flag early; a send and
    a transmission in Writer.v and what builds on it, which FlushSteps.v takes
    apart.  The network of Duplex.v may bring a datagram at any time and again;
    no theorem relies on its doing so.

    ** What is not modelled

    The tracing setup, which writes logs only.  The reuse of receive buffers,
    which the contents do not depend on.  The tests that ask the machine for its
    CPUs and the integration tests, which run over real sockets.  The poisoning
    of mutexes outside Hosts.v: in Endpoint.v and what builds on it no task
    panics.  Clocks: a
    timeout is the choice of the environment, except in the benchmark server,
    whose rounds carry their time.  The scheduler: every interleaving is
    allowed, and fairness is not assumed. *)
From stdpp Require Import base numbers list option strings relations.

(** * Shared prelude: outcomes, loops, machine integers, byte buffers *)

Declare Scope rust_scope.
Delimit Scope rust_scope with rust.

Abbreviation byte := Z (only parsing).
Abbreviation bytes := (list Z) (only parsing).

(** ** Outcomes

    A Rust call either returns a value, returns an [Err], or panics (an
    explicit [panic!], a failing [unwrap], an out-of-range index).  [NoFuel]
    is not a behaviour of the program: it is what a model whose fuel was too
    small answers, and the theorems show that it is never reached. *)
Inductive outcome (E A : Type) : Type :=
  | Ok (a : A)
  | Err (e : E)
  | Panic
  | NoFuel.

Arguments Ok {E A} a.
Arguments Err {E A} e.
Arguments Panic {E A}.
Arguments NoFuel {E A}.

Definition outcome_bind {E A B : Type} (m : outcome E A) (k : A -> outcome E B) : outcome E B :=
  match m with
  | Ok a => k a
  | Err e => Err e
  | Panic => Panic
  | NoFuel => NoFuel
  end.

Notation "'let?' x ':=' m 'in' k" := (outcome_bind m (fun x => k))
  (at level 10, x pattern, m at level 100, k at level 200) : rust_scope.

Definition is_ok {E A : Type} (m : outcome E A) : bool :=
  match m with Ok _ => true | _ => false end.

Definition is_err {E A : Type} (m : outcome E A) : bool :=
  match m with Err _ => true | _ => false end.

Definition outcome_map {E A B : Type} (f : A -> B) (m : outcome E A) : outcome E B :=
  outcome_bind m (fun a => Ok (f a)).

(** ** Loops

    A [while] or [loop] of the source is [loop fuel step s]: [step] runs the
    condition and the body once and either goes on with the next state or
    leaves the loop with a result. *)
Inductive ctl (S R : Type) : Type :=
  | Next (s : S)
  | Done (r : R).

Arguments Next {S R} s.
Arguments Done {S R} r.

Fixpoint loop {E S R : Type} (fuel : nat) (step : S -> outcome E (ctl S R)) (s : S) : outcome E R :=
  match fuel with
  | O => NoFuel
  | S fuel' =>
      match step s with
      | Ok (Next s') => loop fuel' step s'
      | Ok (Done r) => Ok r
      | Err e => Err e
      | Panic => Panic
      | NoFuel => NoFuel
      end
  end.

(** The total-correctness rule of [loop]: an invariant, and a measure that
    decreases at each round and is below the fuel. *)
Lemma loop_rule {E S R : Type} (I : S -> Prop) (m : S -> nat) (Q : outcome E R -> Prop)
    (step : S -> outcome E (ctl S R)) :
  (forall s, I s ->
     match step s with
     | Ok (Next s') => I s' /\ m s' < m s
     | Ok (Done r) => Q (Ok r)
     | Err e => Q (Err e)
     | Panic => Q Panic
     | NoFuel => Q NoFuel
     end) ->
  forall fuel s, I s -> m s < fuel -> Q (loop fuel step s).
Proof.
  intros Hstep fuel. induction fuel as [|fuel IH]; intros s HI Hm; [lia|].
  simpl. specialize (Hstep s HI).
  destruct (step s) as [[s'|r]|e| |]; [|done..].
  destruct Hstep as [HI' Hlt]. apply IH; [done|lia].
Qed.

(** One unfolding of a loop that has fuel left. *)
Lemma loop_S {E S R : Type} (fuel : nat) (step : S -> outcome E (ctl S R)) (s : S) :
  loop (Datatypes.S fuel) step s =
    match step s with
    | Ok (Next s') => loop fuel step s'
    | Ok (Done r) => Ok r
    | Err e => Err e
    | Panic => Panic
    | NoFuel => NoFuel
    end.
Proof. reflexivity. Qed.

(** ** Machine integers

    [u8], [u16], [u32] and [u64] values are [Z] in range; arithmetic wraps,
    as in the release profile the workspace ships (it leaves
    [overflow-checks] off).  Sizes and indices ([usize]) are [nat]. *)
Definition in_range (w : Z) (z : Z) : Prop := (0 <= z < 2 ^ w)%Z.
Definition is_u8 (z : Z) : Prop := in_range 8 z.
Definition is_u16 (z : Z) : Prop := in_range 16 z.
Definition is_u32 (z : Z) : Prop := in_range 32 z.
Definition is_u64 (z : Z) : Prop := in_range 64 z.

Definition u8_wrap (z : Z) : Z := (z mod 2 ^ 8)%Z.
Definition u16_wrap (z : Z) : Z := (z mod 2 ^ 16)%Z.
Definition u64_wrap (z : Z) : Z := (z mod 2 ^ 64)%Z.
Definition u64_add (a b : Z) : Z := u64_wrap (a + b)%Z.
Definition u64_sub (a b : Z) : Z := u64_wrap (a - b)%Z.

#[export] Instance in_range_dec w z : Decision (in_range w z).
Proof. unfold in_range. apply _. Defined.

Ltac unfold_ints :=
  unfold u64_add, u64_sub, is_u8, is_u16, is_u32, is_u64, u8_wrap, u16_wrap, u64_wrap,
    in_range in *.

(** [lia] on goals about machine integers. *)
Ltac int_lia := unfold_ints; lia.

Lemma u64_wrap_small z : is_u64 z -> u64_wrap z = z.
Proof. intros H. unfold u64_wrap. apply Z.mod_small. int_lia. Qed.

Lemma u64_wrap_range z : is_u64 (u64_wrap z).
Proof. unfold is_u64, in_range, u64_wrap. apply Z.mod_pos_bound. lia. Qed.

Lemma u64_add_small a b : is_u64 (a + b)%Z -> u64_add a b = (a + b)%Z.
Proof. apply u64_wrap_small. Qed.

Lemma u64_sub_small a b : is_u64 (a - b)%Z -> u64_sub a b = (a - b)%Z.
Proof. apply u64_wrap_small. Qed.

Lemma u64_wrap_add_l a b : u64_wrap (u64_wrap a + b) = u64_wrap (a + b).
Proof. unfold u64_wrap. apply Zplus_mod_idemp_l. Qed.

Lemma u16_wrap_small z : is_u16 z -> u16_wrap z = z.
Proof. intros H. unfold u16_wrap. apply Z.mod_small. int_lia. Qed.

(** A property of every [u8], checked by running it on the 256 values. *)
Lemma u8_forallb (P : Z -> bool) :
  forallb P (map Z.of_nat (seq 0 256)) = true -> forall b, is_u8 b -> P b = true.
Proof.
  intros H b Hb. rewrite forallb_forall in H. apply H.
  apply in_map_iff. exists (Z.to_nat b). unfold is_u8, in_range in Hb.
  split; [lia|]. apply in_seq. lia.
Qed.

(** ** Big-endian integers: [to_be_bytes] and [from_be_bytes] *)

Fixpoint to_be_bytes (n : nat) (z : Z) : bytes :=
  match n with
  | O => []
  | S n' => to_be_bytes n' (z / 256)%Z ++ [(z mod 256)%Z]
  end.

Definition from_be_bytes (l : bytes) : Z :=
  foldl (fun acc b => acc * 256 + b)%Z 0%Z l.

Lemma length_to_be_bytes n z : length (to_be_bytes n z) = n.
Proof.
  revert z. induction n as [|n IH]; intros z; [done|].
  simpl. rewrite length_app, IH. simpl. lia.
Qed.

Lemma to_be_bytes_u8 n z : Forall is_u8 (to_be_bytes n z).
Proof.
  revert z. induction n as [|n IH]; intros z; simpl; [constructor|].
  apply Forall_app; split; [apply IH|]. constructor; [|constructor].
  unfold is_u8, in_range. change (2 ^ 8)%Z with 256%Z. apply Z.mod_pos_bound. lia.
Qed.

Lemma from_be_bytes_snoc l b : from_be_bytes (l ++ [b]) = (from_be_bytes l * 256 + b)%Z.
Proof. unfold from_be_bytes. by rewrite foldl_app. Qed.

Lemma from_to_be_bytes n z :
  in_range (8 * Z.of_nat n) z -> from_be_bytes (to_be_bytes n z) = z.
Proof.
  unfold in_range. revert z. induction n as [|n IH]; intros z Hz.
  - replace z with 0%Z by (simpl in Hz; lia). done.
  - simpl to_be_bytes. rewrite from_be_bytes_snoc, IH.
    + rewrite (Z.div_mod z 256) at 3 by lia. lia.
    + replace (8 * Z.of_nat (S n))%Z with (8 * Z.of_nat n + 8)%Z in Hz by lia.
      rewrite Z.pow_add_r in Hz by lia. change (2 ^ 8)%Z with 256%Z in Hz.
      split; [apply Z.div_pos; lia|]. apply Z.div_lt_upper_bound; lia.
Qed.

Lemma from_be_bytes_range l :
  Forall is_u8 l -> in_range (8 * Z.of_nat (length l)) (from_be_bytes l).
Proof.
  unfold is_u8, in_range. change (2 ^ 8)%Z with 256%Z.
  induction l as [|b l IH] using rev_ind; intros Hl; [done|].
  apply Forall_app in Hl as [Hl Hb]. inversion_clear Hb as [|? ? Hb' _].
  specialize (IH Hl). rewrite from_be_bytes_snoc, length_app. simpl length.
  replace (8 * Z.of_nat (length l + 1))%Z with (8 * Z.of_nat (length l) + 8)%Z by lia.
  rewrite Z.pow_add_r by lia. change (2 ^ 8)%Z with 256%Z. nia.
Qed.

Lemma to_from_be_bytes n l :
  length l = n -> Forall is_u8 l -> to_be_bytes n (from_be_bytes l) = l.
Proof.
  intros <-. induction l as [|b l IH] using rev_ind; intros Hl; [done|].
  apply Forall_app in Hl as [Hl Hb]. inversion_clear Hb as [|? ? Hb' _].
  unfold is_u8, in_range in Hb'. change (2 ^ 8)%Z with 256%Z in Hb'.
  rewrite length_app, from_be_bytes_snoc. simpl length. rewrite Nat.add_1_r. simpl.
  rewrite Z.div_add_l, Z.div_small, Z.add_0_r, IH by (done || lia).
  f_equal. f_equal. rewrite Z.add_comm, Z.mod_add by lia. apply Z.mod_small. lia.
Qed.

(** ** Byte buffers: slices, [copy_from_slice] and chunks *)

(** [l[a..b]], for [a <= b <= l.len()]. *)
Definition slice {A : Type} (a b : nat) (l : list A) : list A := take (b - a) (drop a l).

(** [buf[off..off + bs.len()].copy_from_slice(bs)]: panics when the range is
    not inside [buf]. *)
Definition buf_write {E : Type} (buf : bytes) (off : nat) (bs : bytes) : outcome E bytes :=
  if decide (off + length bs <= length buf) then
    Ok (take off buf ++ bs ++ drop (off + length bs) buf)
  else Panic.

Lemma buf_write_prefix {E : Type} (pre bs rest : bytes) off :
  off = length pre -> length bs <= length rest ->
  buf_write (E := E) (pre ++ rest) off bs = Ok ((pre ++ bs) ++ drop (length bs) rest).
Proof.
  intros -> Hlen. unfold buf_write. rewrite length_app.
  rewrite decide_True by lia. f_equal.
  rewrite take_app_length, drop_app, drop_ge by lia. simpl.
  replace (length pre + length bs - length pre) with (length bs) by lia.
  by rewrite <- app_assoc.
Qed.

Lemma buf_write_panic {E : Type} (buf bs : bytes) off :
  length buf < off + length bs -> buf_write (E := E) buf off bs = Panic.
Proof. intros H. unfold buf_write. rewrite decide_False by lia. done. Qed.

Lemma slice_middle {A : Type} a b (pre mid post : list A) :
  a = length pre -> b = a + length mid -> slice a b (pre ++ mid ++ post) = mid.
Proof.
  intros -> ->. unfold slice. rewrite drop_app_length, Nat.add_comm, Nat.add_sub.
  apply take_app_length.
Qed.

Lemma take_slice {A : Type} a b (l : list A) : a <= b -> take a l ++ slice a b l = take b l.
Proof.
  intros H. unfold slice. rewrite take_take_drop. f_equal. lia.
Qed.

Lemma length_slice {A : Type} a b (l : list A) : b <= length l -> length (slice a b l) = b - a.
Proof. intros H. unfold slice. rewrite length_take, length_drop. lia. Qed.

(** [slice::chunks], here the reference for how a stream is cut into packets. *)
Fixpoint chunks_fuel {A : Type} (fuel n : nat) (l : list A) : list (list A) :=
  match fuel, l with
  | O, _ => []
  | _, [] => []
  | S fuel', _ => take n l :: chunks_fuel fuel' n (drop n l)
  end.

Definition chunks {A : Type} (n : nat) (l : list A) : list (list A) :=
  chunks_fuel (length l) n l.

Lemma chunks_fuel_enough {A : Type} n f1 f2 (l : list A) :
  0 < n -> length l <= f1 -> length l <= f2 -> chunks_fuel f1 n l = chunks_fuel f2 n l.
Proof.
  intros Hn. revert f2 l. induction f1 as [|f1 IH]; intros f2 l H1 H2.
  - destruct l; [by destruct f2|simpl in H1; lia].
  - destruct l as [|x l]; [by destruct f2|]. destruct f2 as [|f2]; [simpl in H2; lia|].
    simpl chunks_fuel. f_equal. apply IH; rewrite length_drop; simpl in *; lia.
Qed.

Lemma chunks_nil {A : Type} n : chunks n (@nil A) = [].
Proof. done. Qed.

Lemma chunks_step {A : Type} n (l : list A) :
  0 < n -> l <> [] -> chunks n l = take n l :: chunks n (drop n l).
Proof.
  intros Hn Hl. unfold chunks. destruct l as [|x l]; [done|].
  simpl length. simpl chunks_fuel at 1. f_equal.
  apply chunks_fuel_enough; [done| |done].
  rewrite length_drop. simpl. lia.
Qed.

(** Induction along the chunks of a list. *)
Lemma chunks_ind {A : Type} n (Hn : 0 < n) (P : list A -> Prop) :
  P [] -> (forall l, l <> [] -> P (drop n l) -> P l) -> forall l, P l.
Proof.
  intros Hnil Hstep l. remember (length l) as k eqn:Hk.
  revert l Hk. induction k as [k IH] using lt_wf_ind. intros l ->.
  destruct (decide (l = [])) as [->|Hl]; [done|]. apply Hstep; [done|].
  eapply IH; [|done]. rewrite length_drop. destruct l; [done|simpl; lia].
Qed.

Lemma concat_chunks {A : Type} n (l : list A) : 0 < n -> concat (chunks n l) = l.
Proof.
  intros Hn. induction l as [|l Hl IH] using (chunks_ind n Hn); [done|].
  rewrite chunks_step by done. simpl. rewrite IH. apply take_drop.
Qed.

Lemma chunks_sizes {A : Type} n (l : list A) :
  0 < n -> Forall (fun c => 0 < length c <= n) (chunks n l).
Proof.
  intros Hn. induction l as [|l Hl IH] using (chunks_ind n Hn); [constructor|].
  rewrite chunks_step by done. constructor; [|done].
  rewrite length_take. destruct l; [done|simpl; lia].
Qed.

Lemma chunks_app_full {A : Type} n (l1 l2 : list A) :
  0 < n -> length l1 = n -> chunks n (l1 ++ l2) = l1 :: chunks n l2.
Proof.
  intros Hn Hl. rewrite chunks_step; [|done|destruct l1; simpl in *; [lia|done]].
  by rewrite take_app_length', drop_app_length'.
Qed.

Lemma chunks_short {A : Type} n (l : list A) :
  l <> [] -> length l <= n -> chunks n l = [l].
Proof.
  intros Hl Hn. rewrite chunks_step; [|destruct l; simpl in *; [done|lia]|done].
  rewrite take_ge, drop_ge by lia. done.
Qed.

Lemma length_chunks_mul {A : Type} n k (l : list A) :
  0 < n -> length l <= k * n -> length (chunks n l) <= k.
Proof.
  intros Hn. revert k. induction l as [|l Hl IH] using (chunks_ind n Hn); intros k Hk;
    [rewrite chunks_nil; simpl; lia|].
  rewrite chunks_step by done. simpl. destruct k as [|k]; [destruct l; simpl in *; [done|lia]|].
  apply le_n_S, IH. rewrite length_drop. lia.
Qed.

(** ** Circular indices *)

Lemma mod_wrap (h i c : nat) :
  h < c -> i <= c -> (h + i) mod c = if decide (h + i < c) then h + i else h + i - c.
Proof.
  intros Hh Hi. case_decide; [by apply Nat.mod_small|].
  replace (h + i) with (h + i - c + 1 * c) at 1 by lia.
  rewrite Nat.Div0.mod_add. apply Nat.mod_small. lia.
Qed.

Lemma mod_wrap_inj (h i j c : nat) :
  h < c -> i < c -> j < c -> (h + i) mod c = (h + j) mod c -> i = j.
Proof. intros Hh Hi Hj. rewrite !mod_wrap by lia. repeat case_decide; lia. Qed.

(** ** Automation shared by the components *)

Create HintDb bluefin.
Create Rewrite HintDb sizes.
#[export] Hint Resolve u64_wrap_range to_be_bytes_u8 : bluefin.
#[export] Hint Rewrite @length_to_be_bytes @length_app @length_take @length_drop
  @length_replicate @length_insert : sizes.

Ltac sizes := autorewrite with sizes in *; simpl length in *; try lia.
