(* ===== verification/Proto.v ===== *)
(** * The protocol crate: errors, host types and the handshake handler

    Models src/bluefin-proto/src: [BluefinError] (error.rs), [BluefinHost]
    (context.rs), [BluefinResult] (lib.rs) and [HandshakeHandler]
    (handshake/state_machine.rs).  The random connection id and packet number
    that [rand] draws are arguments of the operations that draw them. *)
From stdpp Require Import base numbers list strings relations.
From S2P Require Import Prelude.

Inductive BluefinError : Type :=
  | SerialiseError
  | DeserialiseError (msg : string)
  | BufferDoesNotExist
  | BufferFullError (msg : string)
  | BufferEmptyError
  | CouldNotAcceptConnectionError (msg : string)
  | HandshakeError (msg : string)
  | InvalidHeaderError (msg : string)
  | LargePayloadError (msg : string)
  | ReadError (msg : string)
  | WriteError (msg : string)
  | CannotOpenStreamError
  | TooManyOpenConnectionsError
  | NoSuchConnectionError
  | ConnectionAlreadyExists
  | StreamAlreadyExists
  | NoSuchWakerError
  | InvalidSocketError
  | UnexpectedPacketNumberError
  | CannotBufferError (msg : string)
  | NoSuchStreamError
  | StdIoError (msg : string)
  | Unexpected (msg : string)
  | TimedOut (msg : string)
  | InvalidState (msg : string)
  | ConnectionClosed.

Abbreviation BluefinResult := (outcome BluefinError).

#[export] Instance BluefinError_eq_dec : EqDecision BluefinError.
Proof. solve_decision. Defined.

Inductive BluefinHost : Type := PackLeader | PackFollower | Client.

#[export] Instance BluefinHost_eq_dec : EqDecision BluefinHost.
Proof. solve_decision. Defined.

(** ** The handshake handler *)

Inductive State : Type :=
  | ServerStart
  | PendingAcceptState
  | RecvClientHello
  | SentServerHello
  | RecvClientAck
  | ClientStart
  | RequestingAccept
  | SentClientHello
  | RecvServerHello
  | SentClientAck
  | Conn.

#[export] Instance State_eq_dec : EqDecision State.
Proof. solve_decision. Defined.

(** The derived [Debug] text of a state, part of an error message. *)
Definition State_debug (s : State) : string :=
  match s with
  | ServerStart => "ServerStart"
  | PendingAcceptState => "PendingAccept"
  | RecvClientHello => "RecvClientHello"
  | SentServerHello => "SentServerHello"
  | RecvClientAck => "RecvClientAck"
  | ClientStart => "ClientStart"
  | RequestingAccept => "RequestingAccept"
  | SentClientHello => "SentClientHello"
  | RecvServerHello => "RecvServerHello"
  | SentClientAck => "SentClientAck"
  | Conn => "Conn"
  end.

Record PendingAccept : Type := {
  pa_src_conn_id : Z;
  pa_packet_number : Z;
}.

Record Transmit : Type := {
  tr_src_conn_id : Z;
  tr_packet_number : Z;
}.

(** The two values [rng().random()] yields are arguments. *)
Definition PendingAccept_new (rng_conn_id rng_packet_number : Z) : PendingAccept :=
  {| pa_src_conn_id := rng_conn_id; pa_packet_number := rng_packet_number |}.

Definition Transmit_new (rng_conn_id rng_packet_number : Z) : Transmit :=
  {| tr_src_conn_id := rng_conn_id; tr_packet_number := rng_packet_number |}.

Record HandshakeHandler : Type := {
  hh_state : State;
  hh_pending_accepts : list PendingAccept;
  hh_transmit_queue : list Transmit;
}.

(** [todo!()] for the pack follower is a panic. *)
Definition HandshakeHandler_new (host_type : BluefinHost) : BluefinResult HandshakeHandler :=
  match host_type with
  | Client =>
      Ok {| hh_state := ClientStart; hh_pending_accepts := []; hh_transmit_queue := [] |}
  | PackLeader =>
      Ok {| hh_state := ServerStart; hh_pending_accepts := []; hh_transmit_queue := [] |}
  | PackFollower => Panic
  end.

(** [rng_conn_id] and [rng_packet_number] are the two values [rng().random()]
    yields. *)
Definition HandshakeHandler_begin (rng_conn_id rng_packet_number : Z) (h : HandshakeHandler) :
    BluefinResult unit * HandshakeHandler :=
  match hh_state h with
  | ServerStart =>
      (Ok tt,
       {| hh_state := PendingAcceptState;
          hh_pending_accepts :=
            hh_pending_accepts h ++ [PendingAccept_new rng_conn_id rng_packet_number];
          hh_transmit_queue := hh_transmit_queue h |})
  | ClientStart =>
      (Ok tt,
       {| hh_state := RequestingAccept;
          hh_pending_accepts := hh_pending_accepts h;
          hh_transmit_queue :=
            hh_transmit_queue h ++ [Transmit_new rng_conn_id rng_packet_number] |})
  | other =>
      (Err (InvalidState (String.append "Cannot begin handshake at state: " (State_debug other))), h)
  end.

Definition HandshakeHandler_poll_tx_client_hello (h : HandshakeHandler) :
    BluefinResult (option Transmit) * HandshakeHandler :=
  if decide (hh_state h <> RequestingAccept) then
    (Err (InvalidState "Cannot poll tx client hello"), h)
  else
    match hh_transmit_queue h with
    | [] => (Ok None, h)
    | t :: ts =>
        (Ok (Some t),
         {| hh_state := hh_state h;
            hh_pending_accepts := hh_pending_accepts h;
            hh_transmit_queue := ts |})
    end.

Definition HandshakeHandler_handle (h : HandshakeHandler) :
    BluefinResult unit * HandshakeHandler := (Ok tt, h).

(** ** Reachable handlers *)

(** The calls a host can make on its handler, one constructor per method. *)
Inductive hh_step : HandshakeHandler -> HandshakeHandler -> Prop :=
  | hh_step_begin c n h : hh_step h (HandshakeHandler_begin c n h).2
  | hh_step_poll h : hh_step h (HandshakeHandler_poll_tx_client_hello h).2
  | hh_step_handle h : hh_step h (HandshakeHandler_handle h).2.

(** What a handler holds in each state it can be in: a server that has begun
    has exactly one pending accept and never a transmit request; a client has
    no pending accept and at most one transmit request. *)
Definition hh_inv (host : BluefinHost) (h : HandshakeHandler) : Prop :=
  match host with
  | PackLeader =>
      hh_transmit_queue h = [] /\
      ((hh_state h = ServerStart /\ hh_pending_accepts h = []) \/
       (hh_state h = PendingAcceptState /\ length (hh_pending_accepts h) = 1))
  | Client =>
      hh_pending_accepts h = [] /\
      ((hh_state h = ClientStart /\ hh_transmit_queue h = []) \/
       (hh_state h = RequestingAccept /\ length (hh_transmit_queue h) <= 1))
  | PackFollower => False
  end.

Lemma hh_inv_new host h : HandshakeHandler_new host = Ok h -> hh_inv host h.
Proof. destruct host; intros [= <-]; simpl; auto. Qed.

Lemma hh_inv_step host h h' : hh_inv host h -> hh_step h h' -> hh_inv host h'.
Proof.
  intros Hinv Hstep. destruct Hstep as [c n h0|h0|h0]; [| |exact Hinv].
  - unfold HandshakeHandler_begin.
    destruct host; simpl in *; [|done|];
      destruct Hinv as [Hq [[Hs Hp]|[Hs Hp]]]; rewrite ?Hs; simpl; rewrite ?Hs, ?Hp, ?Hq; simpl; auto.
  - unfold HandshakeHandler_poll_tx_client_hello.
    case_decide as Hdec; [exact Hinv|].
    destruct host; simpl in *; [|done|];
      destruct Hinv as [Hq [[Hs Hp]|[Hs Hp]]]; try congruence.
    destruct (hh_transmit_queue h0) as [|t ts] eqn:Ht; simpl in *.
    + rewrite Ht. simpl. auto.
    + split; [done|]. right. split; [done|]. lia.
Qed.

Lemma hh_inv_reachable host h0 h :
  HandshakeHandler_new host = Ok h0 -> rtc hh_step h0 h -> hh_inv host h.
Proof.
  intros Hnew Hsteps. apply hh_inv_new in Hnew.
  induction Hsteps as [h|h h1 h2 Hstep _ IH]; [done|]. apply IH. by eapply hh_inv_step.
Qed.

(** ** Property *)

(** A handler that any calls can produce begins once.  If it has not begun
    yet, [begin] succeeds and records the request (one pending accept on a
    server, one transmit request on a client, which [poll_tx_client_hello] then
    hands out); after that every further [begin] fails and changes nothing. *)
Theorem handshake_begins_once host h0 h c n c' n' :
  HandshakeHandler_new host = Ok h0 -> rtc hh_step h0 h ->
  let '(_, h1) := HandshakeHandler_begin c n h in
  (exists msg, HandshakeHandler_begin c' n' h1 = (Err (InvalidState msg), h1)) /\
  length (hh_pending_accepts h1) + length (hh_transmit_queue h1) <= 1 /\
  (hh_state h = ClientStart ->
   fst (HandshakeHandler_poll_tx_client_hello h1) =
     Ok (Some {| tr_src_conn_id := c; tr_packet_number := n |})).
Proof.
  intros Hnew Hsteps. pose proof (hh_inv_reachable host h0 h Hnew Hsteps) as Hinv.
  unfold HandshakeHandler_begin, HandshakeHandler_poll_tx_client_hello.
  destruct host; simpl in Hinv; [|done|]; destruct Hinv as [Hq [[Hs Hp]|[Hs Hp]]]; rewrite Hs; simpl;
    rewrite ?Hs, ?Hp, ?Hq; simpl; split_and!; eauto; try (lia || done).
Qed.

Lemma handshake_begins_once_witness :
  (exists msg, HandshakeHandler_begin 3 4
     {| hh_state := RequestingAccept; hh_pending_accepts := [];
        hh_transmit_queue := [{| tr_src_conn_id := 1; tr_packet_number := 2 |}] |} =
     (Err (InvalidState msg),
      {| hh_state := RequestingAccept; hh_pending_accepts := [];
         hh_transmit_queue := [{| tr_src_conn_id := 1; tr_packet_number := 2 |}] |})).
Proof.
  exact (proj1 (handshake_begins_once Client _ _ 1 2 3 4 eq_refl (rtc_refl _ _))).
Defined.
