(* ===== verification/Header.v ===== *)
(** * The 20-byte Bluefin header

    Models src/bluefin/src/core/header.rs and the [Serialisable] trait of
    src/bluefin/src/core/mod.rs.  Every field is kept at its width; bit
    operations are the source's own.  The theorems show that the header
    round-trips in both directions, that the buffer-writing serialiser agrees
    with the allocating one, and exactly when decoding fails or panics. *)
From stdpp Require Import base numbers list strings.
From S2P Require Import Prelude Proto.

Local Open Scope Z_scope.

(** The [Serialisable] trait. *)
Class Serialisable (A : Type) : Type := {
  serialise : A -> bytes;
  deserialise : bytes -> BluefinResult A;
}.

(** What an implementation of the trait promises on well-formed values. *)
Class SerialisableLaws (A : Type) `{Serialisable A} (wf : A -> Prop) : Prop := {
  deserialise_serialise (x : A) : wf x -> deserialise (serialise x) = Ok x;
}.

(** ** Packet types *)

Inductive PacketType : Type :=
  | UnencryptedClientHello
  | UnencryptedServerHello
  | ClientAck
  | UnencryptedData
  | Ack
  | Fin
  | FinAck.

#[export] Instance PacketType_eq_dec : EqDecision PacketType.
Proof. solve_decision. Defined.

(** [self.type_field as u8]. *)
Definition PacketType_as_u8 (t : PacketType) : Z :=
  match t with
  | UnencryptedClientHello => 0x00
  | UnencryptedServerHello => 0x01
  | ClientAck => 0x02
  | UnencryptedData => 0x03
  | Ack => 0x04
  | Fin => 0x05
  | FinAck => 0x06
  end.

(** An unknown code reaches [panic!]. *)
Definition PacketType_from_u8 (value : Z) : BluefinResult PacketType :=
  if value =? 0x00 then Ok UnencryptedClientHello
  else if value =? 0x01 then Ok UnencryptedServerHello
  else if value =? 0x02 then Ok ClientAck
  else if value =? 0x03 then Ok UnencryptedData
  else if value =? 0x04 then Ok Ack
  else if value =? 0x05 then Ok Fin
  else if value =? 0x06 then Ok FinAck
  else Panic.

(** ** Security fields *)

Record BluefinSecurityFields : Type := {
  header_encrypted : bool;
  header_protection_mask : Z;
}.

Definition BluefinSecurityFields_default : BluefinSecurityFields :=
  {| header_encrypted := false; header_protection_mask := 0 |}.

Definition BluefinSecurityFields_new (header_encrypted : bool) (header_protection_mask : Z) :
    BluefinResult BluefinSecurityFields :=
  if 127 <? header_protection_mask then Panic
  else Ok {| header_encrypted := header_encrypted;
             header_protection_mask := header_protection_mask |}.

Definition BluefinSecurityFields_serialise (s : BluefinSecurityFields) : bytes :=
  let byte := 0x0 in
  let byte := if header_encrypted s then Z.lor byte 0x80 else byte in
  let byte := Z.lor byte (header_protection_mask s) in
  [byte].

Definition BluefinSecurityFields_deserialise (bs : bytes) : BluefinResult BluefinSecurityFields :=
  if (length bs <? 1)%nat then Err (DeserialiseError "Bluefin security fields are one byte")
  else
    let byte := bs !!! 0%nat in
    Ok {| header_encrypted := negb (Z.shiftr (Z.land byte 0x80) 7 =? 0);
          header_protection_mask := Z.land byte 0x7f |}.

#[export] Instance BluefinSecurityFields_Serialisable : Serialisable BluefinSecurityFields := {
  serialise := BluefinSecurityFields_serialise;
  deserialise := BluefinSecurityFields_deserialise;
}.

(** ** The header *)

Record BluefinHeader : Type := {
  version : Z;
  type_field : PacketType;
  type_specific_payload : Z;
  security_fields : BluefinSecurityFields;
  source_connection_id : Z;
  destination_connection_id : Z;
  packet_number : Z;
}.

#[export] Instance BluefinSecurityFields_eq_dec : EqDecision BluefinSecurityFields.
Proof. solve_decision. Defined.
#[export] Instance BluefinHeader_eq_dec : EqDecision BluefinHeader.
Proof. solve_decision. Defined.

(** The derived [Default]. *)
Definition BluefinHeader_default : BluefinHeader :=
  {| version := 0; type_field := UnencryptedData; type_specific_payload := 0;
     security_fields := BluefinSecurityFields_default; source_connection_id := 0;
     destination_connection_id := 0; packet_number := 0 |}.

Definition BluefinHeader_new (source_connection_id destination_connection_id : Z)
    (type_field : PacketType) (type_specific_payload : Z)
    (security_fields : BluefinSecurityFields) : BluefinHeader :=
  {| version := 0x0;
     type_field := type_field;
     type_specific_payload := type_specific_payload;
     security_fields := security_fields;
     source_connection_id := source_connection_id;
     destination_connection_id := destination_connection_id;
     packet_number := 0x0 |}.

Definition BluefinHeader_with_packet_number (h : BluefinHeader) (n : Z) : BluefinHeader :=
  {| version := version h;
     type_field := type_field h;
     type_specific_payload := type_specific_payload h;
     security_fields := security_fields h;
     source_connection_id := source_connection_id h;
     destination_connection_id := destination_connection_id h;
     packet_number := n |}.

(** The assignment [header.type_specific_payload = n]. *)
Definition with_type_specific_payload (h : BluefinHeader) (n : Z) : BluefinHeader :=
  {| version := version h;
     type_field := type_field h;
     type_specific_payload := n;
     security_fields := security_fields h;
     source_connection_id := source_connection_id h;
     destination_connection_id := destination_connection_id h;
     packet_number := packet_number h |}.

(** [(self.version << 4) | self.type_field as u8], in [u8]. *)
Definition first_byte (h : BluefinHeader) : Z :=
  Z.lor (u8_wrap (Z.shiftl (version h) 4)) (PacketType_as_u8 (type_field h)).

Definition BluefinHeader_serialise (h : BluefinHeader) : bytes :=
  [first_byte h]
    ++ to_be_bytes 2 (type_specific_payload h)
    ++ BluefinSecurityFields_serialise (security_fields h)
    ++ to_be_bytes 4 (source_connection_id h)
    ++ to_be_bytes 4 (destination_connection_id h)
    ++ to_be_bytes 8 (packet_number h).

(** Writes field by field; the [debug_assert!] is not compiled in release, so
    a short buffer panics at the first write out of range. *)
Definition BluefinHeader_serialise_into (h : BluefinHeader) (buf : bytes) :
    BluefinResult (nat * bytes) :=
  (let? buf := buf_write buf 0 [first_byte h] in
   let? buf := buf_write buf 1 (to_be_bytes 2 (type_specific_payload h)) in
   let? buf := buf_write buf 3 [BluefinSecurityFields_serialise (security_fields h) !!! 0%nat] in
   let? buf := buf_write buf 4 (to_be_bytes 4 (source_connection_id h)) in
   let? buf := buf_write buf 8 (to_be_bytes 4 (destination_connection_id h)) in
   let? buf := buf_write buf 12 (to_be_bytes 8 (packet_number h)) in
   Ok (20%nat, buf))%rust.

Definition BluefinHeader_deserialise (bs : bytes) : BluefinResult BluefinHeader :=
  if negb (length bs =? 20)%nat then
    Err (DeserialiseError "Bluefin header must be exactly 20 bytes")
  else
    (let? security_fields := BluefinSecurityFields_deserialise [bs !!! 3%nat] in
     let? type_field := PacketType_from_u8 (Z.land (bs !!! 0%nat) 0x0f) in
     Ok {| version := Z.shiftr (Z.land (bs !!! 0%nat) 0xf0) 4;
           type_field := type_field;
           type_specific_payload := from_be_bytes (slice 1 3 bs);
           security_fields := security_fields;
           source_connection_id := from_be_bytes (slice 4 8 bs);
           destination_connection_id := from_be_bytes (slice 8 12 bs);
           packet_number := from_be_bytes (slice 12 20 bs) |})%rust.

#[export] Instance BluefinHeader_Serialisable : Serialisable BluefinHeader := {
  serialise := BluefinHeader_serialise;
  deserialise := BluefinHeader_deserialise;
}.

(** ** Well-formed headers: every field inside its wire width *)

Definition wf_security (s : BluefinSecurityFields) : Prop := 0 <= header_protection_mask s <= 127.

Definition wf_header (h : BluefinHeader) : Prop :=
  in_range 4 (version h) /\
  is_u16 (type_specific_payload h) /\
  wf_security (security_fields h) /\
  is_u32 (source_connection_id h) /\
  is_u32 (destination_connection_id h) /\
  is_u64 (packet_number h).

#[export] Instance wf_header_dec h : Decision (wf_header h).
Proof. unfold wf_header, wf_security, is_u16, is_u32, is_u64. apply _. Defined.

(** ** Lemmas on the two packed bytes *)

Lemma first_byte_split h :
  in_range 4 (version h) ->
  Z.shiftr (Z.land (first_byte h) 0xf0) 4 = version h /\
  Z.land (first_byte h) 0x0f = PacketType_as_u8 (type_field h).
Proof.
  intros Hv. unfold first_byte.
  assert (Hall : forall t v, is_u8 v ->
    implb (v <? 16)
      ((Z.shiftr (Z.land (Z.lor (u8_wrap (Z.shiftl v 4)) (PacketType_as_u8 t)) 0xf0) 4 =? v) &&
       (Z.land (Z.lor (u8_wrap (Z.shiftl v 4)) (PacketType_as_u8 t)) 0x0f
          =? PacketType_as_u8 t)) = true).
  { intros t. apply u8_forallb. by destruct t; vm_compute. }
  specialize (Hall (type_field h) (version h)). unfold in_range in *.
  rewrite (proj2 (Z.ltb_lt _ _)) in Hall by (simpl in Hv; lia). simpl implb in Hall.
  destruct (andb_prop _ _ (Hall ltac:(unfold is_u8, in_range; simpl in *; lia))) as [H1 H2].
  by apply Z.eqb_eq in H1, H2.
Qed.

Lemma first_byte_u8 h : in_range 4 (version h) -> is_u8 (first_byte h).
Proof.
  intros Hv. unfold first_byte.
  assert (Hall : forall t v, is_u8 v ->
    bool_decide (is_u8 (Z.lor (u8_wrap (Z.shiftl v 4)) (PacketType_as_u8 t))) = true).
  { intros t. apply u8_forallb. by destruct t; vm_compute. }
  apply (bool_decide_eq_true_1 _), (Hall _ (version h)).
  unfold is_u8, in_range in *. simpl in *. lia.
Qed.

(** A byte is the packing of its two nibbles. *)
Lemma first_byte_join b t :
  is_u8 b -> PacketType_from_u8 (Z.land b 0x0f) = Ok t ->
  Z.lor (u8_wrap (Z.shiftl (Z.shiftr (Z.land b 0xf0) 4) 4)) (PacketType_as_u8 t) = b /\
  in_range 4 (Z.shiftr (Z.land b 0xf0) 4).
Proof.
  intros Hb.
  pose proof (u8_forallb (fun b =>
    match PacketType_from_u8 (Z.land b 0x0f) with
    | Ok t =>
        (Z.lor (u8_wrap (Z.shiftl (Z.shiftr (Z.land b 0xf0) 4) 4)) (PacketType_as_u8 t) =? b)
        && bool_decide (in_range 4 (Z.shiftr (Z.land b 0xf0) 4))
    | _ => true
    end) ltac:(by vm_compute) b Hb) as H.
  simpl in H. intros Ht. rewrite Ht in H. apply andb_prop in H as [H1 H2].
  split; [by apply Z.eqb_eq|by apply bool_decide_eq_true_1 in H2].
Qed.

Lemma PacketType_from_as_u8 t : PacketType_from_u8 (PacketType_as_u8 t) = Ok t.
Proof. by destruct t. Qed.

(** The low nibble decides whether a type is known. *)
Lemma PacketType_from_u8_cases v :
  0 <= v ->
  if v <=? 6 then exists t, PacketType_from_u8 v = Ok t /\ PacketType_as_u8 t = v
  else PacketType_from_u8 v = Panic.
Proof.
  intros Hv. unfold PacketType_from_u8. destruct (Z.leb_spec v 6).
  - assert (v = 0 \/ v = 1 \/ v = 2 \/ v = 3 \/ v = 4 \/ v = 5 \/ v = 6) as Hc by lia.
    destruct Hc as [->|[->|[->|[->|[->|[->| ->]]]]]]; eexists; split; reflexivity.
  - repeat match goal with |- context [v =? ?k] => destruct (Z.eqb_spec v k); [lia|] end. done.
Qed.

Lemma security_round_trip s :
  wf_security s ->
  BluefinSecurityFields_deserialise (BluefinSecurityFields_serialise s) = Ok s.
Proof.
  destruct s as [e m]. unfold wf_security. simpl. intros Hm.
  pose proof (fun H => u8_forallb (fun m =>
    let b := Z.lor (if e then Z.lor 0 0x80 else 0) m in
    implb (m <=? 127)
      (Bool.eqb (negb (Z.shiftr (Z.land b 0x80) 7 =? 0)) e && (Z.land b 0x7f =? m))) H m) as H.
  specialize (H ltac:(by destruct e; vm_compute) ltac:(unfold is_u8, in_range; simpl; lia)).
  cbv zeta beta in H. rewrite (proj2 (Z.leb_le _ _)) in H by lia. simpl implb in H.
  apply andb_prop in H as [H1 H2]. apply Bool.eqb_prop in H1. apply Z.eqb_eq in H2.
  unfold BluefinSecurityFields_deserialise, BluefinSecurityFields_serialise. simpl.
  by rewrite H1, H2.
Qed.

Lemma security_round_trip_back b :
  is_u8 b ->
  exists s, BluefinSecurityFields_deserialise [b] = Ok s /\
    BluefinSecurityFields_serialise s = [b] /\ wf_security s.
Proof.
  intros Hb. eexists. split; [reflexivity|].
  pose proof (u8_forallb (fun b =>
    (Z.lor (if negb (Z.shiftr (Z.land b 0x80) 7 =? 0) then Z.lor 0 0x80 else 0) (Z.land b 0x7f)
      =? b) && (0 <=? Z.land b 0x7f) && (Z.land b 0x7f <=? 127)) ltac:(by vm_compute) b Hb) as H.
  simpl in H. apply andb_prop in H as [H H3]. apply andb_prop in H as [H1 H2].
  apply Z.eqb_eq in H1. apply Z.leb_le in H2, H3.
  unfold BluefinSecurityFields_serialise, wf_security. simpl. rewrite H1. auto.
Qed.

Lemma security_byte_u8 s :
  wf_security s -> Forall is_u8 (BluefinSecurityFields_serialise s).
Proof.
  intros Hs. constructor; [|constructor]. destruct s as [e m]. unfold wf_security in Hs. simpl in *.
  pose proof (fun H => u8_forallb (fun m =>
    bool_decide (is_u8 (Z.lor (if e then Z.lor 0 0x80 else 0) m))) H m) as H.
  specialize (H ltac:(by destruct e; vm_compute) ltac:(unfold is_u8, in_range; simpl; lia)).
  by apply bool_decide_eq_true_1 in H.
Qed.

Lemma length_BluefinHeader_serialise h : length (BluefinHeader_serialise h) = 20%nat.
Proof. reflexivity. Qed.

Lemma BluefinHeader_serialise_u8 h :
  wf_header h -> Forall is_u8 (BluefinHeader_serialise h).
Proof.
  intros (Hv & _ & Hs & _). unfold BluefinHeader_serialise.
  rewrite !Forall_app. split_and!; auto using to_be_bytes_u8, security_byte_u8.
  by constructor; [apply first_byte_u8|constructor].
Qed.

#[export] Hint Rewrite length_BluefinHeader_serialise : sizes.
#[export] Hint Resolve BluefinHeader_serialise_u8 : bluefin.

(** Decoding what [serialise] wrote. *)
Lemma header_decode_encode h :
  wf_header h -> BluefinHeader_deserialise (BluefinHeader_serialise h) = Ok h.
Proof.
  intros (Hv & Hp & Hs & Hsrc & Hdst & Hn).
  destruct (first_byte_split h Hv) as [Hhi Hlo].
  unfold BluefinHeader_deserialise. rewrite length_BluefinHeader_serialise. simpl negb. cbv iota.
  change ([BluefinHeader_serialise h !!! 3%nat])
    with (BluefinSecurityFields_serialise (security_fields h)).
  change (BluefinHeader_serialise h !!! 0%nat) with (first_byte h).
  change (slice 1 3 (BluefinHeader_serialise h)) with (to_be_bytes 2 (type_specific_payload h)).
  change (slice 4 8 (BluefinHeader_serialise h)) with (to_be_bytes 4 (source_connection_id h)).
  change (slice 8 12 (BluefinHeader_serialise h))
    with (to_be_bytes 4 (destination_connection_id h)).
  change (slice 12 20 (BluefinHeader_serialise h)) with (to_be_bytes 8 (packet_number h)).
  rewrite security_round_trip, Hhi, Hlo by done. cbn [outcome_bind].
  rewrite PacketType_from_as_u8. cbn [outcome_bind].
  rewrite !from_to_be_bytes by done. by destruct h.
Qed.

#[export] Instance BluefinHeader_laws : SerialisableLaws BluefinHeader wf_header.
Proof. constructor. apply header_decode_encode. Qed.
#[export] Instance BluefinSecurityFields_laws : SerialisableLaws BluefinSecurityFields wf_security.
Proof. constructor. apply security_round_trip. Qed.

(** [serialise_into] writes the same 20 bytes [serialise] returns, leaves the
    rest of the buffer alone, and panics on a shorter buffer. *)
Lemma serialise_into_eq h buf :
  BluefinHeader_serialise_into h buf =
    if (20 <=? length buf)%nat then Ok (20%nat, BluefinHeader_serialise h ++ drop 20 buf)
    else Panic.
Proof.
  unfold BluefinHeader_serialise_into. destruct (Nat.leb_spec 20 (length buf)) as [Hlen|Hlen].
  - unfold BluefinHeader_serialise, BluefinSecurityFields_serialise.
    do 20 (destruct buf as [|? buf]; [simpl in Hlen; lia|]).
    reflexivity.
  - do 20 (destruct buf as [|? buf]; [reflexivity|]). simpl in Hlen. lia.
Qed.

(** The 20 bytes of a datagram header, cut at the field boundaries. *)
Lemma header_bytes_cut (bs : bytes) :
  length bs = 20%nat ->
  bs = [bs !!! 0%nat] ++ slice 1 3 bs ++ [bs !!! 3%nat] ++ slice 4 8 bs ++ slice 8 12 bs
         ++ slice 12 20 bs.
Proof.
  intros H. do 20 (destruct bs as [|? bs]; [done|]). destruct bs; [reflexivity|done].
Qed.

Lemma slice_u8 a b (bs : bytes) : Forall is_u8 bs -> Forall is_u8 (slice a b bs).
Proof. intros H. unfold slice. by apply Forall_take, Forall_drop. Qed.

Lemma lookup_total_u8 (bs : bytes) i :
  Forall is_u8 bs -> (i < length bs)%nat -> is_u8 (bs !!! i).
Proof.
  intros H Hi. destruct (lookup_lt_is_Some_2 bs i Hi) as [x Hx].
  rewrite (list_lookup_total_correct _ _ _ Hx). by eapply Forall_lookup_1.
Qed.

(** Encoding what [deserialise] read. *)
Lemma header_encode_decode bs h :
  Forall is_u8 bs -> BluefinHeader_deserialise bs = Ok h ->
  length bs = 20%nat /\ wf_header h /\ BluefinHeader_serialise h = bs.
Proof.
  intros Hbs. unfold BluefinHeader_deserialise.
  destruct (Nat.eqb_spec (length bs) 20) as [Hlen|]; [|done]. simpl negb. cbv iota.
  destruct (security_round_trip_back (bs !!! 3%nat)) as (s & Hs & Hser & Hwfs).
  { apply lookup_total_u8; [done|lia]. }
  rewrite Hs. cbn [outcome_bind].
  destruct (PacketType_from_u8 (Z.land (bs !!! 0%nat) 15)) as [t| | |] eqn:Ht; try done.
  cbn [outcome_bind]. intros [= <-].
  destruct (first_byte_join (bs !!! 0%nat) t) as [Hjoin Hver]; [|done|].
  { apply lookup_total_u8; [done|lia]. }
  assert (Hrange : forall a b, (b <= 20)%nat ->
    in_range (8 * Z.of_nat (b - a)) (from_be_bytes (slice a b bs))).
  { intros a b Hb. rewrite <- (length_slice a b bs) by lia. by apply from_be_bytes_range, slice_u8. }
  split; [done|]. split.
  - unfold wf_header. simpl. split_and!; [done|apply (Hrange 1%nat 3%nat)|done|
      apply (Hrange 4%nat 8%nat)|apply (Hrange 8%nat 12%nat)|apply (Hrange 12%nat 20%nat)]; lia.
  - rewrite (header_bytes_cut bs Hlen) at 6.
    unfold BluefinHeader_serialise, first_byte. simpl version. simpl type_field.
    cbn [type_specific_payload security_fields source_connection_id destination_connection_id
      packet_number].
    rewrite Hjoin, Hser, !to_from_be_bytes; auto using slice_u8; rewrite length_slice; lia.
Qed.

(** On 20 bytes, the low nibble of the first one decides the outcome. *)
Lemma header_decode_cases bs :
  Forall is_u8 bs -> length bs = 20%nat ->
  if Z.land (bs !!! 0%nat) 0x0f <=? 6
  then exists h, BluefinHeader_deserialise bs = Ok h
  else BluefinHeader_deserialise bs = Panic.
Proof.
  intros Hbs Hlen. unfold BluefinHeader_deserialise. rewrite Hlen. simpl negb. cbv iota.
  destruct (security_round_trip_back (bs !!! 3%nat)) as (s & -> & _).
  { apply lookup_total_u8; [done|lia]. }
  cbn [outcome_bind].
  assert (0 <= Z.land (bs !!! 0%nat) 15) as Hnn by (apply Z.land_nonneg; lia).
  pose proof (PacketType_from_u8_cases _ Hnn) as Hc. destruct (_ <=? 6).
  - destruct Hc as (t & -> & _). cbn [outcome_bind]. eauto.
  - by rewrite Hc.
Qed.

(** Every outcome of decoding, in one statement. *)
Lemma header_decode_outcome bs :
  Forall is_u8 bs ->
  match BluefinHeader_deserialise bs with
  | Ok h => length bs = 20%nat /\ wf_header h /\ BluefinHeader_serialise h = bs
  | Err e =>
      length bs <> 20%nat /\ e = DeserialiseError "Bluefin header must be exactly 20 bytes"
  | Panic => length bs = 20%nat /\ 6 < Z.land (bs !!! 0%nat) 0x0f
  | NoFuel => False
  end.
Proof.
  intros Hbs.
  destruct (Nat.eqb_spec (length bs) 20) as [Hlen|Hlen].
  - pose proof (header_decode_cases bs Hbs Hlen) as Hc.
    destruct (Z.leb_spec (Z.land (bs !!! 0%nat) 15) 6).
    + destruct Hc as [h Hh]. rewrite Hh. by apply header_encode_decode.
    + by rewrite Hc.
  - unfold BluefinHeader_deserialise. rewrite (proj2 (Nat.eqb_neq _ _) Hlen). done.
Qed.

(** ** The header theorems *)

(** C13: a header whose fields fit their wire widths is restored exactly by
    [deserialise] after [serialise]. *)
Theorem header_round_trip (h : BluefinHeader) (Hwf : wf_header h) :
  BluefinHeader_deserialise (BluefinHeader_serialise h) = Ok h.
Proof. by apply header_decode_encode. Qed.

Definition sample_header : BluefinHeader :=
  {| version := 0; type_field := Fin; type_specific_payload := 0;
     security_fields := BluefinSecurityFields_default; source_connection_id := 0xaaaabbbb;
     destination_connection_id := 0xccccdddd; packet_number := 0xdeadbeefcafebabe |}.

Lemma header_round_trip_witness :
  BluefinHeader_deserialise (BluefinHeader_serialise sample_header) = Ok sample_header.
Proof. apply header_round_trip. apply (bool_decide_unpack _). vm_compute. exact I. Defined.

(** C29: what decoding any byte string does.  A length other than 20 is an
    error; on 20 bytes a type code above 6 panics and every other input
    decodes to a well-formed header that encodes back to the same bytes. *)
Theorem header_decode_total (bs : bytes) (Hbs : Forall is_u8 bs) :
  match BluefinHeader_deserialise bs with
  | Ok h => length bs = 20%nat /\ wf_header h /\ BluefinHeader_serialise h = bs
  | Err e =>
      length bs <> 20%nat /\ e = DeserialiseError "Bluefin header must be exactly 20 bytes"
  | Panic => length bs = 20%nat /\ 6 < Z.land (bs !!! 0%nat) 0x0f
  | NoFuel => False
  end.
Proof. by apply header_decode_outcome. Qed.

Lemma header_decode_total_witness :
  20%nat = 20%nat /\ 6 < Z.land 0x07 0x0f.
Proof.
  exact (header_decode_total
    [7; 0; 0; 0; 0; 0; 0; 1; 0; 0; 0; 2; 0; 0; 0; 0; 0; 0; 0; 9]
    ltac:(apply (bool_decide_unpack _); vm_compute; exact I)).
Defined.
