(* ===== verification/Packet.v ===== *)
(** * Packets and datagram parsing

    Models src/bluefin/src/core/packet.rs: [BluefinPacket], its serialisers,
    the builder, and the two parsers of a UDP datagram, [from_bytes] (cold
    path) and [from_bytes_into] (hot path).  [Bytes] values are modelled by
    the bytes they show; the sharing of the receive buffer is a cost of the
    implementation and not a behaviour.  Both parser loops advance a cursor by
    at least 20 bytes a round, so the number of bytes plus one is enough
    fuel. *)
From stdpp Require Import base numbers list strings.
From S2P Require Import Prelude Proto Header.

Record BluefinPacket : Type := {
  header : BluefinHeader;
  payload : bytes;
}.

#[export] Instance BluefinPacket_eq_dec : EqDecision BluefinPacket.
Proof. solve_decision. Defined.

Record BluefinPacketBuilder : Type := {
  builder_header : option BluefinHeader;
  builder_payload : option bytes;
}.

Definition BluefinPacket_serialise (p : BluefinPacket) : bytes :=
  BluefinHeader_serialise (header p) ++ payload p.

Definition BluefinPacket_deserialise (bs : bytes) : BluefinResult BluefinPacket :=
  if length bs <? 20 then
    Err (DeserialiseError "Cannot deserialise into Bluefin packet with less than 20 bytes")
  else
    (let? h := BluefinHeader_deserialise (take 20 bs) in
     Ok {| header := h; payload := drop 20 bs |})%rust.

#[export] Instance BluefinPacket_Serialisable : Serialisable BluefinPacket := {
  serialise := BluefinPacket_serialise;
  deserialise := BluefinPacket_deserialise;
}.

Definition BluefinPacket_default : BluefinPacket :=
  {| header := BluefinHeader_default; payload := [] |}.

Definition BluefinPacket_builder : BluefinPacketBuilder :=
  {| builder_header := None; builder_payload := None |}.

Definition BluefinPacketBuilder_header (b : BluefinPacketBuilder) (h : BluefinHeader) :
    BluefinPacketBuilder :=
  {| builder_header := Some h; builder_payload := builder_payload b |}.

Definition BluefinPacketBuilder_payload (b : BluefinPacketBuilder) (p : bytes) :
    BluefinPacketBuilder :=
  {| builder_header := builder_header b; builder_payload := Some p |}.

(** [self.header.unwrap()] panics when no header was given. *)
Definition BluefinPacketBuilder_build (b : BluefinPacketBuilder) : BluefinResult BluefinPacket :=
  match builder_header b with
  | None => Panic
  | Some h => Ok {| header := h; payload := default [] (builder_payload b) |}
  end.

Definition BluefinPacket_len (p : BluefinPacket) : nat := length (payload p) + 20.

(** [&mut buf[..20]] panics on a short buffer, as does the payload copy. *)
Definition BluefinPacket_serialise_into (p : BluefinPacket) (buf : bytes) :
    BluefinResult (nat * bytes) :=
  let total_len := 20 + length (payload p) in
  if length buf <? 20 then Panic
  else
    (let? (_, hdr) := BluefinHeader_serialise_into (header p) (take 20 buf) in
     let? buf := buf_write (hdr ++ drop 20 buf) 20 (payload p) in
     Ok (total_len, buf))%rust.

(** ** [from_bytes] *)

Definition from_bytes_step (bs : bytes) (s : nat * list BluefinPacket) :
    BluefinResult (ctl (nat * list BluefinPacket) (nat * list BluefinPacket)) :=
  let '(cursor, packets) := s in
  if (cursor <? length bs) && (cursor + 20 <=? length bs) then
    (let? header := BluefinHeader_deserialise (slice cursor (cursor + 20) bs) in
     match type_field header with
     | Ack | UnencryptedClientHello | UnencryptedServerHello | ClientAck | Fin | FinAck =>
         Ok (Next (cursor + 20, packets ++ [{| header := header; payload := [] |}]))
     | UnencryptedData =>
         let payload_len := Z.to_nat (type_specific_payload header) in
         if (length bs <=? cursor + 20) || (length bs <=? cursor + 19 + payload_len) then
           Err (ReadError "Cannot read all bytes specified by header")
         else
           Ok (Next (cursor + 20 + payload_len,
                     packets ++
                       [{| header := header;
                           payload := slice (cursor + 20) (cursor + 20 + payload_len) bs |}]))
     end)%rust
  else Ok (Done (cursor, packets)).

Definition BluefinPacket_from_bytes (bs : bytes) : BluefinResult (list BluefinPacket) :=
  if length bs <? 20 then Err (ReadError "Array must be at least 20 bytes")
  else
    (let? (cursor, packets) := loop (S (length bs)) (from_bytes_step bs) (0, []) in
     if negb (cursor =? length bs) then
       Err (ReadError "Was not able to read all bytes into bluefin packets")
     else Ok packets)%rust.

(** ** [from_bytes_into]

    The packets parsed before an error stay in the caller's vector, so the
    loop carries them out with the result. *)

Definition from_bytes_into_step (buf : bytes) (s : nat * list BluefinPacket) :
    BluefinResult
      (ctl (nat * list BluefinPacket) (BluefinResult nat * list BluefinPacket)) :=
  let '(cursor, packets) := s in
  let len := length buf in
  if (cursor <? len) && (cursor + 20 <=? len) then
    match BluefinHeader_deserialise (slice cursor (cursor + 20) buf) with
    | Ok header =>
        match type_field header with
        | Ack | UnencryptedClientHello | UnencryptedServerHello | ClientAck | Fin | FinAck =>
            Ok (Next (cursor + 20, packets ++ [{| header := header; payload := [] |}]))
        | UnencryptedData =>
            let payload_len := Z.to_nat (type_specific_payload header) in
            if (len <=? cursor + 20) || (len <=? cursor + 19 + payload_len) then
              Ok (Done (Err (ReadError "Cannot read all bytes specified by header"), packets))
            else
              let payload := slice (cursor + 20) (cursor + 20 + payload_len) buf in
              Ok (Next (cursor + 20 + payload_len,
                        packets ++ [{| header := header; payload := payload |}]))
        end
    | Err e => Ok (Done (Err e, packets))
    | Panic => Panic
    | NoFuel => NoFuel
    end
  else Ok (Done (Ok cursor, packets)).

Definition BluefinPacket_from_bytes_into (buf : bytes) (packets : list BluefinPacket) :
    BluefinResult nat * list BluefinPacket :=
  if length buf <? 20 then (Err (ReadError "Array must be at least 20 bytes"), packets)
  else
    let initial_len := length packets in
    match loop (S (length buf)) (from_bytes_into_step buf) (0, packets) with
    | Ok (Ok cursor, packets') =>
        if negb (cursor =? length buf) then
          (Err (ReadError "Was not able to read all bytes into bluefin packets"), packets')
        else (Ok (length packets' - initial_len), packets')
    | Ok (r, packets') => (r, packets')
    | Err e => (Err e, packets)
    | Panic => (Panic, packets)
    | NoFuel => (NoFuel, packets)
    end.

(** ** Framed packets

    A packet the wire format can carry: a data packet announces the length of
    its payload, every other type has none. *)
Definition framed (p : BluefinPacket) : Prop :=
  wf_header (header p) /\
  Forall is_u8 (payload p) /\
  match type_field (header p) with
  | UnencryptedData => type_specific_payload (header p) = Z.of_nat (length (payload p))
  | _ => payload p = []
  end.

(** A data packet without payload; the parsers refuse it at the end of a
    datagram. *)
Definition empty_data (p : BluefinPacket) : Prop :=
  type_field (header p) = UnencryptedData /\ payload p = [].

Definition last_not_empty_data (ps : list BluefinPacket) : Prop :=
  forall p, last ps = Some p -> ~ empty_data p.

#[export] Instance framed_dec p : Decision (framed p).
Proof.
  unfold framed. apply and_dec; [apply _|]. apply and_dec; [apply _|].
  destruct (type_field (header p)); apply _.
Defined.

#[export] Instance empty_data_dec p : Decision (empty_data p).
Proof. unfold empty_data. apply _. Defined.

(** The bytes of a datagram that carries [ps]. *)
Definition datagram (ps : list BluefinPacket) : bytes := concat (map BluefinPacket_serialise ps).

Lemma length_BluefinPacket_serialise p :
  length (BluefinPacket_serialise p) = 20 + length (payload p).
Proof. unfold BluefinPacket_serialise. by rewrite length_app, length_BluefinHeader_serialise. Qed.

#[export] Hint Rewrite length_BluefinPacket_serialise : sizes.

Lemma datagram_cons p ps : datagram (p :: ps) = BluefinPacket_serialise p ++ datagram ps.
Proof. done. Qed.

Lemma datagram_app ps qs : datagram (ps ++ qs) = datagram ps ++ datagram qs.
Proof. unfold datagram. by rewrite map_app, concat_app. Qed.

Lemma datagram_snoc ps p : datagram (ps ++ [p]) = datagram ps ++ BluefinPacket_serialise p.
Proof. rewrite datagram_app. unfold datagram. simpl. by rewrite app_nil_r. Qed.

Lemma length_datagram_ge ps : 20 * length ps <= length (datagram ps).
Proof. induction ps as [|p ps IH]; [done|]. rewrite datagram_cons. sizes. Qed.

Lemma datagram_u8 ps : Forall framed ps -> Forall is_u8 (datagram ps).
Proof.
  induction 1 as [|p ps (Hh & Hp & _) _ IH]; [constructor|].
  rewrite datagram_cons. unfold BluefinPacket_serialise. rewrite !Forall_app.
  auto with bluefin.
Qed.

(** One round of the parser on a framed packet. *)
Lemma from_bytes_step_packet pre p rest acc :
  framed p -> (empty_data p -> rest <> []) ->
  from_bytes_step (pre ++ BluefinPacket_serialise p ++ rest) (length pre, acc) =
    Ok (Next (length pre + length (BluefinPacket_serialise p), acc ++ [p])).
Proof.
  intros (Hwf & Hp & Htype) Hempty. unfold from_bytes_step. rewrite !length_app.
  rewrite length_BluefinPacket_serialise.
  rewrite (proj2 (Nat.ltb_lt _ _)), (proj2 (Nat.leb_le _ _)) by lia. simpl andb. cbv iota.
  unfold BluefinPacket_serialise at 1. rewrite <- app_assoc.
  rewrite (slice_middle _ _ pre (BluefinHeader_serialise (header p)))
    by (rewrite ?length_BluefinHeader_serialise; lia).
  rewrite header_decode_encode by done. cbn [outcome_bind].
  destruct p as [h pl]. cbn [header payload] in *.
  destruct (type_field h) eqn:Ht; try (by subst pl; rewrite Nat.add_0_r).
  rewrite Htype, Nat2Z.id.
  assert (pl <> [] \/ rest <> []) as Hne.
  { destruct pl; [right; by apply Hempty|by left]. }
  assert (1 <= length pl + length rest).
  { destruct Hne as [Hne|Hne]; [destruct pl|destruct rest]; simpl; done || lia. }
  rewrite (proj2 (Nat.leb_gt _ _)), (proj2 (Nat.leb_gt _ _)) by lia. simpl orb. cbv iota.
  unfold BluefinPacket_serialise. simpl header. simpl payload.
  rewrite <- app_assoc, (app_assoc pre), slice_middle
    by (rewrite ?length_app, ?length_BluefinHeader_serialise; lia).
  by rewrite Nat.add_assoc.
Qed.

(** The parser runs through a whole datagram. *)
Lemma from_bytes_loop_datagram ps fuel pre acc :
  Forall framed ps -> last_not_empty_data ps -> length ps < fuel ->
  loop fuel (from_bytes_step (pre ++ datagram ps)) (length pre, acc) =
    Ok (length (pre ++ datagram ps), acc ++ ps).
Proof.
  revert fuel pre acc. induction ps as [|p ps IH]; intros fuel pre acc Hps Hlast Hfuel;
    (destruct fuel as [|fuel]; [simpl in Hfuel; lia|]); rewrite loop_S.
  - unfold from_bytes_step, datagram. simpl. rewrite !app_nil_r, Nat.ltb_irrefl. done.
  - inversion_clear Hps as [|? ? Hp Hps']. rewrite datagram_cons.
    rewrite from_bytes_step_packet; [|done|].
    + rewrite app_assoc, <- length_app, IH; [by rewrite <- (app_assoc acc)|done| |simpl in *; lia].
      intros q Hq. apply Hlast. by destruct ps.
    + intros He Hnil. destruct ps as [|q ps]; [by apply (Hlast p)|].
      pose proof (length_datagram_ge (q :: ps)) as Hge. rewrite Hnil in Hge. simpl in Hge. lia.
Qed.

(** What the parser loop has established wherever it stops. *)
Definition parsed_prefix (bs : bytes) (s : nat * list BluefinPacket) : Prop :=
  s.1 <= length bs /\ datagram s.2 = take s.1 bs /\ Forall framed s.2 /\
  (s.1 = length bs -> last_not_empty_data s.2).

Lemma parsed_prefix_snoc bs cursor packets p n :
  parsed_prefix bs (cursor, packets) -> framed p ->
  slice cursor (cursor + n) bs = BluefinPacket_serialise p -> cursor + n <= length bs ->
  (cursor + n = length bs -> ~ empty_data p) ->
  parsed_prefix bs (cursor + n, packets ++ [p]).
Proof.
  intros (Hc & Hd & Hf & _) Hp Hs Hle Hne. cbn [fst snd] in *.
  split_and!; cbn [fst snd]; [done| | |].
  - rewrite datagram_snoc, Hd, <- Hs. apply take_slice. lia.
  - apply Forall_app. auto.
  - intros Heq q. rewrite last_snoc. intros [= <-]. auto.
Qed.

Lemma from_bytes_step_sound bs s :
  Forall is_u8 bs -> parsed_prefix bs s ->
  match from_bytes_step bs s with
  | Ok (Next s') => parsed_prefix bs s' /\ length bs - s'.1 < length bs - s.1
  | Ok (Done r) => parsed_prefix bs r /\ length bs < r.1 + 20
  | Err e => e = ReadError "Cannot read all bytes specified by header"
  | Panic => True
  | NoFuel => False
  end.
Proof.
  destruct s as [cursor packets]. intros Hbs Hpre. unfold from_bytes_step.
  assert (cursor <= length bs) by (by destruct Hpre).
  destruct (Nat.ltb_spec cursor (length bs)) as [Hlt|]; simpl andb; [|split; [done|simpl; lia]].
  destruct (Nat.leb_spec (cursor + 20) (length bs)) as [Hle|]; [|split; [done|simpl; lia]].
  pose proof (slice_u8 cursor (cursor + 20) bs Hbs) as Hu8.
  pose proof (length_slice cursor (cursor + 20) bs Hle) as Hlen20.
  pose proof (header_decode_outcome _ Hu8) as Hout.
  destruct (BluefinHeader_deserialise (slice cursor (cursor + 20) bs)) as [h|e| |];
    cbn [outcome_bind]; [|lia|done|done].
  destruct Hout as (_ & Hwf & Hser).
  assert (Hnodata : type_field h <> UnencryptedData ->
    parsed_prefix bs (cursor + 20, packets ++ [{| header := h; payload := [] |}]) /\
      length bs - (cursor + 20) < length bs - cursor).
  { intros Ht. split; [|lia]. apply parsed_prefix_snoc; [done| | |done|].
    - unfold framed. cbn [header payload]. by destruct (type_field h).
    - unfold BluefinPacket_serialise. cbn [header payload]. by rewrite app_nil_r.
    - intros _ [He _]. done. }
  destruct (type_field h) eqn:Ht; try (by apply Hnodata).
  set (n := Z.to_nat (type_specific_payload h)).
  destruct (Nat.leb_spec (length bs) (cursor + 20)); simpl orb; cbv iota; [done|].
  destruct (Nat.leb_spec (length bs) (cursor + 19 + n)); cbv iota; [done|].
  split; [|cbn [fst]; lia]. rewrite <- Nat.add_assoc.
  assert (Hlp : length (slice (cursor + 20) (cursor + (20 + n)) bs) = n)
    by (rewrite length_slice by lia; lia).
  apply parsed_prefix_snoc; [done| | |lia|].
  - unfold framed. cbn [header payload]. rewrite Ht, Hlp. split_and!; auto using slice_u8.
    destruct Hwf as (_ & Htsp & _). unfold n, is_u16, in_range in *. lia.
  - unfold BluefinPacket_serialise. cbn [header payload]. rewrite Hser. unfold slice.
    replace (cursor + 20 - cursor) with 20 by lia.
    replace (cursor + (20 + n) - (cursor + 20)) with n by lia.
    replace (cursor + (20 + n) - cursor) with (20 + n) by lia.
    by rewrite <- drop_drop, take_take_drop.
  - intros Heq [_ He]. cbn [payload] in He. rewrite He in Hlp. simpl in Hlp. lia.
Qed.

(** The whole parse: how [from_bytes] ends on any byte string. *)
Lemma from_bytes_outcome bs :
  Forall is_u8 bs ->
  match BluefinPacket_from_bytes bs with
  | Ok ps => bs = datagram ps /\ ps <> [] /\ Forall framed ps /\ last_not_empty_data ps
  | Err (ReadError _) => True
  | Err _ => False
  | Panic => True
  | NoFuel => False
  end.
Proof.
  intros Hbs. unfold BluefinPacket_from_bytes.
  destruct (Nat.ltb_spec (length bs) 20) as [|Hlen]; [done|].
  apply (loop_rule (parsed_prefix bs) (fun s => length bs - s.1)
    (fun r => match outcome_bind r _ with Ok _ => _ | Err _ => _ | Panic => _ | NoFuel => _ end)).
  - intros s Hs. pose proof (from_bytes_step_sound bs s Hbs Hs) as H.
    destruct (from_bytes_step bs s) as [[s'|[c ps]]|e| |]; cbn [outcome_bind]; [done| |by subst e|done..].
    destruct H as [(Hc & Hd & Hf & Hl) Hend]. cbn [fst snd] in *.
    destruct (Nat.eqb_spec c (length bs)) as [->|]; simpl negb; cbv iota; [|done].
    rewrite firstn_all in Hd. split_and!; auto. intros ->. rewrite <- Hd in Hlen. simpl in Hlen. lia.
  - split_and!; simpl; [lia|done|constructor|]. intros Heq. simpl in *. lia.
  - simpl. lia.
Qed.

(** A datagram of framed packets parses back to them. *)
Lemma from_bytes_datagram ps :
  ps <> [] -> Forall framed ps -> last_not_empty_data ps ->
  BluefinPacket_from_bytes (datagram ps) = Ok ps.
Proof.
  intros Hne Hf Hl. unfold BluefinPacket_from_bytes.
  pose proof (length_datagram_ge ps). destruct ps as [|p ps]; [done|].
  rewrite (proj2 (Nat.ltb_ge _ _)) by (simpl in *; lia).
  pose proof (from_bytes_loop_datagram (p :: ps) (S (length (datagram (p :: ps)))) [] []
    Hf Hl) as Hloop. simpl app in Hloop. simpl (length []) in Hloop.
  rewrite Hloop by lia. cbn [outcome_bind]. by rewrite Nat.eqb_refl.
Qed.

(** The hot path and the cold path walk the same way. *)
Lemma from_bytes_into_loop bs fuel cursor init acc :
  match loop fuel (from_bytes_step bs) (cursor, acc) with
  | Ok (c, ps) =>
      loop fuel (from_bytes_into_step bs) (cursor, init ++ acc) = Ok (Ok c, init ++ ps)
  | Err e =>
      exists ps, loop fuel (from_bytes_into_step bs) (cursor, init ++ acc) = Ok (Err e, init ++ ps)
  | Panic => loop fuel (from_bytes_into_step bs) (cursor, init ++ acc) = Panic
  | NoFuel => loop fuel (from_bytes_into_step bs) (cursor, init ++ acc) = NoFuel
  end.
Proof.
  revert cursor acc. induction fuel as [|fuel IH]; intros cursor acc; [done|].
  rewrite !loop_S. unfold from_bytes_step, from_bytes_into_step.
  destruct ((cursor <? length bs) && (cursor + 20 <=? length bs)); [|done].
  destruct (BluefinHeader_deserialise _) as [h|e| |]; cbn [outcome_bind]; [|eauto|done..].
  destruct (type_field h); try (rewrite <- app_assoc; apply IH).
  destruct (_ || _); [eauto|]. rewrite <- app_assoc. apply IH.
Qed.

Lemma packet_serialise_into_eq p buf :
  BluefinPacket_serialise_into p buf =
    if BluefinPacket_len p <=? length buf
    then Ok (BluefinPacket_len p, BluefinPacket_serialise p ++ drop (BluefinPacket_len p) buf)
    else Panic.
Proof.
  unfold BluefinPacket_serialise_into, BluefinPacket_len, BluefinPacket_serialise.
  destruct (Nat.ltb_spec (length buf) 20) as [|Hlen].
  - rewrite (proj2 (Nat.leb_gt _ _)) by lia. done.
  - rewrite serialise_into_eq, length_take, (proj2 (Nat.leb_le _ _)) by lia.
    cbn [outcome_bind]. rewrite (drop_ge (take 20 buf)) by (rewrite length_take; lia).
    rewrite app_nil_r. destruct (Nat.leb_spec (length (payload p) + 20) (length buf)).
    + rewrite buf_write_prefix by (sizes; rewrite ?length_BluefinHeader_serialise; lia).
      cbn [outcome_bind]. rewrite drop_drop. by rewrite (Nat.add_comm 20).
    + rewrite buf_write_panic; [done|]. sizes.
Qed.

Lemma packet_round_trip p :
  wf_header (header p) -> BluefinPacket_deserialise (BluefinPacket_serialise p) = Ok p.
Proof.
  intros Hwf. unfold BluefinPacket_deserialise. rewrite length_BluefinPacket_serialise.
  rewrite (proj2 (Nat.ltb_ge _ _)) by lia. unfold BluefinPacket_serialise.
  rewrite take_app_length', drop_app_length' by (symmetry; apply length_BluefinHeader_serialise).
  rewrite header_decode_encode by done. by destruct p.
Qed.

#[export] Instance BluefinPacket_laws :
  SerialisableLaws BluefinPacket (fun p => wf_header (header p)).
Proof. constructor. apply packet_round_trip. Qed.

(** A header with a reserved type code, after any valid packets. *)
Lemma from_bytes_loop_unknown ps fuel pre acc hd rest :
  Forall framed ps -> length ps < fuel -> length hd = 20 -> Forall is_u8 hd ->
  (6 < Z.land (hd !!! 0%nat) 0x0f)%Z ->
  loop fuel (from_bytes_step (pre ++ datagram ps ++ hd ++ rest)) (length pre, acc) = Panic.
Proof.
  intros Hps Hfuel Hlen Hu8 Hcode. revert fuel pre acc Hfuel.
  induction Hps as [|p ps Hp Hps IH]; intros fuel pre acc Hfuel;
    (destruct fuel as [|fuel]; [simpl in Hfuel; lia|]); rewrite loop_S.
  - unfold from_bytes_step. change (datagram []) with (@nil Z). simpl app. rewrite !length_app, Hlen.
    rewrite (proj2 (Nat.ltb_lt _ _)), (proj2 (Nat.leb_le _ _)) by lia. simpl andb. cbv iota.
    rewrite slice_middle by lia.
    pose proof (header_decode_cases hd Hu8 Hlen) as Hc.
    rewrite (proj2 (Z.leb_gt _ _)) in Hc by done. by rewrite Hc.
  - rewrite datagram_cons, <- app_assoc, from_bytes_step_packet; [|done|].
    + rewrite app_assoc, <- length_app. apply IH. simpl in Hfuel. lia.
    + intros _ Hnil. apply app_eq_nil in Hnil as [_ Hnil]. apply app_eq_nil in Hnil as [-> _].
      done.
Qed.

(** The hot-path parser [from_bytes_into] agrees with [from_bytes]: on
    success it appends exactly the parsed packets and returns their number;
    on an error it returns the same error and has only appended to the
    caller's vector; it panics exactly when [from_bytes] does; and neither
    parser runs out of fuel. *)
Lemma from_bytes_into_spec (buf : bytes) (packets : list BluefinPacket)
    (Hbuf : Forall is_u8 buf) :
  match BluefinPacket_from_bytes buf with
  | Ok ps => BluefinPacket_from_bytes_into buf packets = (Ok (length ps), packets ++ ps)
  | Err e => exists ps, BluefinPacket_from_bytes_into buf packets = (Err e, packets ++ ps)
  | Panic => BluefinPacket_from_bytes_into buf packets = (Panic, packets)
  | NoFuel => False
  end.
Proof.
  pose proof (from_bytes_outcome buf Hbuf) as Ho. revert Ho.
  unfold BluefinPacket_from_bytes, BluefinPacket_from_bytes_into.
  destruct (length buf <? 20); [intros _; exists []; by rewrite app_nil_r|].
  pose proof (from_bytes_into_loop buf (S (length buf)) 0 packets []) as Hl.
  rewrite app_nil_r in Hl.
  destruct (loop _ (from_bytes_step buf) _) as [[c ps]|e| |]; cbn [outcome_bind].
  - rewrite Hl. destruct (negb _); intros _; [by exists ps|].
    rewrite length_app. do 2 f_equal. lia.
  - destruct Hl as [ps ->]. eauto.
  - by rewrite Hl.
  - done.
Qed.

Lemma from_bytes_into_datagram ps packets :
  ps <> [] -> Forall framed ps -> last_not_empty_data ps ->
  BluefinPacket_from_bytes_into (datagram ps) packets = (Ok (length ps), packets ++ ps).
Proof.
  intros Hne Hf Hl. pose proof (from_bytes_into_spec (datagram ps) packets (datagram_u8 ps Hf)) as H.
  by rewrite from_bytes_datagram in H.
Qed.

(** ** The parser theorems *)

(** C12: the parser accepts exactly the datagrams that are the serialisation of
    a non-empty list of framed packets whose last one is not an empty data
    packet, and returns that list: it is the inverse of serialisation and
    drops or invents nothing. *)
Theorem from_bytes_exact (bs : bytes) (ps : list BluefinPacket) (Hbs : Forall is_u8 bs) :
  BluefinPacket_from_bytes bs = Ok ps <->
    bs = datagram ps /\ ps <> [] /\ Forall framed ps /\ last_not_empty_data ps.
Proof.
  split.
  - intros H. pose proof (from_bytes_outcome bs Hbs) as Ho. by rewrite H in Ho.
  - intros (-> & Hne & Hf & Hl). by apply from_bytes_datagram.
Qed.

Definition sample_data_packet (pn : Z) (pl : bytes) : BluefinPacket :=
  {| header :=
       {| version := 0; type_field := UnencryptedData;
          type_specific_payload := Z.of_nat (length pl);
          security_fields := BluefinSecurityFields_default; source_connection_id := 0x1;
          destination_connection_id := 0x2; packet_number := pn |};
     payload := pl |}.

Lemma from_bytes_exact_witness :
  let ps := [sample_data_packet 5 [1; 2; 3]%Z; sample_data_packet 6 [4]%Z] in
  BluefinPacket_from_bytes (datagram ps) = Ok ps.
Proof.
  apply from_bytes_exact; [apply (bool_decide_unpack _); vm_compute; exact I|].
  split_and!; [reflexivity|discriminate|apply (bool_decide_unpack _); vm_compute; exact I|].
  intros p [= <-] [_ H]. discriminate H.
Defined.

(** A packet with a reserved type code is not dropped: whatever valid
    packets precede it in the datagram and whatever follows it, parsing
    panics. *)
Lemma unknown_type_panics (ps : list BluefinPacket) (hd rest : bytes)
    (Hps : Forall framed ps) (Hlen : length hd = 20) (Hhd : Forall is_u8 hd)
    (Hcode : (6 < Z.land (hd !!! 0%nat) 0x0f)%Z) :
  BluefinPacket_from_bytes (datagram ps ++ hd ++ rest) = Panic.
Proof.
  unfold BluefinPacket_from_bytes. rewrite !length_app.
  pose proof (length_datagram_ge ps).
  rewrite (proj2 (Nat.ltb_ge _ _)) by lia.
  pose proof (from_bytes_loop_unknown ps (S (length (datagram ps) + (length hd + length rest)))
    [] [] hd rest Hps ltac:(lia) Hlen Hhd Hcode) as Hl.
  simpl app in Hl. simpl (length []) in Hl. by rewrite Hl.
Qed.

Lemma unknown_type_panics_witness :
  BluefinPacket_from_bytes (datagram [] ++ (7%Z :: replicate 19 0%Z) ++ []) = Panic.
Proof.
  apply unknown_type_panics; [constructor|reflexivity| |reflexivity].
  apply (bool_decide_unpack _). vm_compute. exact I.
Defined.
