(* ===== verification/Window.v ===== *)
(** * The sliding window of acknowledged packet numbers

    Models src/bluefin/src/utils/window.rs.  The deque is a list, front first.
    [VecDeque::binary_search] is modelled by the answer its documentation
    gives on a sorted deque without duplicates, the only deques the window
    holds: the index of the element, or the index at which inserting keeps the
    deque sorted.  The theorems describe every branch of the insertions, show
    the range insertion equal to repeated single insertions, and show that
    [consume] returns the end of the longest contiguous run. *)
From stdpp Require Import base numbers list strings sorting sets.
From S2P Require Import Prelude Proto.

Local Open Scope Z_scope.

Definition MAX_SLIDING_WINDOW_SIZE : Z := 40000.

Record SlidingWindow : Type := {
  smallest_expected_packet_number : Z;
  ordered_packet_numbers : list Z;
}.

Record SlidingWindowConsumeResult : Type := {
  largest_packet_number : Z;
  num_acks_consumed : Z;
}.

Definition SlidingWindow_new (smallest : Z) : SlidingWindow :=
  {| smallest_expected_packet_number := smallest; ordered_packet_numbers := [] |}.

Definition with_numbers (w : SlidingWindow) (l : list Z) : SlidingWindow :=
  {| smallest_expected_packet_number := smallest_expected_packet_number w;
     ordered_packet_numbers := l |}.

(** [inl i]: found at [i]; [inr i]: absent, to be inserted at [i]. *)
Fixpoint binary_search (l : list Z) (x : Z) : nat + nat :=
  match l with
  | [] => inr 0%nat
  | y :: l' =>
      if x =? y then inl 0%nat
      else if x <? y then inr 0%nat
      else match binary_search l' x with inl i => inl (S i) | inr i => inr (S i) end
  end.

(** [VecDeque::insert(index, value)]. *)
Definition insert_at (i : nat) (x : Z) (l : list Z) : list Z := take i l ++ x :: drop i l.

Definition SlidingWindow_insert_packet_number (w : SlidingWindow) (packet_number : Z) :
    BluefinResult unit * SlidingWindow :=
  let l := ordered_packet_numbers w in
  if packet_number <? smallest_expected_packet_number w then
    (Err UnexpectedPacketNumberError, w)
  else if MAX_SLIDING_WINDOW_SIZE <=? u64_sub packet_number (smallest_expected_packet_number w) then
    (Err (BufferFullError "Sliding window buffer is full"), w)
  else
    match last l with
    | None => (Ok tt, with_numbers w (l ++ [packet_number]))
    | Some last =>
        if last <? packet_number then (Ok tt, with_numbers w (l ++ [packet_number]))
        else if packet_number =? last then (Err UnexpectedPacketNumberError, w)
        else
          match binary_search l packet_number with
          | inl _ => (Err UnexpectedPacketNumberError, w)
          | inr index => (Ok tt, with_numbers w (insert_at index packet_number l))
          end
    end.

(** [for n in .. { self.insert_packet_number(n)?; }]: stops at the first error,
    keeping what was inserted. *)
Fixpoint insert_each (w : SlidingWindow) (ns : list Z) : BluefinResult unit * SlidingWindow :=
  match ns with
  | [] => (Ok tt, w)
  | n :: ns' =>
      match SlidingWindow_insert_packet_number w n with
      | (Ok _, w') => insert_each w' ns'
      | (e, w') => (e, w')
      end
  end.

(** [base..=last]. *)
Definition range_inclusive (base last : Z) : list Z := seqZ base (last - base + 1).

Definition SlidingWindow_insert_range (w : SlidingWindow) (base count : Z) :
    BluefinResult unit * SlidingWindow :=
  if count =? 0 then (Ok tt, w)
  else if base <? smallest_expected_packet_number w then (Err UnexpectedPacketNumberError, w)
  else
    let last_n := u64_sub (u64_add base count) 1 in
    if MAX_SLIDING_WINDOW_SIZE <=? u64_sub last_n (smallest_expected_packet_number w) then
      (Err (BufferFullError "Sliding window buffer is full"), w)
    else
      let l := ordered_packet_numbers w in
      let extends_cleanly := match last l with None => true | Some back => back <? base end in
      if extends_cleanly then (Ok tt, with_numbers w (l ++ range_inclusive base last_n))
      else insert_each w (range_inclusive base last_n).

(** The pop loop of [consume]: goes on while the front continues the run and
    puts the first number after a jump back. *)
Fixpoint consume_run (last_packet_number : Z) (l : list Z) : Z * list Z :=
  match l with
  | [] => (last_packet_number, [])
  | p_number :: l' =>
      if p_number =? u64_add last_packet_number 1 then consume_run p_number l'
      else (last_packet_number, p_number :: l')
  end.

Definition SlidingWindow_consume (w : SlidingWindow) :
    option SlidingWindowConsumeResult * SlidingWindow :=
  match ordered_packet_numbers w with
  | [] => (None, w)
  | first :: rest =>
      if smallest_expected_packet_number w <? first then (None, w)
      else
        let '(last_packet_number, l) := consume_run first rest in
        let prev := smallest_expected_packet_number w in
        (Some {| largest_packet_number := last_packet_number;
                 num_acks_consumed := u64_add (u64_sub last_packet_number prev) 1 |},
         {| smallest_expected_packet_number := u64_add last_packet_number 1;
            ordered_packet_numbers := l |})
  end.

(** ** The window invariant *)

(** The buffered numbers are strictly increasing and inside the window. *)
Definition wf_window (w : SlidingWindow) : Prop :=
  is_u64 (smallest_expected_packet_number w) /\
  StronglySorted Z.lt (ordered_packet_numbers w) /\
  Forall (fun n => is_u64 n /\
            smallest_expected_packet_number w <= n
              < smallest_expected_packet_number w + MAX_SLIDING_WINDOW_SIZE)
    (ordered_packet_numbers w).

Lemma wf_window_new s : is_u64 s -> wf_window (SlidingWindow_new s).
Proof. intros Hs. split_and!; simpl; auto using SSorted_nil. Qed.

(** ** Sorted lists *)

Lemma sorted_app_lt (l1 l2 : list Z) x :
  StronglySorted Z.lt (l1 ++ x :: l2) -> Forall (fun y => y < x) l1.
Proof.
  induction l1 as [|y l1 IH]; intros H; [constructor|].
  inversion_clear H as [|? ? Hs Hf]. constructor; [|by apply IH].
  rewrite Forall_forall in Hf. apply Hf. set_solver.
Qed.

Lemma sorted_snoc (l : list Z) x :
  StronglySorted Z.lt l -> Forall (fun y => y < x) l -> StronglySorted Z.lt (l ++ [x]).
Proof.
  induction 1 as [|y l Hs IH Hf]; intros Hx; simpl; [repeat constructor|].
  inversion_clear Hx. constructor; [auto|]. apply Forall_app; auto.
Qed.

Lemma sorted_last_max (l : list Z) m :
  StronglySorted Z.lt l -> last l = Some m -> forall x, x ∈ l -> x <= m.
Proof.
  intros Hs Hm x Hx. apply last_Some in Hm as [l' ->].
  apply sorted_app_lt in Hs. rewrite Forall_forall in Hs.
  apply elem_of_app in Hx as [Hx|Hx]; [specialize (Hs x Hx); lia|].
  apply list_elem_of_singleton in Hx. lia.
Qed.

(** On a sorted list, the search answers membership, and inserting at the
    returned place keeps the list sorted. *)
Lemma binary_search_spec (l : list Z) x :
  StronglySorted Z.lt l ->
  match binary_search l x with
  | inl _ => x ∈ l
  | inr i => (x ∉ l) /\ StronglySorted Z.lt (insert_at i x l)
  end.
Proof.
  induction 1 as [|y l Hs IH Hf]; simpl.
  - split; [set_solver|]. repeat constructor.
  - destruct (Z.eqb_spec x y) as [->|Hne]; [set_solver|].
    rewrite Forall_forall in Hf. destruct (Z.ltb_spec x y).
    + split.
      * intros Hin. apply elem_of_cons in Hin as [->|Hin]; [done|]. specialize (Hf x Hin). lia.
      * unfold insert_at. simpl. constructor; [constructor; [done|by rewrite Forall_forall]|].
        constructor; [done|]. rewrite Forall_forall. intros z Hz. specialize (Hf z Hz). lia.
    + destruct (binary_search l x) as [i|i]; [set_solver|]. destruct IH as [Hnin Hins].
      split; [set_solver|]. unfold insert_at in *. simpl. constructor; [done|].
      rewrite Forall_forall. intros z Hz. apply elem_of_app in Hz as [Hz|Hz].
      * apply Hf. rewrite <- (take_drop i l). set_solver.
      * apply elem_of_cons in Hz as [->|Hz]; [lia|]. apply Hf. rewrite <- (take_drop i l). set_solver.
Qed.

Lemma elem_of_insert_at i x y (l : list Z) : y ∈ insert_at i x l <-> y = x \/ y ∈ l.
Proof.
  unfold insert_at. rewrite elem_of_app, elem_of_cons.
  rewrite <- (take_drop i l) at 3. rewrite elem_of_app. tauto.
Qed.

(** ** Insertion *)

(** The verdict on a packet number, stated on the set of buffered numbers. *)
Definition insert_verdict (w : SlidingWindow) (n : Z) : BluefinResult unit :=
  if decide (n < smallest_expected_packet_number w \/ n ∈ ordered_packet_numbers w)
  then Err UnexpectedPacketNumberError
  else if decide (smallest_expected_packet_number w + MAX_SLIDING_WINDOW_SIZE <= n)
  then Err (BufferFullError "Sliding window buffer is full")
  else Ok tt.

Lemma window_offset w n :
  wf_window w -> is_u64 n -> smallest_expected_packet_number w <= n ->
  u64_sub n (smallest_expected_packet_number w) = n - smallest_expected_packet_number w.
Proof. intros (Hs & _) Hn Hle. apply u64_sub_small. int_lia. Qed.

Lemma insert_verdict_room w n :
  smallest_expected_packet_number w <= n < smallest_expected_packet_number w + MAX_SLIDING_WINDOW_SIZE ->
  insert_verdict w n =
    if decide (n ∈ ordered_packet_numbers w) then Err UnexpectedPacketNumberError else Ok tt.
Proof.
  intros Hn. unfold insert_verdict. destruct (decide (n ∈ ordered_packet_numbers w)) as [Hi|Hi].
  - by rewrite decide_True by auto.
  - rewrite decide_False by (intros [?|?]; [lia|done]). by rewrite decide_False by lia.
Qed.

(** Adding a number of the window at its sorted place keeps the invariant. *)
Lemma wf_with_numbers w n l :
  wf_window w -> is_u64 n ->
  smallest_expected_packet_number w <= n < smallest_expected_packet_number w + MAX_SLIDING_WINDOW_SIZE ->
  StronglySorted Z.lt l -> (forall m, m ∈ l <-> m = n \/ m ∈ ordered_packet_numbers w) ->
  wf_window (with_numbers w l).
Proof.
  intros (Hs & _ & Hin) Hn Hr Hl Hm. split_and!; [done|done|].
  rewrite Forall_forall in Hin |- *. intros m Hml.
  apply Hm in Hml as [->|Hml]; [simpl; split; [done|lia]|by apply Hin].
Qed.

Lemma elem_of_snoc (l : list Z) n m : m ∈ l ++ [n] <-> m = n \/ m ∈ l.
Proof. rewrite elem_of_app, list_elem_of_singleton. tauto. Qed.

Lemma insert_packet_number_spec w n :
  wf_window w -> is_u64 n ->
  let '(r, w') := SlidingWindow_insert_packet_number w n in
  r = insert_verdict w n /\ wf_window w' /\
  match r with
  | Ok _ =>
      smallest_expected_packet_number w' = smallest_expected_packet_number w /\
      forall m, m ∈ ordered_packet_numbers w' <-> m = n \/ m ∈ ordered_packet_numbers w
  | _ => w' = w
  end.
Proof.
  intros Hwf Hn. pose proof Hwf as (Hs & Hsort & Hin).
  unfold SlidingWindow_insert_packet_number.
  destruct (Z.ltb_spec n (smallest_expected_packet_number w)) as [Hlt|Hge].
  { unfold insert_verdict. rewrite decide_True by auto. auto. }
  rewrite window_offset by done.
  destruct (Z.leb_spec MAX_SLIDING_WINDOW_SIZE (n - smallest_expected_packet_number w)) as [Hfull|Hroom].
  { unfold insert_verdict. rewrite decide_False, decide_True; [auto|lia|].
    rewrite Forall_forall in Hin. intros [?|Hi]; [lia|]. specialize (Hin n Hi). lia. }
  rewrite insert_verdict_room by lia.
  assert (Hsnoc : StronglySorted Z.lt (ordered_packet_numbers w ++ [n]) ->
    wf_window (with_numbers w (ordered_packet_numbers w ++ [n]))).
  { intros Hl. apply (wf_with_numbers w n); [done|done|lia|done|]. intros m. apply elem_of_snoc. }
  destruct (last (ordered_packet_numbers w)) as [back|] eqn:Hlast.
  - pose proof (sorted_last_max _ _ Hsort Hlast) as Hmax.
    assert (Hback : back ∈ ordered_packet_numbers w) by (apply last_Some_elem_of in Hlast; done).
    destruct (Z.ltb_spec back n) as [Hbn|Hnb].
    + rewrite decide_False by (intros Hx; specialize (Hmax n Hx); lia).
      split_and!; [done|apply Hsnoc, sorted_snoc; [done|]|done|intros m; apply elem_of_snoc].
      rewrite Forall_forall. intros m Hm. specialize (Hmax m Hm). lia.
    + destruct (Z.eqb_spec n back) as [->|Hne]; [by rewrite decide_True by done|].
      pose proof (binary_search_spec _ n Hsort) as Hb.
      destruct (binary_search (ordered_packet_numbers w) n) as [i|i];
        [by rewrite decide_True by done|]. destruct Hb as [Hnin Hsorted].
      rewrite decide_False by done.
      split_and!; [done| |done|intros m; apply elem_of_insert_at].
      apply (wf_with_numbers w n); [done|done|lia|done|]. intros m. apply elem_of_insert_at.
  - apply last_None in Hlast. rewrite decide_False by (rewrite Hlast; apply not_elem_of_nil).
    split_and!; [done|apply Hsnoc; rewrite Hlast; repeat constructor|done|].
    intros m. apply elem_of_snoc.
Qed.

(** ** Range insertion *)

Lemma insert_packet_number_back w n :
  wf_window w -> is_u64 n -> Forall (fun y => y < n) (ordered_packet_numbers w) ->
  smallest_expected_packet_number w <= n < smallest_expected_packet_number w + MAX_SLIDING_WINDOW_SIZE ->
  SlidingWindow_insert_packet_number w n = (Ok tt, with_numbers w (ordered_packet_numbers w ++ [n])).
Proof.
  intros Hwf Hn Hall Hr. unfold SlidingWindow_insert_packet_number.
  rewrite (proj2 (Z.ltb_ge _ _)) by lia. rewrite window_offset by (done || lia).
  rewrite (proj2 (Z.leb_gt _ _)) by lia.
  destruct (last (ordered_packet_numbers w)) as [back|] eqn:Hlast; [|done].
  rewrite (proj2 (Z.ltb_lt _ _)); [done|]. rewrite Forall_forall in Hall.
  apply Hall. by apply last_Some_elem_of.
Qed.

Lemma seqZ_S b n : seqZ b (Z.of_nat (S n)) = b :: seqZ (b + 1) (Z.of_nat n).
Proof. rewrite seqZ_cons by lia. f_equal; f_equal; lia. Qed.

(** Inserting a run of numbers behind the buffered ones one by one appends it. *)
Lemma insert_each_back n w base :
  wf_window w -> Forall (fun y => y < base) (ordered_packet_numbers w) ->
  smallest_expected_packet_number w <= base ->
  base + Z.of_nat n <= smallest_expected_packet_number w + MAX_SLIDING_WINDOW_SIZE ->
  base + Z.of_nat n <= 2 ^ 64 ->
  insert_each w (seqZ base (Z.of_nat n)) =
    (Ok tt, with_numbers w (ordered_packet_numbers w ++ seqZ base (Z.of_nat n))).
Proof.
  revert w base. induction n as [|n IH]; intros w base Hwf Hall Hge Hle Hmax.
  - rewrite seqZ_nil by lia. rewrite app_nil_r. by destruct w.
  - rewrite seqZ_S. cbn [insert_each].
    assert (Hb : is_u64 base) by (destruct Hwf as [? _]; int_lia).
    pose proof (insert_packet_number_spec w base Hwf Hb) as Hspec.
    rewrite insert_packet_number_back in Hspec |- * by (done || lia).
    destruct Hspec as (_ & Hwf' & _). rewrite IH; try done; simpl; try lia.
    + unfold with_numbers. simpl. by rewrite <- app_assoc.
    + apply Forall_app. split; [|repeat constructor; lia].
      eapply Forall_impl; [done|]. simpl. lia.
Qed.

(** The batched insertion against the loop of single insertions. *)
Lemma insert_range_spec w base count :
  wf_window w -> is_u64 base -> is_u16 count -> base + count <= 2 ^ 64 ->
  SlidingWindow_insert_range w base count =
    if decide (count = 0) then (Ok tt, w)
    else if decide (base < smallest_expected_packet_number w) then
      (Err UnexpectedPacketNumberError, w)
    else if decide (smallest_expected_packet_number w + MAX_SLIDING_WINDOW_SIZE < base + count) then
      (Err (BufferFullError "Sliding window buffer is full"), w)
    else insert_each w (seqZ base count).
Proof.
  intros Hwf Hb Hc Hmax. pose proof Hwf as (Hs & Hsort & _). unfold SlidingWindow_insert_range.
  destruct (Z.eqb_spec count 0) as [->|Hc0]; [by rewrite decide_True by done|].
  rewrite (decide_False (P := count = 0)) by done.
  destruct (Z.ltb_spec base (smallest_expected_packet_number w)) as [Hlt|Hge];
    [by rewrite decide_True by done|].
  rewrite (decide_False (P := base < _)) by lia.
  assert (Hlast : u64_sub (u64_add base count) 1 = base + count - 1).
  { unfold u64_sub, u64_add, Z.sub. rewrite u64_wrap_add_l. apply u64_wrap_small. int_lia. }
  rewrite Hlast, window_offset; [|done|int_lia..].
  destruct (Z.leb_spec MAX_SLIDING_WINDOW_SIZE (base + count - 1 - smallest_expected_packet_number w)) as [Hf|Hf].
  { by rewrite decide_True by lia. }
  rewrite decide_False by lia.
  unfold range_inclusive. replace (base + count - 1 - base + 1) with count by lia.
  rewrite <- (Z2Nat.id count) by int_lia. set (k := Z.to_nat count).
  assert (Hk : Z.of_nat k = count) by (unfold k; int_lia).
  assert (Heach : Forall (fun y => y < base) (ordered_packet_numbers w) ->
    insert_each w (seqZ base (Z.of_nat k)) =
      (Ok tt, with_numbers w (ordered_packet_numbers w ++ seqZ base (Z.of_nat k)))).
  { intros Hall. apply insert_each_back; (done || lia). }
  destruct (last (ordered_packet_numbers w)) as [back|] eqn:Hl.
  - destruct (Z.ltb_spec back base) as [Hbk|Hbk]; [|done]. rewrite Heach; [done|].
    rewrite Forall_forall. intros m Hm. pose proof (sorted_last_max _ _ Hsort Hl m Hm). lia.
  - apply last_None in Hl. rewrite Heach; [done|]. rewrite Hl. constructor.
Qed.

Lemma insert_each_wf w ns :
  wf_window w -> Forall is_u64 ns -> wf_window (snd (insert_each w ns)).
Proof.
  intros Hwf Hns. revert w Hwf. induction Hns as [|n ns Hn _ IH]; intros w Hwf; simpl; [done|].
  pose proof (insert_packet_number_spec w n Hwf Hn) as Hs.
  destruct (SlidingWindow_insert_packet_number w n) as [[[]|e| |] w'];
    destruct Hs as (_ & Hwf' & _); auto.
Qed.

Lemma insert_range_wf w base count :
  wf_window w -> is_u64 base -> is_u16 count -> base + count <= 2 ^ 64 ->
  wf_window (snd (SlidingWindow_insert_range w base count)).
Proof.
  intros Hwf Hb Hc Hmax. rewrite insert_range_spec by done.
  repeat case_decide; try done. apply insert_each_wf; [done|].
  rewrite Forall_forall. intros n Hn. apply elem_of_seqZ in Hn. int_lia.
Qed.

(** What a range insertion can add, whether or not it fails midway. *)
Lemma insert_each_subset w ns :
  wf_window w -> Forall is_u64 ns ->
  let w' := snd (insert_each w ns) in
  smallest_expected_packet_number w' = smallest_expected_packet_number w /\
  forall m, m ∈ ordered_packet_numbers w' -> m ∈ ordered_packet_numbers w \/ m ∈ ns.
Proof.
  intros Hwf Hns. revert w Hwf. induction Hns as [|n ns Hn _ IH]; intros w Hwf; simpl; [auto|].
  pose proof (insert_packet_number_spec w n Hwf Hn) as Hs.
  destruct (SlidingWindow_insert_packet_number w n) as [[[]|e| |] w'];
    destruct Hs as (_ & Hwf' & Hs); [|subst w'; simpl; auto..].
  destruct Hs as [Hsm Hel]. destruct (IH w' Hwf') as [Hsm' Hsub]. split; [congruence|].
  intros m Hm. rewrite elem_of_cons. destruct (Hsub m Hm) as [H|H]; [|auto].
  apply Hel in H as [->|H]; auto.
Qed.

Lemma insert_range_subset w base count :
  wf_window w -> is_u64 base -> is_u16 count -> base + count <= 2 ^ 64 ->
  let w' := snd (SlidingWindow_insert_range w base count) in
  smallest_expected_packet_number w' = smallest_expected_packet_number w /\
  forall m, m ∈ ordered_packet_numbers w' -> m ∈ ordered_packet_numbers w \/ base <= m < base + count.
Proof.
  intros Hwf Hb Hc Hmax. cbv zeta. rewrite insert_range_spec by done.
  repeat case_decide; simpl; auto.
  destruct (insert_each_subset w (seqZ base count) Hwf) as [Hsm Hsub].
  { rewrite Forall_forall. intros n Hn. apply elem_of_seqZ in Hn. int_lia. }
  split; [done|]. intros m Hm. destruct (Hsub m Hm) as [?|Hin]; [auto|]. right. by apply elem_of_seqZ in Hin.
Qed.

(** ** Consumption *)

(** No buffered number is the largest [u64]: its successor is a packet number
    too.  A connection would have to send [2 ^ 64] packets to break this. *)
Definition below_max (l : list Z) : Prop := Forall (fun n => n < 2 ^ 64 - 1) l.

Lemma consume_run_spec p l :
  is_u64 p -> StronglySorted Z.lt (p :: l) -> Forall is_u64 l -> below_max (p :: l) ->
  let '(L, l') := consume_run p l in
  p <= L /\ is_u64 L /\ L < 2 ^ 64 - 1 /\
  (forall n, p <= n <= L -> n ∈ p :: l) /\ (L + 1 ∉ p :: l) /\
  StronglySorted Z.lt l' /\ (forall m, m ∈ l' <-> m ∈ p :: l /\ L < m).
Proof.
  intros Hp Hsort Hl Hmax. revert p Hp Hsort Hmax. induction Hl as [|q l Hq Hl IH]; intros p Hp Hsort Hmax;
    simpl; inversion_clear Hsort as [|? ? Hs Hf]; inversion_clear Hmax as [|? ? Hpm Hm].
  - split_and!; [lia|done|done| |rewrite list_elem_of_singleton; lia|constructor|].
    + intros n Hn. rewrite list_elem_of_singleton. lia.
    + intros m. rewrite list_elem_of_singleton, elem_of_nil. lia.
  - inversion_clear Hf as [|? ? Hpq Hf']. rewrite u64_add_small by int_lia.
    destruct (Z.eqb_spec q (p + 1)) as [->|Hne].
    + specialize (IH (p + 1) Hq Hs Hm). destruct (consume_run (p + 1) l) as [L l'].
      destruct IH as (H1 & H2 & H3 & H4 & H5 & H6 & H7).
      split_and!; [lia|done|done| | |done|].
      * intros n Hn. rewrite elem_of_cons. destruct (decide (n = p)); [by left|]. right. apply H4. lia.
      * rewrite elem_of_cons. intros [?|?]; [lia|done].
      * intros m. rewrite H7, (elem_of_cons _ _ p). split; [tauto|]. intros [[?|?] ?]; [lia|done].
    + assert (Hgt : forall m, m ∈ q :: l -> p + 1 < m).
      { intros m. rewrite elem_of_cons. intros [->|Hml]; [lia|].
        inversion_clear Hs as [|? ? _ Hfq]. rewrite Forall_forall in Hfq. specialize (Hfq m Hml). lia. }
      split_and!; [lia|done|done| | |done|].
      * intros n Hn. rewrite elem_of_cons. left. lia.
      * rewrite elem_of_cons. intros [?|Hx]; [lia|]. specialize (Hgt _ Hx). lia.
      * intros m. rewrite (elem_of_cons _ _ p). split; [|intros [[?|?] ?]; [lia|done]].
        intros Hm'. specialize (Hgt _ Hm'). split; [by right|lia].
Qed.

(** [consume] answers [None], changing nothing, exactly when the smallest
    expected number is missing; otherwise it returns the end of the longest
    contiguous run from it, counts that run, and leaves the later numbers. *)
Lemma consume_spec w :
  wf_window w -> below_max (ordered_packet_numbers w) ->
  let s := smallest_expected_packet_number w in
  match SlidingWindow_consume w with
  | (None, w') => w' = w /\ s ∉ ordered_packet_numbers w
  | (Some r, w') =>
      let L := largest_packet_number r in
      s <= L /\ (forall n, s <= n <= L -> n ∈ ordered_packet_numbers w) /\
      (L + 1 ∉ ordered_packet_numbers w) /\
      num_acks_consumed r = L - s + 1 /\
      smallest_expected_packet_number w' = L + 1 /\
      (forall m, m ∈ ordered_packet_numbers w' <-> m ∈ ordered_packet_numbers w /\ L < m) /\
      wf_window w'
  end.
Proof.
  intros (Hs & Hsort & Hin) Hmax. cbv zeta. unfold SlidingWindow_consume.
  destruct (ordered_packet_numbers w) as [|p l] eqn:Hl; [split; [done|apply not_elem_of_nil]|].
  inversion_clear Hin as [|? ? [Hp Hpr] Hin']. pose proof Hsort as Hsort'.
  inversion_clear Hsort' as [|? ? _ Hf].
  destruct (Z.ltb_spec (smallest_expected_packet_number w) p) as [Hlt|Hge].
  { split; [done|]. rewrite elem_of_cons. intros [?|Hx]; [lia|].
    rewrite Forall_forall in Hf. specialize (Hf _ Hx). lia. }
  assert (p = smallest_expected_packet_number w) as -> by lia.
  pose proof (consume_run_spec _ l Hs Hsort (Forall_impl _ _ _ Hin' (fun _ H => proj1 H)) Hmax) as Hrun.
  destruct (consume_run _ l) as [L l']. destruct Hrun as (H1 & H2 & H3 & H4 & H5 & H6 & H7).
  simpl. rewrite (u64_sub_small L), !u64_add_small by int_lia.
  split_and!; [lia|done|done|lia|done|done|].
  split_and!; simpl; [int_lia|done|]. rewrite Forall_forall in Hin' |- *.
  intros m Hm. apply H7 in Hm as [Hm HL]. apply elem_of_cons in Hm as [->|Hm]; [lia|].
  specialize (Hin' m Hm) as [Hm64 Hmr]. split; [done|lia].
Qed.

(** ** Traces

    What a caller sees of a window: which packet numbers were accepted, and
    how many acknowledgements [consume] reported in all.  A range is accepted
    whole when the call succeeds; when it meets a number that was accepted
    before, its numbers up to that one are accepted. *)
Inductive window_op : Type :=
  | InsertOne (n : Z)
  | InsertRange (base count : Z)
  | ConsumeAll.

Record window_trace : Type := {
  tr_window : SlidingWindow;
  tr_first : Z;
  tr_accepted : list Z;
  tr_acked : Z;
}.

Fixpoint upto_known (known ns : list Z) : list Z :=
  match ns with
  | [] => []
  | n :: ns => if decide (n ∈ known) then [] else n :: upto_known known ns
  end.

Definition range_accepted (t : window_trace) (r : BluefinResult unit) (base count : Z) : list Z :=
  match r with
  | Ok _ => seqZ base count
  | Err UnexpectedPacketNumberError =>
      if decide (base < tr_first t + tr_acked t) then [] else upto_known (tr_accepted t) (seqZ base count)
  | _ => []
  end.

Definition run_op (t : window_trace) (op : window_op) : window_trace :=
  match op with
  | InsertOne n =>
      let '(r, w') := SlidingWindow_insert_packet_number (tr_window t) n in
      {| tr_window := w'; tr_first := tr_first t;
         tr_accepted := if is_ok r then n :: tr_accepted t else tr_accepted t;
         tr_acked := tr_acked t |}
  | InsertRange base count =>
      let '(r, w') := SlidingWindow_insert_range (tr_window t) base count in
      {| tr_window := w'; tr_first := tr_first t; tr_accepted := range_accepted t r base count ++ tr_accepted t;
         tr_acked := tr_acked t |}
  | ConsumeAll =>
      let '(r, w') := SlidingWindow_consume (tr_window t) in
      {| tr_window := w'; tr_first := tr_first t; tr_accepted := tr_accepted t;
         tr_acked := tr_acked t + match r with Some c => num_acks_consumed c | None => 0 end |}
  end.

Definition trace_start (s : Z) : window_trace :=
  {| tr_window := SlidingWindow_new s; tr_first := s; tr_accepted := []; tr_acked := 0 |}.

Definition run_ops (s : Z) (ops : list window_op) : window_trace := foldl run_op (trace_start s) ops.

(** The operation is on packet numbers that have a successor. *)
Definition op_ok (op : window_op) : Prop :=
  match op with
  | InsertOne n => 0 <= n < 2 ^ 64 - 1
  | InsertRange base count => is_u64 base /\ is_u16 count /\ base + count < 2 ^ 64
  | ConsumeAll => True
  end.

Definition accounted (s : Z) (w : SlidingWindow) (acc : list Z) (acked : Z) : Prop :=
  wf_window w /\ below_max (ordered_packet_numbers w) /\ NoDup acc /\
  smallest_expected_packet_number w = s + acked /\ 0 <= acked /\
  forall n, n ∈ acc <-> s <= n < smallest_expected_packet_number w \/ n ∈ ordered_packet_numbers w.

Definition trace_inv (s : Z) (t : window_trace) : Prop :=
  tr_first t = s /\ accounted s (tr_window t) (tr_accepted t) (tr_acked t).

Lemma trace_inv_new s : is_u64 s -> trace_inv s (trace_start s).
Proof.
  intros Hs. split; [done|]. split_and!; simpl; [by apply wf_window_new|constructor|constructor|lia|lia|].
  intros n. rewrite elem_of_nil. lia.
Qed.

(** One number: accepted and accounted for, or known, or nothing changes. *)
Lemma accounted_insert s w acc acked n :
  accounted s w acc acked -> 0 <= n < 2 ^ 64 - 1 ->
  let '(r, w') := SlidingWindow_insert_packet_number w n in
  r = insert_verdict w n /\ accounted s w' (if is_ok r then n :: acc else acc) acked /\
  (is_ok r = false -> w' = w) /\ smallest_expected_packet_number w' = smallest_expected_packet_number w.
Proof.
  intros (Hwf & Hmax & Hnd & Hsm & Hpos & Hacc) Hn.
  pose proof (insert_packet_number_spec w n Hwf ltac:(int_lia)) as Hspec.
  destruct (SlidingWindow_insert_packet_number w n) as [r w'].
  destruct Hspec as (Hr & Hwf' & Hw). split; [done|]. destruct r as [[]|e| |]; simpl;
    [|subst w'; split_and!; done..].
  destruct Hw as [Hsm' Hel].
  assert (Hnew : ~ (n < smallest_expected_packet_number w \/ n ∈ ordered_packet_numbers w)).
  { unfold insert_verdict in Hr. by case_decide. }
  split; [|done]. split_and!; simpl; [done| | |lia|done|].
  - unfold below_max in *. rewrite Forall_forall in Hmax |- *. intros m Hm.
    apply Hel in Hm as [->|Hm]; [lia|by apply Hmax].
  - constructor; [|done]. rewrite Hacc. intros [?|?]; apply Hnew; [left; lia|by right].
  - intros m. rewrite elem_of_cons, Hacc, Hel, Hsm'. tauto.
Qed.

(** The loop over numbers that are not below the edge and fit the window. *)
Lemma accounted_each s ns : forall w acc acked,
  accounted s w acc acked -> NoDup ns ->
  Forall (fun n => 0 <= n < 2 ^ 64 - 1 /\
    smallest_expected_packet_number w <= n < smallest_expected_packet_number w + MAX_SLIDING_WINDOW_SIZE) ns ->
  let '(r, w') := insert_each w ns in
  (r = Ok tt \/ r = Err UnexpectedPacketNumberError) /\ (r = Ok tt -> upto_known acc ns = ns) /\
  exists acc', acc' ≡ₚ upto_known acc ns ++ acc /\ accounted s w' acc' acked.
Proof.
  induction ns as [|n ns IH]; intros w acc acked Ha Hnd Hns; cbn [insert_each upto_known].
  { split_and!; [by left|done|by exists acc]. }
  apply NoDup_cons in Hnd as [Hnin Hnd]. apply Forall_cons in Hns as [(Hn & Hlo & Hhi) Hns].
  pose proof (accounted_insert s w acc acked n Ha Hn) as Hi.
  destruct (SlidingWindow_insert_packet_number w n) as [r w1]. destruct Hi as (Hr & Ha1 & Hsame & Hsm).
  destruct Ha as (_ & _ & _ & Hse & _ & Hacc). unfold insert_verdict in Hr.
  destruct (decide (n ∈ acc)) as [Hin|Hnew].
  - rewrite decide_True in Hr by (apply Hacc in Hin as [?|?]; [left; lia|by right]). subst r.
    rewrite (Hsame eq_refl) in *. split_and!; [by right|done|]. by exists acc.
  - rewrite decide_False in Hr by (intros [?|Hx]; [lia|apply Hnew, Hacc; by right]).
    rewrite decide_False in Hr by lia. subst r. cbn [is_ok] in Ha1.
    specialize (IH w1 (n :: acc) acked Ha1 Hnd). rewrite Hsm in IH. specialize (IH Hns).
    assert (Hup : upto_known (n :: acc) ns = upto_known acc ns).
    { clear -Hnin. induction ns as [|m ns IH]; [done|]. apply not_elem_of_cons in Hnin as [Hne Hnin].
      cbn [upto_known]. rewrite IH by done. destruct (decide (m ∈ acc)) as [Hm|Hm].
      - by rewrite decide_True by (by right).
      - rewrite decide_False; [done|]. by intros [->|?]%elem_of_cons. }
    rewrite Hup in IH. destruct (insert_each w1 ns) as [r2 w2]. destruct IH as (Hr2 & Hok & acc' & Hp & Ha').
    split_and!; [done|intros Hr; by rewrite Hok|]. exists acc'. split; [|done]. rewrite Hp.
    symmetry. apply Permutation_middle.
Qed.

Lemma accounted_perm s w acc acc' acked : acc ≡ₚ acc' -> accounted s w acc acked -> accounted s w acc' acked.
Proof.
  intros Hp (H1 & H2 & H3 & H4 & H5 & H6). split_and!; [done|done|by rewrite <- Hp|done|done|].
  intros n. by rewrite <- Hp.
Qed.

Lemma trace_inv_range s t base count :
  trace_inv s t -> op_ok (InsertRange base count) -> trace_inv s (run_op t (InsertRange base count)).
Proof.
  intros [Hf Ha] (Hb & Hc & Hmax). cbn [run_op]. pose proof Ha as (Hwf & _ & _ & Hse & _).
  rewrite insert_range_spec by (done || lia).
  destruct (decide (count = 0)) as [->|Hc0]; [by split|].
  case_decide as Hlow; [unfold range_accepted; rewrite Hf, decide_True by lia; by split|].
  case_decide as Hfull; [by split|].
  pose proof (accounted_each s (seqZ base count) (tr_window t) (tr_accepted t) (tr_acked t) Ha
                (NoDup_seqZ _ _)) as He.
  destruct (insert_each (tr_window t) (seqZ base count)) as [r w'].
  destruct He as (Hr & Hok & acc' & Hp & Ha').
  { apply Forall_forall. intros n Hn%elem_of_seqZ. int_lia. }
  split; [done|]. cbn [tr_window tr_accepted tr_acked]. eapply accounted_perm; [|exact Ha'].
  unfold range_accepted. destruct Hr as [->| ->]; [by rewrite (Hok eq_refl) in Hp|].
  by rewrite Hf, decide_False by lia.
Qed.

Lemma trace_inv_insert s t n :
  trace_inv s t -> 0 <= n < 2 ^ 64 - 1 -> trace_inv s (run_op t (InsertOne n)).
Proof.
  intros [Hf Ha] Hn. unfold run_op. pose proof (accounted_insert s _ _ _ n Ha Hn) as H.
  destruct (SlidingWindow_insert_packet_number (tr_window t) n) as [r w']. by destruct H as (_ & H & _).
Qed.

Lemma trace_inv_consume s t : trace_inv s t -> trace_inv s (run_op t ConsumeAll).
Proof.
  intros (Hf & Hwf & Hmax & Hnd & Hsm & Hpos & Hacc). unfold run_op.
  pose proof (consume_spec (tr_window t) Hwf Hmax) as Hspec. cbv zeta in Hspec.
  destruct (SlidingWindow_consume (tr_window t)) as [[r|] w'];
    [|destruct Hspec as [-> _]; split; [done|]; split_and!; simpl; (done || lia)].
  destruct Hspec as (H1 & H2 & H3 & H4 & H5 & H6 & H7).
  split; [done|]. split_and!; simpl; [done| |done|lia|lia|].
  - unfold below_max in *. rewrite Forall_forall in Hmax |- *. intros m Hm. by apply Hmax, H6.
  - intros m. rewrite Hacc, H6, H5. split.
    + intros [?|Hm]; [left; lia|]. destruct (decide (largest_packet_number r < m)); [by right|].
      left. destruct Hwf as (_ & _ & Hr). rewrite Forall_forall in Hr. specialize (Hr m Hm). lia.
    + intros [?|[Hm _]]; [|by right].
      destruct (decide (m < smallest_expected_packet_number (tr_window t))); [left; lia|].
      right. apply H2. lia.
Qed.

Lemma trace_inv_run s ops : is_u64 s -> Forall op_ok ops -> trace_inv s (run_ops s ops).
Proof.
  intros Hs Hops. unfold run_ops. pose proof (trace_inv_new s Hs) as Hinv.
  revert Hinv. generalize (trace_start s).
  induction Hops as [|op ops Hop _ IH]; intros t Ht; simpl; [done|].
  apply IH. destruct op; [by apply trace_inv_insert|by apply trace_inv_range|by apply trace_inv_consume].
Qed.

(** ** Properties *)

(** C26: over any interleaving of insertions and consumptions, no packet number
    is accepted twice, the acknowledgements reported by [consume] add up to
    exactly how far the window's lower edge moved, and the accepted numbers
    are precisely those below the edge together with those still buffered.
    Insertions are of single numbers and of ranges, as acknowledgements bring
    them; what a range is accepted of is said by its answer alone. *)
Theorem window_accounting s ops :
  is_u64 s -> Forall op_ok ops ->
  let t := run_ops s ops in
  NoDup (tr_accepted t) /\
  smallest_expected_packet_number (tr_window t) = s + tr_acked t /\
  (forall n, n ∈ tr_accepted t <->
     s <= n < s + tr_acked t \/ n ∈ ordered_packet_numbers (tr_window t)) /\
  wf_window (tr_window t).
Proof.
  intros Hs Hops t. destruct (trace_inv_run s ops Hs Hops) as (_ & Hwf & _ & Hnd & Hsm & _ & Hacc).
  split_and!; [done|done| |done]. intros n. unfold t. rewrite <- Hsm. apply Hacc.
Qed.

Definition sample_ops : list window_op :=
  [InsertOne 12; InsertOne 10; ConsumeAll; InsertRange 11 3; InsertRange 10 2; InsertRange 14 2; ConsumeAll].

Lemma window_accounting_witness :
  let t := run_ops 10 sample_ops in
  tr_acked t = 3 /\ ordered_packet_numbers (tr_window t) = [14; 15] /\
  forall n, n ∈ tr_accepted t <-> 10 <= n < 10 + 3 \/ n ∈ [14; 15].
Proof.
  assert (Hops : Forall op_ok sample_ops) by (repeat constructor; simpl; int_lia).
  pose proof (window_accounting 10 sample_ops ltac:(int_lia) Hops) as H.
  split; [reflexivity|]. split; [reflexivity|]. exact (proj1 (proj2 (proj2 H))).
Defined.

(** C27: the batched insertion of an acknowledgement range behaves as the loop of
    single insertions over [base .. base + count) once the two checks on the
    whole range have passed; when one of them fails, nothing is inserted. *)
Theorem insert_range_as_singles w base count :
  wf_window w -> is_u64 base -> is_u16 count -> base + count <= 2 ^ 64 ->
  SlidingWindow_insert_range w base count =
    (if decide (count = 0) then (Ok tt, w)
     else if decide (base < smallest_expected_packet_number w) then
       (Err UnexpectedPacketNumberError, w)
     else if decide (smallest_expected_packet_number w + MAX_SLIDING_WINDOW_SIZE < base + count) then
       (Err (BufferFullError "Sliding window buffer is full"), w)
     else insert_each w (seqZ base count)) /\
  wf_window (snd (SlidingWindow_insert_range w base count)).
Proof. intros. split; [by apply insert_range_spec|by apply insert_range_wf]. Qed.

Definition sample_window : SlidingWindow :=
  {| smallest_expected_packet_number := 5; ordered_packet_numbers := [7; 9] |}.

Lemma sample_window_wf : wf_window sample_window.
Proof.
  split_and!; simpl; [int_lia|repeat constructor; lia|].
  repeat constructor; simpl; unfold MAX_SLIDING_WINDOW_SIZE; int_lia.
Qed.

(** The range overlaps 7: 6 is inserted and the duplicate is then reported. *)
Lemma insert_range_as_singles_witness :
  SlidingWindow_insert_range sample_window 6 3 =
    (Err UnexpectedPacketNumberError, with_numbers sample_window [6; 7; 9]) /\
  wf_window (snd (SlidingWindow_insert_range sample_window 6 3)).
Proof.
  split; [reflexivity|].
  exact (proj2 (insert_range_as_singles sample_window 6 3 sample_window_wf
                  ltac:(int_lia) ltac:(int_lia) ltac:(lia))).
Defined.
