(* ===== verification/RingBuf.v ===== *)
(** * The fixed-capacity ring buffer

    Models src/bluefin/src/utils/ring_buffer.rs over any element type with a
    default.  Indexing out of range is a panic.  The abstract specification is
    a bounded double-ended queue, a plain list; the refinement theorem runs
    any sequence of operations on both sides and finds the same answers. *)
From stdpp Require Import base numbers list option.
From S2P Require Import Prelude.

Section RingBuffer.
Context {T : Type} (dflt : T).

Record RingBuffer : Type := {
  buffer : list T;
  capacity : nat;
  head : nat;
  tail : nat;
  len : nat;
}.

Definition RingBuffer_new (capacity : nat) : RingBuffer :=
  {| buffer := replicate capacity dflt; capacity := capacity; head := 0; tail := 0; len := 0 |}.

Definition RingBuffer_len (rb : RingBuffer) : nat := len rb.
Definition RingBuffer_is_empty (rb : RingBuffer) : bool := bool_decide (len rb = 0).
Definition RingBuffer_is_full (rb : RingBuffer) : bool := bool_decide (len rb = capacity rb).

(** No operation of the ring buffer returns an error: it answers or panics. *)
Definition rb_result (A : Type) : Type := outcome Empty_set A.

(** [self.buffer[i] = value]. *)
Definition store (b : list T) (i : nat) (value : T) : rb_result (list T) :=
  if decide (i < length b) then Ok (<[i := value]> b) else Panic.

Definition RingBuffer_push_back (rb : RingBuffer) (value : T) : rb_result (option T * RingBuffer) :=
  if RingBuffer_is_full rb then Ok (Some value, rb)
  else
    (let? b := store (buffer rb) (tail rb) value in
     Ok (None, {| buffer := b; capacity := capacity rb; head := head rb;
                  tail := (tail rb + 1) mod capacity rb; len := len rb + 1 |}))%rust.

Definition RingBuffer_push_front (rb : RingBuffer) (value : T) : rb_result (option T * RingBuffer) :=
  if RingBuffer_is_full rb then Ok (Some value, rb)
  else
    let h := if decide (head rb = 0) then capacity rb - 1 else head rb - 1 in
    (let? b := store (buffer rb) h value in
     Ok (None, {| buffer := b; capacity := capacity rb; head := h;
                  tail := tail rb; len := len rb + 1 |}))%rust.

Definition RingBuffer_pop_front (rb : RingBuffer) : rb_result (option T * RingBuffer) :=
  if RingBuffer_is_empty rb then Ok (None, rb)
  else
    match buffer rb !! head rb with
    | None => Panic
    | Some value =>
        Ok (Some value, {| buffer := <[head rb := dflt]> (buffer rb); capacity := capacity rb;
                           head := (head rb + 1) mod capacity rb;
                           tail := tail rb; len := len rb - 1 |})
    end.

Definition RingBuffer_front (rb : RingBuffer) : rb_result (option T) :=
  if RingBuffer_is_empty rb then Ok None
  else match buffer rb !! head rb with None => Panic | Some value => Ok (Some value) end.

(** [while !self.is_empty() { self.pop_front(); }]. *)
Definition clear_step (rb : RingBuffer) : rb_result (ctl RingBuffer RingBuffer) :=
  if RingBuffer_is_empty rb then Ok (Done rb)
  else (let? (_, rb') := RingBuffer_pop_front rb in Ok (Next rb'))%rust.

Definition RingBuffer_clear (rb : RingBuffer) : rb_result RingBuffer :=
  loop (len rb + 1) clear_step rb.

Definition RingBuffer_default : RingBuffer := RingBuffer_new 128.

(** ** The abstract queue *)

(** The elements, front first. *)
Definition contents (rb : RingBuffer) : list T :=
  (fun i => default dflt (buffer rb !! ((head rb + i) mod capacity rb))) <$> seq 0 (len rb).

Definition wf_ring (rb : RingBuffer) : Prop :=
  length (buffer rb) = capacity rb /\ len rb <= capacity rb /\
  (0 < capacity rb -> head rb < capacity rb /\ tail rb = (head rb + len rb) mod capacity rb).

Lemma wf_ring_new c : wf_ring (RingBuffer_new c) /\ contents (RingBuffer_new c) = [].
Proof.
  split; [|done]. split_and!; simpl; [apply length_replicate|lia|].
  intros Hc. split; [done|]. rewrite Nat.mod_small by lia. done.
Qed.

Lemma length_contents rb : length (contents rb) = len rb.
Proof. unfold contents. by rewrite length_fmap, length_seq. Qed.

Lemma contents_ext rb (b : list T) h n :
  (forall i, i < n -> b !! ((h + i) mod capacity rb) = buffer rb !! ((head rb + i) mod capacity rb)) ->
  (fun i => default dflt (b !! ((h + i) mod capacity rb))) <$> seq 0 n =
  (fun i => default dflt (buffer rb !! ((head rb + i) mod capacity rb))) <$> seq 0 n.
Proof.
  intros H. apply list_fmap_ext. intros k i Hk. apply lookup_seq in Hk as [-> Hlt].
  simpl. by rewrite H.
Qed.

Lemma store_ok b i value : i < length b -> store b i value = Ok (<[i := value]> b).
Proof. intros H. unfold store. by rewrite decide_True. Qed.

Lemma push_back_full rb value :
  len rb = capacity rb -> RingBuffer_push_back rb value = Ok (Some value, rb).
Proof. intros H. unfold RingBuffer_push_back, RingBuffer_is_full. by rewrite bool_decide_true. Qed.

Lemma push_back_room rb value :
  wf_ring rb -> len rb <> capacity rb ->
  exists rb', RingBuffer_push_back rb value = Ok (None, rb') /\ wf_ring rb' /\
    capacity rb' = capacity rb /\ contents rb' = contents rb ++ [value].
Proof.
  intros (Hb & Hl & Hc) Hne. destruct Hc as [Hh Ht]; [lia|].
  unfold RingBuffer_push_back, RingBuffer_is_full. rewrite bool_decide_false by done.
  assert (Htb : tail rb < length (buffer rb)).
  { rewrite Hb, Ht. apply Nat.mod_upper_bound. lia. }
  rewrite store_ok by done. cbn [outcome_bind]. eexists. split; [done|].
  split; [|split; [done|]].
  - split_and!; simpl; [by rewrite length_insert|lia|]. intros _. split; [done|].
    rewrite Ht, Nat.Div0.add_mod_idemp_l. f_equal. lia.
  - unfold contents. simpl. rewrite seq_app, fmap_app. simpl. f_equal.
    + apply contents_ext. intros i Hi. apply list_lookup_insert_ne. rewrite Ht.
      intros Heq. apply mod_wrap_inj in Heq; lia.
    + rewrite <- Ht. by rewrite list_lookup_insert_eq by done.
Qed.

Lemma push_front_room rb value :
  wf_ring rb -> len rb <> capacity rb ->
  exists rb', RingBuffer_push_front rb value = Ok (None, rb') /\ wf_ring rb' /\
    capacity rb' = capacity rb /\ contents rb' = value :: contents rb.
Proof.
  intros (Hb & Hl & Hc) Hne. destruct Hc as [Hh Ht]; [lia|].
  unfold RingBuffer_push_front, RingBuffer_is_full. rewrite bool_decide_false by done.
  set (h := if decide (head rb = 0) then capacity rb - 1 else head rb - 1).
  assert (Hhc : h < capacity rb) by (unfold h; case_decide; lia).
  assert (Hnext : forall i, i <= len rb -> (h + S i) mod capacity rb = (head rb + i) mod capacity rb).
  { intros i Hi. rewrite !mod_wrap by lia. unfold h. repeat case_decide; lia. }
  rewrite store_ok by lia. cbn [outcome_bind]. eexists. split; [done|].
  split; [|split; [done|]].
  - split_and!; simpl; [by rewrite length_insert|lia|]. intros _. split; [done|].
    rewrite Nat.add_1_r, Hnext, Ht by lia. done.
  - unfold contents. cbn [len head buffer capacity]. rewrite Nat.add_1_r. cbn [seq fmap list_fmap].
    rewrite Nat.add_0_r, Nat.mod_small by lia. rewrite list_lookup_insert_eq by lia.
    simpl. f_equal. rewrite <- fmap_S_seq, <- list_fmap_compose.
    apply list_fmap_ext. intros k i Hk. apply lookup_seq in Hk as [-> Hlt].
    cbn -[Nat.modulo]. rewrite Hnext by lia. rewrite list_lookup_insert_ne; [done|].
    rewrite <- Hnext by lia. rewrite !mod_wrap by lia. repeat case_decide; lia.
Qed.

Lemma front_lookup rb :
  wf_ring rb -> len rb <> 0 ->
  exists value rest, buffer rb !! head rb = Some value /\ contents rb = value :: rest.
Proof.
  intros (Hb & Hl & Hc) Hne. destruct Hc as [Hh Ht]; [lia|].
  destruct (lookup_lt_is_Some_2 (buffer rb) (head rb)) as [value Hv]; [lia|].
  unfold contents. destruct (len rb) as [|n] eqn:Hn; [done|].
  cbn [seq fmap list_fmap]. rewrite Nat.add_0_r, Nat.mod_small, Hv by done. eauto.
Qed.

Lemma pop_front_some rb :
  wf_ring rb -> len rb <> 0 ->
  exists value rb', RingBuffer_pop_front rb = Ok (Some value, rb') /\ wf_ring rb' /\
    capacity rb' = capacity rb /\ contents rb = value :: contents rb'.
Proof.
  intros Hwf Hne. destruct (front_lookup rb Hwf Hne) as (value & rest & Hv & Hcont).
  destruct Hwf as (Hb & Hl & Hc). destruct Hc as [Hh Ht]; [lia|].
  unfold RingBuffer_pop_front, RingBuffer_is_empty. rewrite bool_decide_false, Hv by done.
  do 2 eexists. split; [done|].
  assert (Hnext : forall i, ((head rb + 1) mod capacity rb + i) mod capacity rb
                            = (head rb + S i) mod capacity rb).
  { intros i. rewrite Nat.Div0.add_mod_idemp_l. f_equal. lia. }
  split; [|split; [done|]].
  - split_and!; simpl; [by rewrite length_insert|lia|]. intros _.
    split; [apply Nat.mod_upper_bound; lia|]. rewrite Hnext, Ht. f_equal. lia.
  - unfold contents. cbn [len head buffer capacity].
    destruct (len rb) as [|n] eqn:Hn; [done|]. cbn [seq fmap list_fmap].
    rewrite Nat.add_0_r, Nat.mod_small, Hv by done. simpl. f_equal.
    rewrite Nat.sub_0_r, <- fmap_S_seq, <- list_fmap_compose.
    apply list_fmap_ext. intros k i Hk. apply lookup_seq in Hk as [-> Hlt].
    cbn -[Nat.modulo]. rewrite Hnext, list_lookup_insert_ne; [done|].
    rewrite mod_wrap by lia. case_decide; lia.
Qed.

Lemma pop_front_none rb :
  len rb = 0 -> RingBuffer_pop_front rb = Ok (None, rb) /\ contents rb = [].
Proof.
  intros H. unfold RingBuffer_pop_front, RingBuffer_is_empty, contents.
  rewrite bool_decide_true, H by done. done.
Qed.

Lemma clear_spec rb :
  wf_ring rb ->
  exists rb', RingBuffer_clear rb = Ok rb' /\ wf_ring rb' /\
    capacity rb' = capacity rb /\ contents rb' = [].
Proof.
  intros Hwf. unfold RingBuffer_clear.
  apply (loop_rule (fun s => wf_ring s /\ capacity s = capacity rb) len
           (fun r => exists rb', r = Ok rb' /\ wf_ring rb' /\ capacity rb' = capacity rb /\ contents rb' = []));
    [|done|lia].
  intros s [Hs Hcap]. unfold clear_step, RingBuffer_is_empty. case_bool_decide as Hz.
  - exists s. split_and!; try done. by apply pop_front_none.
  - destruct (pop_front_some s Hs Hz) as (v & s' & -> & Hs' & Hcap' & Hc). simpl.
    split; [split; [done|congruence]|].
    pose proof (length_contents s) as Hls. rewrite Hc in Hls. simpl in Hls.
    rewrite length_contents in Hls. lia.
Qed.

(** ** Refinement *)

Inductive ring_op : Type :=
  | PushBack (value : T)
  | PushFront (value : T)
  | PopFront
  | Front
  | Len
  | Clear.

Inductive ring_answer : Type :=
  | AnsElem (o : option T)
  | AnsLen (n : nat)
  | AnsUnit.

Definition ring_do (rb : RingBuffer) (op : ring_op) : rb_result (ring_answer * RingBuffer) :=
  (match op with
   | PushBack v => let? (o, rb') := RingBuffer_push_back rb v in Ok (AnsElem o, rb')
   | PushFront v => let? (o, rb') := RingBuffer_push_front rb v in Ok (AnsElem o, rb')
   | PopFront => let? (o, rb') := RingBuffer_pop_front rb in Ok (AnsElem o, rb')
   | Front => let? o := RingBuffer_front rb in Ok (AnsElem o, rb)
   | Len => Ok (AnsLen (RingBuffer_len rb), rb)
   | Clear => let? rb' := RingBuffer_clear rb in Ok (AnsUnit, rb')
   end)%rust.

(** The promise: a list of at most [cap] elements. *)
Definition queue_do (cap : nat) (q : list T) (op : ring_op) : ring_answer * list T :=
  match op with
  | PushBack v => if decide (length q = cap) then (AnsElem (Some v), q) else (AnsElem None, q ++ [v])
  | PushFront v => if decide (length q = cap) then (AnsElem (Some v), q) else (AnsElem None, v :: q)
  | PopFront => match q with [] => (AnsElem None, q) | v :: q' => (AnsElem (Some v), q') end
  | Front => (AnsElem (list.head q), q)
  | Len => (AnsLen (length q), q)
  | Clear => (AnsUnit, [])
  end.

Fixpoint ring_run (rb : RingBuffer) (ops : list ring_op) : rb_result (list ring_answer * RingBuffer) :=
  (match ops with
   | [] => Ok ([], rb)
   | op :: ops' =>
       let? (a, rb1) := ring_do rb op in
       let? (answers, rb2) := ring_run rb1 ops' in
       Ok (a :: answers, rb2)
   end)%rust.

Fixpoint queue_run (cap : nat) (q : list T) (ops : list ring_op) : list ring_answer * list T :=
  match ops with
  | [] => ([], q)
  | op :: ops' =>
      let '(a, q1) := queue_do cap q op in
      let '(answers, q2) := queue_run cap q1 ops' in
      (a :: answers, q2)
  end.

Lemma ring_do_refines rb op :
  wf_ring rb ->
  exists rb', ring_do rb op = Ok (fst (queue_do (capacity rb) (contents rb) op), rb') /\
    wf_ring rb' /\ capacity rb' = capacity rb /\
    contents rb' = snd (queue_do (capacity rb) (contents rb) op).
Proof.
  intros Hwf. destruct op as [v|v| | | |]; simpl; rewrite ?length_contents.
  - case_decide as Hf; [rewrite push_back_full by done; simpl; eauto|].
    destruct (push_back_room rb v Hwf Hf) as (rb' & -> & H'); simpl; eauto.
  - case_decide as Hf.
    + unfold RingBuffer_push_front, RingBuffer_is_full. rewrite bool_decide_true by done. simpl; eauto.
    + destruct (push_front_room rb v Hwf Hf) as (rb' & -> & H'); simpl; eauto.
  - destruct (decide (len rb = 0)) as [Hz|Hz].
    + destruct (pop_front_none rb Hz) as [-> Hc]. rewrite Hc. simpl; eauto.
    + destruct (pop_front_some rb Hwf Hz) as (v & rb' & -> & H1 & H2 & H3). rewrite H3. simpl; eauto.
  - unfold RingBuffer_front, RingBuffer_is_empty. destruct (decide (len rb = 0)) as [Hz|Hz].
    + rewrite bool_decide_true by done. destruct (pop_front_none rb Hz) as [_ Hc]. rewrite Hc. simpl; eauto.
    + rewrite bool_decide_false by done.
      destruct (front_lookup rb Hwf Hz) as (v & rest & -> & Hc). rewrite Hc. simpl; eauto.
  - eauto.
  - destruct (clear_spec rb Hwf) as (rb' & -> & H'). simpl; eauto.
Qed.

Lemma ring_run_refines ops rb :
  wf_ring rb ->
  exists rb', ring_run rb ops = Ok (fst (queue_run (capacity rb) (contents rb) ops), rb') /\
    wf_ring rb' /\ capacity rb' = capacity rb /\
    contents rb' = snd (queue_run (capacity rb) (contents rb) ops).
Proof.
  revert rb. induction ops as [|op ops IH]; intros rb Hwf; simpl; [eauto|].
  destruct (ring_do_refines rb op Hwf) as (rb1 & -> & Hwf1 & Hcap1 & Hc1).
  destruct (queue_do (capacity rb) (contents rb) op) as [a q1]. simpl in Hc1 |- *.
  destruct (IH rb1 Hwf1) as (rb2 & -> & Hwf2 & Hcap2 & Hc2). rewrite Hcap1, Hc1 in *.
  destruct (queue_run (capacity rb) q1 ops) as [ans q2]. simpl in *. eauto with congruence.
Qed.

End RingBuffer.

Arguments RingBuffer : clear implicits.
Arguments ring_op : clear implicits.

(** C30: from a fresh ring buffer, any sequence of operations runs without a
    panic and gives the answers of a double-ended queue of at most [capacity]
    elements: a full buffer hands the value back, an empty one gives nothing. *)
Theorem ring_buffer_refines_queue {T : Type} (dflt : T) (cap : nat) (ops : list (ring_op T)) :
  exists rb', ring_run dflt (RingBuffer_new dflt cap) ops = Ok (fst (queue_run cap [] ops), rb') /\
    wf_ring rb' /\ contents dflt rb' = snd (queue_run cap [] ops).
Proof.
  destruct (wf_ring_new dflt cap) as [Hwf Hc].
  destruct (ring_run_refines dflt ops _ Hwf) as (rb' & Hrun & Hwf' & _ & Hc').
  rewrite Hc in Hrun, Hc'. eauto.
Qed.
