(* ===== verification/OrderedBytes.v ===== *)
(** * The reassembly buffer

    Models src/bluefin/src/net/ordered_bytes.rs: the circular array of packets
    indexed by packet number, and the two ways to drain it, [consume] (copies
    into a caller's slice) and [consume_bytes] (hands out whole payloads).

    The circular array is read in logical order through [slots]; the
    invariant [wf_ob] says that slot [i] can only hold packet number
    [smallest + i].  Each operation is described on [slots], and the trace
    theorem at the end concludes that whatever the network reorders,
    duplicates or drops, the bytes handed out are the sender's stream, in
    order and once.  The fuel of both drain loops is [MAX_BUFFER_SIZE + 1],
    one more than the bound the loops themselves check. *)
From stdpp Require Import base numbers list option strings.
From S2P Require Import Prelude Proto Header Packet.

Definition MAX_BUFFER_SIZE : nat := Z.to_nat 2000.

Definition wrap_index (base offset : nat) : nat :=
  let raw := base + offset in
  if decide (MAX_BUFFER_SIZE <= raw) then raw - MAX_BUFFER_SIZE else raw.

Record OrderedBytes : Type := {
  ob_conn_id : Z;
  packets : list (option BluefinPacket);
  smallest_packet_number_index : nat;
  smallest_packet_number : Z;
  carry_over_bytes : option bytes;
}.

Record ConsumeResult : Type := {
  num_packets_consumed : nat;
  base_packet_number : Z;
  bytes_consumed : nat;
}.

Definition OrderedBytes_new (conn_id start_packet_number : Z) : OrderedBytes :=
  {| ob_conn_id := conn_id; packets := replicate MAX_BUFFER_SIZE None;
     smallest_packet_number_index := 0; smallest_packet_number := start_packet_number;
     carry_over_bytes := None |}.

Definition OrderedBytes_set_start_packet_number (ob : OrderedBytes) (start_packet_number : Z) :
    OrderedBytes :=
  {| ob_conn_id := ob_conn_id ob; packets := packets ob;
     smallest_packet_number_index := smallest_packet_number_index ob;
     smallest_packet_number := start_packet_number; carry_over_bytes := carry_over_bytes ob |}.

Definition with_packets (ob : OrderedBytes) (ps : list (option BluefinPacket)) : OrderedBytes :=
  {| ob_conn_id := ob_conn_id ob; packets := ps;
     smallest_packet_number_index := smallest_packet_number_index ob;
     smallest_packet_number := smallest_packet_number ob; carry_over_bytes := carry_over_bytes ob |}.

Definition with_carry (ob : OrderedBytes) (c : option bytes) : OrderedBytes :=
  {| ob_conn_id := ob_conn_id ob; packets := packets ob;
     smallest_packet_number_index := smallest_packet_number_index ob;
     smallest_packet_number := smallest_packet_number ob; carry_over_bytes := c |}.

(** [self.packets[i].is_some()] and the value there; the callers keep [i] in
    range, and an index out of range would panic. *)
Definition packet_at (ob : OrderedBytes) (i : nat) : BluefinResult (option BluefinPacket) :=
  match packets ob !! i with Some o => Ok o | None => Panic end.

(** The offset stays a [Z] until it is known to be below the buffer size.  The
    text of the duplicate error, which prints the whole buffer, is shortened. *)
Definition OrderedBytes_buffer_in_packet (ob : OrderedBytes) (packet : BluefinPacket) :
    BluefinResult unit * OrderedBytes :=
  let packet_num := packet_number (header packet) in
  if (packet_num <? smallest_packet_number ob)%Z then (Err UnexpectedPacketNumberError, ob)
  else
    let offset := u64_sub packet_num (smallest_packet_number ob) in
    if (Z.of_nat MAX_BUFFER_SIZE <=? offset)%Z then
      (Err (BufferFullError "Ordered bytes buffer full"), ob)
    else
      let index := wrap_index (smallest_packet_number_index ob) (Z.to_nat offset) in
      match packet_at ob index with
      | Ok (Some _) => (Err (Unexpected "Already buffered in packet"), ob)
      | Ok None => (Ok tt, with_packets ob (<[index := Some packet]> (packets ob)))
      | _ => (Panic, ob)
      end.

Definition OrderedBytes_peek (ob : OrderedBytes) : BluefinResult unit :=
  match carry_over_bytes ob with
  | Some _ => Ok tt
  | None =>
      (let? o := packet_at ob (smallest_packet_number_index ob) in
       match o with Some _ => Ok tt | None => Err BufferEmptyError end)%rust
  end.

(** Both drain loops end a round this way: the slot is emptied and the lower
    edge moves one packet on. *)
Definition release_slot (ob : OrderedBytes) (slot : nat) (packet_num : Z) : OrderedBytes :=
  {| ob_conn_id := ob_conn_id ob; packets := <[slot := None]> (packets ob);
     smallest_packet_number_index := wrap_index (smallest_packet_number_index ob) 1;
     smallest_packet_number := u64_add packet_num 1; carry_over_bytes := carry_over_bytes ob |}.

(** [self.packets[base]]'s packet number, or 0. *)
Definition base_number (ob : OrderedBytes) : BluefinResult Z :=
  (let? o := packet_at ob (smallest_packet_number_index ob) in
   Ok (match o with Some p => packet_number (header p) | None => 0%Z end))%rust.

(** ** [consume] *)

Record consume_state : Type := {
  cs_ob : OrderedBytes;
  cs_buf : bytes;
  cs_num_bytes : nat;
  cs_writer_ix : nat;
  cs_ix : nat;
}.

Definition consume_step (base len : nat) (s : consume_state) :
    BluefinResult (ctl consume_state consume_state) :=
  if decide (cs_ix s < MAX_BUFFER_SIZE) then
    let slot := wrap_index base (cs_ix s) in
    (let? o := packet_at (cs_ob s) slot in
     match o with
     | None => Ok (Done s)
     | Some packet =>
         if decide (cs_num_bytes s < len) then
           let packet_num := packet_number (header packet) in
           let bytes_remaining := len - cs_num_bytes s in
           let payload_len := length (payload packet) in
           if decide (bytes_remaining < payload_len) then
             let? buf := buf_write (cs_buf s) (cs_writer_ix s) (take bytes_remaining (payload packet)) in
             Ok (Next {| cs_ob := release_slot
                           (with_carry (cs_ob s) (Some (drop bytes_remaining (payload packet))))
                           slot packet_num;
                         cs_buf := buf;
                         cs_num_bytes := cs_num_bytes s + bytes_remaining;
                         cs_writer_ix := cs_writer_ix s + bytes_remaining;
                         cs_ix := cs_ix s + 1 |})
           else
             let? buf := buf_write (cs_buf s) (cs_writer_ix s) (payload packet) in
             Ok (Next {| cs_ob := release_slot (cs_ob s) slot packet_num;
                         cs_buf := buf;
                         cs_num_bytes := cs_num_bytes s + payload_len;
                         cs_writer_ix := cs_writer_ix s + payload_len;
                         cs_ix := cs_ix s + 1 |})
         else Ok (Done s)
     end)%rust
  else Ok (Done s).

(** The part of [consume] after the carry-over has been dealt with. *)
Definition consume_packets (ob : OrderedBytes) (len : nat) (buf : bytes) (num_bytes : nat) :
    BluefinResult (BluefinResult ConsumeResult * OrderedBytes * bytes) :=
  let base := smallest_packet_number_index ob in
  (let? base_pn := base_number ob in
   let? s := loop (MAX_BUFFER_SIZE + 1) (consume_step base len)
               {| cs_ob := ob; cs_buf := buf; cs_num_bytes := num_bytes;
                  cs_writer_ix := num_bytes; cs_ix := 0 |} in
   if decide (cs_num_bytes s = 0) then Ok (Err BufferEmptyError, cs_ob s, cs_buf s)
   else
     Ok (Ok {| num_packets_consumed := cs_ix s; base_packet_number := base_pn;
               bytes_consumed := cs_num_bytes s |}, cs_ob s, cs_buf s))%rust.

(** The outer outcome is [Ok] unless the call panics; the inner one is what
    [consume] returns, next to the buffer it leaves and the caller's slice. *)
Definition OrderedBytes_consume (ob : OrderedBytes) (len : nat) (buf : bytes) :
    BluefinResult (BluefinResult ConsumeResult * OrderedBytes * bytes) :=
  match carry_over_bytes ob with
  | Some c_bytes =>
      if decide (length c_bytes <= len) then
        (let? buf := buf_write buf 0 c_bytes in
         consume_packets (with_carry ob None) len buf (length c_bytes))%rust
      else
        (let? buf := buf_write buf 0 (take len c_bytes) in
         Ok (Ok {| num_packets_consumed := 0; base_packet_number := 0; bytes_consumed := len |},
             with_carry ob (Some (drop len c_bytes)), buf))%rust
  | None => consume_packets ob len buf 0
  end.

(** ** [consume_bytes] *)

Record drain_state : Type := {
  ds_ob : OrderedBytes;
  ds_out : list bytes;
  ds_total : nat;
  ds_ix : nat;
}.

Definition consume_bytes_step (base initial_len max_packets : nat) (s : drain_state) :
    BluefinResult (ctl drain_state drain_state) :=
  if decide (ds_ix s < MAX_BUFFER_SIZE /\ length (ds_out s) - initial_len < max_packets) then
    let slot := wrap_index base (ds_ix s) in
    (let? o := packet_at (ds_ob s) slot in
     match o with
     | None => Ok (Done s)
     | Some packet =>
         Ok (Next {| ds_ob := release_slot (ds_ob s) slot (packet_number (header packet));
                     ds_out := ds_out s ++ [payload packet];
                     ds_total := ds_total s + length (payload packet);
                     ds_ix := ds_ix s + 1 |})
     end)%rust
  else Ok (Done s).

Definition OrderedBytes_consume_bytes (ob : OrderedBytes) (out : list bytes) (max_packets : nat) :
    BluefinResult (BluefinResult ConsumeResult * OrderedBytes * list bytes) :=
  let initial_len := length out in
  let '(total, out, ob) :=
    match carry_over_bytes ob with
    | Some c => (length c, out ++ [c], with_carry ob None)
    | None => (0, out, ob)
    end in
  let base := smallest_packet_number_index ob in
  (let? base_pn := base_number ob in
   let? s := loop (MAX_BUFFER_SIZE + 1) (consume_bytes_step base initial_len max_packets)
               {| ds_ob := ob; ds_out := out; ds_total := total; ds_ix := 0 |} in
   if decide (length (ds_out s) = initial_len) then Ok (Err BufferEmptyError, ds_ob s, ds_out s)
   else
     Ok (Ok {| num_packets_consumed := ds_ix s; base_packet_number := base_pn;
               bytes_consumed := ds_total s |}, ds_ob s, ds_out s))%rust.

(** ** The buffer in logical order *)

Lemma wrap_index_mod base offset :
  base < MAX_BUFFER_SIZE -> offset <= MAX_BUFFER_SIZE ->
  wrap_index base offset = (base + offset) mod MAX_BUFFER_SIZE.
Proof.
  intros Hb Ho. rewrite mod_wrap by done. unfold wrap_index. repeat case_decide; lia.
Qed.

Lemma wrap_index_lt base offset :
  base < MAX_BUFFER_SIZE -> offset <= MAX_BUFFER_SIZE -> wrap_index base offset < MAX_BUFFER_SIZE.
Proof. intros Hb Ho. unfold wrap_index. case_decide; lia. Qed.

Definition rotate {A : Type} (k : nat) (l : list A) : list A := drop k l ++ take k l.

Definition slots (ob : OrderedBytes) : list (option BluefinPacket) :=
  rotate (smallest_packet_number_index ob) (packets ob).

Section Rotation.
Context {A : Type} (l : list A) (k : nat).
Hypothesis Hl : length l = MAX_BUFFER_SIZE.
Hypothesis Hk : k < MAX_BUFFER_SIZE.

Lemma length_rotate : length (rotate k l) = MAX_BUFFER_SIZE.
Proof using Hl Hk. unfold rotate. rewrite length_app, length_drop, length_take. lia. Qed.

Lemma rotate_lookup i : i < MAX_BUFFER_SIZE -> rotate k l !! i = l !! wrap_index k i.
Proof using Hl Hk.
  intros Hi. unfold rotate, wrap_index. case_decide as Hc.
  - rewrite lookup_app_r by (rewrite length_drop; lia).
    rewrite length_drop, lookup_take_lt by lia. f_equal. lia.
  - rewrite lookup_app_l by (rewrite length_drop; lia). by rewrite lookup_drop.
Qed.
End Rotation.

Lemma rotate_insert {A : Type} (l : list A) k i x :
  length l = MAX_BUFFER_SIZE -> k < MAX_BUFFER_SIZE -> i < MAX_BUFFER_SIZE ->
  rotate k (<[wrap_index k i := x]> l) = <[i := x]> (rotate k l).
Proof.
  intros Hl Hk Hi. apply list_eq. intros j.
  destruct (decide (j < MAX_BUFFER_SIZE)) as [Hj|Hj].
  - rewrite rotate_lookup by (rewrite ?length_insert; done).
    destruct (decide (i = j)) as [->|Hne].
    + rewrite !list_lookup_insert_eq; [done| |rewrite Hl; apply wrap_index_lt; lia].
      rewrite length_rotate; done.
    + rewrite !list_lookup_insert_ne, rotate_lookup; [done..|].
      unfold wrap_index. repeat case_decide; lia.
  - rewrite !lookup_ge_None_2; [done|rewrite length_insert, length_rotate; [lia|done..]|].
    rewrite length_rotate; [lia|rewrite length_insert; done|done].
Qed.

Lemma rotate_next {A : Type} (l : list A) k :
  length l = MAX_BUFFER_SIZE -> k < MAX_BUFFER_SIZE ->
  rotate (wrap_index k 1) l = drop 1 (rotate k l) ++ take 1 (rotate k l).
Proof.
  intros Hl Hk. apply list_eq. intros j.
  assert (Hk1 : wrap_index k 1 < MAX_BUFFER_SIZE) by (apply wrap_index_lt; lia).
  pose proof (length_rotate l k Hl Hk) as Hr.
  destruct (decide (j < MAX_BUFFER_SIZE)) as [Hj|Hj].
  - rewrite rotate_lookup by done.
    destruct (decide (j = MAX_BUFFER_SIZE - 1)) as [->|Hne].
    + rewrite lookup_app_r by (rewrite length_drop; lia).
      rewrite length_drop, Hr, Nat.sub_diag, lookup_take_lt, rotate_lookup by (done || lia).
      f_equal. unfold wrap_index. repeat case_decide; lia.
    + rewrite lookup_app_l by (rewrite length_drop; lia).
      rewrite lookup_drop, rotate_lookup by (done || lia).
      f_equal. unfold wrap_index. repeat case_decide; lia.
  - rewrite !lookup_ge_None_2; [done| |rewrite length_rotate; [lia|done..]].
    rewrite length_app, length_drop, length_take. lia.
Qed.

(** Slot [i] can only hold packet [smallest + i], packet numbers have a
    successor, and bytes that were carried over are not the empty string. *)
Record wf_ob (ob : OrderedBytes) : Prop := {
  wf_len : length (packets ob) = MAX_BUFFER_SIZE;
  wf_index : smallest_packet_number_index ob < MAX_BUFFER_SIZE;
  wf_smallest : is_u64 (smallest_packet_number ob);
  wf_slots : forall i p, slots ob !! i = Some (Some p) ->
    packet_number (header p) = (smallest_packet_number ob + Z.of_nat i)%Z /\
    (packet_number (header p) < 2 ^ 64 - 1)%Z;
  wf_carry : carry_over_bytes ob <> Some [];
}.

Lemma MAX_BUFFER_SIZE_pos : 0 < MAX_BUFFER_SIZE.
Proof. unfold MAX_BUFFER_SIZE. lia. Qed.

Lemma slots_new conn_id start :
  slots (OrderedBytes_new conn_id start) = replicate MAX_BUFFER_SIZE None.
Proof. apply app_nil_r. Qed.

Lemma wf_ob_new conn_id start : is_u64 start -> wf_ob (OrderedBytes_new conn_id start).
Proof.
  intros Hs. split; [apply length_replicate|apply MAX_BUFFER_SIZE_pos|done| |done].
  intros i p. rewrite slots_new. intros H. apply lookup_replicate in H as [? _]. done.
Qed.

(** The start number may be moved while nothing is buffered. *)
Lemma wf_ob_set_start ob start :
  wf_ob ob -> is_u64 start -> (forall i p, slots ob !! i <> Some (Some p)) ->
  wf_ob (OrderedBytes_set_start_packet_number ob start).
Proof.
  intros [] Hs Hempty. split; try done. intros i p Hi. by destruct (Hempty i p).
Qed.

Section Slots.
Context (ob : OrderedBytes) (Hwf : wf_ob ob).

Lemma length_slots : length (slots ob) = MAX_BUFFER_SIZE.
Proof using Hwf. destruct Hwf. by apply length_rotate. Qed.

Lemma packet_at_slot i :
  i < MAX_BUFFER_SIZE ->
  exists o, packet_at ob (wrap_index (smallest_packet_number_index ob) i) = Ok o /\
    slots ob !! i = Some o.
Proof using Hwf.
  intros Hi. destruct (lookup_lt_is_Some_2 (slots ob) i) as [o Ho]; [by rewrite length_slots|].
  exists o. split; [|done]. unfold packet_at. destruct Hwf.
  rewrite <- rotate_lookup by done. unfold slots in Ho. by rewrite Ho.
Qed.

Lemma packet_at_front :
  exists o, packet_at ob (smallest_packet_number_index ob) = Ok o /\ slots ob !! 0 = Some o.
Proof using Hwf.
  destruct (packet_at_slot 0 MAX_BUFFER_SIZE_pos) as (o & H1 & H2). exists o. split; [|done].
  rewrite <- H1. f_equal. destruct Hwf. unfold wrap_index. rewrite decide_False by lia. lia.
Qed.

(** ** Buffering a packet *)

(** The verdict, on the logical slots. *)
Definition buffer_verdict (n : Z) : BluefinResult nat :=
  if decide (n < smallest_packet_number ob)%Z then Err UnexpectedPacketNumberError
  else if decide (smallest_packet_number ob + Z.of_nat MAX_BUFFER_SIZE <= n)%Z then
    Err (BufferFullError "Ordered bytes buffer full")
  else
    let i := Z.to_nat (n - smallest_packet_number ob) in
    match slots ob !! i with
    | Some (Some _) => Err (Unexpected "Already buffered in packet")
    | _ => Ok i
    end.

Lemma buffer_in_packet_spec packet :
  (0 <= packet_number (header packet) < 2 ^ 64 - 1)%Z ->
  let '(r, ob') := OrderedBytes_buffer_in_packet ob packet in
  wf_ob ob' /\
  match buffer_verdict (packet_number (header packet)) with
  | Ok i =>
      r = Ok tt /\ i < MAX_BUFFER_SIZE /\ slots ob !! i = Some None /\
      packet_number (header packet) = (smallest_packet_number ob + Z.of_nat i)%Z /\
      slots ob' = <[i := Some packet]> (slots ob) /\
      smallest_packet_number ob' = smallest_packet_number ob /\
      carry_over_bytes ob' = carry_over_bytes ob
  | Err e => r = Err e /\ ob' = ob
  | _ => False
  end.
Proof using Hwf.
  intros Hn. pose proof Hwf as [Hl Hk Hsm Hs Hc]. unfold OrderedBytes_buffer_in_packet, buffer_verdict.
  set (n := packet_number (header packet)) in *.
  destruct (Z.ltb_spec n (smallest_packet_number ob)) as [Hlt|Hge]; [by rewrite decide_True by done|].
  rewrite decide_False by lia. rewrite u64_sub_small by int_lia.
  destruct (Z.leb_spec (Z.of_nat MAX_BUFFER_SIZE) (n - smallest_packet_number ob)) as [Hf|Hf];
    [by rewrite decide_True by lia|].
  rewrite decide_False by lia. set (i := Z.to_nat (n - smallest_packet_number ob)).
  assert (Hi : i < MAX_BUFFER_SIZE) by lia.
  destruct (packet_at_slot i Hi) as (o & -> & Ho). rewrite Ho. destruct o as [q|]; [done|].
  assert (Hslots : slots (with_packets ob (<[wrap_index (smallest_packet_number_index ob) i := Some packet]> (packets ob)))
                   = <[i := Some packet]> (slots ob)) by (by apply rotate_insert).
  split; [|split_and!; (done || lia)].
  split; simpl; [by rewrite length_insert|done|done| |done].
  intros j p. rewrite Hslots. destruct (decide (i = j)) as [<-|Hne].
  - rewrite list_lookup_insert_eq by (by rewrite length_slots). intros [= <-]. fold n. lia.
  - rewrite list_lookup_insert_ne by done. apply Hs.
Qed.

End Slots.

(** ** Draining *)

(** The packets that can be handed out: the contiguous prefix of the slots. *)
Fixpoint ready (l : list (option BluefinPacket)) : list BluefinPacket :=
  match l with
  | Some p :: l' => p :: ready l'
  | _ => []
  end.

Definition payloads (ps : list BluefinPacket) : bytes := concat (map payload ps).

(** The bytes that can be handed out now. *)
Definition available (ob : OrderedBytes) : bytes :=
  default [] (carry_over_bytes ob) ++ payloads (ready (slots ob)).

Lemma ready_snoc_None l : ready (l ++ [None]) = ready l.
Proof. induction l as [|[p|] l IH]; simpl; [done|by rewrite IH|done]. Qed.

Lemma ready_Nones l k : ready (l ++ replicate k None) = ready l.
Proof. induction l as [|[p|] l IH]; simpl; [by destruct k|by rewrite IH|done]. Qed.

Lemma length_ready l : length (ready l) <= length l.
Proof. induction l as [|[p|] l IH]; simpl; lia. Qed.

Lemma ready_drop k l : k <= length (ready l) -> ready (drop k l) = drop k (ready l).
Proof.
  revert l. induction k as [|k IH]; intros l; [done|].
  destruct l as [|[p|] l]; simpl; [lia| |lia]. intros H. apply IH. lia.
Qed.

Lemma ready_lookup l i p : ready l !! i = Some p -> l !! i = Some (Some p).
Proof.
  revert i. induction l as [|[q|] l IH]; intros i; simpl; [done| |done].
  destruct i as [|i]; simpl; [by intros [= ->]|apply IH].
Qed.

Lemma wf_with_carry ob c : wf_ob ob -> c <> Some [] -> wf_ob (with_carry ob c).
Proof. intros [] Hc. by split. Qed.

(** Releasing the front slot shifts the logical slots by one. *)
Lemma release_front ob p rest :
  wf_ob ob -> slots ob = Some p :: rest ->
  let ob' := release_slot ob (smallest_packet_number_index ob) (packet_number (header p)) in
  wf_ob ob' /\ slots ob' = rest ++ [None] /\
  smallest_packet_number ob' = (smallest_packet_number ob + 1)%Z.
Proof.
  intros Hwf Hs. pose proof Hwf as [Hl Hk Hsm Hsl Hc].
  pose proof (length_slots ob Hwf) as Hls.
  destruct (Hsl 0 p) as [Hpn Hmax]; [by rewrite Hs|].
  cbv zeta. set (ob' := release_slot _ _ _).
  assert (Hsm' : smallest_packet_number ob' = (smallest_packet_number ob + 1)%Z).
  { unfold ob'. simpl. rewrite Hpn, Z.add_0_r, u64_add_small by int_lia. done. }
  assert (Hslots : slots ob' = rest ++ [None]).
  { unfold ob', slots. simpl. rewrite rotate_next by (rewrite ?length_insert; done).
    replace (smallest_packet_number_index ob) with (wrap_index (smallest_packet_number_index ob) 0) at 2 4
      by (unfold wrap_index; rewrite decide_False by lia; lia).
    rewrite rotate_insert by (done || apply MAX_BUFFER_SIZE_pos).
    unfold slots in Hs. rewrite Hs. simpl. by rewrite drop_0. }
  split; [|done]. split; [by unfold ob'; simpl; rewrite length_insert| | |rewrite Hslots, Hsm'|done].
  - apply wrap_index_lt; [done|]. pose proof MAX_BUFFER_SIZE_pos. lia.
  - rewrite Hsm'. int_lia.
  - intros i q Hi. rewrite Hs in Hls. simpl in Hls.
    destruct (Hsl (S i) q) as [? ?]; [|split; lia].
    rewrite Hs. simpl. apply lookup_app_Some in Hi as [Hi|[Hle Hi]]; [done|].
    destruct (i - length rest) as [|[|]]; simplify_eq/=.
Qed.

(** How [n] bytes are taken from a list of packets: how many packets are
    emptied, the bytes, and what is left of the last packet. *)
Fixpoint drain (n : nat) (ps : list BluefinPacket) : nat * bytes * option bytes :=
  match ps with
  | [] => (0, [], None)
  | p :: ps' =>
      if decide (n = 0) then (0, [], None)
      else if decide (n < length (payload p)) then
        (1, take n (payload p), Some (drop n (payload p)))
      else
        let '(k, bs, c) := drain (n - length (payload p)) ps' in
        (S k, payload p ++ bs, c)
  end.

Lemma drain_spec n ps :
  let '(k, bs, c) := drain n ps in
  k <= length ps /\ bs = take n (payloads ps) /\
  default [] c ++ payloads (drop k ps) = drop n (payloads ps) /\ c <> Some [].
Proof.
  revert n. induction ps as [|p ps IH]; intros n; simpl.
  - unfold payloads. simpl. by rewrite take_nil, drop_nil.
  - unfold payloads in *. simpl. case_decide as Hz; [subst n; split_and!; (done || lia)|].
    case_decide as Hp.
    + rewrite take_app_le, drop_app_le by lia. split_and!; [lia|done|done|].
      intros [=Hd]. apply (f_equal length) in Hd. rewrite length_drop in Hd. simpl in Hd. lia.
    + specialize (IH (n - length (payload p))). destruct (drain _ ps) as [[k bs] c].
      destruct IH as (Hk & -> & Hc & Hne). rewrite take_app_ge, drop_app_ge by lia.
      split_and!; [lia|done|done|done].
Qed.

(** The state of the loop of [consume]: [pre] has been written. *)
Record consuming (base len : nat) (s : consume_state) (pre rest : bytes) : Prop := {
  con_wf : wf_ob (cs_ob s);
  con_index : smallest_packet_number_index (cs_ob s) = wrap_index base (cs_ix s);
  con_base : base < MAX_BUFFER_SIZE;
  con_ix : cs_ix s + length (ready (slots (cs_ob s))) <= MAX_BUFFER_SIZE;
  con_num : cs_num_bytes s = length pre /\ cs_writer_ix s = length pre;
  con_buf : cs_buf s = pre ++ rest;
  con_room : length pre <= len <= length pre + length rest;
}.

Lemma consuming_slot base len s pre rest :
  consuming base len s pre rest -> cs_ix s < MAX_BUFFER_SIZE ->
  exists o, packet_at (cs_ob s) (wrap_index base (cs_ix s)) = Ok o /\ slots (cs_ob s) !! 0 = Some o.
Proof. intros [] Hix. rewrite <- con_index0. by apply packet_at_front. Qed.

(** The loop is left when no packet is ready or the caller's bytes are full. *)
Lemma consume_loop_stop base len s pre rest fuel :
  consuming base len s pre rest ->
  ready (slots (cs_ob s)) = [] \/ length pre = len ->
  loop (S fuel) (consume_step base len) s = Ok s.
Proof.
  intros Hs Hstop. rewrite loop_S. unfold consume_step. case_decide as Hix; [|done].
  destruct (consuming_slot _ _ _ _ _ Hs Hix) as (o & -> & Ho). cbn [outcome_bind].
  destruct o as [p|]; [|done]. destruct Hs. destruct con_num0 as [-> _].
  case_decide; [|done]. destruct Hstop as [Hr|]; [|lia].
  destruct (slots (cs_ob s)) as [|[q|] l]; simplify_eq/=.
Qed.

(** What the loop leaves behind. *)
Definition drained (ob ob' : OrderedBytes) (k : nat) (c : option bytes) : Prop :=
  wf_ob ob' /\ slots ob' = drop k (slots ob) ++ replicate k None /\
  smallest_packet_number ob' = (smallest_packet_number ob + Z.of_nat k)%Z /\
  carry_over_bytes ob' = c /\ ob_conn_id ob' = ob_conn_id ob.

(** One round of the drain loops on the buffer. *)
Lemma drained_step ob p rest c k ob' :
  wf_ob ob -> slots ob = Some p :: rest -> c <> Some [] ->
  let ob1 := release_slot (with_carry ob c) (smallest_packet_number_index ob) (packet_number (header p)) in
  (wf_ob ob1 /\ slots ob1 = rest ++ [None] /\ carry_over_bytes ob1 = c) /\
  (k <= length (ready rest) -> forall c', drained ob1 ob' k c' -> drained ob ob' (S k) c').
Proof.
  intros Hwf Hs Hc. cbv zeta.
  destruct (release_front (with_carry ob c) p rest (wf_with_carry _ _ Hwf Hc) Hs) as (H1 & H2 & H3).
  change (smallest_packet_number_index (with_carry ob c)) with (smallest_packet_number_index ob) in *.
  split; [done|]. intros Hk c' (Hwf' & Hs' & Hsm' & Hc' & Hid).
  split_and!; [done| |rewrite Hsm', H3; simpl; lia|done|by rewrite Hid].
  rewrite Hs', H2, Hs. simpl. pose proof (length_ready rest).
  rewrite drop_app_le by lia. by rewrite <- app_assoc.
Qed.

Lemma with_carry_same ob : with_carry ob (carry_over_bytes ob) = ob.
Proof. by destruct ob. Qed.

Lemma drained_refl ob : wf_ob ob -> carry_over_bytes ob = None -> drained ob ob 0 None.
Proof. intros Hwf Hc. split_and!; [done|by rewrite app_nil_r|lia|done|done]. Qed.

(** One round of the loop. *)
Lemma consume_round base len s pre rest q l :
  consuming base len s pre rest -> carry_over_bytes (cs_ob s) = None ->
  slots (cs_ob s) = Some q :: l -> length pre < len ->
  let n := len - length pre in
  let c := if decide (n < length (payload q)) then Some (drop n (payload q)) else None in
  let bs := take n (payload q) in
  exists s1, consume_step base len s = Ok (Next s1) /\
    cs_ob s1 = release_slot (with_carry (cs_ob s) c) (smallest_packet_number_index (cs_ob s))
                 (packet_number (header q)) /\
    cs_ix s1 = cs_ix s + 1 /\ c <> Some [] /\
    consuming base len s1 (pre ++ bs) (drop (length bs) rest).
Proof.
  intros Hs Hcarry Hsl Hlt. cbv zeta.
  pose proof Hs as [Hwf Hidx Hbase Hix [Hnum Hwr] Hbuf Hroom].
  rewrite Hsl in Hix. cbn [ready length] in Hix.
  destruct (consuming_slot _ _ _ _ _ Hs ltac:(lia)) as (o & Hat & Ho).
  rewrite Hsl in Ho. simpl in Ho. injection Ho as <-.
  set (n := len - length pre). set (c := if decide (n < length (payload q)) then _ else _).
  set (bs := take n (payload q)).
  assert (Hc : c <> Some []).
  { unfold c. case_decide; [|done]. intros [=Hd]. apply (f_equal length) in Hd.
    rewrite length_drop in Hd. simpl in Hd. lia. }
  destruct (drained_step (cs_ob s) q l c 0 (cs_ob s) Hwf Hsl Hc) as [(Hwf1 & Hs1 & _) _].
  set (ob1 := release_slot _ _ _) in *.
  assert (Hlen : length bs = n `min` length (payload q)) by apply length_take.
  exists {| cs_ob := ob1; cs_buf := (pre ++ bs) ++ drop (length bs) rest;
            cs_num_bytes := length (pre ++ bs); cs_writer_ix := length (pre ++ bs); cs_ix := cs_ix s + 1 |}.
  split; [|split_and!; [done|done|done|]].
  - unfold consume_step. rewrite (decide_True (P := cs_ix s < _)), Hat by lia. cbn [outcome_bind].
    rewrite (decide_True (P := cs_num_bytes s < len)), Hnum, Hwr, Hbuf by lia.
    rewrite <- Hidx. fold n. unfold c in ob1. case_decide as Hp.
    + fold bs. rewrite buf_write_prefix by lia. cbn [outcome_bind].
      replace n with (length bs) at 2 3 by lia. rewrite <- length_app. done.
    + assert (Hbs : payload q = bs) by (symmetry; apply take_ge; lia). clearbody bs. rewrite Hbs.
      rewrite buf_write_prefix by lia. cbn [outcome_bind]. rewrite <- length_app.
      unfold ob1. by rewrite <- Hcarry, with_carry_same.
  - split; cbn [cs_ob cs_ix cs_num_bytes cs_writer_ix cs_buf]; [done| |done| |done|done|].
    + unfold ob1. simpl. rewrite Hidx. unfold wrap_index. repeat case_decide; lia.
    + rewrite Hs1, ready_snoc_None. lia.
    + rewrite length_app, length_drop. lia.
Qed.

Lemma consume_loop_spec base len ps fuel s pre rest :
  consuming base len s pre rest -> carry_over_bytes (cs_ob s) = None ->
  ps = ready (slots (cs_ob s)) -> length ps < fuel ->
  let '(k, bs, c) := drain (len - length pre) ps in
  exists s', loop fuel (consume_step base len) s = Ok s' /\
    drained (cs_ob s) (cs_ob s') k c /\
    cs_num_bytes s' = length pre + length bs /\ cs_ix s' = cs_ix s + k /\
    cs_buf s' = pre ++ bs ++ drop (length bs) rest.
Proof.
  revert fuel s pre rest. induction ps as [|p ps IH]; intros fuel s pre rest Hs Hcarry Hps Hfuel;
    (destruct fuel as [|fuel]; [simpl in Hfuel; lia|]).
  - cbn [drain]. exists s. rewrite (consume_loop_stop _ _ _ _ _ _ Hs) by auto. destruct Hs.
    split_and!; [done|by apply drained_refl|simpl; lia|lia|done].
  - cbn [drain]. case_decide as Hz.
    { exists s. rewrite (consume_loop_stop _ _ _ _ _ _ Hs) by (right; destruct Hs; lia). destruct Hs.
      split_and!; [done|by apply drained_refl|simpl; lia|lia|done]. }
    destruct (slots (cs_ob s)) as [|[q|] l] eqn:Hsl; [done| |done]. injection Hps as -> ->.
    destruct (consume_round _ _ _ _ _ q l Hs Hcarry Hsl ltac:(lia)) as (s1 & Hstep & Hob1 & Hix1 & Hc & Hs1).
    destruct (drained_step (cs_ob s) q l _ 0 (cs_ob s1) (con_wf _ _ _ _ _ Hs) Hsl Hc) as [(Hw1 & Hsl1 & Hc1) _].
    rewrite <- Hob1 in Hw1, Hsl1, Hc1. rewrite loop_S, Hstep. simpl in Hfuel.
    case_decide as Hp.
    + destruct fuel as [|fuel]; [lia|].
      rewrite (consume_loop_stop _ _ _ _ _ _ Hs1); cycle 1.
      { right. rewrite length_app, length_take. lia. }
      exists s1. pose proof (con_buf _ _ _ _ _ Hs1) as ->. destruct (con_num _ _ _ _ _ Hs1) as [-> _].
      split_and!; [done| |by rewrite length_app|lia|by rewrite <- app_assoc].
      eapply (drained_step (cs_ob s) q l); [by destruct Hs|done|done|lia|]. rewrite <- Hob1.
      split_and!; [done|by rewrite app_nil_r|lia|done|done].
    + rewrite take_ge in Hs1 by lia.
      specialize (IH fuel s1 _ _ Hs1 Hc1 ltac:(by rewrite Hsl1, ready_snoc_None) ltac:(lia)).
      rewrite length_app in IH.
      rewrite <- Nat.sub_add_distr.
      pose proof (drain_spec (len - (length pre + length (payload q))) (ready l)) as Hd.
      destruct (drain _ (ready l)) as [[k bs] c]. destruct Hd as [Hk _].
      destruct IH as (s' & Hloop & Hdr & Hnum & Hix & Hbuf). exists s'.
      split_and!; [done| |rewrite Hnum, length_app; lia|lia|].
      * eapply (drained_step (cs_ob s) q l); [by destruct Hs|done|done|done|]. by rewrite <- Hob1.
      * rewrite Hbuf, length_app, drop_drop. by rewrite <- !app_assoc.
Qed.

(** [bs] was handed out and [k] packets were released: what is left is the
    rest of the stream. *)
Record delivers (ob ob' : OrderedBytes) (bs : bytes) (k : nat) : Prop := {
  dl_wf : wf_ob ob';
  dl_count : k <= length (ready (slots ob));
  dl_slots : slots ob' = drop k (slots ob) ++ replicate k None;
  dl_smallest : smallest_packet_number ob' = (smallest_packet_number ob + Z.of_nat k)%Z;
  dl_bytes : bs ++ default [] (carry_over_bytes ob') =
             default [] (carry_over_bytes ob) ++ payloads (take k (ready (slots ob)));
  dl_id : ob_conn_id ob' = ob_conn_id ob;
}.

Lemma payloads_app ps qs : payloads (ps ++ qs) = payloads ps ++ payloads qs.
Proof. unfold payloads. by rewrite map_app, concat_app. Qed.

Lemma delivers_ready ob ob' bs k :
  delivers ob ob' bs k -> ready (slots ob') = drop k (ready (slots ob)).
Proof. intros []. by rewrite dl_slots0, ready_Nones, ready_drop. Qed.

Lemma delivers_available ob ob' bs k :
  delivers ob ob' bs k -> available ob = bs ++ available ob'.
Proof.
  intros H. unfold available. rewrite (delivers_ready _ _ _ _ H), app_assoc.
  rewrite (dl_bytes _ _ _ _ H), <- app_assoc, <- payloads_app. by rewrite take_drop.
Qed.

Lemma base_number_spec ob :
  wf_ob ob ->
  exists b, base_number ob = Ok b /\ (ready (slots ob) <> [] -> b = smallest_packet_number ob).
Proof.
  intros Hwf. unfold base_number. destruct (packet_at_front ob Hwf) as (o & -> & Ho).
  cbn [outcome_bind]. eexists. split; [done|]. intros Hr.
  destruct o as [p|]; [|destruct (slots ob) as [|[]]; simplify_eq/=].
  destruct (wf_slots _ Hwf 0 p Ho) as [-> _]. lia.
Qed.

Lemma consume_packets_spec ob len pre rest :
  wf_ob ob -> carry_over_bytes ob = None -> length pre <= len <= length pre + length rest ->
  let bs := take (len - length pre) (payloads (ready (slots ob))) in
  exists r ob' k b,
    consume_packets ob len (pre ++ rest) (length pre) = Ok (r, ob', pre ++ bs ++ drop (length bs) rest) /\
    delivers ob ob' bs k /\ (0 < k -> b = smallest_packet_number ob) /\
    r = if decide (length pre + length bs = 0) then Err BufferEmptyError
        else Ok {| num_packets_consumed := k; base_packet_number := b;
                   bytes_consumed := length pre + length bs |}.
Proof.
  intros Hwf Hc Hlen. cbv zeta. unfold consume_packets.
  destruct (base_number_spec ob Hwf) as (b & -> & Hb). cbn [outcome_bind].
  set (s := {| cs_ob := ob |}).
  pose proof (length_slots ob Hwf) as Hls. pose proof (length_ready (slots ob)) as Hlr.
  assert (Hs : consuming (smallest_packet_number_index ob) len s pre rest).
  { destruct Hwf. split; simpl; (done || lia || idtac). unfold wrap_index. rewrite decide_False; lia. }
  pose proof (consume_loop_spec _ len (ready (slots ob)) (MAX_BUFFER_SIZE + 1) s pre rest Hs Hc eq_refl ltac:(lia)) as Hloop.
  pose proof (drain_spec (len - length pre) (ready (slots ob))) as Hd.
  change (cs_ob s) with ob in *. destruct (drain _ _) as [[k bs] c].
  destruct Hd as (Hk & -> & Hrest & Hne). destruct Hloop as (s' & -> & Hdr & Hnum & Hix & Hbuf).
  cbn [outcome_bind]. destruct Hdr as (Hw' & Hsl' & Hsm' & Hc' & Hid). simpl in Hix.
  exists (if decide (length pre + length (take (len - length pre) (payloads (ready (slots ob)))) = 0)
          then Err BufferEmptyError
          else Ok {| num_packets_consumed := k; base_packet_number := b;
                     bytes_consumed := length pre + length (take (len - length pre) (payloads (ready (slots ob)))) |}),
    (cs_ob s'), k, b. rewrite Hnum, Hix, Hbuf.
  split_and!; [by case_decide| | |done].
  - split; [done|done|done|done| |done]. rewrite Hc, Hc'. cbn [from_option id].
    apply (inj (fun l => l ++ payloads (drop k (ready (slots ob))))). simpl.
    rewrite <- app_assoc, Hrest, take_drop, <- payloads_app. by rewrite take_drop.
  - intros Hk0. apply Hb. intros Hnil. rewrite Hnil in Hk. simpl in Hk. lia.
Qed.

(** [consume] on every branch: it never panics when the caller's slice has
    room for [len] bytes, hands out the first [len] available bytes, and fails
    only when there is nothing to hand out. *)
Lemma consume_ok ob len buf :
  wf_ob ob -> len <= length buf ->
  let bs := take len (available ob) in
  exists r ob' k b,
    OrderedBytes_consume ob len buf = Ok (r, ob', bs ++ drop (length bs) buf) /\
    delivers ob ob' bs k /\ (0 < k -> b = smallest_packet_number ob) /\
    r = if decide (bs = [] /\ carry_over_bytes ob = None) then Err BufferEmptyError
        else Ok {| num_packets_consumed := k; base_packet_number := b; bytes_consumed := length bs |}.
Proof.
  intros Hwf Hlen. cbv zeta. unfold OrderedBytes_consume, available.
  destruct (carry_over_bytes ob) as [c|] eqn:Hc; cbn [from_option id].
  - pose proof (wf_carry _ Hwf) as Hne. rewrite Hc in Hne.
    case_decide as Hcl.
    + rewrite (buf_write_prefix [] c buf) by (simpl; lia). simpl (([] ++ c) ++ _). cbn [outcome_bind].
      destruct (consume_packets_spec (with_carry ob None) len c (drop (length c) buf))
        as (r & ob' & k & b & -> & Hdl & Hb & ->); [by apply wf_with_carry|done|rewrite length_drop; lia|].
      change (slots (with_carry ob None)) with (slots ob) in *.
      rewrite take_app_ge by done. set (bs := take (len - length c) _) in *.
      rewrite decide_False by (destruct c; [done|simpl; lia]).
      do 4 eexists. split; [|split_and!; [|exact Hb|rewrite decide_False by naive_solver; by rewrite length_app]].
      * by rewrite drop_drop, length_app, <- app_assoc.
      * destruct Hdl as [H1 H2 H3 H4 H5 H6]. split; [done..| |done].
        rewrite Hc, <- app_assoc. cbn [from_option id]. f_equal. exact H5.
    + rewrite (buf_write_prefix [] _ buf) by (simpl; rewrite ?length_take; lia). cbn [outcome_bind].
      rewrite take_app_le by lia. exists (Ok {| num_packets_consumed := 0; base_packet_number := 0;
        bytes_consumed := length (take len c) |}), (with_carry ob (Some (drop len c))), 0, 0%Z.
      split_and!; [|split|lia|by rewrite decide_False by naive_solver]; simpl.
      * by replace (length (take len c)) with len by (rewrite length_take; lia).
      * apply wf_with_carry; [done|]. intros [=Hd]. apply (f_equal length) in Hd.
        rewrite length_drop in Hd. simpl in Hd. lia.
      * lia.
      * by rewrite app_nil_r.
      * lia.
      * rewrite Hc. simpl. unfold payloads. simpl. by rewrite take_drop, app_nil_r.
      * done.
  - destruct (consume_packets_spec ob len [] buf Hwf Hc) as (r & ob' & k & b & Heq & Hdl & Hb & ->);
      [simpl; lia|]. simpl in *. rewrite Heq. rewrite Nat.sub_0_r in *.
    set (bs := take len _) in *. do 4 eexists. split_and!; [done|done|done|].
    destruct (decide (length bs = 0)) as [Hz|Hz].
    + rewrite decide_True; [done|]. split; [by apply length_zero_iff_nil|done].
    + rewrite decide_False; [done|]. intros [Hz' _]. by rewrite Hz' in Hz.
Qed.

Lemma consume_bytes_loop base init maxp ps fuel s m :
  wf_ob (ds_ob s) -> base < MAX_BUFFER_SIZE ->
  smallest_packet_number_index (ds_ob s) = wrap_index base (ds_ix s) ->
  ds_ix s + length ps <= MAX_BUFFER_SIZE ->
  carry_over_bytes (ds_ob s) = None -> ps = ready (slots (ds_ob s)) -> length ps < fuel ->
  m = maxp - (length (ds_out s) - init) -> init <= length (ds_out s) ->
  exists s', loop fuel (consume_bytes_step base init maxp) s = Ok s' /\
    drained (ds_ob s) (ds_ob s') (m `min` length ps) None /\
    ds_out s' = ds_out s ++ map payload (take m ps) /\
    ds_total s' = ds_total s + length (payloads (take m ps)) /\
    ds_ix s' = ds_ix s + m `min` length ps.
Proof.
  revert fuel s m. induction ps as [|p ps IH]; intros fuel s m Hwf Hbase Hidx Hix Hc Hps Hfuel Hm Hinit;
    (destruct fuel as [|fuel]; [simpl in Hfuel; lia|]); rewrite loop_S; unfold consume_bytes_step at 1.
  - exists s. rewrite Nat.min_0_r, take_nil, app_nil_r. split; [|split_and!; [by apply drained_refl|done|simpl; lia..]].
    case_decide as Hd; [|done]. rewrite <- Hidx.
    destruct (packet_at_front _ Hwf) as (o & -> & Ho). cbn [outcome_bind].
    destruct o; [|done]. destruct (slots (ds_ob s)) as [|[]]; simplify_eq/=.
  - simpl in Hix, Hfuel. destruct (slots (ds_ob s)) as [|[q|] l] eqn:Hsl; [done| |done].
    injection Hps as -> ->. case_decide as Hd.
    + rewrite <- Hidx. destruct (packet_at_front _ Hwf) as (o & -> & Ho). cbn [outcome_bind].
      rewrite Hsl in Ho. injection Ho as <-.
      assert (Hcs : with_carry (ds_ob s) None = ds_ob s) by (rewrite <- Hc; apply with_carry_same).
      destruct m as [|m]; [lia|].
      assert (Hstep := fun ob' => drained_step (ds_ob s) q l None (m `min` length (ready l)) ob' Hwf Hsl
                                    ltac:(done)).
      cbv zeta in Hstep. rewrite Hcs in Hstep.
      destruct (Hstep (ds_ob s)) as [(Hw1 & Hsl1 & Hc1) _].
      set (ob1 := release_slot _ _ _) in *.
      destruct (IH fuel {| ds_ob := ob1; ds_out := ds_out s ++ [payload q];
                           ds_total := ds_total s + length (payload q); ds_ix := ds_ix s + 1 |} m)
        as (s' & -> & Hdr & Hout & Htot & Hix'); cbn [ds_ob ds_ix ds_out ds_total] in *;
        [done|done| |lia|done|by rewrite Hsl1, ready_snoc_None|lia|rewrite length_app; simpl; lia..|].
      * unfold ob1. simpl. rewrite Hidx. unfold wrap_index. repeat case_decide; lia.
      * exists s'. split_and!; [done| | | |simpl; lia].
        -- apply (Hstep (ds_ob s')); [lia|exact Hdr].
        -- rewrite Hout, <- app_assoc. done.
        -- rewrite Htot. unfold payloads. simpl. rewrite length_app. lia.
    + assert (m = 0) as -> by lia. exists s. rewrite Nat.min_0_l, app_nil_r.
      split_and!; [done|by apply drained_refl|done|simpl; lia..].
Qed.

(** The elements [consume_bytes] pushes. *)
Definition pushed (ob : OrderedBytes) (max_packets : nat) : list bytes :=
  let cs := match carry_over_bytes ob with Some c => [c] | None => [] end in
  cs ++ map payload (take (max_packets - length cs) (ready (slots ob))).

Lemma consume_bytes_ok ob out maxp :
  wf_ob ob ->
  exists r ob' k b,
    OrderedBytes_consume_bytes ob out maxp = Ok (r, ob', out ++ pushed ob maxp) /\
    delivers ob ob' (concat (pushed ob maxp)) k /\ carry_over_bytes ob' = None /\
    (0 < k -> b = smallest_packet_number ob) /\
    r = if decide (pushed ob maxp = []) then Err BufferEmptyError
        else Ok {| num_packets_consumed := k; base_packet_number := b;
                   bytes_consumed := length (concat (pushed ob maxp)) |}.
Proof.
  intros Hwf. unfold OrderedBytes_consume_bytes, pushed.
  set (cs := match carry_over_bytes ob with Some c => [c] | None => [] end).
  assert (Hinit : match carry_over_bytes ob with
                  | Some c => (length c, out ++ [c], with_carry ob None)
                  | None => (0, out, ob) end = (length (concat cs), out ++ cs, with_carry ob None)).
  { unfold cs. destruct (carry_over_bytes ob) eqn:Hc; simpl; [by rewrite app_nil_r|].
    by rewrite app_nil_r, <- Hc, with_carry_same. }
  rewrite Hinit. set (ob0 := with_carry ob None). assert (Hwf0 : wf_ob ob0) by (by apply wf_with_carry).
  destruct (base_number_spec ob0 Hwf0) as (b & -> & Hb). cbn [outcome_bind].
  pose proof (length_slots ob Hwf) as Hls. pose proof (length_ready (slots ob)) as Hlr.
  set (m := maxp - length cs). set (ps := take m (ready (slots ob))).
  destruct (consume_bytes_loop (smallest_packet_number_index ob0) (length out) maxp (ready (slots ob))
              (MAX_BUFFER_SIZE + 1)
              {| ds_ob := ob0; ds_out := out ++ cs; ds_total := length (concat cs); ds_ix := 0 |} m)
    as (s' & -> & Hdr & Hout & Htot & Hix'); cbn [ds_ob ds_ix ds_out ds_total] in *;
    [done|by destruct Hwf| |simpl; lia|done|done|lia|rewrite length_app; lia..|].
  { destruct Hwf. unfold wrap_index. rewrite decide_False; simpl; lia. }
  fold ps in Hout, Htot. cbn [outcome_bind]. destruct Hdr as (Hw' & Hsl' & Hsm' & Hc' & Hid).
  rewrite Hout, Htot, Hix', <- app_assoc.
  exists (if decide (cs ++ map payload ps = []) then Err BufferEmptyError
          else Ok {| num_packets_consumed := m `min` length (ready (slots ob)); base_packet_number := b;
                     bytes_consumed := length (concat (cs ++ map payload ps)) |}),
    (ds_ob s'), (m `min` length (ready (slots ob))), b.
  split_and!; [| |done| |done].
  - replace (length (concat cs) + length (payloads ps)) with (length (concat (cs ++ map payload ps)))
      by (by rewrite concat_app, length_app).
    rewrite (length_app out). destruct (cs ++ map payload ps); simpl length;
      [rewrite decide_True by lia|rewrite decide_False by lia]; done.
  - split; [done|lia|done|done| |done]. rewrite Hc'. cbn [from_option id].
    rewrite app_nil_r, concat_app. f_equal.
    + unfold cs. destruct (carry_over_bytes ob); simpl; [apply app_nil_r|done].
    + unfold payloads, ps. f_equal. f_equal.
      destruct (decide (m <= length (ready (slots ob)))); [by rewrite Nat.min_l|].
      rewrite Nat.min_r, !take_ge by lia. done.
  - intros Hk. apply Hb. change (slots ob0) with (slots ob). intros Hn. rewrite Hn in Hk. simpl in Hk. lia.
Qed.

Lemma peek_spec ob :
  wf_ob ob ->
  OrderedBytes_peek ob =
    if decide (carry_over_bytes ob = None /\ ready (slots ob) = []) then Err BufferEmptyError else Ok tt.
Proof.
  intros Hwf. unfold OrderedBytes_peek. destruct (carry_over_bytes ob); [by rewrite decide_False by naive_solver|].
  destruct (packet_at_front ob Hwf) as (o & -> & Ho). cbn [outcome_bind].
  destruct (slots ob) as [|x l]; simplify_eq/=. destruct o; [by rewrite decide_False by naive_solver|].
  by rewrite decide_True.
Qed.

(** ** Traces

    A receiver's history: packets arrive, in any order and any number of
    times, and the application reads.  [delivered] is what it was handed. *)
Inductive ob_op : Type :=
  | Arrive (p : BluefinPacket)
  | Read (len : nat)
  | ReadBytes (max_packets : nat).

Definition run_ob_op (s : OrderedBytes * bytes) (op : ob_op) : BluefinResult (OrderedBytes * bytes) :=
  let '(ob, delivered) := s in
  (match op with
   | Arrive p =>
       match OrderedBytes_buffer_in_packet ob p with
       | (Panic, _) => Panic
       | (_, ob') => Ok (ob', delivered)
       end
   | Read len =>
       let? (r, ob', buf) := OrderedBytes_consume ob len (replicate len 0%Z) in
       Ok (ob', delivered ++ match r with Ok c => take (bytes_consumed c) buf | _ => [] end)
   | ReadBytes max_packets =>
       let? (r, ob', out) := OrderedBytes_consume_bytes ob [] max_packets in
       Ok (ob', delivered ++ concat out)
   end)%rust.

Fixpoint run_ob (s : OrderedBytes * bytes) (ops : list ob_op) : BluefinResult (OrderedBytes * bytes) :=
  (match ops with
   | [] => Ok s
   | op :: ops' => let? s' := run_ob_op s op in run_ob s' ops'
   end)%rust.

Section Stream.
(** The sender's stream: packet [start + i] carries [pay i]. *)
Context (start : Z) (pay : nat -> bytes).

Definition genuine (p : BluefinPacket) : Prop :=
  (0 <= packet_number (header p) < 2 ^ 64 - 1)%Z /\
  forall i : nat, packet_number (header p) = (start + Z.of_nat i)%Z -> payload p = pay i.

Definition op_genuine (op : ob_op) : Prop :=
  match op with Arrive p => genuine p | _ => True end.

Definition stream_prefix (k : nat) : bytes := concat (map pay (seq 0 k)).

Definition stream_inv (s : OrderedBytes * bytes) : Prop :=
  let '(ob, delivered) := s in
  wf_ob ob /\
  exists k : nat, smallest_packet_number ob = (start + Z.of_nat k)%Z /\
    (forall i p, slots ob !! i = Some (Some p) -> payload p = pay (k + i)) /\
    delivered ++ default [] (carry_over_bytes ob) = stream_prefix k.

Lemma stream_prefix_add k n : stream_prefix (k + n) = stream_prefix k ++ concat (map pay (seq k n)).
Proof. unfold stream_prefix. by rewrite seq_app, map_app, concat_app. Qed.

(** The payloads of the packets that are ready continue the stream. *)
Lemma ready_stream l k n :
  (forall i p, l !! i = Some (Some p) -> payload p = pay (k + i)) -> n <= length (ready l) ->
  payloads (take n (ready l)) = concat (map pay (seq k n)).
Proof.
  intros Hl Hn. unfold payloads. f_equal. apply list_eq. intros i. rewrite !list_lookup_fmap.
  destruct (decide (i < n)) as [Hi|Hi].
  - rewrite lookup_take_lt, lookup_seq_lt by done.
    destruct (lookup_lt_is_Some_2 (ready l) i) as [p Hp]; [lia|]. rewrite Hp. simpl. f_equal.
    by apply Hl, ready_lookup.
  - rewrite !lookup_ge_None_2; [done|rewrite length_seq; lia|rewrite length_take; lia].
Qed.

Lemma stream_inv_delivers ob ob' delivered bs k :
  stream_inv (ob, delivered) -> delivers ob ob' bs k -> stream_inv (ob', delivered ++ bs).
Proof.
  intros [_ (n & Hsm & Hp & Hd)] [H1 H2 H3 H4 H5 _]. split; [done|]. exists (n + k).
  split_and!; [lia| |].
  - intros i p. rewrite H3. intros Hi. apply lookup_app_Some in Hi as [Hi|[_ Hi]].
    + rewrite lookup_drop in Hi. rewrite (Hp _ _ Hi). f_equal. lia.
    + apply lookup_replicate in Hi as [? _]. done.
  - rewrite <- app_assoc, H5, app_assoc, Hd, stream_prefix_add. f_equal. by apply ready_stream.
Qed.

Lemma stream_inv_arrive ob delivered p :
  stream_inv (ob, delivered) -> genuine p ->
  let '(r, ob') := OrderedBytes_buffer_in_packet ob p in
  r <> Panic /\ stream_inv (ob', delivered).
Proof.
  intros [Hwf (n & Hsm & Hp & Hd)] [Hr Hg].
  pose proof (buffer_in_packet_spec ob Hwf p Hr) as H.
  destruct (OrderedBytes_buffer_in_packet ob p) as [r ob']. destruct H as [Hwf' H].
  destruct (buffer_verdict ob _) as [i|e| |]; [|destruct H as [-> ->]; split; [done|split; eauto]|done..].
  destruct H as (-> & Hi & _ & Hpn & Hs & Hsm' & Hc). split; [done|]. split; [done|]. exists n.
  rewrite Hsm', Hc. split_and!; [done| |done]. intros j q. rewrite Hs.
  destruct (decide (i = j)) as [<-|Hne].
  - rewrite list_lookup_insert_eq by (rewrite length_slots; done). intros [= <-]. apply Hg. lia.
  - rewrite list_lookup_insert_ne by done. apply Hp.
Qed.

Lemma stream_inv_op s op :
  stream_inv s -> op_genuine op -> exists s', run_ob_op s op = Ok s' /\ stream_inv s'.
Proof.
  destruct s as [ob delivered]. intros Hinv Hop. pose proof Hinv as [Hwf _].
  destruct op as [p|len|maxp]; simpl.
  - pose proof (stream_inv_arrive ob delivered p Hinv Hop) as H.
    destruct (OrderedBytes_buffer_in_packet ob p) as [[]  ob']; destruct H; eauto; done.
  - destruct (consume_ok ob len (replicate len 0%Z) Hwf) as (r & ob' & k & b & -> & Hdl & _ & ->);
      [by rewrite length_replicate|]. cbn [outcome_bind].
    eexists. split; [done|]. case_decide as Hd.
    + destruct Hd as [Hd _]. rewrite Hd in Hdl. eapply stream_inv_delivers; eauto.
    + cbn [bytes_consumed]. rewrite take_app_length. eapply stream_inv_delivers; eauto.
  - destruct (consume_bytes_ok ob [] maxp Hwf) as (r & ob' & k & b & -> & Hdl & _). cbn [outcome_bind].
    eexists. split; [done|]. eapply stream_inv_delivers; eauto.
Qed.

Lemma stream_inv_run ops s :
  stream_inv s -> Forall op_genuine ops -> exists s', run_ob s ops = Ok s' /\ stream_inv s'.
Proof.
  intros Hs Hops. revert s Hs. induction Hops as [|op ops Hop _ IH]; intros s Hs; simpl; [eauto|].
  destruct (stream_inv_op s op Hs Hop) as (s' & -> & Hs'). by apply IH.
Qed.

Lemma stream_inv_new conn_id : is_u64 start -> stream_inv (OrderedBytes_new conn_id start, []).
Proof.
  intros Hs. split; [by apply wf_ob_new|]. exists 0. simpl. split_and!; [lia| |done].
  intros i p. rewrite slots_new. intros H. apply lookup_replicate in H as [? _]. done.
Qed.

(** ** Arrivals in any order *)

Definition arrive_all (ob : OrderedBytes) (ps : list BluefinPacket) : OrderedBytes :=
  foldl (fun ob p => snd (OrderedBytes_buffer_in_packet ob p)) ob ps.

(** After a batch of arrivals at an untouched buffer a slot is filled exactly
    when its packet number arrived. *)
Lemma arrive_all_filled ps ob :
  stream_inv (ob, []) -> carry_over_bytes ob = None -> smallest_packet_number ob = start ->
  Forall genuine ps ->
  let ob' := arrive_all ob ps in
  stream_inv (ob', []) /\ carry_over_bytes ob' = None /\ smallest_packet_number ob' = start /\
  forall i, i < MAX_BUFFER_SIZE ->
    (exists p, slots ob' !! i = Some (Some p)) <->
    (exists p, slots ob !! i = Some (Some p)) \/
    (exists p, p ∈ ps /\ packet_number (header p) = (start + Z.of_nat i)%Z).
Proof.
  intros Hinv Hc Hsm Hps. revert ob Hinv Hc Hsm. induction Hps as [|p ps Hp _ IH]; intros ob Hinv Hc Hsm.
  - split; [exact Hinv|]. split; [exact Hc|]. split; [exact Hsm|].
    intros i Hi. split; [auto|]. intros [?|(p & Hp & _)]; [done|].
    by apply not_elem_of_nil in Hp.
  - pose proof (stream_inv_arrive ob [] p Hinv Hp) as Harr. destruct Hinv as [Hwf _].
    pose proof (buffer_in_packet_spec ob Hwf p (proj1 Hp)) as Hspec.
    cbn [arrive_all foldl]. fold (arrive_all (snd (OrderedBytes_buffer_in_packet ob p)) ps).
    destruct (OrderedBytes_buffer_in_packet ob p) as [r ob1]. cbn [snd].
    destruct Harr as [_ Hinv1]. destruct Hspec as [_ Hspec].
    assert (H1 : carry_over_bytes ob1 = None /\ smallest_packet_number ob1 = start /\
      forall i, i < MAX_BUFFER_SIZE ->
        (exists q, slots ob1 !! i = Some (Some q)) <->
        (exists q, slots ob !! i = Some (Some q)) \/ packet_number (header p) = (start + Z.of_nat i)%Z).
    { unfold buffer_verdict in Hspec. rewrite Hsm in Hspec. repeat case_decide.
      - destruct Hspec as [_ ->]. split_and!; [done..|]. intros i Hi. split; [auto|].
        intros [?|?]; [done|lia].
      - destruct Hspec as [_ ->]. split_and!; [done..|]. intros i Hi. split; [auto|].
        intros [?|?]; [done|lia].
      - destruct (slots ob !! _) as [[q|]|] eqn:Hq.
        + destruct Hspec as [_ ->]. split_and!; [done..|]. intros i Hi. split; [auto|].
          intros [?|Hpi]; [done|]. exists q. rewrite <- Hq. f_equal. lia.
        + destruct Hspec as (_ & Hlt & _ & Hpn & Hs & -> & ->). split_and!; [done..|].
          intros i Hi. rewrite Hs. destruct (decide (Z.to_nat (packet_number (header p) - start) = i)) as [<-|Hne].
          * rewrite list_lookup_insert_eq by (rewrite length_slots; done).
            split; [intros _; right; lia|eauto].
          * rewrite list_lookup_insert_ne by done. split; [auto|]. intros [?|?]; [done|lia].
        + destruct Hspec as (_ & _ & ? & _). congruence. }
    destruct H1 as (Hc1 & Hsm1 & Hfill). destruct (IH ob1 Hinv1 Hc1 Hsm1) as (H2 & H3 & H4 & H5).
    split; [exact H2|]. split; [exact H3|]. split; [exact H4|]. intros i Hi. rewrite (H5 i Hi), (Hfill i Hi). clear.
    setoid_rewrite elem_of_cons. naive_solver.
Qed.

Lemma ready_filled l n :
  (forall i, i < n -> exists p, l !! i = Some (Some p)) -> n <= length (ready l).
Proof.
  revert l. induction n as [|n IH]; intros l H; [lia|].
  destruct (H 0) as [p Hp]; [lia|]. destruct l as [|[q|] l]; simplify_eq/=.
  apply le_n_S, IH. intros i Hi. apply (H (S i)). lia.
Qed.

Lemma arrive_any_order conn_id ps n :
  is_u64 start -> n <= MAX_BUFFER_SIZE -> Forall genuine ps ->
  (forall i, i < n -> exists p, p ∈ ps /\ packet_number (header p) = (start + Z.of_nat i)%Z) ->
  exists rest, available (arrive_all (OrderedBytes_new conn_id start) ps) = stream_prefix n ++ rest.
Proof.
  intros Hs Hn Hps Hall.
  destruct (arrive_all_filled ps (OrderedBytes_new conn_id start)) as (Hinv & Hc & Hsm & Hfill);
    [by apply stream_inv_new|reflexivity|reflexivity|assumption|].
  set (ob' := arrive_all _ ps) in *. destruct Hinv as [_ (k & Hk & Hp & _)].
  assert (k = 0) as -> by lia.
  assert (Hle : n <= length (ready (slots ob'))).
  { apply ready_filled. intros i Hi. apply Hfill; [lia|]. auto. }
  exists (payloads (drop n (ready (slots ob')))). unfold available. rewrite Hc. cbn [from_option id app].
  unfold stream_prefix. rewrite <- (ready_stream (slots ob') 0 n) by done.
  rewrite <- payloads_app. by rewrite take_drop.
Qed.

End Stream.

(** ** Properties *)

(** C6: whatever packets of the sender's stream arrive, in any order, any
    number of times and interleaved with reads of either kind and any size, no
    operation panics and the bytes handed to the application, followed by the
    bytes carried over, are exactly the payloads of the first packets of the
    stream, in order and once. *)
Theorem ordered_delivery conn_id start pay ops :
  is_u64 start -> Forall (op_genuine start pay) ops ->
  exists ob' delivered k,
    run_ob (OrderedBytes_new conn_id start, []) ops = Ok (ob', delivered) /\
    smallest_packet_number ob' = (start + Z.of_nat k)%Z /\
    delivered ++ default [] (carry_over_bytes ob') = stream_prefix pay k.
Proof.
  intros Hs Hops.
  destruct (stream_inv_run start pay ops _ (stream_inv_new start pay conn_id Hs) Hops)
    as ([ob' delivered] & Hrun & Hinv). destruct Hinv as [_ (k & Hk & _ & Hd)].
  by exists ob', delivered, k.
Qed.

Definition sample_pay (i : nat) : bytes := [Z.of_nat i; 7%Z].
Definition sample_packet (i : nat) : BluefinPacket :=
  sample_data_packet (100 + Z.of_nat i) (sample_pay i).

Lemma sample_packet_genuine i : i < 10 -> genuine 100 sample_pay (sample_packet i).
Proof.
  intros Hi. split; [simpl; lia|]. intros j Hj. simpl in Hj. assert (j = i) as -> by lia. done.
Qed.

Definition sample_history : list ob_op :=
  [Arrive (sample_packet 1); Arrive (sample_packet 0); Read 3; Arrive (sample_packet 0);
   Arrive (sample_packet 2); ReadBytes 1; ReadBytes 5].

Lemma ordered_delivery_witness :
  exists ob' delivered k,
    run_ob (OrderedBytes_new 1 100, []) sample_history = Ok (ob', delivered) /\
    smallest_packet_number ob' = (100 + Z.of_nat k)%Z /\
    delivered ++ default [] (carry_over_bytes ob') = stream_prefix sample_pay k.
Proof.
  apply (ordered_delivery 1 100 sample_pay sample_history); [int_lia|].
  repeat constructor; apply sample_packet_genuine; lia.
Defined.

(** Once packets [start .. start + n) have all arrived, in any order and
    among any other packets of the stream, all their bytes can be read:
    nothing that fits in the buffer is lost by reordering or duplication. *)
Theorem arrival_order_irrelevant conn_id start pay ps n :
  is_u64 start -> n <= MAX_BUFFER_SIZE -> Forall (genuine start pay) ps ->
  (forall i, i < n -> exists p, p ∈ ps /\ packet_number (header p) = (start + Z.of_nat i)%Z) ->
  exists rest, available (arrive_all (OrderedBytes_new conn_id start) ps) = stream_prefix pay n ++ rest.
Proof. apply arrive_any_order. Qed.

Lemma arrival_order_irrelevant_witness :
  exists rest, available (arrive_all (OrderedBytes_new 1 100) [sample_packet 2; sample_packet 0;
    sample_packet 2; sample_packet 1]) = [0; 7; 1; 7; 2; 7]%Z ++ rest.
Proof.
  apply (arrival_order_irrelevant 1 100 sample_pay _ 3);
    [int_lia|unfold MAX_BUFFER_SIZE; lia|repeat constructor; apply sample_packet_genuine; lia|].
  intros i Hi. exists (sample_packet i). split; [|reflexivity].
  destruct i as [|[|[|i]]]; [..|lia]; rewrite !elem_of_cons; auto.
Defined.

(** [consume] never panics on a slice with room for [len] bytes; it writes
    the first [len] available bytes at its front and leaves the rest of the
    slice alone, the bytes it does not return stay available, its result
    counts the bytes and the released packets and names the first of them, and
    it fails exactly when it returns no byte and nothing was carried over. *)
Theorem consume_functional ob len buf :
  wf_ob ob -> len <= length buf ->
  exists r ob' k b,
    let bs := take len (available ob) in
    OrderedBytes_consume ob len buf = Ok (r, ob', bs ++ drop (length bs) buf) /\
    wf_ob ob' /\ available ob' = drop len (available ob) /\
    smallest_packet_number ob' = (smallest_packet_number ob + Z.of_nat k)%Z /\
    (0 < k -> b = smallest_packet_number ob) /\
    r = if decide (bs = [] /\ carry_over_bytes ob = None) then Err BufferEmptyError
        else Ok {| num_packets_consumed := k; base_packet_number := b; bytes_consumed := length bs |}.
Proof.
  intros Hwf Hlen. destruct (consume_ok ob len buf Hwf Hlen) as (r & ob' & k & b & H1 & H2 & H3 & H4).
  exists r, ob', k, b. pose proof (delivers_available _ _ _ _ H2) as Ha.
  split_and!; [done|by destruct H2| |by destruct H2|done|done].
  rewrite <- (take_drop len (available ob)) in Ha at 1. by apply app_inv_head in Ha.
Qed.

Definition sample_ob : OrderedBytes :=
  arrive_all (OrderedBytes_new 1 100) [sample_packet 1; sample_packet 0].

Lemma sample_ob_wf : wf_ob sample_ob.
Proof.
  destruct (arrive_all_filled 100 sample_pay [sample_packet 1; sample_packet 0] (OrderedBytes_new 1 100))
    as [[H _] _]; [apply stream_inv_new; int_lia|reflexivity..|
                   repeat constructor; apply sample_packet_genuine; lia|exact H].
Qed.

Lemma consume_functional_witness :
  exists r ob' k b,
    let bs := take 3 (available sample_ob) in
    bs = [0; 7; 1]%Z /\
    OrderedBytes_consume sample_ob 3 (replicate 5 9%Z) =
      Ok (r, ob', bs ++ drop (length bs) (replicate 5 9%Z)) /\
    available ob' = [7]%Z /\
    r = Ok {| num_packets_consumed := k; base_packet_number := b; bytes_consumed := 3 |}.
Proof.
  destruct (consume_functional sample_ob 3 (replicate 5 9%Z) sample_ob_wf ltac:(simpl; lia))
    as (r & ob' & k & b & H1 & _ & H2 & _ & _ & H3).
  exists r, ob', k, b. split; [vm_compute; reflexivity|]. split; [exact H1|].
  split; [rewrite H2; vm_compute; reflexivity|]. rewrite H3.
  rewrite decide_False by (intros [Hbs _]; vm_compute in Hbs; discriminate). vm_compute. reflexivity.
Defined.

(** The zero-copy read agrees with the copying one: it pushes the carried
    bytes and then whole payloads, at most [max_packets] elements, behind what
    the vector held; their concatenation is the next part of the available
    bytes and what is not pushed stays available. *)
Theorem consume_bytes_functional ob out max_packets :
  wf_ob ob ->
  exists r ob' k b,
    OrderedBytes_consume_bytes ob out max_packets = Ok (r, ob', out ++ pushed ob max_packets) /\
    wf_ob ob' /\ carry_over_bytes ob' = None /\
    available ob = concat (pushed ob max_packets) ++ available ob' /\
    smallest_packet_number ob' = (smallest_packet_number ob + Z.of_nat k)%Z /\
    (0 < k -> b = smallest_packet_number ob) /\
    r = if decide (pushed ob max_packets = []) then Err BufferEmptyError
        else Ok {| num_packets_consumed := k; base_packet_number := b;
                   bytes_consumed := length (concat (pushed ob max_packets)) |}.
Proof.
  intros Hwf. destruct (consume_bytes_ok ob out max_packets Hwf) as (r & ob' & k & b & H1 & H2 & H3 & H4 & H5).
  exists r, ob', k, b. split_and!; [done|by destruct H2|done| |by destruct H2|done|done].
  by apply (delivers_available _ _ _ k).
Qed.

Lemma consume_bytes_functional_witness :
  exists r ob' k b,
    OrderedBytes_consume_bytes sample_ob [[3%Z]] 4 = Ok (r, ob', [[3%Z]; [0; 7]%Z; [1; 7]%Z]) /\
    (0 < k -> b = 100%Z) /\
    r = Ok {| num_packets_consumed := k; base_packet_number := b; bytes_consumed := 4 |}.
Proof.
  destruct (consume_bytes_functional sample_ob [[3%Z]] 4 sample_ob_wf)
    as (r & ob' & k & b & H1 & _ & _ & _ & _ & H2 & H3).
  exists r, ob', k, b. split; [rewrite H1; vm_compute; reflexivity|]. split; [exact H2|].
  rewrite H3. rewrite decide_False by (vm_compute; discriminate). vm_compute. reflexivity.
Defined.
