(* ===== verification/Reassembly.v ===== *)
(** * The abstract reassembly buffer

    What src/bluefin/src/net/ordered_bytes.rs promises, without the circular
    array, its index and its loops: the packets held are a finite map from
    packet numbers, next to the number expected next and the rest of a packet
    that was handed out in part.  The refinement theorem runs any history of
    arrivals, peeks and reads of both kinds on both sides and finds the same
    answers: the same errors, counts, base numbers and bytes. *)
From stdpp Require Import base numbers list option strings gmap.
From S2P Require Import Prelude Proto Header Packet OrderedBytes.

(** ** The specification *)

Record reassembly : Type := {
  rs_next : Z;
  rs_held : gmap Z BluefinPacket;
  rs_carry : option bytes;
}.

Definition rs_new (start : Z) : reassembly := {| rs_next := start; rs_held := ∅; rs_carry := None |}.

(** The packets held from [n] on without a gap. *)
Fixpoint in_order (held : gmap Z BluefinPacket) (n : Z) (most : nat) : list BluefinPacket :=
  match most with
  | O => []
  | S most => match held !! n with Some p => p :: in_order held (n + 1) most | None => [] end
  end.

Definition rs_ready (s : reassembly) : list BluefinPacket := in_order (rs_held s) (rs_next s) MAX_BUFFER_SIZE.

(** [k] packets have been handed out, [c] is left of the last one. *)
Definition released (s : reassembly) (k : nat) (c : option bytes) : reassembly :=
  {| rs_next := rs_next s + Z.of_nat k;
     rs_held := filter (fun np => (rs_next s + Z.of_nat k <= np.1)%Z) (rs_held s);
     rs_carry := c |}.

(** The base number of a read: 0 when the expected packet is not there. *)
Definition rs_base (s : reassembly) : Z := if rs_held s !! rs_next s then rs_next s else 0.

Definition rs_buffer (s : reassembly) (p : BluefinPacket) : BluefinResult unit * reassembly :=
  let n := packet_number (header p) in
  if decide (n < rs_next s)%Z then (Err UnexpectedPacketNumberError, s)
  else if decide (rs_next s + Z.of_nat MAX_BUFFER_SIZE <= n)%Z then
    (Err (BufferFullError "Ordered bytes buffer full"), s)
  else if rs_held s !! n then (Err (Unexpected "Already buffered in packet"), s)
  else (Ok tt, {| rs_next := rs_next s; rs_held := <[n := p]> (rs_held s); rs_carry := rs_carry s |}).

Definition rs_peek (s : reassembly) : BluefinResult unit :=
  if decide (rs_carry s = None /\ rs_held s !! rs_next s = None) then Err BufferEmptyError else Ok tt.

Definition rs_consume (s : reassembly) (len : nat) : BluefinResult ConsumeResult * bytes * reassembly :=
  let pre := default [] (rs_carry s) in
  if decide (len < length pre) then
    (Ok {| num_packets_consumed := 0; base_packet_number := 0; bytes_consumed := len |}, take len pre,
     {| rs_next := rs_next s; rs_held := rs_held s; rs_carry := Some (drop len pre) |})
  else
    let '(k, bs, c) := drain (len - length pre) (rs_ready s) in
    (if decide (pre ++ bs = []) then Err BufferEmptyError
     else Ok {| num_packets_consumed := k; base_packet_number := rs_base s; bytes_consumed := length (pre ++ bs) |},
     pre ++ bs, released s k c).

Definition rs_consume_bytes (s : reassembly) (max_packets : nat) :
    BluefinResult ConsumeResult * list bytes * reassembly :=
  let cs := option_list (rs_carry s) in
  let ps := take (max_packets - length cs) (rs_ready s) in
  let out := cs ++ map payload ps in
  (if decide (out = []) then Err BufferEmptyError
   else Ok {| num_packets_consumed := length ps; base_packet_number := rs_base s;
              bytes_consumed := length (concat out) |},
   out, released s (length ps) None).

(** ** Histories *)

Inductive rs_op : Type :=
  | RBuffer (p : BluefinPacket)
  | RPeek
  | RConsume (len : nat) (buf : bytes)
  | RConsumeBytes (max_packets : nat) (out : list bytes).

Inductive rs_answer : Type :=
  | AUnit (r : BluefinResult unit)
  | ABytes (r : BluefinResult ConsumeResult) (buf : bytes)
  | APieces (r : BluefinResult ConsumeResult) (out : list bytes).

Definition ob_step (ob : OrderedBytes) (op : rs_op) : BluefinResult (rs_answer * OrderedBytes) :=
  match op with
  | RBuffer p =>
      match OrderedBytes_buffer_in_packet ob p with
      | (Ok u, ob') => Ok (AUnit (Ok u), ob')
      | (Err e, ob') => Ok (AUnit (Err e), ob')
      | _ => Panic
      end
  | RPeek =>
      match OrderedBytes_peek ob with
      | Ok u => Ok (AUnit (Ok u), ob)
      | Err e => Ok (AUnit (Err e), ob)
      | _ => Panic
      end
  | RConsume len buf =>
      (let? (r, ob', buf') := OrderedBytes_consume ob len buf in Ok (ABytes r buf', ob'))%rust
  | RConsumeBytes max_packets out =>
      (let? (r, ob', out') := OrderedBytes_consume_bytes ob out max_packets in Ok (APieces r out', ob'))%rust
  end.

Fixpoint ob_answers (ob : OrderedBytes) (ops : list rs_op) : BluefinResult (list rs_answer) :=
  match ops with
  | [] => Ok []
  | op :: ops =>
      (let? (a, ob') := ob_step ob op in
       let? rest := ob_answers ob' ops in
       Ok (a :: rest))%rust
  end.

(** A read writes at the front of the caller's slice, or behind what the
    caller's vector holds. *)
Definition rs_step (s : reassembly) (op : rs_op) : rs_answer * reassembly :=
  match op with
  | RBuffer p => let '(r, s') := rs_buffer s p in (AUnit r, s')
  | RPeek => (AUnit (rs_peek s), s)
  | RConsume len buf => let '(r, bs, s') := rs_consume s len in (ABytes r (bs ++ drop (length bs) buf), s')
  | RConsumeBytes max_packets out => let '(r, bs, s') := rs_consume_bytes s max_packets in (APieces r (out ++ bs), s')
  end.

Fixpoint rs_answers (s : reassembly) (ops : list rs_op) : list rs_answer :=
  match ops with
  | [] => []
  | op :: ops => let '(a, s') := rs_step s op in a :: rs_answers s' ops
  end.

(** Packet numbers have a successor, and a read is given a slice that has room
    for what it asks. *)
Definition rs_op_ok (op : rs_op) : Prop :=
  match op with
  | RBuffer p => (0 <= packet_number (header p) < 2 ^ 64 - 1)%Z
  | RConsume len buf => len <= length buf
  | _ => True
  end.

(** ** The circular array holds the map *)

Record holds (ob : OrderedBytes) (s : reassembly) : Prop := {
  hd_wf : wf_ob ob;
  hd_next : smallest_packet_number ob = rs_next s;
  hd_carry : carry_over_bytes ob = rs_carry s;
  hd_slots : forall i, i < MAX_BUFFER_SIZE -> slots ob !! i = Some (rs_held s !! (rs_next s + Z.of_nat i)%Z);
  hd_dom : forall n p, rs_held s !! n = Some p -> (rs_next s <= n < rs_next s + Z.of_nat MAX_BUFFER_SIZE)%Z;
}.

Lemma holds_new conn_id start : is_u64 start -> holds (OrderedBytes_new conn_id start) (rs_new start).
Proof.
  intros Hs. split; [by apply wf_ob_new|done|done| |done].
  intros i Hi. rewrite slots_new, lookup_replicate_2 by done. done.
Qed.

Lemma ready_in_order held n l :
  (forall i, i < length l -> l !! i = Some (held !! (n + Z.of_nat i)%Z)) -> ready l = in_order held n (length l).
Proof.
  revert n. induction l as [|o l IH]; intros n Hl; [done|]. cbn [length in_order].
  pose proof (Hl 0 ltac:(simpl; lia)) as H0. rewrite Z.add_0_r in H0. injection H0 as ->.
  destruct (held !! n) as [p|]; [|done]. cbn [ready]. f_equal. apply IH. intros i Hi.
  specialize (Hl (S i) ltac:(simpl; lia)). simpl in Hl. rewrite Hl. do 2 f_equal. lia.
Qed.

Section Holds.
Context (ob : OrderedBytes) (s : reassembly) (Hh : holds ob s).

Lemma holds_ready : ready (slots ob) = rs_ready s.
Proof using Hh.
  destruct Hh as [Hwf _ _ Hs _]. unfold rs_ready. rewrite <- (length_slots ob Hwf). apply ready_in_order.
  intros i. rewrite (length_slots ob Hwf). apply Hs.
Qed.

Lemma holds_front : exists l, slots ob = rs_held s !! rs_next s :: l.
Proof using Hh.
  pose proof (hd_slots _ _ Hh 0 MAX_BUFFER_SIZE_pos) as H0. rewrite Z.add_0_r in H0.
  destruct (slots ob) as [|o l]; [done|]. injection H0 as ->. by exists l.
Qed.

Lemma holds_base : base_number ob = Ok (rs_base s).
Proof using Hh.
  destruct holds_front as [l Hl]. pose proof (hd_wf _ _ Hh) as Hwf. unfold base_number, rs_base.
  destruct (packet_at_front ob Hwf) as (o & -> & Ho). cbn [outcome_bind]. rewrite Hl in Ho. injection Ho as <-.
  destruct (rs_held s !! rs_next s) as [p|] eqn:Hp; [|done].
  destruct (wf_slots _ Hwf 0 p) as [Hn _]; [by rewrite Hl|]. rewrite Hn, (hd_next _ _ Hh). f_equal. lia.
Qed.

Lemma holds_peek : OrderedBytes_peek ob = rs_peek s.
Proof using Hh.
  rewrite (peek_spec ob (hd_wf _ _ Hh)), (hd_carry _ _ Hh). unfold rs_peek. destruct holds_front as [l ->].
  destruct (rs_held s !! rs_next s); cbn [ready]; repeat case_decide; naive_solver.
Qed.

(** What a drain loop leaves behind. *)
Lemma holds_drained ob' k c :
  k <= length (rs_ready s) -> drained ob ob' k c -> holds ob' (released s k c).
Proof using Hh.
  rewrite <- holds_ready. intros Hk (Hwf' & Hsl & Hsm & Hc & _). pose proof Hh as [Hwf Hn _ Hs Hd].
  pose proof (length_ready (slots ob)) as Hlr. rewrite (length_slots ob Hwf) in Hlr.
  split; cbn [released rs_next rs_held rs_carry]; [done|by rewrite Hsm, Hn|done| |].
  - intros i Hi. rewrite Hsl. destruct (decide (k + i < MAX_BUFFER_SIZE)).
    + rewrite lookup_app_l by (rewrite length_drop, (length_slots ob Hwf); lia). rewrite lookup_drop, Hs by done. f_equal.
      replace (rs_next s + Z.of_nat k + Z.of_nat i)%Z with (rs_next s + Z.of_nat (k + i))%Z by lia.
      destruct (rs_held s !! _) as [p|] eqn:Hp; symmetry.
      * apply map_lookup_filter_Some. split; [done|]. simpl. lia.
      * apply map_lookup_filter_None. by left.
    + rewrite lookup_app_r by (rewrite length_drop, (length_slots ob Hwf); lia).
      rewrite length_drop, (length_slots ob Hwf), lookup_replicate_2 by lia. f_equal. symmetry.
      apply map_lookup_filter_None. left. apply eq_None_not_Some. intros [p Hp]. specialize (Hd _ _ Hp). lia.
  - intros n p Hp. apply map_lookup_filter_Some in Hp as [Hp Hle]. simpl in Hle. specialize (Hd _ _ Hp). lia.
Qed.

Lemma holds_with_carry c : c <> Some [] -> holds (with_carry ob c) {| rs_next := rs_next s; rs_held := rs_held s; rs_carry := c |}.
Proof using Hh. intros Hc. destruct Hh. split; try done. by apply wf_with_carry. Qed.

End Holds.

(** ** Each operation *)

Lemma holds_buffer ob s p :
  holds ob s -> (0 <= packet_number (header p) < 2 ^ 64 - 1)%Z ->
  exists r ob', OrderedBytes_buffer_in_packet ob p = (r, ob') /\ r = fst (rs_buffer s p) /\
    holds ob' (snd (rs_buffer s p)) /\ ((exists u, r = Ok u) \/ exists e, r = Err e).
Proof.
  intros Hh Hp. pose proof Hh as [Hwf Hn Hc Hs Hd]. pose proof (buffer_in_packet_spec ob Hwf p Hp) as H.
  destruct (OrderedBytes_buffer_in_packet ob p) as [r ob']. destruct H as [Hwf' H]. exists r, ob'. split; [done|].
  unfold buffer_verdict in H. rewrite Hn in H. unfold rs_buffer. set (n := packet_number (header p)) in *.
  case_decide; [destruct H as [-> ->]; eauto 6|]. case_decide; [destruct H as [-> ->]; eauto 6|].
  rewrite Hs in H by lia. replace (rs_next s + Z.of_nat (Z.to_nat (n - rs_next s)))%Z with n in H by lia.
  destruct (rs_held s !! n) as [q|] eqn:Hq; [destruct H as [-> ->]; eauto 6|].
  destruct H as (-> & Hi & _ & _ & Hsl & Hsm & Hcc). split; [done|]. split; [|eauto]. cbn [snd].
  split; cbn [rs_next rs_held rs_carry]; [done|done|congruence| |].
  - intros i Hlt. rewrite Hsl. destruct (decide (Z.to_nat (n - rs_next s) = i)) as [<-|Hne].
    + rewrite list_lookup_insert_eq by (by rewrite length_slots).
      replace (rs_next s + Z.of_nat (Z.to_nat (n - rs_next s)))%Z with n by lia. by rewrite lookup_insert_eq.
    + rewrite list_lookup_insert_ne by done. rewrite Hs by done. rewrite lookup_insert_ne by lia. done.
  - intros m q Hm. apply lookup_insert_Some in Hm as [[<- _]|[_ Hm]]; [lia|by eapply Hd].
Qed.

Lemma holds_consume_packets ob s len pre rest :
  holds ob s -> rs_carry s = None -> length pre <= len <= length pre + length rest ->
  let '(k, bs, c) := drain (len - length pre) (rs_ready s) in
  exists ob', consume_packets ob len (pre ++ rest) (length pre) =
    Ok (if decide (pre ++ bs = []) then Err BufferEmptyError
        else Ok {| num_packets_consumed := k; base_packet_number := rs_base s; bytes_consumed := length (pre ++ bs) |},
        ob', pre ++ bs ++ drop (length bs) rest) /\ holds ob' (released s k c).
Proof.
  intros Hh Hc Hlen. pose proof Hh as [Hwf _ Hca _ _]. unfold consume_packets. rewrite (holds_base ob s Hh).
  cbn [outcome_bind]. set (st := {| cs_ob := ob |}). pose proof (length_slots ob Hwf) as Hls.
  pose proof (length_ready (slots ob)) as Hlr. rewrite (holds_ready ob s Hh) in Hlr.
  assert (Hs : consuming (smallest_packet_number_index ob) len st pre rest).
  { destruct Hwf. split; simpl; (done || lia || idtac); [unfold wrap_index; rewrite decide_False; lia|].
    rewrite (holds_ready ob s Hh). lia. }
  pose proof (consume_loop_spec _ len (rs_ready s) (MAX_BUFFER_SIZE + 1) st pre rest Hs ltac:(simpl; congruence)
                (eq_sym (holds_ready ob s Hh)) ltac:(lia)) as Hloop.
  pose proof (drain_spec (len - length pre) (rs_ready s)) as Hdr. destruct (drain _ _) as [[k bs] c].
  destruct Hdr as (Hk & _). destruct Hloop as (st' & -> & Hd & Hnum & Hix & Hbuf). cbn [outcome_bind].
  exists (cs_ob st'). split; [|by apply (holds_drained ob)]. simpl in Hix. rewrite Hnum, Hix, Hbuf, length_app.
  destruct (decide (pre ++ bs = [])) as [He|He].
  - apply app_eq_nil in He as [-> ->]. done.
  - rewrite decide_False; [done|]. rewrite <- length_app. by intros H%length_zero_iff_nil.
Qed.

Lemma holds_consume ob s len buf :
  holds ob s -> len <= length buf ->
  let '(r, bs, s') := rs_consume s len in
  exists ob', OrderedBytes_consume ob len buf = Ok (r, ob', bs ++ drop (length bs) buf) /\ holds ob' s'.
Proof.
  intros Hh Hlen. pose proof Hh as [Hwf _ Hc _ _]. unfold rs_consume, OrderedBytes_consume. rewrite <- Hc.
  pose proof (wf_carry _ Hwf) as Hne. destruct (carry_over_bytes ob) as [c|] eqn:Hcarry; cbn [from_option id].
  - destruct (decide (len < length c)) as [Hl|Hl].
    + rewrite decide_False by lia. rewrite (buf_write_prefix [] _ buf) by (simpl; rewrite ?length_take; lia).
      cbn [outcome_bind app]. eexists. split; [done|]. apply (holds_with_carry ob s Hh).
      intros [= Hd]. apply (f_equal length) in Hd. rewrite length_drop in Hd. simpl in Hd. lia.
    + rewrite decide_True by lia. rewrite (buf_write_prefix [] c buf) by (simpl; lia).
      simpl (([] ++ c) ++ _). cbn [outcome_bind].
      pose proof (holds_consume_packets _ _ len c (drop (length c) buf) (holds_with_carry ob s Hh None ltac:(done))
                    eq_refl ltac:(rewrite length_drop; lia)) as H.
      change (rs_ready _) with (rs_ready s) in H. destruct (drain _ _) as [[k bs] c'].
      destruct H as (ob' & -> & Hh'). exists ob'. split; [|exact Hh']. change (rs_base _) with (rs_base s).
      by rewrite drop_drop, length_app, <- app_assoc.
  - rewrite decide_False by (simpl; lia).
    pose proof (holds_consume_packets ob s len [] buf Hh (eq_sym Hc) ltac:(simpl; lia)) as H.
    cbn [app length] in *. destruct (drain _ _) as [[k bs] c']. exact H.
Qed.

Lemma holds_consume_bytes ob s maxp out :
  holds ob s ->
  let '(r, bs, s') := rs_consume_bytes s maxp in
  exists ob', OrderedBytes_consume_bytes ob out maxp = Ok (r, ob', out ++ bs) /\ holds ob' s'.
Proof.
  intros Hh. pose proof Hh as [Hwf _ Hc _ _]. unfold rs_consume_bytes, OrderedBytes_consume_bytes. rewrite <- Hc.
  set (cs := option_list (carry_over_bytes ob)).
  assert (Hinit : match carry_over_bytes ob with
                  | Some c => (length c, out ++ [c], with_carry ob None)
                  | None => (0, out, ob) end = (length (concat cs), out ++ cs, with_carry ob None)).
  { unfold cs. destruct (carry_over_bytes ob) eqn:Hca; simpl; [by rewrite app_nil_r|].
    by rewrite app_nil_r, <- Hca, with_carry_same. }
  rewrite Hinit. set (ob0 := with_carry ob None).
  pose proof (holds_with_carry ob s Hh None ltac:(done)) as Hh0. fold ob0 in Hh0.
  rewrite (holds_base _ _ Hh0). cbn [outcome_bind]. change (rs_base _) with (rs_base s).
  pose proof (length_slots ob Hwf) as Hls. pose proof (length_ready (slots ob)) as Hlr.
  rewrite (holds_ready ob s Hh) in Hlr. set (m := maxp - length cs).
  destruct (consume_bytes_loop (smallest_packet_number_index ob0) (length out) maxp (rs_ready s) (MAX_BUFFER_SIZE + 1)
              {| ds_ob := ob0; ds_out := out ++ cs; ds_total := length (concat cs); ds_ix := 0 |} m)
    as (st & -> & Hdr & Hout & Htot & Hix); cbn [ds_ob ds_ix ds_out ds_total] in *;
    [by apply wf_with_carry|by destruct Hwf| |simpl; lia|done|by rewrite (holds_ready _ _ Hh0)|lia|
     rewrite length_app; lia..|].
  { destruct Hwf. unfold wrap_index. rewrite decide_False; simpl; lia. }
  cbn [outcome_bind]. rewrite Hout, Htot, Hix, <- app_assoc, length_take. exists (ds_ob st).
  split; [|by eapply (holds_drained _ _ Hh0); [change (rs_ready _) with (rs_ready s); lia|]].
  replace (length (concat cs) + length (payloads (take m (rs_ready s))))
    with (length (concat (cs ++ map payload (take m (rs_ready s))))) by (by rewrite concat_app, length_app).
  rewrite (length_app out). destruct (cs ++ map payload _); simpl length;
    [rewrite !decide_True by (done || lia)|rewrite !decide_False by (done || lia)]; done.
Qed.

Lemma holds_step ob s op :
  holds ob s -> rs_op_ok op ->
  exists ob', ob_step ob op = Ok (fst (rs_step s op), ob') /\ holds ob' (snd (rs_step s op)).
Proof.
  intros Hh Hop. destruct op as [p| |len buf|maxp out]; cbn [ob_step rs_step].
  - destruct (holds_buffer ob s p Hh Hop) as (r & ob' & -> & Hr & Hh' & Hcase).
    destruct (rs_buffer s p) as [r' s']. cbn [fst snd] in *. subst r'.
    destruct Hcase as [[u ->]|[e ->]]; by exists ob'.
  - exists ob. rewrite (holds_peek ob s Hh). unfold rs_peek. by case_decide.
  - pose proof (holds_consume ob s len buf Hh Hop) as H. destruct (rs_consume s len) as [[r bs] s'].
    destruct H as (ob' & -> & Hh'). by exists ob'.
  - pose proof (holds_consume_bytes ob s maxp out Hh) as H. destruct (rs_consume_bytes s maxp) as [[r bs] s'].
    destruct H as (ob' & -> & Hh'). by exists ob'.
Qed.

Lemma holds_answers ops ob s :
  holds ob s -> Forall rs_op_ok ops -> ob_answers ob ops = Ok (rs_answers s ops).
Proof.
  intros Hh Hops. revert ob s Hh. induction Hops as [|op ops Hop _ IH]; intros ob s Hh; [done|].
  destruct (holds_step ob s op Hh Hop) as (ob' & Hstep & Hh'). cbn [ob_answers rs_answers]. rewrite Hstep.
  cbn [outcome_bind]. destruct (rs_step s op) as [a s']. cbn [fst snd] in *. by rewrite (IH ob' s' Hh').
Qed.

(** ** Properties *)

(** C7: the circular reassembly buffer is a map from packet numbers.  From a
    fresh buffer, whatever history of arrivals, peeks and reads of both kinds
    it goes through, nothing panics and every answer, with its error, counts,
    base number and bytes, is the answer of the map that holds the packets of
    the 2000 numbers from the expected one on and hands out the run at its
    front. *)
Theorem reassembly_refines_map conn_id start ops :
  is_u64 start -> Forall rs_op_ok ops ->
  ob_answers (OrderedBytes_new conn_id start) ops = Ok (rs_answers (rs_new start) ops).
Proof. intros Hs. apply holds_answers, holds_new, Hs. Qed.

(** Out of order, a duplicate, a partial read, a read of pieces. *)
Definition reassembly_history : list rs_op :=
  [RBuffer (sample_packet 1); RPeek; RBuffer (sample_packet 0); RBuffer (sample_packet 1);
   RConsume 1 [9; 9]%Z; RConsumeBytes 5 [[4]%Z]; RPeek].

Lemma reassembly_refines_map_witness :
  ob_answers (OrderedBytes_new 1 100) reassembly_history = Ok (rs_answers (rs_new 100) reassembly_history) /\
  rs_answers (rs_new 100) reassembly_history =
    [AUnit (Ok tt); AUnit (Err BufferEmptyError); AUnit (Ok tt); AUnit (Err (Unexpected "Already buffered in packet"));
     ABytes (Ok {| num_packets_consumed := 1; base_packet_number := 100; bytes_consumed := 1 |}) [0; 9]%Z;
     APieces (Ok {| num_packets_consumed := 1; base_packet_number := 101; bytes_consumed := 3 |}) [[4]; [7]; [1; 7]]%Z;
     AUnit (Err BufferEmptyError)].
Proof.
  split; [|vm_compute; reflexivity]. apply (reassembly_refines_map 1 100 reassembly_history); [int_lia|].
  repeat (apply Forall_cons_2; [cbn; (exact I || lia)|]). apply Forall_nil_2.
Defined.
