(* ===== verification/Close.v ===== *)
(** * The close state machine of one connection

    Models src/bluefin/src/net/close_handler.rs.  The atomic flag
    [peer_fin_observed] is shared with the receive path (an [Arc<AtomicBool>]
    cloned out at construction); the operation that stores to it takes the
    flag and returns it.  A [Waker] is the identity of the task it wakes; the
    [Notify] handle is the number of [notify_waiters] calls so far, which is
    what a waiter that registered earlier can see of it. *)
From stdpp Require Import base numbers list option.
From S2P Require Import Prelude Proto Header Packet.

Local Open Scope Z_scope.

(** ** Buffers with a waker *)

(** The task a waker wakes; [will_wake] compares tasks. *)
Definition Waker : Type := nat.

(** The trait [Wakeable] of src/bluefin/src/net/mod.rs. *)
Class Wakeable (B : Type) : Type := take_waker_clone : B -> option Waker.

(** What a consumer relies on when it parks: the waker it registers is the one
    a producer will find, and registering it touches nothing else. *)
Class WakerSlot (B : Type) `{Wakeable B} : Type := {
  set_waker_if_changed : B -> Waker -> B;
  set_waker_found : forall b w, take_waker_clone (set_waker_if_changed b w) = Some w;
  set_waker_idem : forall b w,
    set_waker_if_changed (set_waker_if_changed b w) w = set_waker_if_changed b w;
}.

(** [if let Some(existing) = .. && existing.will_wake(new) { return }]. *)
Definition waker_update (existing : option Waker) (new_waker : Waker) : option Waker :=
  match existing with
  | Some w => if decide (w = new_waker) then existing else Some new_waker
  | None => Some new_waker
  end.

Lemma waker_update_eq existing w : waker_update existing w = Some w.
Proof. unfold waker_update. destruct existing as [w'|]; [case_decide; congruence|done]. Qed.

(** ** The buffer *)

Inductive CloseState : Type :=
  | Active
  | PeerFinReceived (fin_packet_num : Z)
  | LocalFinSent (fin_packet_num : Z)
  | Closed.

#[export] Instance CloseState_eq_dec : EqDecision CloseState.
Proof. solve_decision. Defined.

Record CloseBuffer : Type := {
  close_state : CloseState;
  pending_fin_ack_send : option Z;
  received_fin_ack_for : option Z;
  fin_ack_notify : nat;
  close_waker : option Waker;
}.

Definition CloseBuffer_new : CloseBuffer :=
  {| close_state := Active; pending_fin_ack_send := None; received_fin_ack_for := None;
     fin_ack_notify := 0; close_waker := None |}.

Definition with_close_state (cb : CloseBuffer) (s : CloseState) : CloseBuffer :=
  {| close_state := s; pending_fin_ack_send := pending_fin_ack_send cb;
     received_fin_ack_for := received_fin_ack_for cb; fin_ack_notify := fin_ack_notify cb;
     close_waker := close_waker cb |}.

Definition with_pending (cb : CloseBuffer) (o : option Z) : CloseBuffer :=
  {| close_state := close_state cb; pending_fin_ack_send := o;
     received_fin_ack_for := received_fin_ack_for cb; fin_ack_notify := fin_ack_notify cb;
     close_waker := close_waker cb |}.

(** Returns the buffer and the flag. *)
Definition CloseBuffer_buffer_in_fin (cb : CloseBuffer) (peer_fin_observed : bool)
    (packet : BluefinPacket) : CloseBuffer * bool :=
  let pn := packet_number (header packet) in
  match close_state cb with
  | Active => (with_pending (with_close_state cb (PeerFinReceived pn)) (Some pn), true)
  | LocalFinSent local_pn =>
      let cb := with_pending cb (Some pn) in
      if decide (received_fin_ack_for cb = Some local_pn)
      then (with_close_state cb (PeerFinReceived pn), true)
      else (with_close_state cb (PeerFinReceived pn), true)
  | PeerFinReceived fin_packet_num =>
      if fin_packet_num =? pn then (with_pending cb (Some pn), peer_fin_observed)
      else (cb, peer_fin_observed)
  | Closed => (cb, peer_fin_observed)
  end.

Definition CloseBuffer_buffer_in_fin_ack (cb : CloseBuffer) (packet : BluefinPacket) : CloseBuffer :=
  {| close_state := close_state cb; pending_fin_ack_send := pending_fin_ack_send cb;
     received_fin_ack_for := Some (packet_number (header packet));
     fin_ack_notify := S (fin_ack_notify cb); close_waker := close_waker cb |}.

Definition CloseBuffer_take_pending_fin_ack_send (cb : CloseBuffer) : option Z * CloseBuffer :=
  (pending_fin_ack_send cb, with_pending cb None).

Definition CloseBuffer_mark_closed (cb : CloseBuffer) : CloseBuffer := with_close_state cb Closed.

Definition CloseBuffer_record_local_fin_sent (cb : CloseBuffer) (packet_number : Z) : CloseBuffer :=
  match close_state cb with
  | Active => with_close_state cb (LocalFinSent packet_number)
  | PeerFinReceived _ => with_close_state cb (LocalFinSent packet_number)
  | LocalFinSent _ | Closed => cb
  end.

Definition CloseBuffer_set_waker_if_changed (cb : CloseBuffer) (w : Waker) : CloseBuffer :=
  {| close_state := close_state cb; pending_fin_ack_send := pending_fin_ack_send cb;
     received_fin_ack_for := received_fin_ack_for cb; fin_ack_notify := fin_ack_notify cb;
     close_waker := waker_update (close_waker cb) w |}.

#[export] Instance CloseBuffer_Wakeable : Wakeable CloseBuffer := close_waker.

#[export] Instance CloseBuffer_WakerSlot : WakerSlot CloseBuffer.
Proof.
  refine {| set_waker_if_changed := CloseBuffer_set_waker_if_changed |}.
  - intros b w. apply waker_update_eq.
  - intros b w. unfold CloseBuffer_set_waker_if_changed. simpl. by rewrite !waker_update_eq.
Defined.

(** ** The state machine *)

Inductive close_op : Type :=
  | PeerFin (pn : Z)
  | PeerFinAck (pn : Z)
  | TakePending
  | RecordLocalFin (pn : Z)
  | MarkClosed.

(** A header-only close packet as the receive path sees it; only the packet
    number matters. *)
Definition close_packet (t : PacketType) (pn : Z) : BluefinPacket :=
  {| header := BluefinHeader_with_packet_number
                 (BluefinHeader_new 1 2 t 0 BluefinSecurityFields_default) pn;
     payload := [] |}.

Definition close_do (s : CloseBuffer * bool) (op : close_op) : CloseBuffer * bool :=
  let '(cb, flag) := s in
  match op with
  | PeerFin pn => CloseBuffer_buffer_in_fin cb flag (close_packet Fin pn)
  | PeerFinAck pn => (CloseBuffer_buffer_in_fin_ack cb (close_packet FinAck pn), flag)
  | TakePending => (snd (CloseBuffer_take_pending_fin_ack_send cb), flag)
  | RecordLocalFin pn => (CloseBuffer_record_local_fin_sent cb pn, flag)
  | MarkClosed => (CloseBuffer_mark_closed cb, flag)
  end.

Definition close_run (ops : list close_op) : CloseBuffer * bool :=
  foldl close_do (CloseBuffer_new, false) ops.

(** The operations up to the first [mark_closed], in order. *)
Fixpoint before_close (ops : list close_op) : list close_op :=
  match ops with
  | [] => []
  | MarkClosed :: _ => []
  | op :: ops' => op :: before_close ops'
  end.

Definition is_peer_fin (op : close_op) : bool := match op with PeerFin _ => true | _ => false end.
Definition is_mark_closed (op : close_op) : bool := match op with MarkClosed => true | _ => false end.

(** The obligations the state machine keeps. *)
Record close_inv (ops : list close_op) (s : CloseBuffer * bool) : Prop := {
  ci_flag : snd s = existsb is_peer_fin (before_close ops);
  ci_closed : close_state (fst s) = Closed <-> existsb is_mark_closed ops = true;
  ci_peer : forall n, close_state (fst s) = PeerFinReceived n -> PeerFin n ∈ ops /\ snd s = true;
  ci_pending : forall n, pending_fin_ack_send (fst s) = Some n -> PeerFin n ∈ ops /\ snd s = true;
  ci_local : forall n, close_state (fst s) = LocalFinSent n -> RecordLocalFin n ∈ ops;
  ci_fin_ack : forall n, received_fin_ack_for (fst s) = Some n -> PeerFinAck n ∈ ops;
}.

Lemma before_close_snoc ops op :
  before_close (ops ++ [op]) =
    if existsb is_mark_closed ops then before_close ops
    else before_close ops ++ (if is_mark_closed op then [] else [op]).
Proof.
  induction ops as [|o ops IH]; [by destruct op|].
  cbn [app before_close existsb]. destruct o; cbn [is_mark_closed orb]; try done; rewrite IH;
    by destruct (existsb is_mark_closed ops).
Qed.

Lemma elem_of_snoc_op (o op : close_op) ops : o ∈ ops ++ [op] <-> o = op \/ o ∈ ops.
Proof. rewrite elem_of_app, list_elem_of_singleton. tauto. Qed.

(** The two branches of the crossed-close case do the same. *)
Lemma buffer_in_fin_eq cb flag packet :
  let pn := packet_number (header packet) in
  CloseBuffer_buffer_in_fin cb flag packet =
    match close_state cb with
    | Active | LocalFinSent _ => (with_pending (with_close_state cb (PeerFinReceived pn)) (Some pn), true)
    | PeerFinReceived m => if m =? pn then (with_pending cb (Some pn), flag) else (cb, flag)
    | Closed => (cb, flag)
    end.
Proof.
  unfold CloseBuffer_buffer_in_fin. destruct (close_state cb); [done|done|by case_decide|done].
Qed.

(** An obligation about a recorded number: either the operation recorded it,
    or it was recorded before. *)
Ltac obligation :=
  intros k Hk; rewrite ?elem_of_snoc_op;
  first [ discriminate
        | solve [injection Hk as <-; auto]
        | match goal with
          | H : forall n : Z, _ -> _ /\ _ |- _ => solve [destruct (H k Hk); auto]
          | H : forall n : Z, _ -> _ ∈ _ |- _ => solve [right; exact (H k Hk)]
          end ].

Lemma close_inv_step ops s op : close_inv ops s -> close_inv (ops ++ [op]) (close_do s op).
Proof.
  destruct s as [cb flag]. intros [Hf Hc Hp Hpe Hl Ha]. simpl in *.
  assert (Hm : existsb is_mark_closed ops = bool_decide (close_state cb = Closed)).
  { case_bool_decide; [by apply Hc|]. destruct (existsb is_mark_closed ops); [|done]. tauto. }
  assert (Hex : existsb is_mark_closed (ops ++ [op]) = bool_decide (close_state cb = Closed) || is_mark_closed op).
  { rewrite existsb_app, Hm. simpl. by rewrite orb_false_r. }
  pose proof (before_close_snoc ops op) as Hbc. rewrite Hm in Hbc.
  assert (Hf' : existsb is_peer_fin (before_close (ops ++ [op])) =
    if bool_decide (close_state cb = Closed) then flag else flag || is_peer_fin op).
  { rewrite Hbc. case_bool_decide; [by rewrite Hf|]. rewrite existsb_app, Hf. by destruct op. }
  clear Hm Hbc Hc Hf.
  destruct op as [n|n| |n|]; unfold close_do; rewrite ?buffer_in_fin_eq;
    unfold CloseBuffer_record_local_fin_sent; cbn [close_packet header packet_number BluefinHeader_with_packet_number];
    destruct (close_state cb) as [|m|m|] eqn:Hst; [|destruct (Z.eqb_spec m n) as [->|]| |..];
    (split; simpl; rewrite ?Hex, ?Hf'; simpl; rewrite ?Hst, ?orb_true_r, ?orb_false_r;
     [|split; (done || congruence)|try obligation..]);
    try done; try (by destruct (Hp _ eq_refl) as [_ ->]).
  intros k [= <-]. destruct (Hp n eq_refl). split; [rewrite elem_of_snoc_op; auto|done].
Qed.

Lemma close_run_inv ops : close_inv ops (close_run ops).
Proof.
  induction ops as [|op ops IH] using rev_ind.
  - unfold close_run. simpl. split; simpl; try done.
  - unfold close_run. rewrite foldl_app. by apply close_inv_step.
Qed.

(** A FIN is answered unless the connection is closed here already, or it is a
    FIN with another number than the one being acknowledged. *)
Definition fin_answered (cb : CloseBuffer) (pn : Z) : bool :=
  match close_state cb with
  | Active | LocalFinSent _ => true
  | PeerFinReceived m => m =? pn
  | Closed => false
  end.

Lemma buffer_in_fin_take cb flag packet :
  let pn := packet_number (header packet) in
  let '(cb', flag') := CloseBuffer_buffer_in_fin cb flag packet in
  if fin_answered cb pn then
    fst (CloseBuffer_take_pending_fin_ack_send cb') = Some pn /\
    close_state cb' = PeerFinReceived pn /\
    (flag' = true \/ close_state cb = PeerFinReceived pn /\ flag' = flag)
  else cb' = cb /\ flag' = flag.
Proof.
  cbv zeta. rewrite buffer_in_fin_eq. unfold fin_answered.
  destruct (close_state cb) as [|m|m|] eqn:Hs; simpl; auto.
  destruct (Z.eqb_spec m (packet_number (header packet))) as [->|]; simpl; auto 6.
Qed.

(** ** Properties *)

(** C25: on every history of FINs, FIN-ACKs, local FINs and closings, the flag
    the receive path reads for end-of-stream is set exactly when a FIN came
    before the connection was closed, [Closed] is entered exactly by
    [mark_closed] and never left, and every number the machine holds was
    recorded: a FIN-ACK is only ever owed for a FIN that came. *)
Theorem close_state_machine ops :
  let '(cb, flag) := close_run ops in
  flag = existsb is_peer_fin (before_close ops) /\
  (close_state cb = Closed <-> existsb is_mark_closed ops = true) /\
  (forall n, pending_fin_ack_send cb = Some n -> PeerFin n ∈ ops /\ flag = true) /\
  (forall n, close_state cb = PeerFinReceived n -> PeerFin n ∈ ops /\ flag = true) /\
  (forall n, close_state cb = LocalFinSent n -> RecordLocalFin n ∈ ops) /\
  (forall n, received_fin_ack_for cb = Some n -> PeerFinAck n ∈ ops).
Proof.
  pose proof (close_run_inv ops) as H. destruct (close_run ops) as [cb flag]. by destruct H.
Qed.
