(* ===== verification/Buffers.v ===== *)
(** * The per-connection buffers: acknowledgements and received packets

    Models [AckBuffer], its consumer future and [AckConsumer::run]
    (src/bluefin/src/net/ack_handler.rs) and [ConnectionBuffer] with the
    handshake future (src/bluefin/src/net/connection.rs).  An operation that
    wakes a task answers which one.  Polling a future is a function of the
    buffer and of the polling task's waker. *)
From stdpp Require Import base numbers list option strings.
From S2P Require Import Prelude Proto Header Packet Window OrderedBytes Close.

Inductive Poll (A : Type) : Type :=
  | Ready (a : A)
  | Pending.
Arguments Ready {A} a.
Arguments Pending {A}.

(** An IP address and a port. *)
Definition SocketAddr : Type := Z * Z.

(** ** Acknowledgements *)

Record AckBuffer : Type := {
  received_acks : SlidingWindow;
  ack_waker : option Waker;
}.

Definition AckBuffer_new (smallest_expected_recv_packet_num : Z) : AckBuffer :=
  {| received_acks := SlidingWindow_new smallest_expected_recv_packet_num; ack_waker := None |}.

Definition with_acks (ab : AckBuffer) (w : SlidingWindow) : AckBuffer :=
  {| received_acks := w; ack_waker := ack_waker ab |}.

Definition AckBuffer_buffer_in_ack_packet (ab : AckBuffer) (packet : BluefinPacket) :
    BluefinResult unit * AckBuffer :=
  let num_packets_to_ack := type_specific_payload (header packet) in
  let base_packet_num := packet_number (header packet) in
  let '(r, w) := SlidingWindow_insert_range (received_acks ab) base_packet_num num_packets_to_ack in
  (r, with_acks ab w).

Definition AckBuffer_consume (ab : AckBuffer) : option SlidingWindowConsumeResult * AckBuffer :=
  let '(r, w) := SlidingWindow_consume (received_acks ab) in (r, with_acks ab w).

Definition AckBuffer_wake (ab : AckBuffer) : BluefinResult Waker :=
  match ack_waker ab with
  | Some w => Ok w
  | None => Err NoSuchWakerError
  end.

#[export] Instance AckBuffer_Wakeable : Wakeable AckBuffer := ack_waker.

Definition AckBuffer_set_waker_if_changed (ab : AckBuffer) (w : Waker) : AckBuffer :=
  {| received_acks := received_acks ab; ack_waker := waker_update (ack_waker ab) w |}.

#[export] Instance AckBuffer_WakerSlot : WakerSlot AckBuffer.
Proof.
  refine {| set_waker_if_changed := AckBuffer_set_waker_if_changed |}.
  - intros b w. apply waker_update_eq.
  - intros b w. unfold AckBuffer_set_waker_if_changed. simpl. by rewrite !waker_update_eq.
Defined.

Definition AckConsumerFuture_poll (ab : AckBuffer) (cx : Waker) :
    Poll SlidingWindowConsumeResult * AckBuffer :=
  match AckBuffer_consume ab with
  | (Some res, ab') => (Ready res, ab')
  | (None, ab') => (Pending, set_waker_if_changed ab' cx)
  end.

(** [AckConsumer::run] between two suspensions: it polls, stores the number of
    a ready result and polls again, until the future is pending. *)
Definition AckConsumer_step (cx : Waker) (s : AckBuffer * Z) :
    BluefinResult (ctl (AckBuffer * Z) (AckBuffer * Z)) :=
  let '(ab, largest_recv_acked_packet_num) := s in
  match AckConsumerFuture_poll ab cx with
  | (Ready res, ab') => Ok (Next (ab', largest_packet_number res))
  | (Pending, ab') => Ok (Done (ab', largest_recv_acked_packet_num))
  end.

Definition AckConsumer_run (cx : Waker) (ab : AckBuffer) (largest : Z) : BluefinResult (AckBuffer * Z) :=
  loop 2 (AckConsumer_step cx) (ab, largest).

(** Two rounds are enough: a consumption leaves nothing to consume. *)
Lemma consume_twice w :
  wf_window w -> below_max (ordered_packet_numbers w) ->
  forall r w', SlidingWindow_consume w = (Some r, w') -> SlidingWindow_consume w' = (None, w').
Proof.
  intros Hwf Hmax r w' Hc. pose proof (consume_spec w Hwf Hmax) as H1. rewrite Hc in H1.
  destruct H1 as (_ & _ & Hnin & _ & Hsm & Hel & Hwf').
  assert (Hmax' : below_max (ordered_packet_numbers w')).
  { unfold below_max in *. rewrite Forall_forall in Hmax |- *. intros m Hm. by apply Hmax, Hel. }
  pose proof (consume_spec w' Hwf' Hmax') as H2. destruct (SlidingWindow_consume w') as [[r'|] w''].
  - destruct H2 as (Hle & Hall & _). destruct Hnin. rewrite <- Hsm.
    apply (Hel (smallest_expected_packet_number w')), Hall. lia.
  - by destruct H2 as [-> _].
Qed.

(** After any change of the acknowledgement window the consumer task runs
    to its next suspension in at most two rounds; it publishes the end of the
    longest contiguous run of acknowledged packets, or leaves the published
    number when the smallest expected one is missing, and its waker is then
    registered, so that the next acknowledgement finds it. *)
Lemma AckConsumer_run_spec cx ab largest :
  wf_window (received_acks ab) -> below_max (ordered_packet_numbers (received_acks ab)) ->
  let '(r, w') := SlidingWindow_consume (received_acks ab) in
  AckConsumer_run cx ab largest =
    Ok ({| received_acks := w'; ack_waker := Some cx |},
        match r with Some c => largest_packet_number c | None => largest end).
Proof.
  intros Hwf Hmax. pose proof (consume_twice _ Hwf Hmax) as Htw.
  destruct (SlidingWindow_consume (received_acks ab)) as [r w'] eqn:Hc.
  unfold AckConsumer_run. rewrite loop_S. unfold AckConsumer_step at 1, AckConsumerFuture_poll, AckBuffer_consume.
  rewrite Hc. destruct r as [r|].
  - rewrite loop_S. unfold AckConsumer_step at 1, AckConsumerFuture_poll, AckBuffer_consume.
    simpl received_acks. rewrite (Htw r w' eq_refl).
    unfold set_waker_if_changed; simpl. unfold AckBuffer_set_waker_if_changed. simpl.
    by rewrite waker_update_eq.
  - unfold set_waker_if_changed; simpl. unfold AckBuffer_set_waker_if_changed. simpl.
    by rewrite waker_update_eq.
Qed.

(** ** Received packets *)

Record ConnectionBuffer : Type := {
  ordered_bytes : OrderedBytes;
  cb_addr : option SocketAddr;
  cb_waker : option Waker;
  cb_packet : option BluefinPacket;
  cb_dst_conn_id : Z;
  cb_host_type : BluefinHost;
  set_start_packet_number : bool;
}.

Definition ConnectionBuffer_new (src_conn_id : Z) (host_type : BluefinHost) : ConnectionBuffer :=
  {| ordered_bytes := OrderedBytes_new src_conn_id 0; cb_addr := None; cb_waker := None;
     cb_packet := None; cb_dst_conn_id := 0; cb_host_type := host_type;
     set_start_packet_number := false |}.

Definition with_ordered_bytes (cb : ConnectionBuffer) (ob : OrderedBytes) : ConnectionBuffer :=
  {| ordered_bytes := ob; cb_addr := cb_addr cb; cb_waker := cb_waker cb;
     cb_packet := cb_packet cb; cb_dst_conn_id := cb_dst_conn_id cb;
     cb_host_type := cb_host_type cb; set_start_packet_number := set_start_packet_number cb |}.

Definition with_packet (cb : ConnectionBuffer) (p : option BluefinPacket) : ConnectionBuffer :=
  {| ordered_bytes := ordered_bytes cb; cb_addr := cb_addr cb; cb_waker := cb_waker cb;
     cb_packet := p; cb_dst_conn_id := cb_dst_conn_id cb;
     cb_host_type := cb_host_type cb; set_start_packet_number := set_start_packet_number cb |}.

Definition ConnectionBuffer_set_dst_conn_id (cb : ConnectionBuffer) (dst_conn_id : Z) : ConnectionBuffer :=
  {| ordered_bytes := ordered_bytes cb; cb_addr := cb_addr cb; cb_waker := cb_waker cb;
     cb_packet := cb_packet cb; cb_dst_conn_id := dst_conn_id;
     cb_host_type := cb_host_type cb; set_start_packet_number := set_start_packet_number cb |}.

Definition ConnectionBuffer_buffer_in_addr (cb : ConnectionBuffer) (addr : SocketAddr) :
    BluefinResult unit * ConnectionBuffer :=
  match cb_addr cb with
  | Some _ => (Err (Unexpected "Address already exists"), cb)
  | None =>
      (Ok tt,
       {| ordered_bytes := ordered_bytes cb; cb_addr := Some addr; cb_waker := cb_waker cb;
          cb_packet := cb_packet cb; cb_dst_conn_id := cb_dst_conn_id cb;
          cb_host_type := cb_host_type cb; set_start_packet_number := set_start_packet_number cb |})
  end.

Definition ConnectionBuffer_buffer_in_bytes (cb : ConnectionBuffer) (packet : BluefinPacket) :
    BluefinResult unit * ConnectionBuffer :=
  let '(r, ob) := OrderedBytes_buffer_in_packet (ordered_bytes cb) packet in
  (r, with_ordered_bytes cb ob).

(** The first data number expected, from the number of the hello packet. *)
Definition start_after (host : BluefinHost) (ob : OrderedBytes) (packet_num : Z) : OrderedBytes :=
  match host with
  | PackLeader => OrderedBytes_set_start_packet_number ob (u64_add packet_num 2)
  | Client => OrderedBytes_set_start_packet_number ob (u64_add packet_num 1)
  | PackFollower => ob
  end.

Definition ConnectionBuffer_buffer_in_packet (cb : ConnectionBuffer) (packet : BluefinPacket) :
    BluefinResult unit * ConnectionBuffer :=
  match cb_packet cb with
  | Some _ =>
      (Err (BufferFullError "Buffer already contains a packet. Could not buffer another packet."), cb)
  | None =>
      let packet_num := packet_number (header packet) in
      let cb := with_packet cb (Some packet) in
      if negb (set_start_packet_number cb) then
        (Ok tt,
         {| ordered_bytes := start_after (cb_host_type cb) (ordered_bytes cb) packet_num;
            cb_addr := cb_addr cb; cb_waker := cb_waker cb; cb_packet := cb_packet cb;
            cb_dst_conn_id := cb_dst_conn_id cb; cb_host_type := cb_host_type cb;
            set_start_packet_number := true |})
      else (Ok tt, cb)
  end.

Definition no_addr : BluefinError := Unexpected "Cannot consume buffer because addr is field is none".

(** As for [OrderedBytes_consume], the outer outcome is the panic of the call. *)
Definition ConnectionBuffer_consume (cb : ConnectionBuffer) (bytes_to_read : nat) (buf : bytes) :
    BluefinResult (BluefinResult (ConsumeResult * SocketAddr) * ConnectionBuffer * bytes) :=
  match cb_addr cb with
  | None => Ok (Err no_addr, cb, buf)
  | Some addr =>
      (let? (r, ob, buf) := OrderedBytes_consume (ordered_bytes cb) bytes_to_read buf in
       Ok ((let? consume_res := r in Ok (consume_res, addr)), with_ordered_bytes cb ob, buf))%rust
  end.

Definition ConnectionBuffer_consume_bytes (cb : ConnectionBuffer) (out : list bytes) (max_packets : nat) :
    BluefinResult (BluefinResult (ConsumeResult * SocketAddr) * ConnectionBuffer * list bytes) :=
  match cb_addr cb with
  | None => Ok (Err no_addr, cb, out)
  | Some addr =>
      (let? (r, ob, out) := OrderedBytes_consume_bytes (ordered_bytes cb) out max_packets in
       Ok ((let? consume_res := r in Ok (consume_res, addr)), with_ordered_bytes cb ob, out))%rust
  end.

Definition ConnectionBuffer_peek (cb : ConnectionBuffer) : BluefinResult unit :=
  match cb_addr cb with
  | None => Err no_addr
  | Some _ => OrderedBytes_peek (ordered_bytes cb)
  end.

Definition ConnectionBuffer_set_waker_if_changed (cb : ConnectionBuffer) (w : Waker) : ConnectionBuffer :=
  {| ordered_bytes := ordered_bytes cb; cb_addr := cb_addr cb; cb_waker := waker_update (cb_waker cb) w;
     cb_packet := cb_packet cb; cb_dst_conn_id := cb_dst_conn_id cb;
     cb_host_type := cb_host_type cb; set_start_packet_number := set_start_packet_number cb |}.

#[export] Instance ConnectionBuffer_Wakeable : Wakeable ConnectionBuffer := cb_waker.

#[export] Instance ConnectionBuffer_WakerSlot : WakerSlot ConnectionBuffer.
Proof.
  refine {| set_waker_if_changed := ConnectionBuffer_set_waker_if_changed |}.
  - intros b w. apply waker_update_eq.
  - intros b w. unfold ConnectionBuffer_set_waker_if_changed. simpl. by rewrite !waker_update_eq.
Defined.

(** The handshake future.  [guard.packet.take()] runs before the address is
    looked at, so a packet that has no address with it is taken out and lost. *)
Definition HandshakeConnectionBuffer_poll (cb : ConnectionBuffer) (cx : Waker) :
    Poll (BluefinPacket * SocketAddr) * ConnectionBuffer :=
  let taken := cb_packet cb in
  let cb := with_packet cb None in
  match taken, cb_addr cb with
  | Some packet, Some addr => (Ready (packet, addr), cb)
  | _, _ => (Pending, set_waker_if_changed cb cx)
  end.

(** [read_with_timeout] between the task's start and its end: the sequence of
    polls the executor runs before the deadline, each seeing the buffer as the
    other tasks left it ([arrivals]); [None] is the deadline. *)
Fixpoint HandshakeConnectionBuffer_read_with_timeout (cb : ConnectionBuffer) (cx : Waker)
    (arrivals : list (ConnectionBuffer -> ConnectionBuffer)) :
    BluefinResult (BluefinPacket * SocketAddr) * ConnectionBuffer :=
  match HandshakeConnectionBuffer_poll cb cx with
  | (Ready r, cb) => (Ok r, cb)
  | (Pending, cb) =>
      match arrivals with
      | [] => (Err (TimedOut "Failed to read from handshake connection buffer"), cb)
      | f :: arrivals' => HandshakeConnectionBuffer_read_with_timeout (f cb) cx arrivals'
      end
  end.

(** ** Invariants of the connection buffer *)

(** Nothing is buffered for reassembly. *)
Definition untouched (ob : OrderedBytes) : Prop := forall i p, slots ob !! i <> Some (Some p).

Lemma untouched_new conn_id start : untouched (OrderedBytes_new conn_id start).
Proof. intros i p. rewrite slots_new. intros H. apply lookup_replicate in H as [? _]. done. Qed.

(** Before the start number is set nothing may be buffered; after, the
    reassembly buffer is well formed. *)
Definition wf_cb (cb : ConnectionBuffer) : Prop :=
  wf_ob (ordered_bytes cb) /\ (set_start_packet_number cb = false -> untouched (ordered_bytes cb)).

Lemma wf_cb_new src host : wf_cb (ConnectionBuffer_new src host).
Proof. split; [apply wf_ob_new; int_lia|]. intros _. apply untouched_new. Qed.

Lemma wf_cb_buffer_in_packet cb packet :
  wf_cb cb -> wf_cb (snd (ConnectionBuffer_buffer_in_packet cb packet)).
Proof.
  intros [Hwf Hun]. unfold ConnectionBuffer_buffer_in_packet.
  destruct (cb_packet cb); [done|]. simpl.
  destruct (set_start_packet_number cb) eqn:Hs; simpl; [split; simpl; [done|congruence]|].
  split; [|done]. simpl. specialize (Hun eq_refl). unfold start_after.
  destruct (cb_host_type cb); [|done|]; apply wf_ob_set_start; auto with bluefin; apply u64_wrap_range.
Qed.

(** The start number is set by the first hello only. *)
Lemma buffer_in_packet_start cb packet :
  cb_packet cb = None ->
  let pn := packet_number (header packet) in
  let '(r, cb') := ConnectionBuffer_buffer_in_packet cb packet in
  r = Ok tt /\ cb_packet cb' = Some packet /\ set_start_packet_number cb' = true /\
  smallest_packet_number (ordered_bytes cb') =
    (if set_start_packet_number cb then smallest_packet_number (ordered_bytes cb)
     else match cb_host_type cb with
          | PackLeader => u64_add pn 2
          | Client => u64_add pn 1
          | PackFollower => smallest_packet_number (ordered_bytes cb)
          end) /\
  slots (ordered_bytes cb') = slots (ordered_bytes cb) /\
  cb_addr cb' = cb_addr cb /\ cb_waker cb' = cb_waker cb.
Proof.
  intros Hp. cbv zeta. unfold ConnectionBuffer_buffer_in_packet. rewrite Hp. simpl.
  destruct (set_start_packet_number cb) eqn:Hs; simpl; rewrite ?Hs; [by split_and!|].
  unfold start_after. destruct (cb_host_type cb); by split_and!.
Qed.
