(* ===== verification/Net.v ===== *)
(** * Shared declarations of the net module

    Models the constants, diagnostic events, hello predicates, [HelloState]
    and [ConnectionManagedBuffers] of src/bluefin/src/net/mod.rs.

    A connection's [Arc]-shared parts (its connection, ack and close buffers
    and the end-of-stream flag, created together and only ever cloned
    together) are one [ConnShared] value at a location of a heap; a
    [ConnectionManagedBuffers] holds the location, so two entries of the
    connection manager that clone the same [Arc]s see each other's writes.

    What a handler does besides changing state (waking a task, the best-effort
    sends on the FIN-ACK and diagnostics channels) is a list of [effect]s. *)
From stdpp Require Import base numbers list option gmap.
From S2P Require Import Prelude Proto Header Packet OrderedBytes Close Buffers.

Definition MAX_QUEUED_HELLOS : nat := 64.

Definition BLUEFIN_HEADER_SIZE_BYTES : nat := 20.
Definition MAX_BLUEFIN_PAYLOAD_SIZE_BYTES : nat := Z.to_nat 1500.
Definition MAX_BLUEFIN_PACKETS_IN_UDP_DATAGRAM : nat := 10.
Definition MAX_BLUEFIN_BYTES_IN_UDP_DATAGRAM : nat :=
  MAX_BLUEFIN_PACKETS_IN_UDP_DATAGRAM * (BLUEFIN_HEADER_SIZE_BYTES + MAX_BLUEFIN_PAYLOAD_SIZE_BYTES).

Record HelloState : Type := {
  pending_accept_ids : list Z;
  hello_queue : list (BluefinPacket * SocketAddr);
}.

Definition HelloState_new : HelloState := {| pending_accept_ids := []; hello_queue := [] |}.

Inductive DiagnosticEvent : Type :=
  | AckReceived (base_packet_num : Z) (count : Z)
  | AckSent (base_packet_num : Z) (count : nat)
  | DataSent (start_packet_num : Z) (num_packets : Z) (num_bytes : nat)
  | DataReceived (base_packet_num : Z) (num_packets num_bytes : nat)
  | FinSent (packet_num : Z)
  | FinAckSent (packet_num : Z)
  | FinReceived (packet_num : Z)
  | FinAckReceived (packet_num : Z).

Inductive effect : Type :=
  | WakeTask (w : Waker)
  | FinAckRequest (pn : Z)
  | Diag (e : DiagnosticEvent).

(** [diag_try_send]: nothing when no channel is wired. *)
Definition diag_try_send (tx : bool) (event : DiagnosticEvent) : list effect :=
  if tx then [Diag event] else [].

Record ConnShared : Type := {
  conn_buff : ConnectionBuffer;
  ack_buff : AckBuffer;
  close_buff : CloseBuffer;
  peer_fin_observed : bool;
}.

Record ConnectionManagedBuffers : Type := {
  shared_at : nat;
  fin_ack_tx : bool;
  diag_tx : bool;
}.

Definition with_conn_buff (s : ConnShared) (cb : ConnectionBuffer) : ConnShared :=
  {| conn_buff := cb; ack_buff := ack_buff s; close_buff := close_buff s;
     peer_fin_observed := peer_fin_observed s |}.

Definition with_ack_buff (s : ConnShared) (ab : AckBuffer) : ConnShared :=
  {| conn_buff := conn_buff s; ack_buff := ab; close_buff := close_buff s;
     peer_fin_observed := peer_fin_observed s |}.

Definition with_close_buff (s : ConnShared) (c : CloseBuffer) (flag : bool) : ConnShared :=
  {| conn_buff := conn_buff s; ack_buff := ack_buff s; close_buff := c; peer_fin_observed := flag |}.

(** The shared part of a connection before the handshake. *)
Definition ConnShared_new (src_conn_id : Z) (host_type : BluefinHost) (first_ack : Z) : ConnShared :=
  {| conn_buff := ConnectionBuffer_new src_conn_id host_type; ack_buff := AckBuffer_new first_ack;
     close_buff := CloseBuffer_new; peer_fin_observed := false |}.

(** ** Hello packets *)

Definition is_hello_packet (host_type : BluefinHost) (packet : BluefinPacket) : bool :=
  let other_id := source_connection_id (header packet) in
  let this_id := destination_connection_id (header packet) in
  if decide (host_type = PackLeader /\ type_field (header packet) <> UnencryptedClientHello) then false
  else if decide (host_type = Client /\ type_field (header packet) <> UnencryptedServerHello) then false
  else if decide (host_type = Client /\ (other_id = 0%Z \/ this_id = 0%Z)) then false
  else if decide (host_type = PackLeader /\ other_id = 0%Z) then false
  else if decide (host_type = PackLeader /\ this_id <> 0%Z) then false
  else true.

Definition is_client_ack_packet (host_type : BluefinHost) (packet : BluefinPacket) : bool :=
  let other_id := source_connection_id (header packet) in
  let this_id := destination_connection_id (header packet) in
  if decide (host_type = PackLeader /\ type_field (header packet) = ClientAck /\
             other_id <> 0%Z /\ this_id <> 0%Z)
  then true else false.

Definition build_empty_encrypted_packet (src_conn_id dst_conn_id packet_number : Z)
    (packet_type : PacketType) : BluefinResult BluefinPacket :=
  (let? security_fields := BluefinSecurityFields_new false 0 in
   let header := BluefinHeader_new src_conn_id dst_conn_id packet_type 0 security_fields in
   let header := BluefinHeader_with_packet_number header packet_number in
   BluefinPacketBuilder_build (BluefinPacketBuilder_header BluefinPacket_builder header))%rust.

(** A header-only packet. *)
Definition empty_packet (src dst pn : Z) (t : PacketType) : BluefinPacket :=
  {| header := BluefinHeader_with_packet_number
                 (BluefinHeader_new src dst t 0
                    {| header_encrypted := false; header_protection_mask := 0 |}) pn;
     payload := [] |}.

Lemma build_empty_ok src dst pn t :
  build_empty_encrypted_packet src dst pn t = Ok (empty_packet src dst pn t).
Proof. reflexivity. Qed.

(** What is left once every condition of the predicates is decided. *)
Ltac hello_cases :=
  repeat case_decide; split; intros Hx; first [discriminate Hx | reflexivity | intuition congruence].

Lemma is_hello_server packet :
  is_hello_packet PackLeader packet = true <->
  type_field (header packet) = UnencryptedClientHello /\
  source_connection_id (header packet) <> 0%Z /\ destination_connection_id (header packet) = 0%Z.
Proof.
  unfold is_hello_packet. destruct (decide (source_connection_id (header packet) = 0%Z)),
    (decide (destination_connection_id (header packet) = 0%Z)),
    (decide (type_field (header packet) = UnencryptedClientHello)); hello_cases.
Qed.

Lemma is_hello_client packet :
  is_hello_packet Client packet = true <->
  type_field (header packet) = UnencryptedServerHello /\
  source_connection_id (header packet) <> 0%Z /\ destination_connection_id (header packet) <> 0%Z.
Proof.
  unfold is_hello_packet. destruct (decide (source_connection_id (header packet) = 0%Z)),
    (decide (destination_connection_id (header packet) = 0%Z)),
    (decide (type_field (header packet) = UnencryptedServerHello)); hello_cases.
Qed.
