(* ===== verification/ConnReader.v ===== *)
(** * The per-connection receive worker

    Models src/bluefin/src/worker/conn_reader.rs: how the packets of one
    datagram are put into the connection's buffers, and the two receive loops
    around it ([recv_and_buffer_inline] on one task, [tx_impl] feeding
    [rx_impl] through a channel on several). *)
From stdpp Require Import base numbers list option strings.
From S2P Require Import Prelude Proto Header Packet Window OrderedBytes Close Buffers Net.

(** Whether the connection's [fin_ack_tx] is there and has room for a request,
    and whether its [diag_tx] is there. *)
Record reader_env : Type := {
  env_fin_ack_tx : bool;
  env_diag_tx : bool;
}.

(** [match waker { Some(w) => w.wake(), None => return Err(..) }], then the
    error kept from the loop, if any. *)
Definition wake_then (waker : option Waker) (e : option BluefinError) : BluefinResult unit * list effect :=
  match waker with
  | None => (Err NoSuchWakerError, [])
  | Some w => (match e with Some err => Err err | None => Ok tt end, [WakeTask w])
  end.

(** ** Acks *)

Fixpoint ack_packets_loop (ab : AckBuffer) (packets : list BluefinPacket) (diag_tx : bool)
    (e : option BluefinError) : BluefinResult (option BluefinError) * AckBuffer * list effect :=
  match packets with
  | [] => (Ok e, ab, [])
  | p :: packets' =>
      match AckBuffer_buffer_in_ack_packet ab p with
      | (Ok _, ab') =>
          let ev := diag_try_send diag_tx
                      (AckReceived (packet_number (header p)) (type_specific_payload (header p))) in
          let '(r, ab'', evs) := ack_packets_loop ab' packets' diag_tx e in (r, ab'', ev ++ evs)
      | (Err err, ab') => ack_packets_loop ab' packets' diag_tx (Some err)
      | (_, ab') => (Panic, ab', [])
      end
  end.

Definition ConnReaderHandler_buffer_in_ack_packets (ab : AckBuffer) (packets : list BluefinPacket)
    (diag_tx : bool) : BluefinResult unit * AckBuffer * list effect :=
  match ack_packets_loop ab packets diag_tx None with
  | (Ok e, ab', evs) =>
      let '(r, wakes) := wake_then (take_waker_clone ab') e in (r, ab', evs ++ wakes)
  | (_, ab', evs) => (Panic, ab', evs)
  end.

(** ** Data *)

Fixpoint data_packets_loop (cb : ConnectionBuffer) (packets : list BluefinPacket)
    (e : option BluefinError) : BluefinResult (option BluefinError) * ConnectionBuffer :=
  match packets with
  | [] => (Ok e, cb)
  | p :: packets' =>
      match ConnectionBuffer_buffer_in_bytes cb p with
      | (Ok _, cb') => data_packets_loop cb' packets' e
      | (Err err, cb') => data_packets_loop cb' packets' (Some err)
      | (_, cb') => (Panic, cb')
      end
  end.

Definition ConnReaderHandler_buffer_in_data_packets (cb : ConnectionBuffer)
    (packets : list BluefinPacket) : BluefinResult unit * ConnectionBuffer * list effect :=
  match data_packets_loop cb packets None with
  | (Ok e, cb') => let '(r, wakes) := wake_then (take_waker_clone cb') e in (r, cb', wakes)
  | (_, cb') => (Panic, cb', [])
  end.

(** ** FIN and FIN-ACK

    The close buffer and the connection buffer are locked one after the other:
    the flag is up before the waker is looked for, and the two are one step
    here. *)

Record close_loop_state : Type := {
  cl_close : CloseBuffer;
  cl_flag : bool;
  cl_saw_fin : bool;
  cl_effects : list effect;
}.

(** Another type than [Fin] or [FinAck] reaches [unreachable!]. *)
Fixpoint close_packets_loop (s : close_loop_state) (packets : list BluefinPacket) (diag_tx : bool) :
    BluefinResult unit * close_loop_state :=
  match packets with
  | [] => (Ok tt, s)
  | p :: packets' =>
      let pn := packet_number (header p) in
      match type_field (header p) with
      | Fin =>
          let '(c, flag) := CloseBuffer_buffer_in_fin (cl_close s) (cl_flag s) p in
          close_packets_loop
            {| cl_close := c; cl_flag := flag; cl_saw_fin := true;
               cl_effects := cl_effects s ++ diag_try_send diag_tx (FinReceived pn) |}
            packets' diag_tx
      | FinAck =>
          close_packets_loop
            {| cl_close := CloseBuffer_buffer_in_fin_ack (cl_close s) p; cl_flag := cl_flag s;
               cl_saw_fin := cl_saw_fin s;
               cl_effects := cl_effects s ++ diag_try_send diag_tx (FinAckReceived pn) |}
            packets' diag_tx
      | _ => (Panic, s)
      end
  end.

Definition ConnReaderHandler_buffer_in_close_packets (env : reader_env) (s : ConnShared)
    (packets : list BluefinPacket) : BluefinResult unit * ConnShared * list effect :=
  match close_packets_loop
          {| cl_close := close_buff s; cl_flag := peer_fin_observed s; cl_saw_fin := false; cl_effects := [] |}
          packets (env_diag_tx env) with
  | (Ok _, l) =>
      let '(pending_fin_ack_pn, c) :=
        if cl_saw_fin l then CloseBuffer_take_pending_fin_ack_send (cl_close l) else (None, cl_close l) in
      let s := with_close_buff s c (cl_flag l) in
      let fin_ack := match pending_fin_ack_pn with
                     | Some pn => if env_fin_ack_tx env then [FinAckRequest pn] else []
                     | None => []
                     end in
      let wakes := if cl_saw_fin l
                   then match take_waker_clone (conn_buff s) with Some w => [WakeTask w] | None => [] end
                   else [] in
      (Ok tt, s, cl_effects l ++ fin_ack ++ wakes)
  | (_, l) => (Panic, with_close_buff s (cl_close l) (cl_flag l), cl_effects l)
  end.

(** ** One datagram *)

Definition ConnReaderHandler_buffer_in_packets (env : reader_env) (s : ConnShared)
    (packets : list BluefinPacket) : BluefinResult unit * ConnShared * list effect :=
  match packets with
  | [] => (Ok tt, s, [])
  | first :: _ =>
      match type_field (header first) with
      | Ack =>
          let '(r, ab, evs) :=
            ConnReaderHandler_buffer_in_ack_packets (ack_buff s) packets (env_diag_tx env) in
          (r, with_ack_buff s ab, evs)
      | Fin | FinAck => ConnReaderHandler_buffer_in_close_packets env s packets
      | _ =>
          let '(r, cb, evs) := ConnReaderHandler_buffer_in_data_packets (conn_buff s) packets in
          (r, with_conn_buff s cb, evs)
      end
  end.

(** ** The receive loops

    A round handles one received datagram.  [None]: the task has panicked. *)
Definition recv_and_buffer_inline_round (env : reader_env) (s : ConnShared) (datagram : bytes) :
    option ConnShared * list effect :=
  match BluefinPacket_from_bytes_into datagram [] with
  | (Ok _, packets) =>
      match ConnReaderHandler_buffer_in_packets env s packets with
      | (Panic, _, evs) => (None, evs)
      | (_, s', evs) => (Some s', evs)
      end
  | (Err _, _) => (Some s, [])
  | (_, _) => (None, [])
  end.

(** A turn of the loop from [recv(..).await?] on: [None] is a failing [recv],
    whose error is returned out of the task. *)
Definition recv_and_buffer_inline_turn (env : reader_env) (s : ConnShared) (answer : option bytes) :
    outcome unit (ConnShared * list effect) :=
  match answer with
  | None => Err tt
  | Some datagram =>
      match recv_and_buffer_inline_round env s datagram with
      | (Some s', evs) => Ok (s', evs)
      | (None, _) => Panic
      end
  end.

(** [tx_impl]: the parsed packets go to the channel; a datagram that does not
    parse ends the task through [?]. *)
Definition tx_impl_round (datagram : bytes) : option (list BluefinPacket) :=
  match BluefinPacket_from_bytes_into datagram [] with
  | (Ok _, packets) => Some packets
  | _ => None
  end.

(** [rx_impl]: one message of the channel. *)
Definition rx_impl_round (env : reader_env) (s : ConnShared) (packets : list BluefinPacket) :
    option ConnShared * list effect :=
  match ConnReaderHandler_buffer_in_packets env s packets with
  | (Panic, _, evs) => (None, evs)
  | (_, s', evs) => (Some s', evs)
  end.

(** The inline task over the datagrams it receives. *)
Fixpoint inline_task (env : reader_env) (s : ConnShared) (datagrams : list bytes) :
    option ConnShared * list effect :=
  match datagrams with
  | [] => (Some s, [])
  | d :: ds =>
      match recv_and_buffer_inline_round env s d with
      | (Some s', evs) => let '(r, evs') := inline_task env s' ds in (r, evs ++ evs')
      | (None, evs) => (None, evs)
      end
  end.

(** ** Data datagrams *)

(** A data packet of a connection: what a peer's writer produces. *)
Definition data_packet (p : BluefinPacket) : Prop :=
  framed p /\ type_field (header p) = UnencryptedData /\ payload p <> [] /\
  (packet_number (header p) < 2 ^ 64 - 1)%Z.

(** Buffering the packets of a datagram is the batch of arrivals. *)
Lemma data_packets_loop_spec packets cb e :
  wf_ob (ordered_bytes cb) ->
  Forall (fun p => 0 <= packet_number (header p) < 2 ^ 64 - 1)%Z packets ->
  exists e', data_packets_loop cb packets e =
    (Ok e', with_ordered_bytes cb (arrive_all (ordered_bytes cb) packets)) /\
  wf_ob (arrive_all (ordered_bytes cb) packets).
Proof.
  intros Hwf Hps. revert cb e Hwf. induction Hps as [|p ps Hp _ IH]; intros cb e Hwf.
  - exists e. simpl. split; [|done]. by destruct cb.
  - cbn [data_packets_loop]. unfold ConnectionBuffer_buffer_in_bytes.
    pose proof (buffer_in_packet_spec (ordered_bytes cb) Hwf p Hp) as Hspec.
    change (arrive_all (ordered_bytes cb) (p :: ps))
      with (arrive_all (snd (OrderedBytes_buffer_in_packet (ordered_bytes cb) p)) ps).
    destruct (OrderedBytes_buffer_in_packet (ordered_bytes cb) p) as [r ob1]. destruct Hspec as [Hwf1 Hv].
    cbn [snd]. assert (Hr : (exists u, r = Ok u) \/ exists err, r = Err err).
    { destruct (buffer_verdict _ _) as [i|err| |]; [left; exists tt|right; exists err|done..]; apply Hv. }
    destruct (IH (with_ordered_bytes cb ob1) e Hwf1) as (e1 & H1 & H2).
    destruct Hr as [[u ->]|[err ->]]; [by exists e1|].
    destruct (IH (with_ordered_bytes cb ob1) (Some err) Hwf1) as (e2 & H3 & _). by exists e2.
Qed.

Lemma data_packet_number p : data_packet p -> (0 <= packet_number (header p) < 2 ^ 64 - 1)%Z.
Proof.
  intros [[Hwf _] (_ & _ & Hmax)]. unfold wf_header in Hwf. 
  split; [|done]. decompose [and] Hwf. int_lia.
Qed.

Lemma data_datagram_parses ps packets :
  ps <> [] -> Forall data_packet ps ->
  BluefinPacket_from_bytes_into (datagram ps) packets = (Ok (length ps), packets ++ ps).
Proof.
  intros Hne Hps. apply from_bytes_into_datagram; [done| |].
  - eapply Forall_impl; [exact Hps|]. by intros p [? _].
  - intros p Hl [_ Hemp]. rewrite Forall_forall in Hps.
    destruct (Hps p) as (_ & _ & Hnz & _); [by apply last_Some_elem_of|done].
Qed.

Lemma inline_round_data env s ps :
  wf_ob (ordered_bytes (conn_buff s)) -> ps <> [] -> Forall data_packet ps ->
  let ob' := arrive_all (ordered_bytes (conn_buff s)) ps in
  wf_ob ob' /\
  recv_and_buffer_inline_round env s (datagram ps) =
    (Some (with_conn_buff s (with_ordered_bytes (conn_buff s) ob')),
     match cb_waker (conn_buff s) with Some w => [WakeTask w] | None => [] end).
Proof.
  intros Hwf Hne Hps. cbv zeta.
  destruct (data_packets_loop_spec ps (conn_buff s) None Hwf) as (e & Hloop & Hwf').
  { eapply Forall_impl; [exact Hps|]. apply data_packet_number. }
  split; [done|]. unfold recv_and_buffer_inline_round. rewrite data_datagram_parses by done. cbn [app].
  unfold ConnReaderHandler_buffer_in_packets. destruct ps as [|p ps]; [done|].
  apply Forall_cons in Hps as [(_ & Ht & _) _]. rewrite Ht.
  unfold ConnReaderHandler_buffer_in_data_packets. rewrite Hloop. unfold wake_then.
  cbn [take_waker_clone ConnectionBuffer_Wakeable cb_waker with_ordered_bytes].
  destruct (cb_waker (conn_buff s)), e; done.
Qed.

Lemma arrive_all_app ob ps qs : arrive_all ob (ps ++ qs) = arrive_all (arrive_all ob ps) qs.
Proof. unfold arrive_all. by rewrite foldl_app. Qed.

(** The receive task puts the packets of every data datagram it gets into
    the reassembly buffer, in the order they came, and touches nothing else of
    the connection; so together with the reassembly theorems the application
    reads the sender's stream whatever order the datagrams came in. *)
Lemma inline_task_data env pss s :
  wf_ob (ordered_bytes (conn_buff s)) -> Forall (fun ps => ps <> [] /\ Forall data_packet ps) pss ->
  exists evs, inline_task env s (map datagram pss) =
    (Some (with_conn_buff s (with_ordered_bytes (conn_buff s)
             (arrive_all (ordered_bytes (conn_buff s)) (concat pss)))), evs).
Proof.
  intros Hwf Hpss. revert s Hwf. induction Hpss as [|ps pss [Hne Hps] _ IH]; intros s Hwf.
  - exists []. simpl. by destruct s as [[] ? ? ?].
  - cbn [map inline_task concat]. destruct (inline_round_data env s ps Hwf Hne Hps) as [Hwf' ->].
    destruct (IH (with_conn_buff s (with_ordered_bytes (conn_buff s)
                   (arrive_all (ordered_bytes (conn_buff s)) ps))) Hwf') as [evs Hevs].
    rewrite Hevs. eexists. rewrite arrive_all_app. done.
Qed.

(** ** Close datagrams *)

Definition is_close_type (t : PacketType) : bool :=
  match t with Fin | FinAck => true | _ => false end.

Lemma close_packets_loop_mixed packets s diag_tx :
  existsb (fun p => negb (is_close_type (type_field (header p)))) packets = true ->
  fst (close_packets_loop s packets diag_tx) = Panic.
Proof.
  revert s. induction packets as [|p ps IH]; intros s; simpl; [done|].
  destruct (type_field (header p)); simpl; try done; intros H.
  - destruct (CloseBuffer_buffer_in_fin _ _ _). by apply IH.
  - by apply IH.
Qed.

Lemma close_packets_loop_ok packets s diag_tx :
  forallb (fun p => is_close_type (type_field (header p))) packets = true ->
  fst (close_packets_loop s packets diag_tx) = Ok tt.
Proof.
  revert s. induction packets as [|p ps IH]; intros s; simpl; [done|].
  destruct (type_field (header p)); simpl; try done; intros H.
  - destruct (CloseBuffer_buffer_in_fin _ _ _). by apply IH.
  - by apply IH.
Qed.

(** A datagram that starts with a FIN or FIN-ACK and holds a packet of another
    type panics the receive task, with the close buffer locked. *)
Lemma buffer_in_packets_mixed env s first packets :
  is_close_type (type_field (header first)) = true ->
  existsb (fun p => negb (is_close_type (type_field (header p)))) packets = true ->
  fst (fst (ConnReaderHandler_buffer_in_packets env s (first :: packets))) = Panic.
Proof.
  intros Hf Hp.
  assert (Hloop : forall l, fst (close_packets_loop l (first :: packets) (env_diag_tx env)) = Panic).
  { intros l. apply close_packets_loop_mixed. simpl. rewrite Hf. done. }
  unfold ConnReaderHandler_buffer_in_packets.
  assert (Hc : fst (fst (ConnReaderHandler_buffer_in_close_packets env s (first :: packets))) = Panic).
  { unfold ConnReaderHandler_buffer_in_close_packets.
    specialize (Hloop {| cl_close := close_buff s; cl_flag := peer_fin_observed s;
                         cl_saw_fin := false; cl_effects := [] |}).
    destruct (close_packets_loop _ _ _) as [[] l]; simplify_eq/=; done. }
  destruct (type_field (header first)); done.
Qed.

(** The close buffer owes nothing between datagrams, and a received FIN has
    been published. *)
Definition close_settled (s : ConnShared) : Prop :=
  pending_fin_ack_send (close_buff s) = None /\
  (forall n, close_state (close_buff s) = PeerFinReceived n -> peer_fin_observed s = true).

Lemma buffer_in_fin_datagram env s p :
  type_field (header p) = Fin -> close_settled s ->
  let pn := packet_number (header p) in
  let answered := fin_answered (close_buff s) pn in
  exists s', ConnReaderHandler_buffer_in_packets env s [p] =
    (Ok tt, s',
     diag_try_send (env_diag_tx env) (FinReceived pn) ++
     (if answered && env_fin_ack_tx env then [FinAckRequest pn] else []) ++
     match cb_waker (conn_buff s) with Some w => [WakeTask w] | None => [] end) /\
  close_settled s' /\ conn_buff s' = conn_buff s /\ ack_buff s' = ack_buff s /\
  peer_fin_observed s' = answered || peer_fin_observed s /\
  (if answered then close_state (close_buff s') = PeerFinReceived pn else close_buff s' = close_buff s).
Proof.
  intros Ht [Hpend Hflag]. cbv zeta. unfold ConnReaderHandler_buffer_in_packets. rewrite Ht.
  unfold ConnReaderHandler_buffer_in_close_packets. cbn [close_packets_loop]. rewrite Ht.
  pose proof (buffer_in_fin_take (close_buff s) (peer_fin_observed s) p) as Hfin. cbv zeta in Hfin.
  cbn [cl_close cl_flag cl_effects].
  destruct (CloseBuffer_buffer_in_fin (close_buff s) (peer_fin_observed s) p) as [c flag].
  cbn [cl_saw_fin cl_close cl_flag cl_effects app CloseBuffer_take_pending_fin_ack_send].
  exists (with_close_buff s (with_pending c None) flag).
  destruct (fin_answered (close_buff s) (packet_number (header p))).
  - destruct Hfin as (Htake & Hst & Hfl). cbn [CloseBuffer_take_pending_fin_ack_send fst] in Htake.
    assert (Hft : flag = true) by (destruct Hfl as [?|[Hs ->]]; [done|by apply (Hflag _ Hs)]).
    subst flag. rewrite Htake. split_and!; try done.
  - destruct Hfin as [-> ->]. rewrite Hpend. split_and!; try done. unfold with_close_buff. simpl.
    destruct (close_buff s). simpl in *. by subst.
Qed.

(** ** Properties *)

Definition sample_env : reader_env := {| env_fin_ack_tx := true; env_diag_tx := false |}.
Definition sample_shared : ConnShared := ConnShared_new 1 Client 0.

Lemma sample_data_packet_ok i : i < 10 -> data_packet (sample_packet i).
Proof.
  intros Hi. split_and!; [|done|done|simpl; lia].
  do 10 (destruct i as [|i]; [apply (bool_decide_unpack _); vm_compute; exact I|]). lia.
Qed.

(** A FIN datagram is answered with a FIN-ACK for its own number exactly
    when the close state allows it, raises the end-of-stream flag and records
    the FIN then, wakes the reader parked on the connection, and leaves the
    buffered data and the acknowledgements alone. *)
Theorem fin_datagram_effects env s p :
  type_field (header p) = Fin -> close_settled s ->
  let pn := packet_number (header p) in
  let answered := fin_answered (close_buff s) pn in
  exists s', ConnReaderHandler_buffer_in_packets env s [p] =
    (Ok tt, s',
     diag_try_send (env_diag_tx env) (FinReceived pn) ++
     (if answered && env_fin_ack_tx env then [FinAckRequest pn] else []) ++
     match cb_waker (conn_buff s) with Some w => [WakeTask w] | None => [] end) /\
  close_settled s' /\ conn_buff s' = conn_buff s /\ ack_buff s' = ack_buff s /\
  peer_fin_observed s' = answered || peer_fin_observed s /\
  (if answered then close_state (close_buff s') = PeerFinReceived pn else close_buff s' = close_buff s).
Proof. exact (buffer_in_fin_datagram env s p). Qed.

Lemma fin_datagram_effects_witness :
  exists s', ConnReaderHandler_buffer_in_packets sample_env sample_shared [close_packet Fin 7] =
    (Ok tt, s', [FinAckRequest 7]) /\
  close_settled s' /\ conn_buff s' = conn_buff sample_shared /\
  ack_buff s' = ack_buff sample_shared /\ peer_fin_observed s' = true /\
  close_state (close_buff s') = PeerFinReceived 7.
Proof.
  exact (fin_datagram_effects sample_env sample_shared (close_packet Fin 7) eq_refl
           (conj eq_refl (fun n (H : Active = PeerFinReceived n) => match H in _ = s
              return match s with PeerFinReceived _ => _ | _ => True end with eq_refl => I end))).
Defined.
