(* ===== verification/Packetiser.v ===== *)
(** * Cutting the byte stream into datagrams

    Models the packetisers of src/bluefin/src/worker/writer.rs:
    [serialize_packet_direct], [consume_data_into] (hot path),
    [consume_data] (legacy), [payload_bytes_in_datagram],
    [consume_acks_into] and [consume_acks].

    The reference is one line: the first 15,000 queued bytes, cut into chunks
    of 1500, one numbered data packet per chunk.  Both data packetisers are
    shown to produce exactly that, whatever sizes the queued sends have.  Each
    round of the outer loops takes a queued send or emits a packet of at least
    20 bytes, so the queue's length plus the datagram's size is enough fuel;
    the inner loop emits at least 20 bytes a round. *)
From stdpp Require Import base numbers list option strings.
From S2P Require Import Prelude Proto Header Packet Close Net.

Section Packetiser.
Context (src_conn_id dst_conn_id : Z).

(** The header the packetisers build once and then update. *)
Definition data_header (packet_num : Z) (payload_len : nat) : BluefinHeader :=
  with_type_specific_payload
    (BluefinHeader_with_packet_number
       (BluefinHeader_new src_conn_id dst_conn_id UnencryptedData 0 BluefinSecurityFields_default)
       packet_num)
    (u16_wrap (Z.of_nat payload_len)).

(** The reserved region of [ans] is overwritten in full, whatever it held. *)
Definition serialize_packet_direct (ans : bytes) (header : BluefinHeader) (payload : bytes) :
    BluefinResult bytes :=
  (let? (_, hdr) := BluefinHeader_serialise_into header (replicate 20 0%Z) in
   Ok (ans ++ hdr ++ payload))%rust.

Record pack_state : Type := {
  pk_queue : list bytes;
  pk_running : bytes;
  pk_remaining : nat;
  pk_next : Z;
  pk_ans : bytes;
  pk_packed : nat;
}.

(** [split_to(n)], serialise, count: what every emitting branch does. *)
Definition emit (s : pack_state) (n : nat) : BluefinResult pack_state :=
  let chunk := take n (pk_running s) in
  (let? ans := serialize_packet_direct (pk_ans s) (data_header (pk_next s) n) chunk in
   Ok {| pk_queue := pk_queue s; pk_running := drop n (pk_running s);
         pk_remaining := pk_remaining s - (n + 20); pk_next := u64_add (pk_next s) 1;
         pk_ans := ans; pk_packed := pk_packed s + n |})%rust.

Definition max_bytes_to_take (s : pack_state) : nat :=
  length (pk_running s) `min` (MAX_BLUEFIN_PAYLOAD_SIZE_BYTES `min` (pk_remaining s - 20)).

(** [while !running_payload.is_empty() && bytes_remaining >= 20]. *)
Definition take_step (s : pack_state) : BluefinResult (ctl pack_state pack_state) :=
  if decide (pk_running s <> [] /\ 20 <= pk_remaining s) then
    (let? s' := emit s (max_bytes_to_take s) in Ok (Next s'))%rust
  else Ok (Done s).

Definition take_loop (s : pack_state) : BluefinResult pack_state :=
  loop (S (pk_remaining s)) take_step s.

(** [queue.push_front(running_payload)] when something is left. *)
Definition requeue (s : pack_state) : pack_state :=
  {| pk_queue := if decide (pk_running s = []) then pk_queue s else pk_running s :: pk_queue s;
     pk_running := []; pk_remaining := pk_remaining s; pk_next := pk_next s;
     pk_ans := pk_ans s; pk_packed := pk_packed s |}.

Definition with_running (s : pack_state) (queue : list bytes) (running : bytes) : pack_state :=
  {| pk_queue := queue; pk_running := running; pk_remaining := pk_remaining s; pk_next := pk_next s;
     pk_ans := pk_ans s; pk_packed := pk_packed s |}.

(** One round of the outer loop; [true] is the early return. *)
Definition pack_step (s : pack_state) : BluefinResult (ctl pack_state (bool * pack_state)) :=
  match pk_queue s with
  | [] => Ok (Done (false, s))
  | data :: queue' =>
      if decide (20 < pk_remaining s) then
        if decide (pk_remaining s - 20 <= length (pk_running s)) then
          (let? s' := take_loop s in Ok (Done (true, requeue s')))%rust
        else if decide (MAX_BLUEFIN_PAYLOAD_SIZE_BYTES <= length (pk_running s)) then
          (let? s' := emit s (max_bytes_to_take s) in Ok (Next s'))%rust
        else
          let s1 := with_running s queue' (pk_running s ++ data) in
          if decide (MAX_BLUEFIN_PAYLOAD_SIZE_BYTES < length data + length (pk_running s)) then
            (let? s' := emit s1 (max_bytes_to_take s1) in Ok (Next s'))%rust
          else Ok (Next s1)
      else Ok (Done (false, s))
  end.

Definition pack (s : pack_state) : BluefinResult pack_state :=
  (let? (early, s) := loop (S (length (pk_queue s) + pk_remaining s)) pack_step s in
   if early : bool then Ok s
   else
     let? s' := take_loop s in
     Ok (requeue s'))%rust.

(** The queue, the next packet number, the datagram and the payload bytes in it. *)
Definition WriterHandler_consume_data_into (queue : list bytes) (next_packet_num : Z) (ans : bytes) :
    BluefinResult (nat * list bytes * Z * bytes) :=
  match queue with
  | [] => Ok (0, [], next_packet_num, ans)
  | first :: queue' =>
      (let? s := pack {| pk_queue := queue'; pk_running := first;
                         pk_remaining := MAX_BLUEFIN_BYTES_IN_UDP_DATAGRAM;
                         pk_next := next_packet_num; pk_ans := ans; pk_packed := 0 |} in
       Ok (pk_packed s, pk_queue s, pk_next s, pk_ans s))%rust
  end.

(** The legacy packetiser starts with an empty running payload and an empty
    datagram, and its early return answers [Some] without looking at it. *)
Definition WriterHandler_consume_data (queue : list bytes) (next_packet_num : Z) :
    BluefinResult (option bytes * list bytes * Z) :=
  let s := {| pk_queue := queue; pk_running := [];
              pk_remaining := MAX_BLUEFIN_BYTES_IN_UDP_DATAGRAM;
              pk_next := next_packet_num; pk_ans := []; pk_packed := 0 |} in
  (let? (early, s) := loop (S (length (pk_queue s) + pk_remaining s)) pack_step s in
   if early : bool then Ok (Some (pk_ans s), pk_queue s, pk_next s)
   else
     let? s' := take_loop s in
     let s' := requeue s' in
     if decide (pk_ans s' = []) then Ok (None, pk_queue s', pk_next s')
     else Ok (Some (pk_ans s'), pk_queue s', pk_next s'))%rust.

(** ** Auditing a datagram *)

(** [u16::from_be_bytes([datagram[cursor + 1], datagram[cursor + 2]])]. *)
Definition payload_bytes_step (dg : bytes) (s : nat * nat) : BluefinResult (ctl (nat * nat) nat) :=
  let '(total, cursor) := s in
  if decide (cursor + 20 <= length dg) then
    let payload_len := Z.to_nat (from_be_bytes (slice (cursor + 1) (cursor + 3) dg)) in
    if decide (length dg < cursor + 20 + payload_len) then Ok (Done total)
    else Ok (Next (total + payload_len, cursor + (20 + payload_len)))
  else Ok (Done total).

Definition WriterHandler_payload_bytes_in_datagram (dg : bytes) : BluefinResult nat :=
  loop (S (length dg)) (payload_bytes_step dg) (0, 0).

(** ** Acknowledgements *)

Record AckData : Type := {
  ack_base_packet_num : Z;
  ack_num_packets_consumed : nat;
}.

Definition ack_header (a : AckData) : BluefinHeader :=
  with_type_specific_payload
    (BluefinHeader_with_packet_number
       (BluefinHeader_new src_conn_id dst_conn_id Ack 0 BluefinSecurityFields_default)
       (ack_base_packet_num a))
    (u16_wrap (Z.of_nat (ack_num_packets_consumed a))).

Fixpoint acks_into_loop (queue : list AckData) (bs : bytes) : BluefinResult (list AckData * bytes) :=
  match queue with
  | [] => Ok ([], bs)
  | ack_data :: queue' =>
      if decide (MAX_BLUEFIN_BYTES_IN_UDP_DATAGRAM < length bs + 20) then Ok (queue, bs)
      else
        (let? bs' := serialize_packet_direct bs (ack_header ack_data) [] in
         acks_into_loop queue' bs')%rust
  end.

Definition WriterHandler_consume_acks_into (queue : list AckData) (bs : bytes) :
    BluefinResult (bool * list AckData * bytes) :=
  match queue with
  | [] => Ok (false, [], bs)
  | _ =>
      (let? (queue', bs') := acks_into_loop queue bs in
       Ok (bool_decide (bs' <> []), queue', bs'))%rust
  end.

(** The legacy loop pops first and pushes back what does not fit. *)
Fixpoint acks_loop (queue : list AckData) (bs : bytes) : BluefinResult (list AckData * bytes) :=
  match queue with
  | [] => Ok ([], bs)
  | data :: queue' =>
      if decide (length bs <= MAX_BLUEFIN_BYTES_IN_UDP_DATAGRAM) then
        if decide (length bs + 20 <= MAX_BLUEFIN_BYTES_IN_UDP_DATAGRAM) then
          (let? bs' := serialize_packet_direct bs (ack_header data) [] in
           acks_loop queue' bs')%rust
        else Ok (data :: queue', bs)
      else Ok (queue, bs)
  end.

Definition WriterHandler_consume_acks (queue : list AckData) :
    BluefinResult (option bytes * list AckData) :=
  (let? (queue', bs) := acks_loop queue [] in
   if decide (length bs = 0) then Ok (None, queue') else Ok (Some bs, queue'))%rust.

(** ** The reference *)

Definition data_pkt (packet_num : Z) (payload : bytes) : BluefinPacket :=
  {| header := data_header packet_num (length payload); payload := payload |}.

(** Chunk [i] travels in packet [pn + i]. *)
Definition numbered (pn : Z) (cs : list bytes) : list BluefinPacket :=
  imap (fun i c => data_pkt (u64_wrap (pn + Z.of_nat i)) c) cs.

(** The most a datagram carries: ten full payloads. *)
Definition DATAGRAM_PAYLOAD : nat :=
  MAX_BLUEFIN_PACKETS_IN_UDP_DATAGRAM * MAX_BLUEFIN_PAYLOAD_SIZE_BYTES.

Definition cut (stream : bytes) : list bytes :=
  chunks MAX_BLUEFIN_PAYLOAD_SIZE_BYTES (take DATAGRAM_PAYLOAD stream).

(** [cs] has been emitted since the datagram was [ans0]. *)
Record packing (pn0 : Z) (ans0 stream : bytes) (cs : list bytes) (s : pack_state) : Prop := {
  pg_ans : pk_ans s = ans0 ++ datagram (numbered pn0 cs);
  pg_next : pk_next s = u64_wrap (pn0 + Z.of_nat (length cs));
  pg_packed : pk_packed s = length (concat cs);
  pg_stream : concat cs ++ pk_running s ++ concat (pk_queue s) = stream;
}.

Lemma numbered_snoc pn cs c :
  numbered pn (cs ++ [c]) = numbered pn cs ++ [data_pkt (u64_wrap (pn + Z.of_nat (length cs))) c].
Proof. unfold numbered. rewrite imap_app. simpl. by rewrite Nat.add_0_r. Qed.

Lemma serialize_packet_direct_ok ans h payload :
  serialize_packet_direct ans h payload = Ok (ans ++ BluefinHeader_serialise h ++ payload).
Proof.
  unfold serialize_packet_direct. rewrite serialise_into_eq. rewrite length_replicate.
  cbn [outcome_bind]. rewrite drop_ge by (by rewrite length_replicate). by rewrite app_nil_r.
Qed.

Lemma emit_spec pn0 ans0 stream cs s n :
  packing pn0 ans0 stream cs s -> n <= length (pk_running s) ->
  exists s', emit s n = Ok s' /\ packing pn0 ans0 stream (cs ++ [take n (pk_running s)]) s' /\
    pk_queue s' = pk_queue s /\ pk_running s' = drop n (pk_running s) /\
    pk_remaining s' = pk_remaining s - (n + 20).
Proof.
  intros [Ha Hn Hp Hs] Hle. unfold emit. rewrite serialize_packet_direct_ok. cbn [outcome_bind].
  eexists. split; [done|]. split; [|done]. split; simpl.
  - rewrite numbered_snoc, datagram_snoc, Ha, <- app_assoc. unfold BluefinPacket_serialise, data_pkt.
    cbn [header payload]. rewrite length_take, Nat.min_l by done. by rewrite Hn.
  - rewrite Hn, length_app. unfold u64_add. rewrite u64_wrap_add_l. f_equal. simpl. lia.
  - rewrite Hp, concat_app, length_app. simpl. rewrite app_nil_r, length_take. lia.
  - rewrite concat_app, <- app_assoc. cbn [concat]. rewrite app_nil_r.
    rewrite (app_assoc (take n _)), take_drop. done.
Qed.

Abbreviation PAY := MAX_BLUEFIN_PAYLOAD_SIZE_BYTES (only parsing).

Lemma PAY_pos : 0 < PAY.
Proof. unfold MAX_BLUEFIN_PAYLOAD_SIZE_BYTES. lia. Qed.

Lemma DATAGRAM_PAYLOAD_pos : 0 < DATAGRAM_PAYLOAD.
Proof. unfold DATAGRAM_PAYLOAD, MAX_BLUEFIN_PACKETS_IN_UDP_DATAGRAM. pose proof PAY_pos. lia. Qed.

(** The inner loop cuts the running payload into [j] packets, or fewer. *)
Lemma take_loop_fuel pn0 ans0 stream j cs s fuel :
  packing pn0 ans0 stream cs s -> pk_remaining s = j * (20 + PAY) -> j < fuel ->
  exists s', loop fuel take_step s = Ok s' /\
    packing pn0 ans0 stream (cs ++ chunks PAY (take (j * PAY) (pk_running s))) s' /\
    pk_queue s' = pk_queue s /\ pk_running s' = drop (j * PAY) (pk_running s).
Proof.
  pose proof PAY_pos as HP.
  revert cs s fuel. induction j as [|j IH]; intros cs s fuel Hs Hrem Hfuel;
    (destruct fuel as [|fuel]; [lia|]); rewrite loop_S; unfold take_step at 1.
  - rewrite decide_False by lia. exists s. rewrite Nat.mul_0_l, take_0, drop_0, chunks_nil, app_nil_r. done.
  - destruct (decide (pk_running s = [])) as [He|He].
    { rewrite decide_False by tauto. exists s. rewrite He, take_nil, drop_nil, chunks_nil, app_nil_r. done. }
    rewrite decide_True by (split; [done|nia]).
    set (n := max_bytes_to_take s).
    assert (Hn : n = length (pk_running s) `min` PAY) by (unfold n, max_bytes_to_take; nia).
    destruct (emit_spec _ _ _ _ s n Hs ltac:(lia)) as (s1 & -> & Hs1 & Hq1 & Hr1 & Hrem1).
    cbn [outcome_bind].
    destruct (decide (length (pk_running s) < PAY)) as [Hshort|Hfull].
    + rewrite Nat.min_l in Hn by lia. rewrite Hn, drop_ge in Hr1 by lia. rewrite Hn, take_ge in Hs1 by lia.
      destruct fuel as [|fuel]; [lia|]. rewrite loop_S. unfold take_step at 1.
      rewrite decide_False by (rewrite Hr1; tauto). exists s1.
      rewrite take_ge, drop_ge by nia. rewrite chunks_short by (done || lia).
      split_and!; done.
    + rewrite Nat.min_r in Hn by lia. rewrite Hn in *.
      destruct (IH _ s1 fuel Hs1) as (s' & Hl & Hs' & Hq' & Hr'); [nia|lia|].
      exists s'. split_and!; [done| |congruence|].
      * rewrite Hr1, <- app_assoc in Hs'. cbn [app] in Hs'.
        rewrite (chunks_step PAY (take (S j * PAY) _)); [|done|].
        2: { intros Hnil. apply (f_equal length) in Hnil. rewrite length_take in Hnil. cbn [length] in Hnil. nia. }
        rewrite take_take, Nat.min_l by nia.
        replace (S j * PAY) with (PAY + j * PAY) by lia. by rewrite <- take_drop_commute.
      * rewrite Hr', Hr1, drop_drop. f_equal; lia.
Qed.

Lemma take_loop_spec pn0 ans0 stream j cs s :
  packing pn0 ans0 stream cs s -> pk_remaining s = j * (20 + PAY) ->
  exists s', take_loop s = Ok s' /\
    packing pn0 ans0 stream (cs ++ chunks PAY (take (j * PAY) (pk_running s))) s' /\
    pk_queue s' = pk_queue s /\ pk_running s' = drop (j * PAY) (pk_running s).
Proof.
  intros Hs Hrem. apply take_loop_fuel; [done|done|]. pose proof PAY_pos. nia.
Qed.

Lemma chunks_full_prefix (cs : list bytes) rest :
  Forall (fun c => length c = PAY) cs -> chunks PAY (concat cs ++ rest) = cs ++ chunks PAY rest.
Proof.
  induction 1 as [|c cs Hc _ IH]; [done|]. simpl. rewrite <- app_assoc, chunks_app_full by (done || apply PAY_pos).
  by rewrite IH.
Qed.

Lemma length_concat_full (cs : list bytes) :
  Forall (fun c => length c = PAY) cs -> length (concat cs) = length cs * PAY.
Proof.
  induction 1 as [|c cs Hc _ IH]; [done|]. cbn [concat length]. rewrite length_app, Hc, IH. lia.
Qed.

(** At the head of the outer loop every packet so far is full. *)
Record pack_head (pn0 : Z) (ans0 stream : bytes) (cs : list bytes) (s : pack_state) : Prop := {
  ph_packing : packing pn0 ans0 stream cs s;
  ph_full : Forall (fun c => length c = PAY) cs;
  ph_count : length cs <= MAX_BLUEFIN_PACKETS_IN_UDP_DATAGRAM;
  ph_remaining : pk_remaining s = (MAX_BLUEFIN_PACKETS_IN_UDP_DATAGRAM - length cs) * (20 + PAY);
}.

(** What the packetiser leaves. *)
Record packed (pn0 : Z) (ans0 stream : bytes) (s : pack_state) : Prop := {
  pd_packing : packing pn0 ans0 stream (cut stream) s;
  pd_running : pk_running s = [];
  pd_queue : concat (pk_queue s) = drop DATAGRAM_PAYLOAD stream;
  pd_drained : length stream < DATAGRAM_PAYLOAD -> pk_queue s = [];
}.

(** Taking what still fits of the running payload completes the cut, when
    either nothing is queued or the running payload fills the datagram. *)
Lemma pack_finish pn0 ans0 stream cs s :
  pack_head pn0 ans0 stream cs s ->
  let j := MAX_BLUEFIN_PACKETS_IN_UDP_DATAGRAM - length cs in
  pk_queue s = [] \/ j * PAY <= length (pk_running s) ->
  exists s', take_loop s = Ok s' /\ packed pn0 ans0 stream (requeue s').
Proof.
  intros [Hp Hf Hc Hr] j Hend. destruct (take_loop_spec _ _ _ j cs s Hp Hr) as (s' & Hl & Hs' & Hq & Hrun).
  exists s'. split; [done|]. pose proof (pg_stream _ _ _ _ _ Hp) as Hst.
  pose proof (length_concat_full cs Hf) as Hlc.
  assert (HD : DATAGRAM_PAYLOAD = length (concat cs) + j * PAY) by (unfold DATAGRAM_PAYLOAD, j in *; nia).
  assert (Htake : take (j * PAY) (pk_running s ++ concat (pk_queue s)) = take (j * PAY) (pk_running s)).
  { destruct Hend as [->|Hle]; [by rewrite app_nil_r|]. by apply take_app_le. }
  assert (Hcut : cut stream = cs ++ chunks PAY (take (j * PAY) (pk_running s))).
  { unfold cut. rewrite <- Hst, HD, take_app_add', Htake by done. by apply chunks_full_prefix. }
  assert (Hdrop : drop (j * PAY) (pk_running s) ++ concat (pk_queue s) = drop DATAGRAM_PAYLOAD stream).
  { rewrite <- Hst, HD, drop_app_add' by done. destruct Hend as [->|Hle].
    - by rewrite !app_nil_r.
    - by rewrite drop_app_le. }
  split.
  - rewrite Hcut. destruct Hs' as [H1 H2 H3 H4]. split; simpl; [done..|].
    rewrite <- H4. case_decide as Hn; simpl; [by rewrite Hn|done].
  - done.
  - simpl. rewrite <- Hdrop, <- Hrun, <- Hq. case_decide as Hn; simpl; [by rewrite Hn|done].
  - intros Hlt. simpl. rewrite Hq, Hrun.
    assert (Hlen : length (concat cs) + length (pk_running s) + length (concat (pk_queue s)) < DATAGRAM_PAYLOAD).
    { rewrite <- Hst, !length_app in Hlt. lia. }
    destruct Hend as [->|Hle]; [|lia]. rewrite decide_True; [done|]. apply drop_ge. lia.
Qed.

(** One round of the outer loop. *)
Lemma pack_step_spec pn0 ans0 stream cs s :
  pack_head pn0 ans0 stream cs s ->
  match pack_step s with
  | Ok (Next s') =>
      (exists cs', pack_head pn0 ans0 stream cs' s') /\
      length (pk_queue s') + pk_remaining s' < length (pk_queue s) + pk_remaining s
  | Ok (Done (true, s')) => packed pn0 ans0 stream s' /\ stream <> []
  | Ok (Done (false, s')) =>
      s' = s /\ (pk_queue s = [] \/ (MAX_BLUEFIN_PACKETS_IN_UDP_DATAGRAM - length cs) * PAY <= length (pk_running s))
  | _ => False
  end.
Proof.
  intros Hh. pose proof Hh as [Hp Hf Hc Hr]. pose proof PAY_pos as HP.
  unfold pack_step. destruct (pk_queue s) as [|data queue'] eqn:Hq; [auto|].
  set (j := MAX_BLUEFIN_PACKETS_IN_UDP_DATAGRAM - length cs) in *.
  case_decide as Hrem; [|split; [done|right; nia]].
  assert (Hj : 1 <= j) by nia.
  (* emitting one full packet *)
  assert (Hemit : forall s1, packing pn0 ans0 stream cs s1 -> pk_remaining s1 = pk_remaining s ->
    PAY <= length (pk_running s1) ->
    exists s', emit s1 (max_bytes_to_take s1) = Ok s' /\ (exists cs', pack_head pn0 ans0 stream cs' s') /\
      pk_queue s' = pk_queue s1 /\ pk_remaining s' < pk_remaining s).
  { intros s1 Hp1 Hr1 Hle. assert (Hn : max_bytes_to_take s1 = PAY) by (unfold max_bytes_to_take; nia).
    rewrite Hn. destruct (emit_spec _ _ _ _ s1 PAY Hp1 Hle) as (s' & -> & Hp' & Hq' & Hrun' & Hrem').
    exists s'. split; [done|]. split; [|split; [done|lia]].
    eexists. split; [exact Hp'| | |].
    - apply Forall_app. split; [done|]. constructor; [|constructor]. rewrite length_take. lia.
    - rewrite length_app. simpl length. unfold j in *. lia.
    - rewrite Hrem', Hr1, Hr, length_app. simpl length. 
      replace (MAX_BLUEFIN_PACKETS_IN_UDP_DATAGRAM - (length cs + 1)) with (j - 1) by (unfold j; lia). nia. }
  case_decide as Hbig.
  { destruct (pack_finish pn0 ans0 stream cs s Hh) as (s' & -> & Hd); [right; nia|].
    cbn [outcome_bind]. split; [done|]. intros ->. destruct Hp as [_ _ _ H4].
    apply (f_equal length) in H4. rewrite !length_app in H4. cbn [length] in H4. nia. }
  case_decide as Hfull.
  { destruct (Hemit s Hp eq_refl Hfull) as (s' & -> & H1 & H2 & H3). cbn [outcome_bind].
    split; [done|]. rewrite H2, Hq. lia. }
  set (s1 := with_running s queue' (pk_running s ++ data)).
  assert (Hp1 : packing pn0 ans0 stream cs s1).
  { destruct Hp as [H1 H2 H3 H4]. split; simpl; [done..|].
    rewrite Hq in H4. simpl in H4. by rewrite <- app_assoc. }
  case_decide as Hover.
  - destruct (Hemit s1 Hp1 eq_refl) as (s' & -> & H1 & H2 & H3); [simpl; rewrite length_app; lia|].
    cbn [outcome_bind]. split; [done|]. rewrite H2. simpl. lia.
  - split; [|simpl; lia]. by exists cs.
Qed.

(** The outer loop and what follows it. *)
Lemma pack_loop_spec pn0 ans0 stream cs s :
  pack_head pn0 ans0 stream cs s ->
  exists early s',
    loop (S (length (pk_queue s) + pk_remaining s)) pack_step s = Ok (early, s') /\
    if early : bool then packed pn0 ans0 stream s' /\ stream <> []
    else exists s'', take_loop s' = Ok s'' /\ packed pn0 ans0 stream (requeue s'').
Proof.
  intros Hh.
  apply (loop_rule (fun s => exists cs, pack_head pn0 ans0 stream cs s)
           (fun s => length (pk_queue s) + pk_remaining s)
           (fun r => exists early s', r = Ok (early, s') /\
              if early : bool then packed pn0 ans0 stream s' /\ stream <> []
              else exists s'', take_loop s' = Ok s'' /\ packed pn0 ans0 stream (requeue s'')));
    [|by exists cs|lia].
  intros s0 [cs0 Hh0]. pose proof (pack_step_spec _ _ _ _ _ Hh0) as Hstep.
  destruct (pack_step s0) as [[s'|[[] s']]|e| |]; [done| | |done..].
  - by exists true, s'.
  - destruct Hstep as [-> Hend]. exists false, s0. split; [done|].
    apply (pack_finish _ _ _ cs0 s0 Hh0 Hend).
Qed.

Lemma pack_head_start pn ans queue running :
  is_u64 pn ->
  pack_head pn ans (running ++ concat queue) []
    {| pk_queue := queue; pk_running := running; pk_remaining := MAX_BLUEFIN_BYTES_IN_UDP_DATAGRAM;
       pk_next := pn; pk_ans := ans; pk_packed := 0 |}.
Proof.
  intros Hpn. split; [|constructor|simpl; lia|done].
  split; simpl; [by rewrite app_nil_r| |done|done].
  rewrite Z.add_0_r. by rewrite u64_wrap_small.
Qed.

Lemma consume_data_into_ok queue pn ans :
  is_u64 pn ->
  let stream := concat queue in
  exists queue',
    WriterHandler_consume_data_into queue pn ans =
      Ok (length (take DATAGRAM_PAYLOAD stream), queue',
          u64_wrap (pn + Z.of_nat (length (cut stream))), ans ++ datagram (numbered pn (cut stream))) /\
    concat queue' = drop DATAGRAM_PAYLOAD stream /\
    (length stream < DATAGRAM_PAYLOAD -> queue' = []).
Proof.
  intros Hpn. cbv zeta. unfold WriterHandler_consume_data_into. destruct queue as [|first queue].
  - exists []. unfold cut. cbn [concat]. rewrite take_nil, drop_nil, chunks_nil.
    split; [|done]. rewrite app_nil_r, Z.add_0_r. by rewrite u64_wrap_small.
  - cbn [concat]. destruct (pack_loop_spec _ _ _ _ _ (pack_head_start pn ans queue first Hpn))
      as (early & s' & Hloop & Hpost). unfold pack. rewrite Hloop. cbn [outcome_bind].
    assert (Hd : exists s'', (if early then Ok s' else outcome_bind (take_loop s') (fun s => Ok (requeue s))) = Ok s''
                 /\ packed pn ans (first ++ concat queue) s'').
    { destruct early; [exists s'; by destruct Hpost|]. destruct Hpost as (s'' & -> & Hpd). by exists (requeue s''). }
    destruct Hd as (s'' & -> & [[H1 H2 H3 H4] _ Hq Hdr]). cbn [outcome_bind].
    exists (pk_queue s''). split; [|done]. rewrite H1, H2, H3. do 4 f_equal.
    unfold cut. by rewrite concat_chunks by apply PAY_pos.
Qed.

Lemma consume_data_ok queue pn :
  is_u64 pn ->
  let stream := concat queue in
  exists queue',
    WriterHandler_consume_data queue pn =
      Ok (if decide (stream = []) then None else Some (datagram (numbered pn (cut stream))),
          queue', u64_wrap (pn + Z.of_nat (length (cut stream)))) /\
    concat queue' = drop DATAGRAM_PAYLOAD stream /\
    (length stream < DATAGRAM_PAYLOAD -> queue' = []).
Proof.
  intros Hpn. cbv zeta. unfold WriterHandler_consume_data.
  pose proof (pack_head_start pn [] queue [] Hpn) as Hh. cbn [app] in Hh.
  set (s := {| pk_queue := queue |}) in *.
  destruct (pack_loop_spec _ _ _ _ _ Hh) as (early & s' & Hloop & Hpost). rewrite Hloop. cbn [outcome_bind].
  assert (Hans : forall s'', packed pn [] (concat queue) s'' ->
    (concat queue = [] <-> pk_ans s'' = []) /\
    pk_ans s'' = datagram (numbered pn (cut (concat queue)))).
  { intros s'' [[H1 _ _ _] _ _ _]. rewrite H1. cbn [app]. split; [|done]. split; intros He.
    - unfold cut. by rewrite He, take_nil, chunks_nil.
    - destruct (concat queue) as [|b l]; [done|]. exfalso.
      assert (Hne : cut (b :: l) <> []).
      { unfold cut. rewrite chunks_step; [done|apply PAY_pos|].
        pose proof DATAGRAM_PAYLOAD_pos. by destruct DATAGRAM_PAYLOAD; [lia|]. }
      pose proof (length_datagram_ge (numbered pn (cut (b :: l)))) as Hge. rewrite He in Hge.
      unfold numbered in Hge. rewrite length_imap in Hge. destruct (cut (b :: l)); simpl in *; [done|lia]. }
  destruct early.
  - destruct Hpost as [Hpd Hne]. destruct (Hans s' Hpd) as [_ Heq].
    destruct Hpd as [[H1 H2 H3 H4] _ Hq Hdr].
    exists (pk_queue s'). split; [|done]. rewrite decide_False by done. by rewrite H2, Heq.
  - destruct Hpost as (s'' & -> & Hpd). cbn [outcome_bind].
    destruct (Hans _ Hpd) as [Hiff Heq]. destruct Hpd as [[H1 H2 H3 H4] _ Hq Hdr].
    exists (pk_queue (requeue s'')). split; [|done]. 
    destruct (decide (concat queue = [])) as [He|He].
    + rewrite decide_True by (by apply Hiff). by rewrite H2.
    + rewrite decide_False by tauto. by rewrite H2, Heq.
Qed.

(** ** The audit and the acknowledgement packetisers *)

Lemma payload_bytes_step_packet pre p rest total :
  framed p -> type_field (header p) = UnencryptedData ->
  payload_bytes_step (pre ++ BluefinPacket_serialise p ++ rest) (total, length pre) =
    Ok (Next (total + length (payload p), length pre + (20 + length (payload p)))).
Proof.
  intros (Hwf & _ & Hlen) Ht. rewrite Ht in Hlen. unfold payload_bytes_step.
  rewrite !length_app, length_BluefinPacket_serialise. rewrite decide_True by lia.
  assert (Hsl : slice (length pre + 1) (length pre + 3) (pre ++ BluefinPacket_serialise p ++ rest)
                = to_be_bytes 2 (type_specific_payload (header p))).
  { unfold BluefinPacket_serialise, BluefinHeader_serialise. rewrite <- !app_assoc, (app_assoc pre [_]).
    apply slice_middle; rewrite ?length_app, ?length_to_be_bytes; simpl; lia. }
  rewrite Hsl, from_to_be_bytes by (unfold wf_header in Hwf; decompose [and] Hwf; int_lia).
  rewrite Hlen, Nat2Z.id. rewrite decide_False by lia. done.
Qed.

Lemma payload_bytes_loop ps fuel pre total :
  Forall (fun p => framed p /\ type_field (header p) = UnencryptedData) ps -> length ps < fuel ->
  loop fuel (payload_bytes_step (pre ++ datagram ps)) (total, length pre) =
    Ok (total + length (concat (map payload ps))).
Proof.
  intros Hps. revert fuel pre total. induction Hps as [|p ps [Hf Ht] _ IH]; intros fuel pre total Hfuel;
    (destruct fuel as [|fuel]; [simpl in Hfuel; lia|]); rewrite loop_S.
  - unfold payload_bytes_step. rewrite decide_False; [|rewrite length_app; unfold datagram; simpl; lia].
    simpl. by rewrite Nat.add_0_r.
  - rewrite datagram_cons, payload_bytes_step_packet by done.
    replace (length pre + (20 + length (payload p))) with (length (pre ++ BluefinPacket_serialise p))
      by (rewrite length_app, length_BluefinPacket_serialise; lia).
    rewrite app_assoc, IH by (simpl in Hfuel; lia). simpl. rewrite length_app. f_equal. lia.
Qed.

(** The audit ends on any byte string. *)
Lemma payload_bytes_total dg : exists n, WriterHandler_payload_bytes_in_datagram dg = Ok n.
Proof.
  apply (loop_rule (fun s => True) (fun s => length dg - s.2) (fun r => exists n, r = Ok n));
    [|done|simpl; lia].
  intros [total cursor] _. unfold payload_bytes_step. case_decide; [|eauto].
  case_decide; [eauto|]. simpl. split; [done|lia].
Qed.

Definition ack_pkt (a : AckData) : BluefinPacket := {| header := ack_header a; payload := [] |}.

(** The number of acks a datagram that holds [n] bytes still takes. *)
Definition acks_fitting (n : nat) : nat := (MAX_BLUEFIN_BYTES_IN_UDP_DATAGRAM - n) / 20.

Lemma acks_fitting_step n :
  acks_fitting n =
    if decide (n + 20 <= MAX_BLUEFIN_BYTES_IN_UDP_DATAGRAM) then S (acks_fitting (n + 20)) else 0.
Proof.
  unfold acks_fitting. case_decide.
  - replace (MAX_BLUEFIN_BYTES_IN_UDP_DATAGRAM - n)
      with (1 * 20 + (MAX_BLUEFIN_BYTES_IN_UDP_DATAGRAM - (n + 20))) by lia.
    rewrite Nat.div_add_l by lia. lia.
  - apply Nat.div_small. lia.
Qed.

Lemma acks_into_loop_spec queue bs :
  acks_into_loop queue bs =
    Ok (drop (acks_fitting (length bs)) queue,
        bs ++ datagram (map ack_pkt (take (acks_fitting (length bs)) queue))).
Proof.
  revert bs. induction queue as [|a queue IH]; intros bs; cbn [acks_into_loop].
  - rewrite drop_nil, take_nil. by rewrite app_nil_r.
  - rewrite (acks_fitting_step (length bs)). case_decide as Hc.
    + rewrite decide_False by lia. simpl. by rewrite app_nil_r.
    + rewrite decide_True, serialize_packet_direct_ok by lia. cbn [outcome_bind]. rewrite app_nil_r, IH.
      rewrite length_app, length_BluefinHeader_serialise. cbn [drop take map]. rewrite datagram_cons.
      unfold BluefinPacket_serialise. cbn [header payload ack_pkt]. by rewrite app_nil_r, <- app_assoc.
Qed.

(** The legacy loop is the hot one. *)
Lemma acks_loop_agrees queue bs : acks_loop queue bs = acks_into_loop queue bs.
Proof.
  revert bs. induction queue as [|a queue IH]; intros bs; cbn [acks_loop acks_into_loop]; [done|].
  repeat case_decide; try lia; try done.
  rewrite serialize_packet_direct_ok. cbn [outcome_bind]. apply IH.
Qed.

(** ** What the cut looks like *)

Lemma cut_sizes stream : Forall (fun c => 0 < length c <= PAY) (cut stream).
Proof. apply chunks_sizes, PAY_pos. Qed.

Lemma length_cut stream : length (cut stream) <= MAX_BLUEFIN_PACKETS_IN_UDP_DATAGRAM.
Proof. apply length_chunks_mul; [apply PAY_pos|]. rewrite length_take. unfold DATAGRAM_PAYLOAD. lia. Qed.

Lemma concat_cut stream : concat (cut stream) = take DATAGRAM_PAYLOAD stream.
Proof. apply concat_chunks, PAY_pos. Qed.

Lemma length_datagram_numbered pn cs :
  length (datagram (numbered pn cs)) = length cs * 20 + length (concat cs).
Proof.
  induction cs as [|c cs IH] using rev_ind; [done|].
  rewrite numbered_snoc, datagram_snoc, length_app, IH, concat_app, !length_app.
  rewrite length_BluefinPacket_serialise. simpl. rewrite app_nil_r. lia.
Qed.

Lemma datagram_size_bound pn stream :
  length (datagram (numbered pn (cut stream))) <= MAX_BLUEFIN_BYTES_IN_UDP_DATAGRAM.
Proof.
  rewrite length_datagram_numbered, concat_cut, length_take. pose proof (length_cut stream).
  unfold MAX_BLUEFIN_BYTES_IN_UDP_DATAGRAM, BLUEFIN_HEADER_SIZE_BYTES, DATAGRAM_PAYLOAD. nia.
Qed.

Hypothesis Hsrc : is_u32 src_conn_id.
Hypothesis Hdst : is_u32 dst_conn_id.

Lemma data_pkt_framed pn c :
  is_u64 pn -> Forall is_u8 c -> length c <= PAY -> framed (data_pkt pn c).
Proof using Hsrc Hdst.
  intros Hpn Hc Hl.
  assert (Hlen : is_u16 (Z.of_nat (length c))) by (unfold MAX_BLUEFIN_PAYLOAD_SIZE_BYTES in Hl; int_lia).
  unfold framed, wf_header, wf_security, data_pkt, data_header. cbn. rewrite u16_wrap_small by done.
  split_and!; try done; try int_lia.
Qed.

Lemma numbered_lookup pn cs i p :
  numbered pn cs !! i = Some p ->
  exists c, cs !! i = Some c /\ p = data_pkt (u64_wrap (pn + Z.of_nat i)) c.
Proof.
  unfold numbered. rewrite list_lookup_imap. destruct (cs !! i) as [c|]; simpl; [|done].
  intros [= <-]. eauto.
Qed.

Lemma numbered_framed pn stream :
  Forall is_u8 stream -> Forall framed (numbered pn (cut stream)).
Proof using Hsrc Hdst.
  intros Hs. rewrite Forall_lookup. intros i p Hp. apply numbered_lookup in Hp as (c & Hc & ->).
  pose proof (cut_sizes stream) as Hsz. rewrite Forall_lookup in Hsz. specialize (Hsz i c Hc).
  apply data_pkt_framed; [apply u64_wrap_range| |lia].
  assert (Hin : Forall is_u8 (concat (cut stream))) by (rewrite concat_cut; by apply Forall_take).
  rewrite Forall_concat, Forall_lookup in Hin. by apply (Hin i).
Qed.

End Packetiser.

(** ** Properties *)

(** C16: one call of the packetiser takes the first 15,000 bytes of the queued
    sends, whatever their sizes, and appends one data packet per 1500 bytes,
    numbered consecutively; the rest of the stream stays queued in order, the
    packet counter moves by the number of packets and the returned count is
    that of the payload bytes.  No byte is lost, repeated or reordered. *)
Theorem consume_data_into_cuts src dst queue pn ans :
  is_u64 pn ->
  let stream := concat queue in
  exists queue',
    WriterHandler_consume_data_into src dst queue pn ans =
      Ok (length (take DATAGRAM_PAYLOAD stream), queue',
          u64_wrap (pn + Z.of_nat (length (cut stream))),
          ans ++ datagram (numbered src dst pn (cut stream))) /\
    concat queue' = drop DATAGRAM_PAYLOAD stream /\
    (length stream < DATAGRAM_PAYLOAD -> queue' = []).
Proof. exact (consume_data_into_ok src dst queue pn ans). Qed.

Lemma consume_data_into_cuts_witness :
  exists queue',
    WriterHandler_consume_data_into 1 2 [[1; 2]; []; [3]]%Z 7 [] =
      Ok (3, queue', 8%Z, datagram (numbered 1 2 7 [[1; 2; 3]%Z])) /\
    concat queue' = [] /\ queue' = [].
Proof.
  destruct (consume_data_into_cuts 1 2 [[1; 2]; []; [3]]%Z 7 [] ltac:(int_lia)) as (q & H1 & H2 & H3).
  exists q. split; [rewrite H1; vm_compute; reflexivity|]. split; [rewrite H2; vm_compute; reflexivity|].
  apply H3. apply (bool_decide_unpack _). vm_compute. exact I.
Defined.

(** The legacy packetiser produces the same datagram and leaves the same
    stream queued as the hot one; it answers [None] exactly when no byte was
    queued. *)
Theorem consume_data_agrees src dst queue pn :
  is_u64 pn ->
  exists n q1 q2 pn' dg,
    WriterHandler_consume_data_into src dst queue pn [] = Ok (n, q1, pn', dg) /\
    WriterHandler_consume_data src dst queue pn =
      Ok (if decide (concat queue = []) then None else Some dg, q2, pn') /\
    concat q1 = concat q2.
Proof.
  intros Hpn. destruct (consume_data_into_ok src dst queue pn [] Hpn) as (q1 & H1 & H2 & _).
  destruct (consume_data_ok src dst queue pn Hpn) as (q2 & H3 & H4 & _).
  do 5 eexists. split; [exact H1|]. split; [exact H3|]. congruence.
Qed.

Lemma consume_data_agrees_witness :
  exists n q1 q2 pn' dg,
    WriterHandler_consume_data_into 1 2 [[1; 2]; [3]]%Z 7 [] = Ok (n, q1, pn', dg) /\
    WriterHandler_consume_data 1 2 [[1; 2]; [3]]%Z 7 = Ok (Some dg, q2, pn') /\
    concat q1 = concat q2.
Proof. exact (consume_data_agrees 1 2 [[1; 2]; [3]]%Z 7 ltac:(int_lia)). Defined.

(** What the packetiser sends is what the parser accepts: the datagram of
    any queued bytes is at most 15,200 bytes long, its packets carry between 1
    and 1500 bytes each, parsing it gives back exactly those packets, and the
    audit of the datagram counts exactly the payload bytes. *)
Theorem packetised_datagram_parses src dst pn stream :
  is_u32 src -> is_u32 dst -> Forall is_u8 stream -> stream <> [] ->
  let ps := numbered src dst pn (cut stream) in
  length (datagram ps) <= MAX_BLUEFIN_BYTES_IN_UDP_DATAGRAM /\
  Forall (fun p => 1 <= length (payload p) <= MAX_BLUEFIN_PAYLOAD_SIZE_BYTES) ps /\
  BluefinPacket_from_bytes (datagram ps) = Ok ps /\
  WriterHandler_payload_bytes_in_datagram (datagram ps) = Ok (length (take DATAGRAM_PAYLOAD stream)).
Proof.
  intros Hsrc Hdst Hs Hne ps.
  assert (Hsz : Forall (fun p => 1 <= length (payload p) <= MAX_BLUEFIN_PAYLOAD_SIZE_BYTES) ps).
  { rewrite Forall_lookup. intros i p Hp. apply numbered_lookup in Hp as (c & Hc & ->).
    pose proof (cut_sizes stream) as Hsz. rewrite Forall_lookup in Hsz. specialize (Hsz i c Hc). simpl. lia. }
  assert (Hf : Forall framed ps) by (by apply numbered_framed).
  assert (Hnil : ps <> []).
  { intros Hnil. apply (f_equal length) in Hnil. unfold ps, numbered in Hnil. rewrite length_imap in Hnil.
    pose proof (concat_cut stream) as Hc. destruct (cut stream); [|done]. simpl in Hc.
    pose proof DATAGRAM_PAYLOAD_pos. destruct DATAGRAM_PAYLOAD, stream; simplify_eq/=; lia. }
  split_and!; [apply datagram_size_bound|done| |].
  - apply from_bytes_datagram; [done|done|]. intros p Hl [_ He]. rewrite Forall_forall in Hsz.
    specialize (Hsz p (last_Some_elem_of _ _ Hl)). rewrite He in Hsz. simpl in Hsz. lia.
  - unfold WriterHandler_payload_bytes_in_datagram.
    rewrite (payload_bytes_loop ps _ [] 0).
    + simpl. do 2 f_equal. rewrite <- concat_cut. f_equal. unfold ps, numbered.
      apply list_eq. intros i. rewrite list_lookup_fmap, list_lookup_imap.
      by destruct (cut stream !! i).
    + rewrite Forall_lookup. intros i p Hp. split; [rewrite Forall_lookup in Hf; by apply (Hf i)|].
      apply numbered_lookup in Hp as (c & _ & ->). done.
    + pose proof (length_datagram_ge ps). lia.
Qed.

Lemma packetised_datagram_parses_witness :
  BluefinPacket_from_bytes (datagram (numbered 1 2 7 (cut [1; 2; 3]%Z))) =
    Ok (numbered 1 2 7 (cut [1; 2; 3]%Z)).
Proof.
  apply (packetised_datagram_parses 1 2 7 [1; 2; 3]%Z); [int_lia|int_lia| |done].
  apply (bool_decide_unpack _). vm_compute. exact I.
Defined.

(** An ack datagram carries one ack packet per queued acknowledgement, in
    order, as many as fit in 15,200 bytes, and the others stay queued; the hot
    and the legacy ack packetisers agree. *)
Theorem consume_acks_functional src dst queue :
  let k := acks_fitting 0 in
  let dg := datagram (map (ack_pkt src dst) (take k queue)) in
  WriterHandler_consume_acks_into src dst queue [] = Ok (bool_decide (queue <> []), drop k queue, dg) /\
  WriterHandler_consume_acks src dst queue =
    Ok (if decide (queue = []) then None else Some dg, drop k queue).
Proof.
  cbv zeta. unfold WriterHandler_consume_acks, WriterHandler_consume_acks_into.
  rewrite acks_loop_agrees, acks_into_loop_spec. cbn [length app outcome_bind].
  destruct queue as [|a queue]; [by rewrite drop_nil, take_nil|].
  rewrite decide_False by done. rewrite (acks_fitting_step 0). simpl (0 + 20).
  rewrite (decide_True (P := 20 <= _)) by (apply (bool_decide_unpack _); vm_compute; exact I).
  cbn [take drop map]. rewrite datagram_cons.
  assert (Hne : BluefinPacket_serialise (ack_pkt src dst a) <> []).
  { intros Hn. apply (f_equal length) in Hn. rewrite length_BluefinPacket_serialise in Hn. simpl in Hn. lia. }
  destruct (BluefinPacket_serialise (ack_pkt src dst a)); [done|]. by rewrite !bool_decide_true by done.
Qed.
