(* ===== verification/Writer.v ===== *)
(** * The writer of one connection

    Models [WriterHandler] of src/bluefin/src/worker/writer.rs: the calls the
    application makes ([send_data], [send_bytes], [send_bytes_async],
    [flush], the close helpers), the packetising task [read_data], the
    sender task it spawns, and the ack task [read_ack].

    The tasks run concurrently and share the in-flight counter and the
    mirrored packet number, so the system is a transition system: an action is
    one step of one task, and a history is any interleaving.  Whether a
    channel takes a message is the channel's answer, an argument of the call
    ([accepted]).  Relaxed and acquire/release atomics are modelled as
    sequentially consistent; every theorem about a failure below is about an
    interleaving that needs no weaker order. *)
From stdpp Require Import base numbers list option strings.
From S2P Require Import Prelude Proto Header Packet OrderedBytes Close Net Packetiser.

(** ** The handle *)

Record WriterHandler : Type := {
  wh_next_packet_num : Z;
  next_packet_num_shared : Z;
  wh_closed : bool;
  data_sender : bool;
  ack_sender : bool;
  wh_src_conn_id : Z;
  wh_dst_conn_id : Z;
  pending_bytes : Z;
  flush_notify : nat;
  wh_diag_tx : bool;
}.

Definition WriterHandler_new (next_packet_num src_conn_id dst_conn_id : Z) : WriterHandler :=
  {| wh_next_packet_num := next_packet_num; next_packet_num_shared := next_packet_num;
     wh_closed := false; data_sender := false; ack_sender := false;
     wh_src_conn_id := src_conn_id; wh_dst_conn_id := dst_conn_id;
     pending_bytes := 0; flush_notify := 0; wh_diag_tx := false |}.

(** [start] makes the two channels; the tasks it spawns are the pump, the
    sender and the ack task below. *)
Definition WriterHandler_start (w : WriterHandler) : WriterHandler :=
  {| wh_next_packet_num := wh_next_packet_num w; next_packet_num_shared := next_packet_num_shared w;
     wh_closed := wh_closed w; data_sender := true; ack_sender := true;
     wh_src_conn_id := wh_src_conn_id w; wh_dst_conn_id := wh_dst_conn_id w;
     pending_bytes := pending_bytes w; flush_notify := flush_notify w; wh_diag_tx := wh_diag_tx w |}.

Definition with_pending_bytes (w : WriterHandler) (n : Z) : WriterHandler :=
  {| wh_next_packet_num := wh_next_packet_num w; next_packet_num_shared := next_packet_num_shared w;
     wh_closed := wh_closed w; data_sender := data_sender w; ack_sender := ack_sender w;
     wh_src_conn_id := wh_src_conn_id w; wh_dst_conn_id := wh_dst_conn_id w;
     pending_bytes := n; flush_notify := flush_notify w; wh_diag_tx := wh_diag_tx w |}.

Definition with_shared (w : WriterHandler) (n : Z) : WriterHandler :=
  {| wh_next_packet_num := wh_next_packet_num w; next_packet_num_shared := n;
     wh_closed := wh_closed w; data_sender := data_sender w; ack_sender := ack_sender w;
     wh_src_conn_id := wh_src_conn_id w; wh_dst_conn_id := wh_dst_conn_id w;
     pending_bytes := pending_bytes w; flush_notify := flush_notify w; wh_diag_tx := wh_diag_tx w |}.

(** The body the three send calls share: [fetch_add], the enqueue, and
    [fetch_sub] when it failed, as one step (FlushSteps.v takes the three
    apart).  The second component is the message the channel got. *)
Definition send_impl (failure : string) (w : WriterHandler) (payload : bytes) (accepted : bool) :
    BluefinResult nat * WriterHandler * option bytes :=
  if wh_closed w then (Err ConnectionClosed, w, None)
  else if data_sender w then
    let len := length payload in
    let w1 := with_pending_bytes w (u64_add (pending_bytes w) (Z.of_nat len)) in
    if accepted then (Ok len, w1, Some payload)
    else
      (Err (WriteError failure),
       with_pending_bytes w1 (u64_sub (pending_bytes w1) (Z.of_nat len)), None)
  else (Err (WriteError "Sender is not available"), w, None).

Definition WriterHandler_send_bytes := send_impl "Failed to send data (channel full or closed)".
Definition WriterHandler_send_bytes_async := send_impl "Failed to send data (channel closed)".
Definition WriterHandler_send_data := send_impl "Failed to send data (channel full or closed)".

(** [flush] returns at a check that finds the counter at zero; between two
    checks it waits for a notification. *)
Definition WriterHandler_flush_check (w : WriterHandler) : bool := (pending_bytes w =? 0)%Z.

Definition WriterHandler_send_ack (w : WriterHandler) (base_packet_num : Z)
    (num_packets_consumed : nat) (accepted : bool) : BluefinResult unit * option AckData :=
  if ack_sender w then
    if accepted then
      (Ok tt, Some {| ack_base_packet_num := base_packet_num;
                      ack_num_packets_consumed := num_packets_consumed |})
    else (Err (WriteError "Failed to send ack"), None)
  else (Err (WriteError "Ack sender is not available"), None).

Definition WriterHandler_reserve_close_packet_num (w : WriterHandler) : Z * WriterHandler :=
  (next_packet_num_shared w, with_shared w (u64_add (next_packet_num_shared w) 1)).

Definition WriterHandler_mark_closed (w : WriterHandler) : WriterHandler :=
  {| wh_next_packet_num := wh_next_packet_num w; next_packet_num_shared := next_packet_num_shared w;
     wh_closed := true; data_sender := data_sender w; ack_sender := ack_sender w;
     wh_src_conn_id := wh_src_conn_id w; wh_dst_conn_id := wh_dst_conn_id w;
     pending_bytes := pending_bytes w; flush_notify := flush_notify w; wh_diag_tx := wh_diag_tx w |}.

(** A header-only datagram.  [sent] is how the loop of [try_send] and
    [writable().await?] ends: with the datagram taken, or with the socket's
    error. *)
Definition WriterHandler_send_control_packet (w : WriterHandler) (packet_type : PacketType)
    (packet_number : Z) (sent : BluefinResult unit) : BluefinResult bytes :=
  let header := BluefinHeader_new (wh_src_conn_id w) (wh_dst_conn_id w) packet_type 0
                  BluefinSecurityFields_default in
  let header := BluefinHeader_with_packet_number header packet_number in
  (let? (_, buf) := BluefinHeader_serialise_into header (replicate 20 0%Z) in
   let? _ := sent in
   Ok buf)%rust.

Definition WriterHandler_send_fin (w : WriterHandler) (packet_number : Z) (sent : BluefinResult unit) :
    BluefinResult (bytes * list effect) :=
  (let? buf := WriterHandler_send_control_packet w Fin packet_number sent in
   Ok (buf, diag_try_send (wh_diag_tx w) (FinSent packet_number)))%rust.

Definition WriterHandler_send_fin_ack (w : WriterHandler) (packet_number : Z) (sent : BluefinResult unit) :
    BluefinResult (bytes * list effect) :=
  (let? buf := WriterHandler_send_control_packet w FinAck packet_number sent in
   Ok (buf, diag_try_send (wh_diag_tx w) (FinAckSent packet_number)))%rust.

(** ** The transition system *)

(** Datagrams made in one wake-up of the pump, and messages taken in one. *)
Definition DATAGRAMS_PER_ROUND : nat := 12.
Definition RECV_LIMIT : nat := 20.

Inductive pump_phase : Type :=
  | PumpIdle
  | PumpPacking (i : nat)
  | PumpStoring.

Record WriterSystem : Type := {
  ws_handle : WriterHandler;
  ws_channel : list bytes;            (* accepted sends the pump has not taken *)
  ws_phase : pump_phase;
  ws_queue : list bytes;              (* [data_queue] of [read_data] *)
  ws_next : Z;                        (* its local [next_packet_num] *)
  ws_sending : list (bytes * nat);    (* the channel to the sender task *)
  ws_wire : list (bytes * nat);       (* what the socket took *)
  ws_events : list effect;            (* diagnostic events of the pump *)
}.

Inductive writer_action : Type :=
  | ASend (payload : bytes)           (* an accepted send *)
  | ARecv (n : nat)                   (* the pump takes [n] messages *)
  | APack                             (* one round of the pump's [for] *)
  | AStore                            (* the store after the [for] *)
  | ATransmit.                        (* the sender task sends one datagram *)

Definition with_handle (s : WriterSystem) (w : WriterHandler) : WriterSystem :=
  {| ws_handle := w; ws_channel := ws_channel s; ws_phase := ws_phase s; ws_queue := ws_queue s;
     ws_next := ws_next s; ws_sending := ws_sending s; ws_wire := ws_wire s; ws_events := ws_events s |}.

(** One round of [for i in 0..12]. *)
Definition pump_pack (s : WriterSystem) (i : nat) : option WriterSystem :=
  match WriterHandler_consume_data_into (wh_src_conn_id (ws_handle s)) (wh_dst_conn_id (ws_handle s))
          (ws_queue s) (ws_next s) [] with
  | Ok (payload_bytes, queue', next', dg) =>
      let more := bool_decide (0 < payload_bytes) in
      Some {| ws_handle := ws_handle s; ws_channel := ws_channel s;
              ws_phase := if more && bool_decide (S i < DATAGRAMS_PER_ROUND)
                          then PumpPacking (S i) else PumpStoring;
              ws_queue := queue'; ws_next := next';
              ws_sending := if more then ws_sending s ++ [(dg, payload_bytes)] else ws_sending s;
              ws_wire := ws_wire s;
              ws_events := if more then
                  ws_events s ++ diag_try_send (wh_diag_tx (ws_handle s))
                    (DataSent (ws_next s) (u64_sub next' (ws_next s)) payload_bytes)
                else ws_events s |}
  | _ => None
  end.

(** [fetch_sub], and the notification when the counter reached zero. *)
Definition settle (w : WriterHandler) (payload_bytes : nat) : WriterHandler :=
  if decide (payload_bytes = 0) then w
  else
    let prev := pending_bytes w in
    {| wh_next_packet_num := wh_next_packet_num w; next_packet_num_shared := next_packet_num_shared w;
       wh_closed := wh_closed w; data_sender := data_sender w; ack_sender := ack_sender w;
       wh_src_conn_id := wh_src_conn_id w; wh_dst_conn_id := wh_dst_conn_id w;
       pending_bytes := u64_sub prev (Z.of_nat payload_bytes);
       flush_notify := if (prev =? Z.of_nat payload_bytes)%Z then S (flush_notify w) else flush_notify w;
       wh_diag_tx := wh_diag_tx w |}.

(** [None]: the action is not possible now.  A transmission and its [fetch_sub]
    are one step here; FlushSteps.v takes them apart. *)
Definition writer_step (s : WriterSystem) (a : writer_action) : option WriterSystem :=
  match a with
  | ASend payload =>
      match WriterHandler_send_bytes (ws_handle s) payload true with
      | (Ok _, w, Some msg) =>
          Some {| ws_handle := w; ws_channel := ws_channel s ++ [msg]; ws_phase := ws_phase s;
                  ws_queue := ws_queue s; ws_next := ws_next s; ws_sending := ws_sending s;
                  ws_wire := ws_wire s; ws_events := ws_events s |}
      | _ => None
      end
  | ARecv n =>
      match ws_phase s with
      | PumpIdle =>
          if decide (1 <= n <= RECV_LIMIT /\ n <= length (ws_channel s)) then
            Some {| ws_handle := ws_handle s; ws_channel := drop n (ws_channel s);
                    ws_phase := PumpPacking 0; ws_queue := ws_queue s ++ take n (ws_channel s);
                    ws_next := ws_next s; ws_sending := ws_sending s; ws_wire := ws_wire s; ws_events := ws_events s |}
          else None
      | _ => None
      end
  | APack => match ws_phase s with PumpPacking i => pump_pack s i | _ => None end
  | AStore =>
      match ws_phase s with
      | PumpStoring =>
          Some {| ws_handle := with_shared (ws_handle s) (ws_next s); ws_channel := ws_channel s;
                  ws_phase := PumpIdle; ws_queue := ws_queue s; ws_next := ws_next s;
                  ws_sending := ws_sending s; ws_wire := ws_wire s; ws_events := ws_events s |}
      | _ => None
      end
  | ATransmit =>
      match ws_sending s with
      | [] => None
      | (dg, n) :: rest =>
          Some {| ws_handle := settle (ws_handle s) n; ws_channel := ws_channel s;
                  ws_phase := ws_phase s; ws_queue := ws_queue s; ws_next := ws_next s;
                  ws_sending := rest; ws_wire := ws_wire s ++ [(dg, n)];
                  ws_events := ws_events s |}
      end
  end.

Definition writer_init (pn src dst : Z) : WriterSystem :=
  {| ws_handle := WriterHandler_start (WriterHandler_new pn src dst); ws_channel := [];
     ws_phase := PumpIdle; ws_queue := []; ws_next := pn; ws_sending := []; ws_wire := []; ws_events := [] |}.

Fixpoint writer_run (s : WriterSystem) (acts : list writer_action) : option WriterSystem :=
  match acts with
  | [] => Some s
  | a :: acts' => s' ← writer_step s a; writer_run s' acts'
  end.

(** The bytes the application handed over, in order. *)
Definition accepted_bytes (acts : list writer_action) : bytes :=
  concat (omap (fun a => match a with ASend p => Some p | _ => None end) acts).

(** ** The ack task *)

Record AckTask : Type := {
  at_queue : list AckData;
  at_pending : option bytes;          (* [pending_send] *)
}.

(** The start of a round: a datagram the socket refused is tried again;
    [false] is the [continue] that waits for the socket. *)
Definition read_ack_retry (t : AckTask) (socket_takes : bool) : bool * AckTask * list bytes :=
  match at_pending t with
  | None => (true, t, [])
  | Some data =>
      if socket_takes then (true, {| at_queue := at_queue t; at_pending := None |}, [data])
      else (false, t, [])
  end.

(** [for i in 0..12]: [takes] are the socket's answers. *)
Fixpoint read_ack_sends (src dst : Z) (n : nat) (queue : list AckData) (takes : nat -> bool) :
    BluefinResult (AckTask * list bytes) :=
  match n with
  | O => Ok ({| at_queue := queue; at_pending := None |}, [])
  | S n' =>
      (let? (made, queue', dg) := WriterHandler_consume_acks_into src dst queue [] in
       if made : bool then
         if takes n then
           let? (t, sent) := read_ack_sends src dst n' queue' takes in
           Ok (t, dg :: sent)
         else Ok ({| at_queue := queue'; at_pending := Some dg |}, [])
       else Ok ({| at_queue := queue'; at_pending := None |}, []))%rust
  end.

(** The rest of the round, on the batch [recv_many] gave. *)
Definition read_ack_round (src dst : Z) (t : AckTask) (batch : list AckData) (takes : nat -> bool) :
    BluefinResult (AckTask * list bytes) :=
  match batch with
  | [] => Ok (t, [])
  | _ => read_ack_sends src dst DATAGRAMS_PER_ROUND (at_queue t ++ batch) takes
  end.

(** ** The invariant *)

Lemma numbered_app src dst pn cs ds :
  numbered src dst pn (cs ++ ds) =
  numbered src dst pn cs ++ numbered src dst (u64_wrap (pn + Z.of_nat (length cs))) ds.
Proof.
  unfold numbered. rewrite imap_app. f_equal. apply imap_ext. intros i c _. simpl.
  f_equal. rewrite u64_wrap_add_l. f_equal. lia.
Qed.

Lemma payloads_numbered src dst pn cs : payloads (numbered src dst pn cs) = concat cs.
Proof.
  unfold payloads. f_equal. unfold numbered. apply list_eq. intros i.
  rewrite list_lookup_fmap, list_lookup_imap. by destruct (cs !! i).
Qed.

(** A datagram with the payload bytes it carries, as the sender task gets it. *)
Definition outgoing (ps : list BluefinPacket) : bytes * nat := (datagram ps, length (payloads ps)).

Definition sending_bytes (l : list (bytes * nat)) : nat := sum_list_with snd l.

(** [groups]: the packets of each datagram made so far; [chunks]: the pieces of
    the stream they carry. *)
Record writer_inv (pn src dst : Z) (accepted : bytes) (groups : list (list BluefinPacket))
    (chunks : list bytes) (s : WriterSystem) : Prop := {
  wi_src : wh_src_conn_id (ws_handle s) = src;
  wi_dst : wh_dst_conn_id (ws_handle s) = dst;
  wi_open : wh_closed (ws_handle s) = false /\ data_sender (ws_handle s) = true;
  wi_datagrams : ws_wire s ++ ws_sending s = map outgoing groups;
  wi_groups : Forall (fun ps => ps <> [] /\ 0 < length (payloads ps) /\
                        length (datagram ps) <= MAX_BLUEFIN_BYTES_IN_UDP_DATAGRAM) groups;
  wi_packets : concat groups = numbered src dst pn chunks;
  wi_chunks : Forall (fun c => 0 < length c <= MAX_BLUEFIN_PAYLOAD_SIZE_BYTES) chunks;
  wi_stream : concat chunks ++ concat (ws_queue s) ++ concat (ws_channel s) = accepted;
  wi_next : ws_next s = u64_wrap (pn + Z.of_nat (length chunks));
  wi_pending : pending_bytes (ws_handle s) =
    Z.of_nat (sending_bytes (ws_sending s) + length (concat (ws_queue s)) + length (concat (ws_channel s)));
  wi_shared : ws_phase s = PumpIdle -> next_packet_num_shared (ws_handle s) = ws_next s;
}.

Lemma writer_inv_init pn src dst : is_u64 pn -> writer_inv pn src dst [] [] [] (writer_init pn src dst).
Proof.
  intros Hpn. split; simpl; try done; try constructor. rewrite Z.add_0_r. by rewrite u64_wrap_small.
Qed.

(** The counter never leaves the range of a [usize]. *)
Lemma pending_bound pn src dst accepted groups chunks s :
  writer_inv pn src dst accepted groups chunks s ->
  (0 <= pending_bytes (ws_handle s) <= Z.of_nat (length accepted))%Z.
Proof.
  intros Hi. rewrite (wi_pending _ _ _ _ _ _ _ Hi). split; [lia|].
  rewrite <- (wi_stream _ _ _ _ _ _ _ Hi), !length_app.
  assert (Hs : sending_bytes (ws_sending s) <= length (concat chunks)); [|lia].
  rewrite <- (payloads_numbered src dst pn), <- (wi_packets _ _ _ _ _ _ _ Hi).
  pose proof (wi_datagrams _ _ _ _ _ _ _ Hi) as Hd.
  assert (Hsum : sending_bytes (ws_wire s ++ ws_sending s) = length (payloads (concat groups))).
  { rewrite Hd. clear. induction groups as [|ps gs IH]; [done|].
    cbn [map concat]. rewrite payloads_app, length_app, <- IH. done. }
  unfold sending_bytes in *. rewrite sum_list_with_app in Hsum. lia.
Qed.

Section Steps.
Context (pn src dst : Z) (accepted : bytes) (groups : list (list BluefinPacket)) (chunks : list bytes).
Context (s : WriterSystem) (Hi : writer_inv pn src dst accepted groups chunks s).

Lemma writer_inv_send payload :
  (Z.of_nat (length accepted + length payload) < 2 ^ 64)%Z ->
  exists s', writer_step s (ASend payload) = Some s' /\
    writer_inv pn src dst (accepted ++ payload) groups chunks s'.
Proof using Hi.
  intros Hb. pose proof (pending_bound _ _ _ _ _ _ _ Hi) as Hp. destruct Hi as [? ? [Hc Hd] ? ? ? ? Hst ? Hpe Hsh].
  simpl. unfold WriterHandler_send_bytes, send_impl. rewrite Hc, Hd. eexists. split; [done|].
  split; simpl; try done.
  - rewrite concat_app. simpl. rewrite app_nil_r, <- Hst. by rewrite !app_assoc.
  - rewrite u64_add_small by int_lia. rewrite Hpe, concat_app, length_app. simpl. rewrite app_nil_r. lia.
Qed.

Lemma writer_inv_recv n s' :
  writer_step s (ARecv n) = Some s' -> writer_inv pn src dst accepted groups chunks s'.
Proof using Hi.
  simpl. destruct (ws_phase s) eqn:Hph; try done. case_decide; [|done]. intros [= <-].
  destruct Hi as [? ? ? ? ? ? ? Hst ? Hpe Hsh]. split; simpl; try done.
  - rewrite concat_app, <- app_assoc, <- concat_app, take_drop. done.
  - rewrite concat_app, length_app, Hpe. rewrite <- (take_drop n (ws_channel s)) at 1.
    rewrite concat_app, length_app. lia.
Qed.

Lemma writer_inv_store s' :
  writer_step s AStore = Some s' -> writer_inv pn src dst accepted groups chunks s'.
Proof using Hi.
  simpl. destruct (ws_phase s) eqn:Hph; try done. intros [= <-].
  destruct Hi. by split.
Qed.

Lemma writer_inv_transmit s' :
  (Z.of_nat (length accepted) < 2 ^ 64)%Z ->
  writer_step s ATransmit = Some s' -> writer_inv pn src dst accepted groups chunks s'.
Proof using Hi.
  intros Hb. pose proof (pending_bound _ _ _ _ _ _ _ Hi) as Hp. simpl.
  destruct (ws_sending s) as [|[dg n] rest] eqn:Hs; [done|]. intros [= <-].
  destruct Hi as [? ? ? Hd ? ? ? Hst ? Hpe Hsh]. rewrite Hs in Hd, Hpe. cbn [sending_bytes sum_list_with snd] in Hpe.
  unfold settle. split; simpl; try done; try (case_decide; simpl; done).
  - by rewrite <- app_assoc.
  - case_decide as Hn; simpl; [subst n; done|].
    unfold sending_bytes in *. rewrite u64_sub_small by int_lia. lia.
Qed.

Lemma writer_inv_pack s' :
  writer_step s APack = Some s' ->
  exists groups' chunks', writer_inv pn src dst accepted groups' chunks' s'.
Proof using Hi.
  simpl. destruct (ws_phase s) as [|i|] eqn:Hph; try done. unfold pump_pack.
  destruct Hi as [<- <- ? Hd Hg Hpk Hck Hst Hnx Hpe Hsh].
  set (src0 := wh_src_conn_id (ws_handle s)) in *. set (dst0 := wh_dst_conn_id (ws_handle s)) in *.
  assert (Hnu : is_u64 (ws_next s)) by (rewrite Hnx; apply u64_wrap_range).
  destruct (consume_data_into_ok src0 dst0 (ws_queue s) (ws_next s) [] Hnu) as (queue' & -> & Hq & _).
  cbn [app]. set (stream := concat (ws_queue s)) in *.
  assert (Hnx' : u64_wrap (ws_next s + Z.of_nat (length (cut stream))) =
                 u64_wrap (pn + Z.of_nat (length (chunks ++ cut stream)))).
  { rewrite Hnx, u64_wrap_add_l, length_app. f_equal. lia. }
  assert (Hst' : concat (chunks ++ cut stream) ++ concat queue' ++ concat (ws_channel s) = accepted).
  { rewrite concat_app, concat_cut, Hq, <- app_assoc, (app_assoc (take _ _)), take_drop. done. }
  assert (Hck' : Forall (fun c => 0 < length c <= MAX_BLUEFIN_PAYLOAD_SIZE_BYTES) (chunks ++ cut stream)).
  { apply Forall_app. split; [done|apply cut_sizes]. }
  assert (Hlen : length stream = length (take DATAGRAM_PAYLOAD stream) + length (concat queue')).
  { rewrite Hq, <- length_app, take_drop. done. }
  case_bool_decide as Hmore; intros [= <-].
  - exists (groups ++ [numbered src0 dst0 (ws_next s) (cut stream)]), (chunks ++ cut stream).
    split; simpl; try done.
    + rewrite app_assoc, Hd, map_app. simpl. unfold outgoing.
      by rewrite payloads_numbered, concat_cut.
    + apply Forall_app. split; [done|]. constructor; [|constructor].
      rewrite payloads_numbered, concat_cut. split_and!; [|lia|apply datagram_size_bound].
      intros Hnil. apply (f_equal payloads) in Hnil. rewrite payloads_numbered, concat_cut in Hnil.
      rewrite Hnil in Hmore. simpl in Hmore. lia.
    + rewrite concat_app, Hpk. simpl. rewrite app_nil_r, numbered_app, Hnx. done.
    + rewrite Hpe. unfold sending_bytes. rewrite sum_list_with_app. simpl. lia.
    + by case_bool_decide.
  - exists groups, (chunks ++ cut stream).
    assert (Hz : cut stream = []).
    { assert (Ht : take DATAGRAM_PAYLOAD stream = []) by (apply length_zero_iff_nil; lia).
      unfold cut. by rewrite Ht. }
    split; simpl; try done.
    + by rewrite Hz, app_nil_r.
    + rewrite Hpe. lia.
Qed.

End Steps.

Lemma accepted_bytes_snoc acts a :
  accepted_bytes (acts ++ [a]) =
  accepted_bytes acts ++ match a with ASend p => p | _ => [] end.
Proof.
  unfold accepted_bytes. rewrite omap_app, concat_app. f_equal. destruct a; simpl; try done.
  apply app_nil_r.
Qed.

(** Every step keeps the ids and the range of the numbers, and only adds to the wire. *)
Lemma writer_step_keeps s a s' :
  writer_step s a = Some s' ->
  wh_src_conn_id (ws_handle s') = wh_src_conn_id (ws_handle s) /\
  wh_dst_conn_id (ws_handle s') = wh_dst_conn_id (ws_handle s) /\
  (is_u64 (ws_next s) /\ is_u64 (next_packet_num_shared (ws_handle s)) ->
   is_u64 (ws_next s') /\ is_u64 (next_packet_num_shared (ws_handle s'))) /\
  exists new, ws_wire s' = ws_wire s ++ new.
Proof.
  assert (Hsame : exists new, ws_wire s = ws_wire s ++ new) by (exists []; by rewrite app_nil_r).
  destruct a as [payload|n| | |]; cbn [writer_step].
  - unfold WriterHandler_send_bytes, send_impl.
    destruct (wh_closed (ws_handle s)), (data_sender (ws_handle s)); try done. by intros [= <-].
  - destruct (ws_phase s); [case_decide|..]; try done. by intros [= <-].
  - destruct (ws_phase s); try done. unfold pump_pack.
    destruct (WriterHandler_consume_data_into _ _ _ _ _) as [[[[pb q'] next'] dg]| | |] eqn:Hc; try done.
    intros [= <-]. split_and!; [done..| |done]. intros [Hn Hsh]. split; [|done]. cbn [ws_next].
    destruct (consume_data_into_ok (wh_src_conn_id (ws_handle s)) (wh_dst_conn_id (ws_handle s))
                (ws_queue s) (ws_next s) [] Hn) as (q & Heq & _). rewrite Hc in Heq. simplify_eq. apply u64_wrap_range.
  - destruct (ws_phase s); try done. intros [= <-]. split_and!; [done..| |done]. by intros [? _].
  - destruct (ws_sending s) as [|[dg n] rest]; [done|]. intros [= <-]. cbn [ws_handle ws_wire ws_next]. unfold settle.
    case_decide; split_and!; cbn; eauto.
Qed.

Lemma writer_run_app s acts1 acts2 :
  writer_run s (acts1 ++ acts2) = s' ← writer_run s acts1; writer_run s' acts2.
Proof.
  revert s. induction acts1 as [|a acts1 IH]; intros s; simpl; [done|].
  destruct (writer_step s a); simpl; [apply IH|done].
Qed.

Lemma writer_inv_run pn src dst acts s :
  is_u64 pn -> (Z.of_nat (length (accepted_bytes acts)) < 2 ^ 64)%Z ->
  writer_run (writer_init pn src dst) acts = Some s ->
  exists groups chunks, writer_inv pn src dst (accepted_bytes acts) groups chunks s.
Proof.
  intros Hpn. revert s. induction acts as [|a acts IH] using rev_ind; intros s Hb Hrun.
  - injection Hrun as <-. exists [], []. by apply writer_inv_init.
  - rewrite accepted_bytes_snoc in Hb |- *. rewrite length_app in Hb.
    rewrite writer_run_app in Hrun. destruct (writer_run _ acts) as [s1|] eqn:Hr1; [|done].
    destruct (IH s1 ltac:(lia) eq_refl) as (groups & chunks & Hi). simpl in Hrun.
    destruct (writer_step s1 a) as [s2|] eqn:Hstep; [|done]. injection Hrun as <-.
    destruct a as [payload|n| | |]; rewrite ?app_nil_r.
    + destruct (writer_inv_send _ _ _ _ _ _ _ Hi payload ltac:(lia)) as (s2' & Hs2 & Hi2).
      rewrite Hstep in Hs2. injection Hs2 as <-. eauto.
    + eauto using writer_inv_recv.
    + eauto using writer_inv_pack.
    + eauto using writer_inv_store.
    + eauto using writer_inv_transmit with lia.
Qed.

(** ** What is on the wire *)

Lemma concat_take_prefix {A : Type} k (ls : list (list A)) :
  concat (take k ls) = take (length (concat (take k ls))) (concat ls).
Proof.
  rewrite <- (take_drop k ls) at 3. rewrite concat_app. by rewrite take_app_length.
Qed.

Lemma numbered_take src dst pn n cs : take n (numbered src dst pn cs) = numbered src dst pn (take n cs).
Proof.
  rewrite <- (take_drop n cs) at 1. rewrite numbered_app.
  destruct (decide (n <= length cs)) as [Hle|Hgt].
  - rewrite take_app_length'; [done|]. unfold numbered. rewrite length_imap, length_take. lia.
  - rewrite drop_ge by lia. simpl. rewrite app_nil_r. apply take_ge.
    unfold numbered. rewrite length_imap, length_take. lia.
Qed.

(** The datagrams the socket took carry the first packets of the stream. *)
Lemma wire_prefix pn src dst accepted groups chunks s :
  writer_inv pn src dst accepted groups chunks s ->
  exists n, let k := length (ws_wire s) in
    ws_wire s = map outgoing (take k groups) /\
    concat (take k groups) = numbered src dst pn (take n chunks) /\
    (ws_sending s = [] -> n = length chunks).
Proof.
  intros Hi. pose proof (wi_datagrams _ _ _ _ _ _ _ Hi) as Hd. pose proof (wi_packets _ _ _ _ _ _ _ Hi) as Hp.
  exists (length (concat (take (length (ws_wire s)) groups))). cbv zeta. split_and!.
  - rewrite <- firstn_map, <- Hd. by rewrite take_app_length.
  - rewrite concat_take_prefix at 1. rewrite Hp. apply numbered_take.
  - intros Hs. rewrite Hs, app_nil_r in Hd. rewrite Hd, length_map, firstn_all, Hp.
    unfold numbered. by rewrite length_imap.
Qed.

Lemma sending_zero groups sending wire :
  wire ++ sending = map outgoing groups ->
  Forall (fun ps => ps <> [] /\ 0 < length (payloads ps) /\
                    length (datagram ps) <= MAX_BLUEFIN_BYTES_IN_UDP_DATAGRAM) groups ->
  sending_bytes sending = 0 -> sending = [].
Proof.
  intros Hd Hg Hz. destruct sending as [|[dg n] rest]; [done|]. exfalso.
  assert (Hin : (dg, n) ∈ map outgoing groups).
  { rewrite <- Hd. apply elem_of_app. right. apply elem_of_cons. by left. }
  apply list_elem_of_fmap in Hin as (ps & Heq & Hps). rewrite Forall_forall in Hg.
  destruct (Hg ps Hps) as (_ & Hpos & _). unfold outgoing in Heq. injection Heq as -> ->.
  unfold sending_bytes in Hz. simpl in Hz. lia.
Qed.

Lemma flushed pn src dst accepted groups chunks s :
  writer_inv pn src dst accepted groups chunks s ->
  WriterHandler_flush_check (ws_handle s) = true ->
  ws_sending s = [] /\ concat chunks = accepted.
Proof.
  intros Hi Hf. apply Z.eqb_eq in Hf. rewrite (wi_pending _ _ _ _ _ _ _ Hi) in Hf.
  assert (Hs : ws_sending s = []).
  { eapply sending_zero; [apply (wi_datagrams _ _ _ _ _ _ _ Hi)|apply (wi_groups _ _ _ _ _ _ _ Hi)|lia]. }
  split; [done|]. pose proof (wi_stream _ _ _ _ _ _ _ Hi) as Hst.
  assert (concat (ws_queue s) = []) as Hq by (apply length_zero_iff_nil; lia).
  assert (concat (ws_channel s) = []) as Hc by (apply length_zero_iff_nil; lia).
  rewrite Hq, Hc, !app_nil_r in Hst. done.
Qed.

(** ** A wake-up of the pump *)

Local Opaque DATAGRAM_PAYLOAD MAX_BLUEFIN_PAYLOAD_SIZE_BYTES.

Definition ROUND_PAYLOAD : nat := DATAGRAMS_PER_ROUND * DATAGRAM_PAYLOAD.

(** The packing rounds left from round [i] on, with enough bytes queued. *)
Lemma pump_packs j s i :
  ws_phase s = PumpPacking i -> i + j = DATAGRAMS_PER_ROUND -> 0 < j -> is_u64 (ws_next s) ->
  j * DATAGRAM_PAYLOAD <= length (concat (ws_queue s)) ->
  exists s', writer_run s (replicate j APack) = Some s' /\
    ws_phase s' = PumpStoring /\ concat (ws_queue s') = drop (j * DATAGRAM_PAYLOAD) (concat (ws_queue s)) /\
    ws_channel s' = ws_channel s /\ ws_handle s' = ws_handle s /\ ws_wire s' = ws_wire s /\
    length (ws_sending s') = length (ws_sending s) + j.
Proof.
  pose proof DATAGRAM_PAYLOAD_pos as HD.
  revert s i. induction j as [|j IH]; intros s i Hph Hij Hj Hn Hlen; [lia|].
  cbn [replicate writer_run writer_step]. rewrite Hph. unfold pump_pack.
  destruct (consume_data_into_ok (wh_src_conn_id (ws_handle s)) (wh_dst_conn_id (ws_handle s))
              (ws_queue s) (ws_next s) [] Hn) as (queue' & -> & Hq & _). cbn [app].
  rewrite length_take. rewrite bool_decide_true by lia. simpl andb.
  destruct (decide (j = 0)) as [->|Hj0].
  - rewrite bool_decide_false by lia. cbn [replicate writer_run mbind option_bind].
    eexists. split; [done|]. cbn [ws_queue ws_channel ws_handle ws_wire ws_sending ws_phase].
    split_and!; try done. by rewrite length_app.
  - rewrite bool_decide_true by lia. cbn [mbind option_bind].
    match goal with |- context [writer_run ?x _] =>
      destruct (IH x (S i)) as (s' & -> & H1 & H2 & H3 & H4 & H5 & H6);
      [reflexivity|lia|lia|apply u64_wrap_range|cbn [ws_queue]; rewrite Hq, length_drop; lia|]
    end.
    exists s'. split; [done|]. cbn [ws_queue ws_channel ws_handle ws_wire ws_sending] in *.
    split_and!; [exact H1| |exact H3|exact H4|exact H5|].
    + rewrite H2, Hq, drop_drop. reflexivity.
    + rewrite H6, length_app. simpl. lia.
Qed.

Lemma transmit_all s :
  exists s', writer_run s (replicate (length (ws_sending s)) ATransmit) = Some s' /\
    ws_sending s' = [] /\ ws_phase s' = ws_phase s /\ ws_queue s' = ws_queue s /\
    ws_channel s' = ws_channel s.
Proof.
  remember (length (ws_sending s)) as n eqn:Hn. revert s Hn.
  induction n as [|n IH]; intros s Hn; simpl.
  - exists s. split; [done|]. destruct (ws_sending s); [done|simpl in Hn; lia].
  - destruct (ws_sending s) as [|[dg k] rest] eqn:Hs; [simpl in Hn; lia|]. cbn [mbind option_bind].
    match goal with |- context [writer_run ?x _] =>
      destruct (IH x) as (s' & -> & H); [simpl in *; lia|] end.
    exists s'. split; [done|exact H].
Qed.

(** One send, one wake-up, and everything made is transmitted. *)
Definition one_send_history (payload : bytes) : list writer_action :=
  [ASend payload; ARecv 1] ++ replicate DATAGRAMS_PER_ROUND APack ++ [AStore] ++
  replicate DATAGRAMS_PER_ROUND ATransmit.

(** No task can move: only another send could. *)
Definition parked (s : WriterSystem) : Prop :=
  forall a s', writer_step s a = Some s' -> exists payload, a = ASend payload.

Lemma parked_when_empty s :
  ws_phase s = PumpIdle -> ws_channel s = [] -> ws_sending s = [] -> parked s.
Proof.
  intros Hp Hc Hs a s' Ha. destruct a as [payload|n| | |]; [by exists payload|exfalso..];
    simpl in Ha; rewrite ?Hp, ?Hc, ?Hs in Ha; simpl in Ha; try done.
  case_decide as Hd; [lia|done].
Qed.

(** The state once the pump has taken the first send. *)
Definition after_first_recv (pn src dst : Z) (payload : bytes) : WriterSystem :=
  {| ws_handle := with_pending_bytes (WriterHandler_start (WriterHandler_new pn src dst))
                    (u64_add 0 (Z.of_nat (length payload)));
     ws_channel := []; ws_phase := PumpPacking 0; ws_queue := [payload];
     ws_next := pn; ws_sending := []; ws_wire := []; ws_events := [] |}.

Lemma after_recv pn src dst payload :
  writer_run (writer_init pn src dst) [ASend payload; ARecv 1] = Some (after_first_recv pn src dst payload).
Proof. reflexivity. Qed.

Lemma big_send_parks pn src dst payload :
  is_u64 pn -> ROUND_PAYLOAD < length payload -> (Z.of_nat (length payload) < 2 ^ 64)%Z ->
  exists s, writer_run (writer_init pn src dst) (one_send_history payload) = Some s /\
    parked s /\ pending_bytes (ws_handle s) = Z.of_nat (length payload - ROUND_PAYLOAD).
Proof.
  intros Hpn Hbig Hb. unfold one_send_history.
  assert (Hrun : exists s, writer_run (writer_init pn src dst) (one_send_history payload) = Some s /\
    ws_phase s = PumpIdle /\ ws_channel s = [] /\ ws_sending s = [] /\
    concat (ws_queue s) = drop ROUND_PAYLOAD payload).
  { unfold one_send_history. rewrite writer_run_app. 
    rewrite after_recv. set (s0 := after_first_recv pn src dst payload).
    cbn [mbind option_bind]. rewrite writer_run_app.
    destruct (pump_packs DATAGRAMS_PER_ROUND s0 0) as (s1 & -> & Hp1 & Hq1 & Hc1 & _ & _ & Hl1);
      [reflexivity|reflexivity|unfold DATAGRAMS_PER_ROUND; lia|exact Hpn| |].
    { unfold s0, after_first_recv. cbn [ws_queue concat]. rewrite app_nil_r. fold ROUND_PAYLOAD. lia. }
    cbn [mbind option_bind app writer_run writer_step]. rewrite Hp1. cbn [mbind option_bind].
    match goal with |- context [writer_run ?x _] => destruct (transmit_all x) as (s2 & Hr & Hs2 & Hp2 & Hq2 & Hc2) end.
    cbn [ws_sending ws_phase ws_queue ws_channel] in *. rewrite Hl1 in Hr. simpl (length [] + _) in Hr.
    exists s2. split; [exact Hr|]. rewrite Hp2, Hc2, Hq2, Hq1, Hc1. simpl. rewrite app_nil_r. done. }
  destruct Hrun as (s & Hrun & Hp & Hc & Hs & Hq). exists s. split; [exact Hrun|].
  split; [by apply parked_when_empty|].
  assert (Hacc : accepted_bytes (one_send_history payload) = payload).
  { unfold accepted_bytes, one_send_history. simpl. by rewrite app_nil_r. }
  destruct (writer_inv_run pn src dst _ s Hpn ltac:(rewrite Hacc; exact Hb) Hrun) as (gs & cs & Hi).
  rewrite (wi_pending _ _ _ _ _ _ _ Hi), Hs, Hc, Hq. simpl. rewrite length_drop. f_equal. lia.
Qed.

(** ** A datagram of acks *)

Lemma consume_acks_into_spec src dst queue :
  WriterHandler_consume_acks_into src dst queue [] =
    Ok (bool_decide (queue <> []), drop (acks_fitting 0) queue,
        datagram (map (ack_pkt src dst) (take (acks_fitting 0) queue))).
Proof.
  unfold WriterHandler_consume_acks_into. destruct queue as [|a queue]; [by rewrite drop_nil, take_nil|].
  rewrite acks_into_loop_spec. cbn [length app outcome_bind].
  assert (Hf : exists k, acks_fitting 0 = S k).
  { rewrite acks_fitting_step. rewrite decide_True; [eauto|].
    apply (bool_decide_unpack _). vm_compute. exact I. }
  destruct Hf as [k ->]. cbn [take drop map]. rewrite datagram_cons.
  assert (Hne : BluefinPacket_serialise (ack_pkt src dst a) <> []).
  { intros Hn. apply (f_equal length) in Hn. rewrite length_BluefinPacket_serialise in Hn. simpl in Hn. lia. }
  rewrite !bool_decide_true; [done|done|]. by destruct (BluefinPacket_serialise (ack_pkt src dst a)).
Qed.

(** ** Properties *)

Local Transparent DATAGRAM_PAYLOAD MAX_BLUEFIN_PAYLOAD_SIZE_BYTES.

(** C8: in every interleaving of the application, the packetising task and the
    sender task, the datagrams on the wire are the datagrams of consecutively
    numbered data packets of 1 to 1500 bytes, none over 15,200 bytes, whose
    payloads are the first bytes the application handed over, in order: the
    writer loses, repeats and reorders nothing. *)
Theorem writer_wire_is_stream_prefix pn src dst acts s :
  is_u64 pn -> (Z.of_nat (length (accepted_bytes acts)) < 2 ^ 64)%Z ->
  writer_run (writer_init pn src dst) acts = Some s ->
  exists groups chunks rest,
    ws_wire s = map outgoing groups /\ concat groups = numbered src dst pn chunks /\
    Forall (fun ps => length (datagram ps) <= MAX_BLUEFIN_BYTES_IN_UDP_DATAGRAM) groups /\
    Forall (fun c => 0 < length c <= MAX_BLUEFIN_PAYLOAD_SIZE_BYTES) chunks /\
    accepted_bytes acts = concat chunks ++ rest.
Proof.
  intros Hpn Hb Hrun. destruct (writer_inv_run pn src dst acts s Hpn Hb Hrun) as (groups & chunks & Hi).
  destruct (wire_prefix _ _ _ _ _ _ _ Hi) as (n & H1 & H2 & _).
  exists (take (length (ws_wire s)) groups), (take n chunks),
    (concat (drop n chunks) ++ concat (ws_queue s) ++ concat (ws_channel s)).
  split_and!; [done|done| | |].
  - apply Forall_take. eapply Forall_impl; [apply (wi_groups _ _ _ _ _ _ _ Hi)|]. naive_solver.
  - apply Forall_take, (wi_chunks _ _ _ _ _ _ _ Hi).
  - rewrite app_assoc, <- concat_app, take_drop. symmetry. apply (wi_stream _ _ _ _ _ _ _ Hi).
Qed.

Definition small_history : list writer_action :=
  [ASend [1; 2]%Z; ASend [3]%Z; ARecv 2; APack; ATransmit; APack; AStore].

Lemma writer_wire_is_stream_prefix_witness :
  exists groups chunks rest,
    map outgoing [numbered 1 2 9 [[1; 2; 3]%Z]] = map outgoing groups /\
    concat groups = numbered 1 2 9 chunks /\
    Forall (fun ps => length (datagram ps) <= MAX_BLUEFIN_BYTES_IN_UDP_DATAGRAM) groups /\
    Forall (fun c => 0 < length c <= MAX_BLUEFIN_PAYLOAD_SIZE_BYTES) chunks /\
    [1; 2; 3]%Z = concat chunks ++ rest.
Proof.
  destruct (writer_run (writer_init 9 1 2) small_history) as [s|] eqn:Hrun;
    [|vm_compute in Hrun; discriminate].
  pose proof (writer_wire_is_stream_prefix 9 1 2 small_history s ltac:(int_lia) ltac:(vm_compute; reflexivity) Hrun) as H.
  vm_compute in Hrun. injection Hrun as <-. exact H.
Defined.

(** C14: when [flush] returns, every byte the application handed over before is
    on the wire. *)
Theorem flush_means_on_the_wire pn src dst acts s :
  is_u64 pn -> (Z.of_nat (length (accepted_bytes acts)) < 2 ^ 64)%Z ->
  writer_run (writer_init pn src dst) acts = Some s ->
  WriterHandler_flush_check (ws_handle s) = true ->
  exists groups chunks,
    ws_wire s = map outgoing groups /\ concat groups = numbered src dst pn chunks /\
    concat chunks = accepted_bytes acts.
Proof.
  intros Hpn Hb Hrun Hf. destruct (writer_inv_run pn src dst acts s Hpn Hb Hrun) as (groups & chunks & Hi).
  destruct (flushed _ _ _ _ _ _ _ Hi Hf) as [Hs Hc].
  exists groups, chunks. pose proof (wi_datagrams _ _ _ _ _ _ _ Hi) as Hd. rewrite Hs, app_nil_r in Hd.
  split_and!; [done|apply (wi_packets _ _ _ _ _ _ _ Hi)|done].
Qed.

Lemma flush_means_on_the_wire_witness :
  exists groups chunks,
    map outgoing [numbered 1 2 9 [[1; 2; 3]%Z]] = map outgoing groups /\
    concat groups = numbered 1 2 9 chunks /\ concat chunks = [1; 2; 3]%Z.
Proof.
  destruct (writer_run (writer_init 9 1 2) small_history) as [s|] eqn:Hrun;
    [|vm_compute in Hrun; discriminate].
  pose proof (flush_means_on_the_wire 9 1 2 small_history s ltac:(int_lia) ltac:(vm_compute; reflexivity) Hrun) as H.
  vm_compute in Hrun. injection Hrun as <-. exact (H eq_refl).
Defined.

(** C33: a send of more than 180,000 bytes is not sent in full: the packetising
    task makes twelve datagrams and then waits for another send with the rest
    still queued; no task can move, the in-flight counter stays at the number
    of bytes left, and [flush] (and so [close]) does not return. *)
Theorem big_send_stays_queued pn src dst payload :
  is_u64 pn -> ROUND_PAYLOAD < length payload -> (Z.of_nat (length payload) < 2 ^ 64)%Z ->
  exists s, writer_run (writer_init pn src dst) (one_send_history payload) = Some s /\
    parked s /\ pending_bytes (ws_handle s) = Z.of_nat (length payload - ROUND_PAYLOAD) /\
    WriterHandler_flush_check (ws_handle s) = false.
Proof.
  intros Hpn Hbig Hb. destruct (big_send_parks pn src dst payload Hpn Hbig Hb) as (s & H1 & H2 & H3).
  exists s. split_and!; [done|done|done|]. unfold WriterHandler_flush_check. rewrite H3.
  apply Z.eqb_neq. lia.
Qed.

Lemma big_send_stays_queued_witness :
  let payload := replicate (ROUND_PAYLOAD + 5) 7%Z in
  exists s, writer_run (writer_init 9 1 2) (one_send_history payload) = Some s /\
    parked s /\ pending_bytes (ws_handle s) = Z.of_nat (length payload - ROUND_PAYLOAD) /\
    WriterHandler_flush_check (ws_handle s) = false.
Proof.
  intros payload. apply (big_send_stays_queued 9 1 2 payload); [int_lia| |];
    unfold payload; rewrite length_replicate; [lia|].
  unfold ROUND_PAYLOAD, DATAGRAMS_PER_ROUND, DATAGRAM_PAYLOAD, MAX_BLUEFIN_PACKETS_IN_UDP_DATAGRAM,
    MAX_BLUEFIN_PAYLOAD_SIZE_BYTES. lia.
Defined.

(** C35: [flush] can return while the packetising task has not yet published
    its packet counter; the number [close] then reserves for the FIN is the
    number of a data packet that is already on the wire. *)
Theorem fin_number_collides pn src dst payload :
  is_u64 pn -> 0 < length payload <= MAX_BLUEFIN_PAYLOAD_SIZE_BYTES ->
  exists s, writer_run (writer_init pn src dst) [ASend payload; ARecv 1; APack; ATransmit] = Some s /\
    WriterHandler_flush_check (ws_handle s) = true /\
    ws_wire s = [outgoing [data_pkt src dst pn payload]] /\
    fst (WriterHandler_reserve_close_packet_num (ws_handle s)) = pn.
Proof.
  intros Hpn Hl.
  change [ASend payload; ARecv 1; APack; ATransmit] with ([ASend payload; ARecv 1] ++ [APack; ATransmit]).
  rewrite writer_run_app, after_recv. unfold after_first_recv.
  cbn [mbind option_bind writer_run writer_step ws_phase].
  unfold pump_pack. cbn [ws_queue ws_next ws_handle].
  destruct (consume_data_into_ok src dst [payload] pn [] Hpn) as (q & Heq & _ & _).
  cbn [wh_src_conn_id wh_dst_conn_id with_pending_bytes WriterHandler_start WriterHandler_new].
  rewrite Heq. cbn [concat app]. rewrite !app_nil_r.
  assert (Hsmall : length payload <= DATAGRAM_PAYLOAD).
  { unfold DATAGRAM_PAYLOAD, MAX_BLUEFIN_PACKETS_IN_UDP_DATAGRAM. lia. }
  assert (Hne : payload <> []) by (destruct payload; [simpl in Hl; lia|done]).
  assert (Hcut : cut payload = [payload]) by (unfold cut; rewrite take_ge by done; apply chunks_short; [done|lia]).
  rewrite Hcut, take_ge by done. rewrite bool_decide_true by lia.
  cbn [mbind option_bind ws_sending ws_wire ws_handle app]. eexists. split; [done|]. unfold settle. cbn [ws_handle ws_wire].
  rewrite decide_False by lia. split_and!.
  - unfold WriterHandler_flush_check. cbn [pending_bytes]. unfold u64_add, u64_sub. rewrite Z.add_0_l.
    unfold MAX_BLUEFIN_PAYLOAD_SIZE_BYTES in Hl.
    rewrite (u64_wrap_small (Z.of_nat _)) by int_lia. by rewrite Z.sub_diag.
  - unfold numbered, outgoing. simpl. rewrite Z.add_0_r, u64_wrap_small by done.
    unfold payloads. simpl. by rewrite app_nil_r.
  - done.
Qed.

Lemma fin_number_collides_witness :
  exists s, writer_run (writer_init 9 1 2) [ASend [1; 2]%Z; ARecv 1; APack; ATransmit] = Some s /\
    WriterHandler_flush_check (ws_handle s) = true /\
    ws_wire s = [outgoing [data_pkt 1 2 9 [1; 2]%Z]] /\
    fst (WriterHandler_reserve_close_packet_num (ws_handle s)) = 9%Z.
Proof.
  apply (fin_number_collides 9 1 2 [1; 2]%Z); [int_lia|].
  unfold MAX_BLUEFIN_PAYLOAD_SIZE_BYTES. simpl. lia.
Defined.

(** Once the packetising task is back at its channel, [flush] has returned
    and nothing raced with it, the FIN's number is the one after the last data
    packet on the wire, as the protocol asks. *)
Theorem fin_number_follows_data pn src dst acts s :
  is_u64 pn -> (Z.of_nat (length (accepted_bytes acts)) < 2 ^ 64)%Z ->
  writer_run (writer_init pn src dst) acts = Some s ->
  WriterHandler_flush_check (ws_handle s) = true -> ws_phase s = PumpIdle ->
  exists groups,
    ws_wire s = map outgoing groups /\
    fst (WriterHandler_reserve_close_packet_num (ws_handle s)) =
      u64_wrap (pn + Z.of_nat (length (concat groups))).
Proof.
  intros Hpn Hb Hrun Hf Hph. destruct (writer_inv_run pn src dst acts s Hpn Hb Hrun) as (groups & chunks & Hi).
  destruct (flushed _ _ _ _ _ _ _ Hi Hf) as [Hs _]. exists groups.
  pose proof (wi_datagrams _ _ _ _ _ _ _ Hi) as Hd. rewrite Hs, app_nil_r in Hd. split; [done|].
  cbn [WriterHandler_reserve_close_packet_num fst]. rewrite (wi_shared _ _ _ _ _ _ _ Hi Hph).
  rewrite (wi_next _ _ _ _ _ _ _ Hi), (wi_packets _ _ _ _ _ _ _ Hi).
  unfold numbered. by rewrite length_imap.
Qed.

Lemma fin_number_follows_data_witness :
  exists groups,
    map outgoing [numbered 1 2 9 [[1; 2; 3]%Z]] = map outgoing groups /\
    10%Z = u64_wrap (9 + Z.of_nat (length (concat groups))).
Proof.
  destruct (writer_run (writer_init 9 1 2) small_history) as [s|] eqn:Hrun;
    [|vm_compute in Hrun; discriminate].
  pose proof (fin_number_follows_data 9 1 2 small_history s ltac:(int_lia) ltac:(vm_compute; reflexivity) Hrun) as H.
  vm_compute in Hrun. injection Hrun as <-. exact (H eq_refl eq_refl).
Defined.
