(* ===== verification/Backpressure.v ===== *)
(** * The bounded channel to the pump

    The sends of src/bluefin/src/worker/writer.rs put their bytes into a channel
    that holds at most 4096 messages.  Writer.v leaves the channel's answer
    open; here it is the channel's: [send_bytes] and [send_data] are refused
    when it is full, [send_bytes_async] waits until there is room, its bytes
    counted in [pending_bytes] from the start.  Which of several waiting sends
    goes next is left open, since the channel does not promise it. *)
From stdpp Require Import base numbers list option strings.
From S2P Require Import Prelude Proto Header Packet OrderedBytes Close Net Packetiser Writer.

Definition DATA_CHANNEL_BOUND : nat := Z.to_nat 4096.

Record bounded : Type := {
  bd_sys : WriterSystem;
  bd_waiting : list bytes;            (* [send_bytes_async] calls at their await *)
}.

Inductive bounded_action : Type :=
  | BTrySend (payload : bytes)        (* [send_bytes] or [send_data] *)
  | BSendAsync (payload : bytes)      (* [send_bytes_async] up to its await *)
  | BEnqueue (i : nat)                (* the channel takes what call [i] waits with *)
  | BTask (a : writer_action).        (* the pump or the sender task *)

Definition bounded_init (pn src dst : Z) : bounded := {| bd_sys := writer_init pn src dst; bd_waiting := [] |}.

Definition room (s : WriterSystem) : bool := bool_decide (length (ws_channel s) < DATA_CHANNEL_BOUND).

Definition enqueue (s : WriterSystem) (w : WriterHandler) (msg : option bytes) : WriterSystem :=
  {| ws_handle := w; ws_channel := ws_channel s ++ option_list msg; ws_phase := ws_phase s; ws_queue := ws_queue s;
     ws_next := ws_next s; ws_sending := ws_sending s; ws_wire := ws_wire s; ws_events := ws_events s |}.

(** [send_bytes_async] up to its await: an error, or the counter moved. *)
Definition send_async_start (w : WriterHandler) (payload : bytes) : BluefinResult WriterHandler :=
  if wh_closed w then Err ConnectionClosed
  else if data_sender w then Ok (with_pending_bytes w (u64_add (pending_bytes w) (Z.of_nat (length payload))))
  else Err (WriteError "Sender is not available").

(** What a call returned, if one did, the sends the channel took, and the
    state.  [None]: the action is not possible now. *)
Definition bounded_step (b : bounded) (a : bounded_action) :
    option (option (BluefinResult nat) * list writer_action * bounded) :=
  let s := bd_sys b in
  match a with
  | BTrySend payload =>
      let '(r, w, msg) := WriterHandler_send_bytes (ws_handle s) payload (room s) in
      Some (Some r, ASend <$> option_list msg, {| bd_sys := enqueue s w msg; bd_waiting := bd_waiting b |})
  | BSendAsync payload =>
      match send_async_start (ws_handle s) payload with
      | Ok w => Some (None, [], {| bd_sys := with_handle s w; bd_waiting := bd_waiting b ++ [payload] |})
      | Err e => Some (Some (Err e), [], b)
      | _ => None
      end
  | BEnqueue i =>
      match bd_waiting b !! i with
      | Some payload =>
          if room s then
            Some (Some (Ok (length payload)), [ASend payload],
                  {| bd_sys := enqueue s (ws_handle s) (Some payload); bd_waiting := delete i (bd_waiting b) |})
          else None
      | None => None
      end
  | BTask (ASend _) => None
  | BTask a => match writer_step s a with
               | Some s' => Some (None, [a], {| bd_sys := s'; bd_waiting := bd_waiting b |})
               | None => None
               end
  end.

(** The steps of the unbounded writer it makes, and the state. *)
Fixpoint bounded_run (b : bounded) (acts : list bounded_action) : option (list writer_action * bounded) :=
  match acts with
  | [] => Some ([], b)
  | a :: acts =>
      match bounded_step b a with
      | Some (_, done, b') =>
          match bounded_run b' acts with Some (more, b'') => Some (done ++ more, b'') | None => None end
      | None => None
      end
  end.

(** Starting and completing an asynchronous send is the send of Writer.v. *)
Lemma send_async_completes w payload :
  match send_async_start w payload with
  | Ok w' => WriterHandler_send_bytes_async w payload true = (Ok (length payload), w', Some payload)
  | Err e => WriterHandler_send_bytes_async w payload true = (Err e, w, None)
  | _ => False
  end.
Proof.
  unfold send_async_start, WriterHandler_send_bytes_async, send_impl. by destruct (wh_closed w), (data_sender w).
Qed.

(** ** The unbounded writer it implements *)

Definition waiting_bytes (b : bounded) : Z := Z.of_nat (length (concat (bd_waiting b))).

(** A handle with other counters. *)
Definition counted (w : WriterHandler) (pending : Z) (notified : nat) : WriterHandler :=
  {| wh_next_packet_num := wh_next_packet_num w; next_packet_num_shared := next_packet_num_shared w;
     wh_closed := wh_closed w; data_sender := data_sender w; ack_sender := ack_sender w;
     wh_src_conn_id := wh_src_conn_id w; wh_dst_conn_id := wh_dst_conn_id w;
     pending_bytes := pending; flush_notify := notified; wh_diag_tx := wh_diag_tx w |}.

(** [b] is [s] with the bytes of the waiting sends counted too. *)
Record simulates (b : bounded) (s : WriterSystem) : Prop := {
  sm_sys : exists notified, bd_sys b =
    with_handle s (counted (ws_handle s) (u64_wrap (pending_bytes (ws_handle s) + waiting_bytes b)) notified);
  sm_pending : is_u64 (pending_bytes (ws_handle s));
  sm_open : wh_closed (ws_handle s) = false /\ data_sender (ws_handle s) = true;
  sm_next : is_u64 (ws_next s) /\ is_u64 (next_packet_num_shared (ws_handle s));
  sm_bound : length (ws_channel s) <= DATA_CHANNEL_BOUND;
}.

Lemma simulates_init pn src dst : is_u64 pn -> simulates (bounded_init pn src dst) (writer_init pn src dst).
Proof. intros Hpn. split; [by exists 0|done|done|done|cbn; lia]. Qed.

Lemma wrap_sub_l a b : u64_wrap (u64_wrap a - b) = u64_wrap (a - b).
Proof. unfold u64_wrap. apply Zminus_mod_idemp_l. Qed.

(** The tasks do the same whatever the counters are: they change them by the
    same amount. *)
Lemma task_step s a s1 x p n :
  (forall payload, a <> ASend payload) -> is_u64 (pending_bytes (ws_handle s)) ->
  p = u64_wrap (pending_bytes (ws_handle s) + x) ->
  writer_step (with_handle s (counted (ws_handle s) p n)) a = Some s1 ->
  exists s' n', writer_step s a = Some s' /\
    s1 = with_handle s' (counted (ws_handle s') (u64_wrap (pending_bytes (ws_handle s') + x)) n') /\
    is_u64 (pending_bytes (ws_handle s')) /\
    wh_closed (ws_handle s') = wh_closed (ws_handle s) /\ data_sender (ws_handle s') = data_sender (ws_handle s) /\
    length (ws_channel s') <= length (ws_channel s).
Proof.
  intros Ha Hp -> Hstep. destruct a as [payload|k| | |]; [by destruct (Ha payload)|..]; cbn [writer_step] in *;
    cbn [with_handle ws_phase ws_channel ws_sending] in Hstep.
  - destruct (ws_phase s); [case_decide|..]; simplify_eq. eexists _, n. split_and!; [done..|].
    cbn [ws_channel]. rewrite length_drop. lia.
  - destruct (ws_phase s); simplify_eq. unfold pump_pack in *.
    cbn [with_handle counted ws_handle wh_src_conn_id wh_dst_conn_id ws_queue ws_next ws_sending ws_channel ws_wire ws_events wh_diag_tx] in Hstep.
    destruct (WriterHandler_consume_data_into _ _ _ _ _) as [[[[pb q'] next'] dg]| | |]; simplify_eq.
    eexists _, n. split_and!; done.
  - destruct (ws_phase s); simplify_eq. eexists _, n. split_and!; done.
  - destruct (ws_sending s) as [|[dg k] rest]; simplify_eq. unfold settle. case_decide.
    + eexists _, n. split_and!; done.
    + eexists _, _. split_and!; [done| |apply u64_wrap_range|done..].
      cbn [with_handle counted ws_handle pending_bytes flush_notify]. unfold with_handle, counted. cbn. do 2 f_equal.
      unfold u64_sub. rewrite wrap_sub_l, u64_wrap_add_l. f_equal. lia.
Qed.

Lemma delete_bytes (l : list bytes) i x :
  l !! i = Some x -> length (concat l) = length (concat (delete i l)) + length x.
Proof.
  intros Hi. rewrite <- (take_drop_middle l i x Hi) at 1. rewrite delete_take_drop, !concat_app, !length_app.
  cbn [concat]. rewrite length_app. lia.
Qed.

(** The bytes of a send move from waiting, or from nowhere, into the channel. *)
Lemma simulates_enqueue b s payload waiting w :
  simulates b s -> room s = true ->
  (exists n, w = counted (ws_handle s)
     (u64_wrap (pending_bytes (ws_handle s) + Z.of_nat (length payload) + Z.of_nat (length (concat waiting)))) n) ->
  exists s', writer_run s [ASend payload] = Some s' /\
    simulates {| bd_sys := enqueue (bd_sys b) w (Some payload); bd_waiting := waiting |} s'.
Proof.
  intros [[n0 Hsys] Hp [Hc Hd] Hn Hb] Hroom [n ->]. cbn [writer_run writer_step].
  unfold WriterHandler_send_bytes, send_impl. rewrite Hc, Hd. cbn [mbind option_bind]. eexists. split; [done|].
  apply bool_decide_eq_true_1 in Hroom. split; cbn [bd_sys ws_handle with_pending_bytes pending_bytes wh_closed data_sender
    ws_next next_packet_num_shared ws_channel]; [|apply u64_wrap_range|done|done|rewrite length_app; cbn; lia].
  exists n. rewrite Hsys. unfold enqueue, with_handle, counted, waiting_bytes. cbn. do 2 f_equal.
  unfold u64_add. rewrite u64_wrap_add_l. f_equal; lia.
Qed.

Lemma simulates_step b s a r done b' :
  simulates b s -> bounded_step b a = Some (r, done, b') ->
  exists s', writer_run s done = Some s' /\ simulates b' s'.
Proof.
  intros Hsim Hstep. pose proof Hsim as [[n Hsys] Hp [Hc Hd] Hn Hb]. destruct b as [sys waiting].
  cbn [bd_sys] in Hsys. unfold waiting_bytes in Hsys. cbn [bd_waiting] in Hsys. subst sys.
  set (w := counted _ _ n) in *.
  destruct a as [payload|payload|i|a]; cbn [bounded_step bd_sys bd_waiting] in Hstep;
    change (room (with_handle s w)) with (room s) in *; change (ws_handle (with_handle s w)) with w in *.
  - unfold WriterHandler_send_bytes, send_impl in Hstep.
    change (wh_closed w) with (wh_closed (ws_handle s)) in Hstep. change (data_sender w) with (data_sender (ws_handle s)) in Hstep.
    rewrite Hc, Hd in Hstep. destruct (room s) eqn:Hr; injection Hstep as <- <- <-.
    + apply (simulates_enqueue {| bd_sys := with_handle s w; bd_waiting := waiting |}); [done|done|]. exists n.
      unfold with_pending_bytes, w, counted. cbn. f_equal. unfold u64_add. rewrite u64_wrap_add_l. f_equal; lia.
    + exists s. split; [done|]. split; [|done..]. exists n. unfold enqueue, with_handle, with_pending_bytes, w, counted, waiting_bytes.
      cbn. rewrite app_nil_r. do 2 f_equal. unfold u64_sub, u64_add. rewrite u64_wrap_add_l, wrap_sub_l. f_equal; lia.
  - unfold send_async_start in Hstep.
    change (wh_closed w) with (wh_closed (ws_handle s)) in Hstep. change (data_sender w) with (data_sender (ws_handle s)) in Hstep.
    rewrite Hc, Hd in Hstep. injection Hstep as <- <- <-. exists s. split; [done|]. split; [|done..]. exists n.
    unfold with_handle, with_pending_bytes, w, counted, waiting_bytes. cbn. do 2 f_equal.
    rewrite concat_app, length_app. cbn [concat]. rewrite app_nil_r. unfold u64_add. rewrite u64_wrap_add_l. f_equal; lia.
  - destruct (waiting !! i) as [payload|] eqn:Hi; [|done].
    destruct (room s) eqn:Hr; [|done]. injection Hstep as <- <- <-.
    apply (simulates_enqueue {| bd_sys := with_handle s w; bd_waiting := waiting |}); [done|done|].
    exists n. unfold w. f_equal. f_equal. rewrite (delete_bytes _ _ _ Hi). lia.
  - assert (Ha : forall payload, a <> ASend payload) by (intros payload ->; done).
    assert (Hw : exists s1, writer_step (with_handle s w) a = Some s1 /\ done = [a] /\
                   b' = {| bd_sys := s1; bd_waiting := waiting |}).
    { destruct a; [by destruct (Ha payload)|..]; destruct (writer_step _ _) as [s1|]; simplify_eq; eauto. }
    destruct Hw as (s1 & Hw & -> & ->).
    destruct (task_step s a s1 _ _ n Ha Hp eq_refl Hw) as (s' & n' & Hs' & -> & Hp' & Hc' & Hd' & Hl).
    destruct (writer_step_keeps _ _ _ Hs') as (_ & _ & Hk & _).
    exists s'. split; [cbn; by rewrite Hs'|]. split; [by exists n'|done|by rewrite Hc', Hd'|by apply Hk|lia].
Qed.

Lemma simulates_run acts b s done b' :
  simulates b s -> bounded_run b acts = Some (done, b') ->
  exists s', writer_run s done = Some s' /\ simulates b' s'.
Proof.
  revert b s done. induction acts as [|a acts IH]; intros b s done Hsim Hrun; cbn [bounded_run] in Hrun.
  - injection Hrun as <- <-. by exists s.
  - destruct (bounded_step b a) as [[[r d1] b1]|] eqn:Hstep; [|done].
    destruct (bounded_run b1 acts) as [[d2 b2]|] eqn:Hr; [|done]. injection Hrun as <- <-.
    destruct (simulates_step _ _ _ _ _ _ Hsim Hstep) as (s1 & Hs1 & Hsim1).
    destruct (IH b1 s1 d2 Hsim1 Hr) as (s2 & Hs2 & Hsim2). exists s2. split; [|done].
    rewrite writer_run_app, Hs1. exact Hs2.
Qed.

(** ** Room is made *)

Definition is_task (a : bounded_action) : bool := match a with BTask (ASend _) => false | BTask _ => true | _ => false end.

Lemma bounded_run_app b acts1 acts2 :
  bounded_run b (acts1 ++ acts2) =
  match bounded_run b acts1 with
  | Some (done, b') =>
      match bounded_run b' acts2 with Some (more, b'') => Some (done ++ more, b'') | None => None end
  | None => None
  end.
Proof.
  revert b. induction acts1 as [|a acts1 IH]; intros b; cbn [bounded_run app].
  - by destruct (bounded_run b acts2) as [[? ?]|].
  - destruct (bounded_step b a) as [[[r d] b1]|]; [|done]. rewrite IH.
    destruct (bounded_run b1 acts1) as [[d1 b2]|]; [|done].
    destruct (bounded_run b2 acts2) as [[d2 b3]|]; [|done]. by rewrite app_assoc.
Qed.

(** The tasks go on as in Writer.v, the waiting sends stay. *)
Lemma run_tasks s waiting acts s' :
  forallb is_task (BTask <$> acts) = true -> writer_run s acts = Some s' ->
  bounded_run {| bd_sys := s; bd_waiting := waiting |} (BTask <$> acts) =
    Some (acts, {| bd_sys := s'; bd_waiting := waiting |}).
Proof.
  revert s. induction acts as [|a acts IH]; intros s Ht Hrun; cbn [writer_run] in Hrun.
  - by injection Hrun as ->.
  - cbn in Ht. apply andb_prop in Ht as [Ha Ht]. destruct (writer_step s a) as [s1|] eqn:Hs; [|done].
    cbn [mbind option_bind] in Hrun. rewrite fmap_cons. cbn [bounded_run].
    assert (Hb : bounded_step {| bd_sys := s; bd_waiting := waiting |} (BTask a) =
                 Some (None, [a], {| bd_sys := s1; bd_waiting := waiting |})).
    { destruct a; [done|..]; cbn [bounded_step bd_sys bd_waiting]; by rewrite Hs. }
    rewrite Hb. by rewrite (IH s1 Ht Hrun).
Qed.

(** A wake-up of the pump that has begun comes to its end, and leaves the
    channel alone. *)
Lemma wakeup_ends s :
  is_u64 (ws_next s) ->
  exists acts s', forallb is_task (BTask <$> acts) = true /\ writer_run s acts = Some s' /\
    ws_phase s' = PumpIdle /\ ws_channel s' = ws_channel s.
Proof.
  destruct (ws_phase s) as [|i|] eqn:Hph; intros Hn.
  - by exists [], s.
  - remember (DATAGRAMS_PER_ROUND - i) as j eqn:Hj. revert s i Hph Hn Hj.
    induction j as [j IH] using lt_wf_ind. intros s i Hph Hn Hj.
    destruct (consume_data_into_ok (wh_src_conn_id (ws_handle s)) (wh_dst_conn_id (ws_handle s))
                (ws_queue s) (ws_next s) [] Hn) as (q & Hc & _).
    assert (exists s1, writer_step s APack = Some s1 /\ is_u64 (ws_next s1) /\ ws_channel s1 = ws_channel s /\
              (ws_phase s1 = PumpStoring \/ ws_phase s1 = PumpPacking (S i) /\ S i < DATAGRAMS_PER_ROUND))
      as (s1 & Hs1 & Hn1 & Hc1 & Hp1).
    { cbn [writer_step]. rewrite Hph. unfold pump_pack. rewrite Hc. eexists. split; [done|].
      cbn [ws_next ws_channel ws_phase]. split_and!; [apply u64_wrap_range|done|].
      destruct (bool_decide (0 < _)); [|by left]. cbn [andb]. case_bool_decide; [by right|by left]. }
    destruct Hp1 as [Hp1|[Hp1 Hi]].
    + exists [APack; AStore]. eexists. split; [done|]. cbn [writer_run]. rewrite Hs1. cbn [mbind option_bind writer_step].
      rewrite Hp1. by split_and!.
    + destruct (IH (DATAGRAMS_PER_ROUND - S i) ltac:(lia) s1 (S i) Hp1 Hn1 eq_refl) as (acts & s' & Ht & Hr & Hp & Hch).
      exists (APack :: acts), s'. split_and!; [done| |done|congruence]. cbn [writer_run]. by rewrite Hs1.
  - exists [AStore]. eexists. split; [done|]. cbn [writer_run writer_step]. rewrite Hph. by split_and!.
Qed.

Lemma room_is_made s :
  is_u64 (ws_next s) -> length (ws_channel s) <= DATA_CHANNEL_BOUND ->
  exists acts s', forallb is_task (BTask <$> acts) = true /\ writer_run s acts = Some s' /\ room s' = true.
Proof.
  intros Hn Hb. destruct (room s) eqn:Hr; [by exists [], s|].
  apply bool_decide_eq_false_1 in Hr. assert (0 < DATA_CHANNEL_BOUND) by (unfold DATA_CHANNEL_BOUND; lia).
  destruct (wakeup_ends s Hn) as (acts & s1 & Ht & Hrun & Hp & Hc).
  exists (acts ++ [ARecv 1]). eexists. split_and!.
  - rewrite fmap_app. by rewrite forallb_app, Ht.
  - rewrite writer_run_app, Hrun. cbn [mbind option_bind writer_run writer_step]. rewrite Hp, Hc.
    rewrite decide_True; [done|unfold RECV_LIMIT; lia].
  - apply bool_decide_true. cbn [ws_channel]. rewrite length_drop. lia.
Qed.

Lemma refused_unchanged b s payload :
  simulates b s -> room (bd_sys b) = false ->
  bounded_step b (BTrySend payload) =
    Some (Some (Err (WriteError "Failed to send data (channel full or closed)")), [], b).
Proof.
  intros [[n Hsys] Hp [Hc Hd] _ _] Hr. cbn [bounded_step]. rewrite Hr. unfold WriterHandler_send_bytes, send_impl.
  unfold waiting_bytes in Hsys. destruct b as [sys waiting]. cbn [bd_sys bd_waiting] in *. subst sys.
  cbn [with_handle ws_handle counted wh_closed data_sender]. rewrite Hc, Hd. cbn [option_list fmap list_fmap]. do 3 f_equal.
  unfold enqueue, with_pending_bytes, with_handle, counted. cbn. rewrite app_nil_r. do 2 f_equal.
  unfold u64_sub, u64_add. rewrite wrap_sub_l, Z.add_simpl_r. unfold u64_wrap. apply Zmod_mod.
Qed.

(** ** Properties *)

(** C15: in every interleaving of refused, accepted and waiting sends with the
    tasks, the writer over the bounded channel is the writer of Writer.v run on
    the sends the channel took: the same channel, queue and wire, and a counter
    that also holds the bytes of the waiting sends.  The channel never holds
    more than 4096 messages; a synchronous send on a full one is refused with
    the code's error and changes nothing; and a waiting send completes, whatever
    the state, after steps of the tasks alone. *)
Theorem bounded_writer pn src dst acts done b :
  is_u64 pn -> bounded_run (bounded_init pn src dst) acts = Some (done, b) ->
  (exists s, writer_run (writer_init pn src dst) done = Some s /\
     ws_channel (bd_sys b) = ws_channel s /\ ws_queue (bd_sys b) = ws_queue s /\ ws_wire (bd_sys b) = ws_wire s /\
     pending_bytes (ws_handle (bd_sys b)) = u64_wrap (pending_bytes (ws_handle s) + waiting_bytes b)) /\
  length (ws_channel (bd_sys b)) <= DATA_CHANNEL_BOUND /\
  (forall payload, length (ws_channel (bd_sys b)) = DATA_CHANNEL_BOUND ->
     bounded_step b (BTrySend payload) =
       Some (Some (Err (WriteError "Failed to send data (channel full or closed)")), [], b)) /\
  (forall i payload, bd_waiting b !! i = Some payload ->
     exists tasks b1 more b2, forallb is_task tasks = true /\ bounded_run b tasks = Some (more, b1) /\
       bounded_step b1 (BEnqueue i) = Some (Some (Ok (length payload)), [ASend payload], b2)).
Proof.
  intros Hpn Hrun. destruct (simulates_run _ _ _ _ _ (simulates_init pn src dst Hpn) Hrun) as (s & Hs & Hsim).
  pose proof Hsim as [[n Hsys] _ _ [Hn _] Hb]. split_and!.
  - exists s. split; [done|]. by rewrite Hsys.
  - by rewrite Hsys.
  - intros payload Hl. apply (refused_unchanged _ s); [done|]. apply bool_decide_false. lia.
  - intros i payload Hi. destruct (room_is_made (bd_sys b)) as (tasks & s' & Ht & Hr & Hroom); [by rewrite Hsys..|].
    destruct b as [sys waiting]. exists (BTask <$> tasks), {| bd_sys := s'; bd_waiting := waiting |}, tasks. eexists.
    split_and!; [done|by apply run_tasks|]. cbn [bounded_step bd_sys bd_waiting] in *. by rewrite Hi, Hroom.
Qed.

(** One accepted send and one that waits, the pump in the middle of a wake-up. *)
Definition waiting_history : list bounded_action :=
  [BTrySend [1; 2]%Z; BSendAsync [3]%Z; BTask (ARecv 1); BTask APack].

Lemma bounded_writer_witness :
  exists done b, bounded_run (bounded_init 7 1 2) waiting_history = Some (done, b) /\ bd_waiting b = [[3%Z]] /\
    exists tasks b1 more b2, forallb is_task tasks = true /\ bounded_run b tasks = Some (more, b1) /\
      bounded_step b1 (BEnqueue 0) = Some (Some (Ok (length [3%Z])), [ASend [3%Z]], b2).
Proof.
  eexists _, _. split; [vm_compute; reflexivity|]. split; [reflexivity|].
  refine (proj2 (proj2 (proj2 (bounded_writer 7 1 2 waiting_history _ _ _ _))) 0 [3%Z] _);
    [unfold is_u64; vm_compute; split; congruence|vm_compute; reflexivity|reflexivity].
Defined.
