(* ===== verification/FlushSteps.v ===== *)
(** * The writer's counter, one atomic operation at a time

    Writer.v takes a send ([fetch_add], [try_send], and [fetch_sub] when that
    failed) and a transmission ([try_send] on the socket, [fetch_sub], the
    notification) as one step each.  Here every operation on [pending_bytes] in
    src/bluefin/src/worker/writer.rs is a step of its own, and so are the checks
    and the registration of [flush]: the steps of Writer.v turn out to be what
    the finer ones add up to, and [flush] keeps its meaning.  What the finer
    steps also show is a notification that is missed. *)
From stdpp Require Import base numbers list option strings.
From S2P Require Import Prelude Proto Header Packet OrderedBytes Close Net Packetiser Writer Backpressure.

(** Where a call of [flush] is: not running, or registered for notifications
    after the first [seen] of them, before or after its second check. *)
Inductive flush_state : Type :=
  | FlushIdle
  | FlushRegistered (seen : nat)
  | FlushWaits (seen : nat).

Record fine : Type := {
  fi_sys : WriterSystem;
  fi_trying : list bytes;             (* sends between [fetch_add] and [try_send] *)
  fi_refused : list bytes;            (* refused sends before their [fetch_sub] *)
  fi_settling : option nat;           (* the sender task, between socket and [fetch_sub] *)
  fi_flush : flush_state;
}.

(** A [send_bytes_async] is an [FAdd] too; it waits with its [FTry] until there
    is room. *)
Inductive fine_action : Type :=
  | FAdd (payload : bytes)            (* a send: [fetch_add] *)
  | FTry (i : nat)                    (* its [try_send] *)
  | FUndo (i : nat)                   (* [fetch_sub] of a refused one *)
  | FTask (a : writer_action)         (* the packetising task *)
  | FSocket                           (* the sender task: the socket takes a datagram *)
  | FSettle                           (* its [fetch_sub] and notification *)
  | FRegister                         (* [flush]: first check, [notified()] *)
  | FRecheck                          (* its second check *)
  | FWake.                            (* a notified [flush] begins again *)

Definition fine_init (pn src dst : Z) : fine :=
  {| fi_sys := writer_init pn src dst; fi_trying := []; fi_refused := []; fi_settling := None; fi_flush := FlushIdle |}.

Definition with_sys (f : fine) (s : WriterSystem) : fine :=
  {| fi_sys := s; fi_trying := fi_trying f; fi_refused := fi_refused f; fi_settling := fi_settling f; fi_flush := fi_flush f |}.

Definition with_flush (f : fine) (st : flush_state) : fine :=
  {| fi_sys := fi_sys f; fi_trying := fi_trying f; fi_refused := fi_refused f; fi_settling := fi_settling f; fi_flush := st |}.

(** The counter of a system. *)
Definition with_count (s : WriterSystem) (n : Z) : WriterSystem := with_handle s (with_pending_bytes (ws_handle s) n).

(** The socket has a datagram. *)
Definition on_wire (s : WriterSystem) (out : bytes * nat) (rest : list (bytes * nat)) : WriterSystem :=
  {| ws_handle := ws_handle s; ws_channel := ws_channel s; ws_phase := ws_phase s; ws_queue := ws_queue s; ws_next := ws_next s;
     ws_sending := rest; ws_wire := ws_wire s ++ [out]; ws_events := ws_events s |}.

(** The steps of Writer.v that are complete with it, and the state.  [None]: not
    possible now (a send on a closed connection counts nothing and is left out,
    and so is a counter past its width). *)
Definition fine_step (f : fine) (a : fine_action) : option (list writer_action * fine) :=
  let s := fi_sys f in
  let w := ws_handle s in
  match a with
  | FAdd payload =>
      if negb (wh_closed w) && data_sender w && (pending_bytes w + Z.of_nat (length payload) <? 2 ^ 64)%Z then
        Some ([], {| fi_sys := with_count s (pending_bytes w + Z.of_nat (length payload)); fi_trying := fi_trying f ++ [payload];
                     fi_refused := fi_refused f; fi_settling := fi_settling f; fi_flush := fi_flush f |})
      else None
  | FTry i =>
      match fi_trying f !! i with
      | Some payload =>
          Some (if room s then
            ([ASend payload],
             {| fi_sys := enqueue s w (Some payload); fi_trying := delete i (fi_trying f); fi_refused := fi_refused f;
                fi_settling := fi_settling f; fi_flush := fi_flush f |})
          else
            ([], {| fi_sys := s; fi_trying := delete i (fi_trying f); fi_refused := fi_refused f ++ [payload];
                    fi_settling := fi_settling f; fi_flush := fi_flush f |}))
      | None => None
      end
  | FUndo i =>
      match fi_refused f !! i with
      | Some payload =>
          Some ([], {| fi_sys := with_count s (u64_sub (pending_bytes w) (Z.of_nat (length payload)));
                       fi_trying := fi_trying f; fi_refused := delete i (fi_refused f);
                       fi_settling := fi_settling f; fi_flush := fi_flush f |})
      | None => None
      end
  | FTask (ASend _) | FTask ATransmit => None
  | FTask a => match writer_step s a with Some s' => Some ([a], with_sys f s') | None => None end
  | FSocket =>
      match ws_sending s, fi_settling f with
      | out :: rest, None =>
          Some ([ATransmit], {| fi_sys := on_wire s out rest; fi_trying := fi_trying f; fi_refused := fi_refused f;
                                fi_settling := Some (snd out); fi_flush := fi_flush f |})
      | _, _ => None
      end
  | FSettle =>
      match fi_settling f with
      | Some n => Some ([], {| fi_sys := with_handle s (settle w n); fi_trying := fi_trying f; fi_refused := fi_refused f;
                               fi_settling := None; fi_flush := fi_flush f |})
      | None => None
      end
  | FRegister =>
      match fi_flush f with
      | FlushIdle => Some ([], if WriterHandler_flush_check w then f else with_flush f (FlushRegistered (flush_notify w)))
      | _ => None
      end
  | FRecheck =>
      match fi_flush f with
      | FlushRegistered seen => Some ([], with_flush f (if WriterHandler_flush_check w then FlushIdle else FlushWaits seen))
      | _ => None
      end
  | FWake =>
      match fi_flush f with
      | FlushWaits seen => if bool_decide (seen < flush_notify w) then Some ([], with_flush f FlushIdle) else None
      | _ => None
      end
  end.

Fixpoint fine_run (f : fine) (acts : list fine_action) : option (list writer_action * fine) :=
  match acts with
  | [] => Some ([], f)
  | a :: acts =>
      match fine_step f a with
      | Some (done, f') => match fine_run f' acts with Some (more, f'') => Some (done ++ more, f'') | None => None end
      | None => None
      end
  end.

Lemma fine_run_app f acts1 acts2 :
  fine_run f (acts1 ++ acts2) =
  match fine_run f acts1 with
  | Some (done, f') => match fine_run f' acts2 with Some (more, f'') => Some (done ++ more, f'') | None => None end
  | None => None
  end.
Proof.
  revert f. induction acts1 as [|a acts1 IH]; intros f; cbn [fine_run app].
  - by destruct (fine_run f acts2) as [[? ?]|].
  - destruct (fine_step f a) as [[d f1]|]; [|done]. rewrite IH. destruct (fine_run f1 acts1) as [[d1 f2]|]; [|done].
    destruct (fine_run f2 acts2) as [[d2 f3]|]; [|done]. by rewrite app_assoc.
Qed.

(** ** What the finer steps add up to *)

(** The datagram of the sender task that is sent and still counted. *)
Definition settling_bytes (o : option nat) : nat := match o with Some n => n | None => 0 end.

(** What the counter holds beside what Writer.v counts. *)
Definition extra (f : fine) : nat :=
  length (concat (fi_trying f)) + length (concat (fi_refused f)) + settling_bytes (fi_settling f).

(** [f] is [s] with those bytes counted too. *)
Record fine_of (f : fine) (s : WriterSystem) : Prop := {
  fo_sys : exists n, fi_sys f = with_handle s (counted (ws_handle s) (pending_bytes (ws_handle s) + Z.of_nat (extra f)) n);
  fo_range : (0 <= pending_bytes (ws_handle s) /\ pending_bytes (ws_handle s) + Z.of_nat (extra f) < 2 ^ 64)%Z;
  fo_open : wh_closed (ws_handle s) = false /\ data_sender (ws_handle s) = true;
}.

(** The packetising task does not look at the counters. *)
Lemma pump_step s a s1 p n :
  (forall payload, a <> ASend payload) -> a <> ATransmit ->
  writer_step (with_handle s (counted (ws_handle s) p n)) a = Some s1 ->
  exists s', writer_step s a = Some s' /\ s1 = with_handle s' (counted (ws_handle s') p n) /\
    pending_bytes (ws_handle s') = pending_bytes (ws_handle s) /\
    wh_closed (ws_handle s') = wh_closed (ws_handle s) /\ data_sender (ws_handle s') = data_sender (ws_handle s).
Proof.
  intros Ha Ht Hstep. destruct a as [payload|k| | |]; [by destruct (Ha payload)|..|done]; cbn [writer_step] in *;
    cbn [with_handle ws_phase ws_channel] in Hstep.
  - destruct (ws_phase s); [case_decide|..]; simplify_eq. eexists. by split_and!.
  - destruct (ws_phase s); simplify_eq. unfold pump_pack in *.
    cbn [with_handle counted ws_handle wh_src_conn_id wh_dst_conn_id ws_queue ws_next ws_sending ws_channel ws_wire ws_events wh_diag_tx] in Hstep.
    destruct (WriterHandler_consume_data_into _ _ _ _ _) as [[[[pb q'] next'] dg]| | |]; simplify_eq. eexists. by split_and!.
  - destruct (ws_phase s); simplify_eq. eexists. by split_and!.
Qed.

(** The first datagram that waits for the socket is counted. *)
Definition counts_first (s : WriterSystem) : Prop :=
  forall out rest, ws_sending s = out :: rest -> (Z.of_nat (snd out) <= pending_bytes (ws_handle s))%Z.

Lemma inv_counts_first pn src dst accepted groups chunks s : writer_inv pn src dst accepted groups chunks s -> counts_first s.
Proof.
  intros Hi out rest Hs. rewrite (wi_pending _ _ _ _ _ _ _ Hi), Hs. unfold sending_bytes. cbn [sum_list_with]. lia.
Qed.

Ltac fine_eq := unfold with_count, on_wire, enqueue, with_sys, with_flush, with_handle, with_pending_bytes, counted; cbn.

Lemma settle_counts w k :
  (Z.of_nat k <= pending_bytes w < 2 ^ 64)%Z ->
  (pending_bytes (settle w k) + Z.of_nat k = pending_bytes w)%Z /\
  wh_closed (settle w k) = wh_closed w /\ data_sender (settle w k) = data_sender w.
Proof. intros H. unfold settle. case_decide; cbn; (split; [|done]); [lia|]. rewrite u64_sub_small by int_lia. lia. Qed.

(** A step of the packetising task, as one of the writer. *)
Lemma fine_task f a done f' :
  fine_step f (FTask a) = Some (done, f') ->
  exists s', writer_step (fi_sys f) a = Some s' /\ done = [a] /\ f' = with_sys f s' /\
    (forall payload, a <> ASend payload) /\ a <> ATransmit.
Proof. cbn [fine_step]. destruct a; try done; destruct (writer_step _ _) as [s1|]; intros; simplify_eq; eauto 6. Qed.

Lemma fine_of_step f s a done f' :
  fine_of f s -> counts_first s -> fine_step f a = Some (done, f') ->
  exists s', writer_run s done = Some s' /\ fine_of f' s'.
Proof.
  intros [[n Hsys] Hr [Hc Hd]] Hfirst Hstep. destruct f as [sys trying refused settling fl].
  unfold extra in *. cbn [fi_sys fi_trying fi_refused fi_settling] in *. subst sys.
  pose proof Hstep as Htask.
  destruct a as [payload|i|i|a| | | | |]; cbn [fine_step fi_sys fi_trying fi_refused fi_settling fi_flush] in Hstep;
    cbn [with_handle ws_handle counted pending_bytes wh_closed data_sender ws_sending flush_notify] in Hstep.
  - rewrite Hc, Hd in Hstep. cbn [negb andb] in Hstep. destruct (Z.ltb_spec (pending_bytes (ws_handle s) + Z.of_nat (length (concat trying) +
      length (concat refused) + settling_bytes settling) + Z.of_nat (length payload)) (2 ^ 64)); simplify_eq.
    exists s. split; [done|]. split; unfold extra; cbn [fi_sys fi_trying fi_refused fi_settling];
      rewrite ?concat_app, ?length_app; cbn [concat]; rewrite ?app_nil_r; [|lia|done].
    exists n. fine_eq. do 2 f_equal. lia.
  - destruct (trying !! i) as [payload|] eqn:Hi; [|done]. pose proof (delete_bytes _ _ _ Hi) as Hl.
    change (room (with_handle s _)) with (room s) in Hstep. destruct (room s); simplify_eq.
    + cbn [writer_run writer_step]. unfold WriterHandler_send_bytes, send_impl. rewrite Hc, Hd. eexists. split; [done|].
      split; unfold extra; cbn [fi_sys fi_trying fi_refused fi_settling ws_handle with_pending_bytes pending_bytes wh_closed data_sender];
        [|rewrite u64_add_small by int_lia; lia|done].
      exists n. fine_eq. rewrite u64_add_small by int_lia. do 2 f_equal. lia.
    + exists s. split; [done|]. split; unfold extra; cbn [fi_sys fi_trying fi_refused fi_settling];
        rewrite ?concat_app, ?length_app; cbn [concat]; rewrite ?app_nil_r; [|lia|done].
      exists n. fine_eq. do 2 f_equal. lia.
  - destruct (refused !! i) as [payload|] eqn:Hi; simplify_eq. pose proof (delete_bytes _ _ _ Hi) as Hl.
    exists s. split; [done|]. split; unfold extra; cbn [fi_sys fi_trying fi_refused fi_settling]; [|lia|done].
    exists n. fine_eq. rewrite u64_sub_small by int_lia. do 2 f_equal. lia.
  - apply fine_task in Htask as (s1 & Hw & -> & -> & Ha & Ht). cbn [fi_sys] in Hw.
    apply pump_step in Hw as (s' & Hs' & -> & Hp & Hc' & Hd'); [|done..].
    exists s'. split; [cbn [writer_run]; by rewrite Hs'|]. split; unfold extra; cbn [with_sys fi_sys fi_trying fi_refused fi_settling];
      rewrite ?Hp; [by exists n|done|by rewrite Hc', Hd'].
  - destruct (ws_sending s) as [|[dg k] rest] eqn:Hs; [done|]. destruct settling; [done|]. simplify_eq. specialize (Hfirst _ _ Hs).
    cbn [snd] in *. cbn [writer_run writer_step]. rewrite Hs. cbn [mbind option_bind]. eexists. split; [done|].
    destruct (settle_counts (ws_handle s) k) as (Hp & Hc' & Hd'); [lia|].
    split; unfold extra; cbn [fi_sys fi_trying fi_refused fi_settling ws_handle settling_bytes] in *; [|lia|by rewrite Hc', Hd'].
    exists n. unfold settle in *. case_decide; fine_eq; cbn in *; rewrite ?Nat.add_0_r; do 2 f_equal; lia.
  - destruct settling as [k|]; simplify_eq. exists s. split; [done|].
    split; unfold extra; cbn [fi_sys fi_trying fi_refused fi_settling settling_bytes] in *; [|lia|done].
    unfold settle. case_decide as Hk; [subst k; exists n; fine_eq; do 2 f_equal; lia|].
    eexists. cbn [with_handle counted pending_bytes flush_notify]. rewrite u64_sub_small by int_lia.
    unfold with_handle, counted. cbn. do 2 f_equal. lia.
  - destruct fl; simplify_eq. exists s. split; [done|]. destruct (WriterHandler_flush_check _); by split; [exists n|..].
  - destruct fl; simplify_eq. exists s. split; [done|]. by split; [exists n|..].
  - destruct fl; [done..|]. destruct (bool_decide _); simplify_eq. exists s. split; [done|]. by split; [exists n|..].
Qed.

(** ** Notifications *)

(** What a registered [flush] can count on: none it is registered for was
    missed, and while it was not notified there are bytes left. *)
Definition flush_ok (f : fine) : Prop :=
  match fi_flush f with
  | FlushIdle => True
  | FlushRegistered seen => seen <= flush_notify (ws_handle (fi_sys f))
  | FlushWaits seen =>
      seen <= flush_notify (ws_handle (fi_sys f)) /\
      (flush_notify (ws_handle (fi_sys f)) = seen -> pending_bytes (ws_handle (fi_sys f)) <> 0%Z)
  end.

Definition undoes (a : fine_action) : bool := match a with FUndo _ => true | _ => false end.

(** A step that leaves [flush] where it is, and the counters. *)
Lemma flush_ok_same f f' :
  flush_ok f -> fi_flush f' = fi_flush f ->
  flush_notify (ws_handle (fi_sys f')) = flush_notify (ws_handle (fi_sys f)) ->
  (0 <= pending_bytes (ws_handle (fi_sys f)) <= pending_bytes (ws_handle (fi_sys f')))%Z -> flush_ok f'.
Proof. unfold flush_ok. intros H -> -> Hp. destruct (fi_flush f); [done..|]. split; [apply H|]. intros Hn. apply H in Hn. lia. Qed.

Lemma flush_ok_step f s a done f' :
  fine_of f s -> flush_ok f -> undoes a = false -> fine_step f a = Some (done, f') -> flush_ok f'.
Proof.
  intros [[n Hsys] Hr _] Hok Hu Hstep.
  assert (Hp : pending_bytes (ws_handle (fi_sys f)) = (pending_bytes (ws_handle s) + Z.of_nat (extra f))%Z) by (by rewrite Hsys).
  destruct a as [payload|i|i|a| | | | |]; cbn [fine_step] in Hstep.
  - destruct (_ && _); simplify_eq. eapply flush_ok_same; [done..|]. cbn. lia.
  - destruct (fi_trying f !! i); [|done]. destruct (room _); simplify_eq; (eapply flush_ok_same; [done..|]; cbn; lia).
  - done.
  - change (fine_step f (FTask a) = Some (done, f')) in Hstep. apply fine_task in Hstep as (s1 & Hw & _ & -> & Ha & Ht). rewrite Hsys in Hw.
    apply pump_step in Hw as (s' & Hs' & -> & Hps & _); [|done..].
    eapply flush_ok_same; [done|done|by rewrite Hsys|]. cbn. lia.
  - destruct (ws_sending _), (fi_settling f); simplify_eq. eapply flush_ok_same; [done..|]. cbn. lia.
  - destruct (fi_settling f) as [k|] eqn:Hk; simplify_eq. unfold extra in *. rewrite Hk in *. cbn [settling_bytes] in *.
    unfold settle. case_decide; [eapply flush_ok_same; [done..|]; cbn; lia|].
    unfold flush_ok in *. cbn [fi_flush fi_sys with_handle ws_handle flush_notify pending_bytes].
    destruct (fi_flush f) as [|seen|seen]; [done|..]; destruct (Z.eqb_spec (pending_bytes (ws_handle (fi_sys f))) (Z.of_nat k)); try lia.
    split; [apply Hok|]. intros _. rewrite u64_sub_small by int_lia. lia.
  - destruct (fi_flush f) eqn:Hf; simplify_eq. destruct (WriterHandler_flush_check _); [done|]. unfold flush_ok. cbn. lia.
  - destruct (fi_flush f) as [|seen|] eqn:Hf; simplify_eq. unfold flush_ok in *. rewrite Hf in Hok.
    unfold WriterHandler_flush_check. destruct (Z.eqb_spec (pending_bytes (ws_handle (fi_sys f))) 0); cbn; [done|]. by split.
  - destruct (fi_flush f); [done..|]. destruct (bool_decide _); simplify_eq. done.
Qed.

Lemma accepted_bytes_app acts1 acts2 : accepted_bytes (acts1 ++ acts2) = accepted_bytes acts1 ++ accepted_bytes acts2.
Proof. unfold accepted_bytes. by rewrite omap_app, concat_app. Qed.

Lemma fine_run_of pn src dst acts done f :
  is_u64 pn -> fine_run (fine_init pn src dst) acts = Some (done, f) ->
  (Z.of_nat (length (accepted_bytes done)) < 2 ^ 64)%Z ->
  exists s, writer_run (writer_init pn src dst) done = Some s /\ fine_of f s /\ (existsb undoes acts = false -> flush_ok f).
Proof.
  intros Hpn. revert done f. induction acts as [|a acts IH] using rev_ind; intros done f Hrun Hb.
  - injection Hrun as <- <-. eexists. split; [done|]. split; [|done]. split; [by exists 0|cbn; lia|done].
  - rewrite fine_run_app in Hrun. destruct (fine_run _ acts) as [[d1 f1]|] eqn:Hr; [|done]. cbn [fine_run] in Hrun.
    destruct (fine_step f1 a) as [[d2 f2]|] eqn:Hs; [|done]. injection Hrun as <- <-.
    rewrite app_nil_r in *. rewrite accepted_bytes_app, length_app in Hb.
    destruct (IH d1 f1 eq_refl ltac:(lia)) as (s & Hw & Hof & Hok).
    destruct (writer_inv_run pn src dst d1 s Hpn ltac:(lia) Hw) as (groups & chunks & Hi).
    destruct (fine_of_step _ _ _ _ _ Hof (inv_counts_first _ _ _ _ _ _ _ Hi) Hs) as (s' & Hw' & Hof').
    exists s'. rewrite writer_run_app, Hw. split; [done|]. split; [done|].
    rewrite existsb_app. cbn [existsb]. rewrite orb_false_r. intros [Hu Ha]%orb_false_iff.
    by eapply flush_ok_step; [|apply Hok|..].
Qed.

(** ** A notification that is missed *)

(** Every send of [p] gets into the channel, until it is full. *)
Definition fill (p : bytes) (m : nat) : list fine_action := concat (replicate m [FAdd p; FTry 0]).

(** The packetising task takes one message and the sender task sends it. *)
Definition one_message : list fine_action :=
  [FTask (ARecv 1); FTask APack; FTask APack; FTask AStore; FSocket; FSettle].

Definition drain (m : nat) : list fine_action := concat (replicate m one_message).

(** The channel is filled, [flush] waits, a send is refused; before it takes its
    bytes back out of the counter, everything in the channel is sent. *)
Definition missed (p q : bytes) : list fine_action :=
  fill p DATA_CHANNEL_BOUND ++ [FRegister; FRecheck; FAdd q; FTry 0] ++ drain DATA_CHANNEL_BOUND ++ [FUndo 0].

(** Nothing in the tasks, [m] messages [p] in the channel, and [c] bytes counted. *)
Record holds (p : bytes) (m : nat) (c : Z) (s : WriterSystem) : Prop := {
  ho_channel : ws_channel s = replicate m p;
  ho_idle : ws_phase s = PumpIdle /\ ws_queue s = [] /\ ws_sending s = [];
  ho_next : is_u64 (ws_next s);
  ho_open : wh_closed (ws_handle s) = false /\ data_sender (ws_handle s) = true;
  ho_count : pending_bytes (ws_handle s) = c;
  ho_notify : flush_notify (ws_handle s) = 0;
}.

Section Missed.
Context (p q : bytes).
Hypothesis Hp : 0 < length p <= MAX_BLUEFIN_PAYLOAD_SIZE_BYTES.
Hypothesis Hq : 0 < length q.
Hypothesis Hq64 : (Z.of_nat (length q) < 2 ^ 63)%Z.

Local Opaque DATAGRAM_PAYLOAD MAX_BLUEFIN_PAYLOAD_SIZE_BYTES DATA_CHANNEL_BOUND.

Definition quiet_state (s : WriterSystem) (refused : list bytes) (fl : flush_state) : fine :=
  {| fi_sys := s; fi_trying := []; fi_refused := refused; fi_settling := None; fi_flush := fl |}.

Lemma bound_small : (Z.of_nat (DATA_CHANNEL_BOUND * length p) < 2 ^ 62)%Z.
Proof using All.
  Local Transparent DATA_CHANNEL_BOUND MAX_BLUEFIN_PAYLOAD_SIZE_BYTES. unfold DATA_CHANNEL_BOUND, MAX_BLUEFIN_PAYLOAD_SIZE_BYTES in *.
  rewrite Nat2Z.inj_mul, Z2Nat.id by lia. lia.
Qed.

Local Opaque DATA_CHANNEL_BOUND MAX_BLUEFIN_PAYLOAD_SIZE_BYTES.

Lemma fill_run m k s :
  holds p k (Z.of_nat (k * length p)) s -> k + m <= DATA_CHANNEL_BOUND ->
  exists done s', fine_run (quiet_state s [] FlushIdle) (fill p m) = Some (done, quiet_state s' [] FlushIdle) /\
    holds p (k + m) (Z.of_nat ((k + m) * length p)) s'.
Proof using All.
  revert k s. induction m as [|m IH]; intros k s Hs Hm.
  { exists [], s. rewrite Nat.add_0_r. done. }
  pose proof bound_small as Hb. destruct Hs as [Hc Hi Hn [Ho1 Ho2] Hco Hno].
  assert (Hle : S k * length p <= DATA_CHANNEL_BOUND * length p) by (apply Nat.mul_le_mono_r; lia).
  set (s1 := enqueue (with_count s (Z.of_nat (S k * length p))) (with_pending_bytes (ws_handle s) (Z.of_nat (S k * length p))) (Some p)).
  destruct (IH (S k) s1) as (done & s' & Hrun & Hs'); [|lia|].
  { split; try done. unfold s1. cbn [enqueue with_count with_handle ws_channel option_list]. by rewrite Hc, replicate_S_end. }
  exists (ASend p :: done), s'. replace (k + S m) with (S k + m) by lia. split; [|done].
  unfold fill. cbn [replicate concat app]. fold (fill p m). cbn [fine_run fine_step quiet_state fi_sys fi_trying fi_refused fi_settling fi_flush].
  rewrite Ho1, Ho2, Hco. cbn [negb andb].
  replace (Z.of_nat (k * length p) + Z.of_nat (length p))%Z with (Z.of_nat (S k * length p)) by lia.
  destruct (Z.ltb_spec (Z.of_nat (S k * length p)) (2 ^ 64)); [|lia]. cbn [app lookup list_lookup fi_trying fi_sys].
  assert (Hroom : room (with_count s (Z.of_nat (S k * length p))) = true).
  { apply bool_decide_true. cbn. rewrite Hc, length_replicate. lia. }
  rewrite Hroom. cbn [delete list_delete fi_refused fi_settling fi_flush].
  change (ws_handle (with_count s (Z.of_nat (S k * length p)))) with (with_pending_bytes (ws_handle s) (Z.of_nat (S k * length p))).
  fold s1. fold (quiet_state s1 [] FlushIdle). by rewrite Hrun.
Qed.

(** One wake-up of the packetising task, for one message. *)
Lemma pump_run m c s :
  holds p (S m) c s ->
  exists s1 dg, fine_run (quiet_state s [q] (FlushWaits 0)) [FTask (ARecv 1); FTask APack; FTask APack; FTask AStore] =
      Some ([ARecv 1; APack; APack; AStore], quiet_state s1 [q] (FlushWaits 0)) /\
    ws_sending s1 = [(dg, length p)] /\ holds p m c (on_wire s1 (dg, length p) []).
Proof using All.
  intros [Hc (Hph & Hqu & Hse) Hn Ho Hco Hno].
  destruct s as [w chan ph qu next sending wire evs]. cbn [ws_channel ws_phase ws_queue ws_sending ws_next ws_handle] in *. subst.
  assert (Hsmall : length p < DATAGRAM_PAYLOAD).
  { Local Transparent DATAGRAM_PAYLOAD. unfold DATAGRAM_PAYLOAD, MAX_BLUEFIN_PACKETS_IN_UDP_DATAGRAM. lia. }
  Local Opaque DATAGRAM_PAYLOAD.
  destruct (consume_data_into_ok (wh_src_conn_id w) (wh_dst_conn_id w) [p] next [] Hn) as (q1 & H1 & _ & H2).
  cbn [concat] in H1, H2. rewrite app_nil_r in H1, H2. rewrite (H2 Hsmall), take_ge in H1 by lia.
  set (next1 := u64_wrap _) in H1. set (dg := [] ++ _) in H1.
  destruct (consume_data_into_ok (wh_src_conn_id w) (wh_dst_conn_id w) [] next1 []) as (q2 & H3 & _ & H4); [apply u64_wrap_range|].
  cbn [concat] in H3, H4. rewrite (H4 ltac:(cbn [length]; lia)), take_nil in H3. cbn [length] in H3.
  cbn [fine_run fine_step quiet_state fi_sys writer_step ws_phase ws_channel].
  rewrite decide_True by (rewrite length_replicate; unfold RECV_LIMIT; lia). cbn [replicate firstn skipn].
  rewrite take_0, drop_0. cbn [app].
  cbn [with_sys fi_sys fi_trying fi_refused fi_settling fi_flush ws_phase].
  unfold pump_pack at 1. cbn [ws_handle ws_queue ws_next app]. rewrite H1, bool_decide_true by lia.
  rewrite (bool_decide_true (1 < DATAGRAMS_PER_ROUND)) by (unfold DATAGRAMS_PER_ROUND; lia).
  cbn [andb with_sys fi_sys fi_trying fi_refused fi_settling fi_flush ws_phase].
  unfold pump_pack. cbn [ws_handle ws_queue ws_next]. rewrite H3. rewrite (bool_decide_false (0 < 0)) by lia.
  cbn [andb with_sys fi_sys fi_trying fi_refused fi_settling fi_flush ws_phase app].
  eexists _, dg. split; [done|]. split; [done|]. split; try done. apply u64_wrap_range.
Qed.

(** One message goes out; the bytes of the refused send keep the counter off zero. *)
Lemma message_run m s :
  holds p (S m) (Z.of_nat (length q + S m * length p)) s -> S m <= DATA_CHANNEL_BOUND ->
  exists done s', fine_run (quiet_state s [q] (FlushWaits 0)) one_message = Some (done, quiet_state s' [q] (FlushWaits 0)) /\
    holds p m (Z.of_nat (length q + m * length p)) s'.
Proof using All.
  intros Hs Hm. pose proof bound_small as Hb.
  assert (Hle : S m * length p <= DATA_CHANNEL_BOUND * length p) by (apply Nat.mul_le_mono_r; lia).
  destruct (pump_run m _ s Hs) as (s1 & dg & Hrun & Hsend & [Hc Hi Hn Ho Hco Hno]).
  change one_message with ([FTask (ARecv 1); FTask APack; FTask APack; FTask AStore] ++ [FSocket; FSettle]).
  rewrite fine_run_app, Hrun. cbn [fine_run fine_step quiet_state fi_sys fi_settling fi_trying fi_refused fi_flush]. rewrite Hsend.
  cbn [fi_sys fi_settling fi_trying fi_refused fi_flush app snd]. do 2 eexists. split; [done|].
  cbn [on_wire ws_channel ws_phase ws_queue ws_sending ws_next ws_handle] in *.
  unfold settle. rewrite decide_False by lia. rewrite Hco, Hno.
  destruct (Z.eqb_spec (Z.of_nat (length q + S m * length p)) (Z.of_nat (length p))); [lia|].
  split; try done. cbn. rewrite u64_sub_small by int_lia. lia.
Qed.

Lemma drain_run m s :
  holds p m (Z.of_nat (length q + m * length p)) s -> m <= DATA_CHANNEL_BOUND ->
  exists done s', fine_run (quiet_state s [q] (FlushWaits 0)) (drain m) = Some (done, quiet_state s' [q] (FlushWaits 0)) /\
    holds p 0 (Z.of_nat (length q)) s'.
Proof using All.
  revert s. induction m as [|m IH]; intros s Hs Hm; [exists [], s; by rewrite Nat.add_0_r in Hs|].
  destruct (message_run m s Hs Hm) as (d1 & s1 & Hr1 & Hs1). destruct (IH s1 Hs1 ltac:(lia)) as (d2 & s2 & Hr2 & Hs2).
  exists (d1 ++ d2), s2. split; [|done]. unfold drain. cbn [replicate concat]. fold (drain m). by rewrite fine_run_app, Hr1, Hr2.
Qed.

Lemma missed_run pn src dst :
  is_u64 pn ->
  exists done s, fine_run (fine_init pn src dst) (missed p q) = Some (done, quiet_state s [] (FlushWaits 0)) /\ holds p 0 0 s.
Proof using All.
  intros Hpn. pose proof bound_small as Hb.
  destruct (fill_run DATA_CHANNEL_BOUND 0 (writer_init pn src dst)) as (d1 & s1 & Hr1 & Hs1); [by split|lia|].
  cbn [Nat.add] in Hs1. pose proof Hs1 as [Hc Hi Hn [Ho1 Ho2] Hco Hno].
  assert (Hpos : (0 < Z.of_nat (DATA_CHANNEL_BOUND * length p))%Z).
  { Local Transparent DATA_CHANNEL_BOUND. unfold DATA_CHANNEL_BOUND. rewrite Nat2Z.inj_mul, Z2Nat.id by lia. lia. }
  Local Opaque DATA_CHANNEL_BOUND.
  set (s2 := with_count s1 (Z.of_nat (length q + DATA_CHANNEL_BOUND * length p))).
  assert (Hr2 : fine_run (quiet_state s1 [] FlushIdle) [FRegister; FRecheck; FAdd q; FTry 0] =
                Some ([], quiet_state s2 [q] (FlushWaits 0))).
  { assert (Hz : WriterHandler_flush_check (ws_handle s1) = false) by (unfold WriterHandler_flush_check; rewrite Hco; apply Z.eqb_neq; lia).
    cbn [fine_run fine_step quiet_state fi_sys fi_flush with_flush fi_trying fi_refused fi_settling]. rewrite Hz, Hno.
    cbn [quiet_state fi_sys fi_flush fi_trying fi_refused fi_settling with_flush]. rewrite ?Hz.
    cbn [quiet_state fi_sys fi_flush fi_trying fi_refused fi_settling with_flush]. rewrite Ho1, Ho2, Hco. cbn [negb andb].
    replace (Z.of_nat (DATA_CHANNEL_BOUND * length p) + Z.of_nat (length q))%Z
      with (Z.of_nat (length q + DATA_CHANNEL_BOUND * length p)) by lia. fold s2.
    destruct (Z.ltb_spec (Z.of_nat (length q + DATA_CHANNEL_BOUND * length p)) (2 ^ 64)); [|lia].
    cbn [app lookup list_lookup fi_sys fi_trying].
    assert (Hroom : room s2 = false) by (apply bool_decide_false; cbn; rewrite Hc, length_replicate; lia).
    by rewrite Hroom. }
  destruct (drain_run DATA_CHANNEL_BOUND s2) as (d3 & s3 & Hr3 & Hs3); [by split|lia|]. destruct Hs3 as [Hc3 Hi3 Hn3 Ho3 Hco3 Hno3].
  change (fine_init pn src dst) with (quiet_state (writer_init pn src dst) [] FlushIdle).
  unfold missed. rewrite fine_run_app, Hr1, fine_run_app, Hr2, fine_run_app, Hr3.
  cbn [fine_run fine_step quiet_state fi_sys fi_flush fi_trying fi_refused fi_settling lookup list_lookup]. rewrite Hco3.
  do 2 eexists. split; [done|]. split; try done. cbn. rewrite u64_sub_small by int_lia. lia.
Qed.

(** What is left then does nothing more. *)
Lemma nothing_moves s a :
  holds p 0 0 s -> (exists r, fine_step (quiet_state s [] (FlushWaits 0)) a = Some r) -> exists payload, a = FAdd payload.
Proof using All.
  intros [Hc (Hph & Hqu & Hse) Hn Ho Hco Hno] [r Hr].
  destruct a as [payload|i|i|a| | | | |]; cbn [fine_step quiet_state fi_sys fi_flush fi_trying fi_refused fi_settling] in Hr; try done.
  - eauto.
  - destruct a as [|k| | |]; cbn [writer_step] in Hr; rewrite ?Hph, ?Hc in Hr; try done.
    rewrite decide_False in Hr by (cbn; lia). done.
  - by rewrite Hse in Hr.
  - rewrite Hno in Hr. by rewrite bool_decide_false in Hr by lia.
Qed.
End Missed.

(** ** Properties *)

(** C18: the counter of the writer, one atomic operation at a time.  In every
    interleaving of sends (taken apart into [fetch_add], [try_send] and the
    [fetch_sub] of a refused one), the packetising task, the sender task (taken
    apart into the socket and the [fetch_sub] after it) and a [flush], the writer
    is the one of Writer.v run on the sends that were taken, with the bytes of
    the operations that are on their way counted too; when a check of [flush]
    finds zero, every byte taken is on the wire; and a [flush] that waits while
    the counter is zero has been notified, unless a refused send was undone.
    That exception is real: whatever is sent and refused, a [flush] waits for
    ever on an empty writer when all that filled the channel goes out between
    the refusal and its [fetch_sub], which does not notify. *)
Theorem flush_step_by_step pn src dst :
  is_u64 pn ->
  (forall acts done f, fine_run (fine_init pn src dst) acts = Some (done, f) ->
     (Z.of_nat (length (accepted_bytes done)) < 2 ^ 64)%Z ->
     (exists s, writer_run (writer_init pn src dst) done = Some s /\
        ws_channel (fi_sys f) = ws_channel s /\ ws_queue (fi_sys f) = ws_queue s /\
        ws_sending (fi_sys f) = ws_sending s /\ ws_wire (fi_sys f) = ws_wire s /\
        pending_bytes (ws_handle (fi_sys f)) = (pending_bytes (ws_handle s) + Z.of_nat (extra f))%Z) /\
     (WriterHandler_flush_check (ws_handle (fi_sys f)) = true ->
      exists groups chunks, ws_wire (fi_sys f) = map outgoing groups /\ concat groups = numbered src dst pn chunks /\
        concat chunks = accepted_bytes done) /\
     (forall seen, fi_flush f = FlushWaits seen -> pending_bytes (ws_handle (fi_sys f)) = 0%Z ->
        seen < flush_notify (ws_handle (fi_sys f)) \/ existsb undoes acts = true)) /\
  (forall p q, 0 < length p <= MAX_BLUEFIN_PAYLOAD_SIZE_BYTES -> 0 < length q -> (Z.of_nat (length q) < 2 ^ 63)%Z ->
     exists done f, fine_run (fine_init pn src dst) (missed p q) = Some (done, f) /\
       fi_flush f = FlushWaits 0 /\ pending_bytes (ws_handle (fi_sys f)) = 0%Z /\ flush_notify (ws_handle (fi_sys f)) = 0 /\
       forall a, (exists r, fine_step f a = Some r) -> exists payload, a = FAdd payload).
Proof.
  intros Hpn. split.
  - intros acts done f Hrun Hb. destruct (fine_run_of pn src dst acts done f Hpn Hrun Hb) as (s & Hw & Hof & Hok).
    pose proof Hof as [[n Hsys] Hr _]. split_and!.
    + exists s. split; [done|]. by rewrite Hsys.
    + intros Hf%Z.eqb_eq. rewrite Hsys in Hf. cbn in Hf.
      destruct (writer_inv_run pn src dst done s Hpn Hb Hw) as (groups & chunks & Hi).
      destruct (flushed _ _ _ _ _ _ _ Hi) as [Hs Hc]; [apply Z.eqb_eq; lia|].
      exists groups, chunks. pose proof (wi_datagrams _ _ _ _ _ _ _ Hi) as Hd. rewrite Hs, app_nil_r in Hd.
      rewrite Hsys. split_and!; [done|apply (wi_packets _ _ _ _ _ _ _ Hi)|done].
    + intros seen Hfl Hz. destruct (existsb undoes acts); [by right|]. left. specialize (Hok eq_refl).
      unfold flush_ok in Hok. rewrite Hfl in Hok. destruct Hok as [Hle Hne].
      destruct (decide (flush_notify (ws_handle (fi_sys f)) = seen)) as [Heq|]; [by apply Hne in Heq|lia].
  - intros p q Hp Hq Hq64. destruct (missed_run p q Hp Hq Hq64 pn src dst Hpn) as (done & s & Hrun & Hs).
    exists done, (quiet_state s [] (FlushWaits 0)). split; [done|]. split; [done|]. split; [apply Hs|]. split; [apply Hs|].
    intros a. by apply (nothing_moves p q).
Qed.

(** A send is on the wire, the sender task has not counted it down, and [flush]
    waits; then it is woken. *)
Definition woken_flush : list fine_action :=
  [FAdd [1; 2]%Z; FTry 0; FTask (ARecv 1); FTask APack; FSocket; FRegister; FRecheck; FSettle].

Lemma flush_step_by_step_witness :
  (exists done f, fine_run (fine_init 7 1 2) woken_flush = Some (done, f) /\ fi_flush f = FlushWaits 0 /\
     (0 < flush_notify (ws_handle (fi_sys f)) \/ existsb undoes woken_flush = true)) /\
  exists done f, fine_run (fine_init 7 1 2) (missed [1%Z] [2%Z]) = Some (done, f) /\ fi_flush f = FlushWaits 0 /\
    flush_notify (ws_handle (fi_sys f)) = 0.
Proof.
  destruct (flush_step_by_step 7 1 2 ltac:(int_lia)) as [H1 H2]. split.
  - eexists _, _. split; [vm_compute; reflexivity|]. split; [reflexivity|].
    refine (proj2 (proj2 (H1 woken_flush _ _ _ _)) 0 _ _); [vm_compute; reflexivity|vm_compute; reflexivity|reflexivity|vm_compute; reflexivity].
  - destruct (H2 [1%Z] [2%Z]) as (done & f & Hrun & Hf & _ & Hn & _);
      [unfold MAX_BLUEFIN_PAYLOAD_SIZE_BYTES; simpl; lia|simpl; lia|simpl; lia|].
    exists done, f. split; [exact Hrun|]. split; [exact Hf|exact Hn].
Defined.
