(* ===== verification/Reader.v ===== *)
(** * The read side of a connection

    Models [ReaderRxChannel] and its future (src/bluefin/src/worker/reader.rs),
    and [recv] and [recv_bytes] of [BluefinConnection] which call it
    (src/bluefin/src/net/connection.rs).  A read is the future, polled until
    it is ready, and then the body; other tasks may change the connection
    buffer between the two, so the body is a function of the buffer as it
    finds it. *)
From stdpp Require Import base numbers list option strings.
From S2P Require Import Prelude Proto Header Packet Window OrderedBytes Close Buffers Net Packetiser Writer.

Definition PACKETS_CONSUMED_BEFORE_ACK : nat := 200.

Record ReaderRxChannel : Type := {
  packets_consumed : nat;
  packets_consumed_before_ack : nat;
  rx_diag_tx : bool;
}.

Definition ReaderRxChannel_new (diag_tx : bool) : ReaderRxChannel :=
  {| packets_consumed := 0; packets_consumed_before_ack := PACKETS_CONSUMED_BEFORE_ACK;
     rx_diag_tx := diag_tx |}.

Definition ReaderRxChannelFuture_poll (cb : ConnectionBuffer) (peer_fin_observed : bool) (cx : Waker) :
    Poll unit * ConnectionBuffer :=
  match ConnectionBuffer_peek cb with
  | Ok _ => (Ready tt, cb)
  | _ =>
      if peer_fin_observed then (Ready tt, cb)
      else (Pending, set_waker_if_changed cb cx)
  end.

(** What a read gives back and leaves; [A] is the caller's slice or vector. *)
Record read_outcome (A : Type) : Type := {
  ro_result : BluefinResult (nat * SocketAddr);
  ro_rx : ReaderRxChannel;
  ro_conn : ConnectionBuffer;
  ro_out : A;
  ro_effects : list effect;
  ro_ack : option AckData;
}.
Arguments ro_result {A}. Arguments ro_rx {A}. Arguments ro_conn {A}.
Arguments ro_out {A}. Arguments ro_effects {A}. Arguments ro_ack {A}.

(** The end-of-stream check at the head of both bodies. *)
Definition eof_addr (cb : ConnectionBuffer) (peer_fin_observed : bool) : option SocketAddr :=
  if peer_fin_observed then
    match ConnectionBuffer_peek cb with
    | Err _ => cb_addr cb
    | _ => None
    end
  else None.

(** The bookkeeping after a successful consume, the same in both bodies.
    [accepted]: the ack channel took the message. *)
Definition after_consume {A : Type} (rx : ReaderRxChannel) (w : WriterHandler) (accepted : bool)
    (cb : ConnectionBuffer) (out : A) (consume_res : ConsumeResult) (addr : SocketAddr) : read_outcome A :=
  let n := num_packets_consumed consume_res in
  let base := base_packet_number consume_res in
  let consumed := packets_consumed rx + n in
  let received := if decide (0 < n) then
                    diag_try_send (rx_diag_tx rx) (DataReceived base n (bytes_consumed consume_res))
                  else [] in
  let with_consumed c := {| packets_consumed := c;
                            packets_consumed_before_ack := packets_consumed_before_ack rx;
                            rx_diag_tx := rx_diag_tx rx |} in
  if decide (0 < n /\ base <> 0%Z /\ packets_consumed_before_ack rx <= consumed) then
    {| ro_result := Ok (bytes_consumed consume_res, addr); ro_rx := with_consumed 0; ro_conn := cb;
       ro_out := out; ro_effects := received ++ diag_try_send (rx_diag_tx rx) (AckSent base n);
       ro_ack := snd (WriterHandler_send_ack w base n accepted) |}
  else
    {| ro_result := Ok (bytes_consumed consume_res, addr); ro_rx := with_consumed consumed; ro_conn := cb;
       ro_out := out; ro_effects := received; ro_ack := None |}.

(** The body of [read], once the future was ready.  The result of [consume] is
    unwrapped: an error panics. *)
Definition ReaderRxChannel_read (rx : ReaderRxChannel) (w : WriterHandler) (accepted : bool)
    (cb : ConnectionBuffer) (peer_fin_observed : bool) (bytes_to_read : nat) (buf : bytes) :
    BluefinResult (read_outcome bytes) :=
  match eof_addr cb peer_fin_observed with
  | Some addr =>
      Ok {| ro_result := Ok (0, addr); ro_rx := rx; ro_conn := cb; ro_out := buf;
            ro_effects := []; ro_ack := None |}
  | None =>
      (let? (r, cb', buf') := ConnectionBuffer_consume cb bytes_to_read buf in
       match r with
       | Ok (consume_res, addr) => Ok (after_consume rx w accepted cb' buf' consume_res addr)
       | _ => Panic
       end)%rust
  end.

(** The body of [read_bytes]: an error is returned. *)
Definition ReaderRxChannel_read_bytes (rx : ReaderRxChannel) (w : WriterHandler) (accepted : bool)
    (cb : ConnectionBuffer) (peer_fin_observed : bool) (out : list bytes) (max_packets : nat) :
    BluefinResult (read_outcome (list bytes)) :=
  match eof_addr cb peer_fin_observed with
  | Some addr =>
      Ok {| ro_result := Ok (0, addr); ro_rx := rx; ro_conn := cb; ro_out := out;
            ro_effects := []; ro_ack := None |}
  | None =>
      (let? (r, cb', out') := ConnectionBuffer_consume_bytes cb out max_packets in
       match r with
       | Ok (consume_res, addr) => Ok (after_consume rx w accepted cb' out' consume_res addr)
       | Err e => Ok {| ro_result := Err e; ro_rx := rx; ro_conn := cb'; ro_out := out';
                        ro_effects := []; ro_ack := None |}
       | _ => Panic
       end)%rust
  end.

(** [recv] and [recv_bytes] keep the size. *)
Definition BluefinConnection_recv (o : BluefinResult (read_outcome bytes)) : BluefinResult nat :=
  (let? out := o in let? (size, _) := ro_result out in Ok size)%rust.

Definition BluefinConnection_recv_bytes (o : BluefinResult (read_outcome (list bytes))) : BluefinResult nat :=
  (let? out := o in let? (size, _) := ro_result out in Ok size)%rust.

(** ** The future *)

Lemma peek_addr cb addr :
  wf_ob (ordered_bytes cb) -> cb_addr cb = Some addr ->
  ConnectionBuffer_peek cb =
    if decide (carry_over_bytes (ordered_bytes cb) = None /\ ready (slots (ordered_bytes cb)) = [])
    then Err BufferEmptyError else Ok tt.
Proof. intros Hwf Ha. unfold ConnectionBuffer_peek. rewrite Ha. by apply peek_spec. Qed.

(** Something can be read, or the end of the stream can be reported. *)
Definition readable (cb : ConnectionBuffer) (flag : bool) : Prop :=
  ~ (carry_over_bytes (ordered_bytes cb) = None /\ ready (slots (ordered_bytes cb)) = []) \/ flag = true.

Lemma poll_ready_iff cb flag cx addr :
  wf_ob (ordered_bytes cb) -> cb_addr cb = Some addr ->
  (readable cb flag /\ ReaderRxChannelFuture_poll cb flag cx = (Ready tt, cb)) \/
  (~ readable cb flag /\
   exists cb', ReaderRxChannelFuture_poll cb flag cx = (Pending, cb') /\
     take_waker_clone cb' = Some cx /\ ordered_bytes cb' = ordered_bytes cb).
Proof.
  intros Hwf Ha. unfold ReaderRxChannelFuture_poll, readable. rewrite (peek_addr cb addr Hwf Ha).
  case_decide as Hd; [|left; auto]. destruct flag; [left; auto|]. right.
  split; [intros [?|?]; [tauto|done]|]. eexists. split; [done|]. split; [apply set_waker_found|done].
Qed.

(** ** The body of [read] *)

Lemma eof_addr_spec cb flag addr :
  wf_ob (ordered_bytes cb) -> cb_addr cb = Some addr ->
  eof_addr cb flag =
    if decide (flag = true /\ carry_over_bytes (ordered_bytes cb) = None /\ ready (slots (ordered_bytes cb)) = [])
    then Some addr else None.
Proof.
  intros Hwf Ha. unfold eof_addr. rewrite (peek_addr cb addr Hwf Ha).
  destruct flag; [|by rewrite decide_False by naive_solver].
  case_decide as Hd; [by rewrite decide_True by tauto|by rewrite decide_False by tauto].
Qed.

(** The bookkeeping does not touch what was read. *)
Lemma after_consume_result {A} rx w accepted cb (out : A) cr addr :
  ro_result (after_consume rx w accepted cb out cr addr) = Ok (bytes_consumed cr, addr).
Proof. unfold after_consume. by case_decide. Qed.

Lemma after_consume_conn {A} rx w accepted cb (out : A) cr addr :
  ro_conn (after_consume rx w accepted cb out cr addr) = cb.
Proof. unfold after_consume. by case_decide. Qed.

Lemma after_consume_out {A} rx w accepted cb (out : A) cr addr :
  ro_out (after_consume rx w accepted cb out cr addr) = out.
Proof. unfold after_consume. by case_decide. Qed.

(** What a read leaves of the connection buffer. *)
Definition drained_conn (cb cb' : ConnectionBuffer) (bs : bytes) (k : nat) : Prop :=
  delivers (ordered_bytes cb) (ordered_bytes cb') bs k /\
  cb' = with_ordered_bytes cb (ordered_bytes cb').

Lemma read_spec rx w accepted cb flag addr len buf :
  wf_ob (ordered_bytes cb) -> cb_addr cb = Some addr -> len <= length buf ->
  let avail := available (ordered_bytes cb) in
  let bs := take len avail in
  if decide (flag = true /\ carry_over_bytes (ordered_bytes cb) = None /\ ready (slots (ordered_bytes cb)) = [])
  then
    ReaderRxChannel_read rx w accepted cb flag len buf =
      Ok {| ro_result := Ok (0, addr); ro_rx := rx; ro_conn := cb; ro_out := buf; ro_effects := []; ro_ack := None |}
  else if decide (bs = [] /\ carry_over_bytes (ordered_bytes cb) = None) then
    ReaderRxChannel_read rx w accepted cb flag len buf = Panic
  else
    exists cb' k b, drained_conn cb cb' bs k /\ (0 < k -> b = smallest_packet_number (ordered_bytes cb)) /\
      ReaderRxChannel_read rx w accepted cb flag len buf =
        Ok (after_consume rx w accepted cb' (bs ++ drop (length bs) buf)
              {| num_packets_consumed := k; base_packet_number := b; bytes_consumed := length bs |} addr).
Proof.
  intros Hwf Ha Hlen. cbv zeta. unfold ReaderRxChannel_read. rewrite (eof_addr_spec cb flag addr Hwf Ha).
  case_decide as Heof; [done|]. unfold ConnectionBuffer_consume. rewrite Ha.
  destruct (consume_ok (ordered_bytes cb) len buf Hwf Hlen) as (r & ob' & k & b & -> & Hdl & Hb & ->).
  cbn [outcome_bind]. case_decide as Hnone; [done|]. cbn [outcome_bind].
  exists (with_ordered_bytes cb ob'), k, b. split_and!; done.
Qed.

(** An ack is for the packets the read has released. *)
Lemma after_consume_ack {A} rx w accepted cb (out : A) cr addr a :
  ro_ack (after_consume rx w accepted cb out cr addr) = Some a ->
  0 < num_packets_consumed cr /\ ack_num_packets_consumed a = num_packets_consumed cr /\
  ack_base_packet_num a = base_packet_number cr.
Proof.
  unfold after_consume, WriterHandler_send_ack. case_decide as Hd; cbn [ro_ack]; [|done].
  destruct (ack_sender w), accepted; cbn; try done. intros [= <-]. by destruct Hd.
Qed.

Lemma drained_conn_none cb : wf_ob (ordered_bytes cb) -> drained_conn cb cb [] 0.
Proof.
  intros Hwf. split; [|by destruct cb]. split; [done|lia|by rewrite app_nil_r|lia| |done].
  by rewrite take_0, app_nil_r.
Qed.

(** ** Properties *)

(** C24: what a read does once its future is ready, on every branch: with the
    peer's FIN seen and nothing left it returns zero bytes and changes
    nothing; when no byte can be taken it panics; and otherwise it returns the
    next bytes of the stream in the caller's slice, leaving the following ones
    to the next read. *)
Theorem read_branches rx w accepted cb flag addr len buf :
  wf_ob (ordered_bytes cb) -> cb_addr cb = Some addr -> len <= length buf ->
  let bs := take len (available (ordered_bytes cb)) in
  if decide (flag = true /\ carry_over_bytes (ordered_bytes cb) = None /\ ready (slots (ordered_bytes cb)) = [])
  then
    exists o, ReaderRxChannel_read rx w accepted cb flag len buf = Ok o /\
      ro_result o = Ok (0, addr) /\ ro_conn o = cb /\ ro_out o = buf /\ ro_ack o = None
  else if decide (bs = [] /\ carry_over_bytes (ordered_bytes cb) = None) then
    ReaderRxChannel_read rx w accepted cb flag len buf = Panic
  else
    exists o, ReaderRxChannel_read rx w accepted cb flag len buf = Ok o /\
      ro_result o = Ok (length bs, addr) /\ ro_out o = bs ++ drop (length bs) buf /\
      wf_ob (ordered_bytes (ro_conn o)) /\
      available (ordered_bytes cb) = bs ++ available (ordered_bytes (ro_conn o)).
Proof.
  intros Hwf Ha Hlen. cbv zeta. pose proof (read_spec rx w accepted cb flag addr len buf Hwf Ha Hlen) as H.
  cbv zeta in H. case_decide as H1; [rewrite H; eauto 7|]. case_decide as H2; [done|].
  destruct H as (cb' & k & b & [Hd Hcb] & _ & ->). eexists. split; [done|].
  rewrite after_consume_result, after_consume_conn, after_consume_out.
  split_and!; [done|done|by destruct Hd|by eapply delivers_available].
Qed.

Definition sample_conn : ConnectionBuffer :=
  {| ordered_bytes := sample_ob; cb_addr := Some (7, 8)%Z; cb_waker := None; cb_packet := None;
     cb_dst_conn_id := 2; cb_host_type := Client; set_start_packet_number := true |}.
Definition sample_writer : WriterHandler := WriterHandler_start (WriterHandler_new 9 1 2).

Lemma read_branches_witness :
  exists o, ReaderRxChannel_read (ReaderRxChannel_new false) sample_writer true sample_conn false 3
              (replicate 3 0%Z) = Ok o /\
    ro_result o = Ok (3, (7, 8)%Z) /\ ro_out o = [0; 7; 1]%Z.
Proof.
  pose proof (read_branches (ReaderRxChannel_new false) sample_writer true sample_conn false (7, 8)%Z 3
                (replicate 3 0%Z) sample_ob_wf eq_refl ltac:(simpl; lia)) as H. cbv zeta in H.
  rewrite decide_False in H by (intros [? _]; done).
  rewrite decide_False in H by (intros [Hbs _]; vm_compute in Hbs; discriminate).
  destruct H as (o & H1 & H2 & H3 & _). exists o. split; [exact H1|].
  split; [rewrite H2; vm_compute; reflexivity|rewrite H3; vm_compute; reflexivity].
Defined.

(** No wake-up is lost: the read future is ready exactly when there is
    something to hand out or the peer's FIN was seen, and when it is pending
    the task's waker is registered with the buffer, where the receive worker
    takes it from. *)
Theorem read_future_parks_safely cb flag cx addr :
  wf_ob (ordered_bytes cb) -> cb_addr cb = Some addr ->
  (readable cb flag /\ ReaderRxChannelFuture_poll cb flag cx = (Ready tt, cb)) \/
  (~ readable cb flag /\
   exists cb', ReaderRxChannelFuture_poll cb flag cx = (Pending, cb') /\
     take_waker_clone cb' = Some cx /\ ordered_bytes cb' = ordered_bytes cb).
Proof. exact (poll_ready_iff cb flag cx addr). Qed.

Lemma read_future_parks_safely_witness :
  (readable sample_conn false /\ ReaderRxChannelFuture_poll sample_conn false 4 = (Ready tt, sample_conn)) \/
  (~ readable sample_conn false /\
   exists cb', ReaderRxChannelFuture_poll sample_conn false 4 = (Pending, cb') /\
     take_waker_clone cb' = Some 4 /\ ordered_bytes cb' = ordered_bytes sample_conn).
Proof. exact (read_future_parks_safely sample_conn false 4 (7, 8)%Z sample_ob_wf eq_refl). Defined.

(** A packet without payload makes a read panic: it is buffered in order
    like any other, so the future is ready, but consuming it gives no byte and
    the error is unwrapped. *)
Lemma empty_packet_read_panics rx w accepted conn_id start addr p len buf :
  (0 <= start < 2 ^ 64 - 1)%Z -> packet_number (header p) = start -> payload p = [] -> len <= length buf ->
  let cb := {| ordered_bytes := arrive_all (OrderedBytes_new conn_id start) [p]; cb_addr := Some addr;
               cb_waker := None; cb_packet := None; cb_dst_conn_id := 0; cb_host_type := Client;
               set_start_packet_number := true |} in
  fst (ReaderRxChannelFuture_poll cb false 0) = Ready tt /\
  ReaderRxChannel_read rx w accepted cb false len buf = Panic.
Proof.
  intros Hs Hpn Hpay Hlen. set (ob := arrive_all (OrderedBytes_new conn_id start) [p]). intros cb.
  assert (Hg : genuine start (fun _ => []) p) by (split; [lia|intros; done]).
  destruct (arrive_all_filled start (fun _ => []) [p] (OrderedBytes_new conn_id start))
    as ([Hwf (k & Hk & Hpl & _)] & Hc & Hsm & Hfill);
    [apply stream_inv_new; int_lia|reflexivity|reflexivity|by constructor|].
  fold ob in Hwf, Hk, Hpl, Hc, Hsm, Hfill. clearbody ob.
  assert (Hready : ready (slots (ordered_bytes cb)) <> []).
  { destruct (proj2 (Hfill 0 MAX_BUFFER_SIZE_pos)) as [q Hq].
    { right. exists p. split; [by apply list_elem_of_singleton|lia]. }
    simpl. destruct (slots _) as [|[]]; simplify_eq/=; done. }
  assert (Havail : available (ordered_bytes cb) = []).
  { unfold available. simpl. rewrite Hc. simpl.
    rewrite <- (firstn_all (ready _)), (ready_stream (fun _ => []) _ k) by (auto || lia).
    clear. generalize (length (ready (slots ob))).
    intros n. revert k. induction n as [|n IH]; intros k; simpl; auto. }
  split.
  - destruct (poll_ready_iff cb false 0 addr Hwf eq_refl) as [[_ ->]|[Hn _]]; [done|].
    exfalso. apply Hn. left. intros [_ ?]. done.
  - pose proof (read_spec rx w accepted cb false addr len buf Hwf eq_refl Hlen) as H. cbv zeta in H.
    rewrite decide_False in H by (intros [? _]; done).
    rewrite decide_True in H; [done|]. split; [by rewrite Havail, take_nil|exact Hc].
Qed.

Lemma empty_packet_read_panics_witness :
  fst (ReaderRxChannelFuture_poll
         {| ordered_bytes := arrive_all (OrderedBytes_new 1 100) [sample_data_packet 100 []];
            cb_addr := Some (7, 8)%Z; cb_waker := None; cb_packet := None; cb_dst_conn_id := 0;
            cb_host_type := Client; set_start_packet_number := true |} false 0) = Ready tt.
Proof.
  exact (proj1 (empty_packet_read_panics (ReaderRxChannel_new false) sample_writer true 1 100 (7, 8)%Z
                  (sample_data_packet 100 []) 0 [] ltac:(lia) eq_refl eq_refl ltac:(simpl; lia))).
Defined.
