(* ===== verification/Routing.v ===== *)
(** * Routing datagrams to connections

    Models [ReaderTxChannel] of src/bluefin/src/worker/reader.rs, the worker
    that reads the host's own socket: hello handling, the connection key, and
    one round of [run].  The connection manager is a finite map from directed
    id pairs to entries; the [Arc]-shared parts live in a heap (see Net). *)
From stdpp Require Import base numbers list option strings gmap.
From S2P Require Import Prelude Proto Header Packet Window OrderedBytes Close Buffers Net.

Record Host : Type := {
  host_type : BluefinHost;
  conn_manager : gmap (Z * Z) ConnectionManagedBuffers;
  hello_state : HelloState;
  heap : gmap nat ConnShared;
  next_loc : nat;
}.

Definition Host_new (t : BluefinHost) : Host :=
  {| host_type := t; conn_manager := ∅; hello_state := HelloState_new; heap := ∅; next_loc := 0 |}.

Definition with_hello_state (h : Host) (hs : HelloState) : Host :=
  {| host_type := host_type h; conn_manager := conn_manager h; hello_state := hs;
     heap := heap h; next_loc := next_loc h |}.

Definition with_heap (h : Host) (l : nat) (s : ConnShared) : Host :=
  {| host_type := host_type h; conn_manager := conn_manager h; hello_state := hello_state h;
     heap := <[l := s]> (heap h); next_loc := next_loc h |}.

Definition with_conn_manager (h : Host) (m : gmap (Z * Z) ConnectionManagedBuffers) : Host :=
  {| host_type := host_type h; conn_manager := m; hello_state := hello_state h;
     heap := heap h; next_loc := next_loc h |}.

(** ** Hellos *)

Inductive HelloAction : Type :=
  | NotHello
  | Routed (id : Z)
  | Queued.

(** The packet is drained out and put back when routed, so the caller's vector
    holds it exactly when the answer is not [Queued]. *)
Definition ReaderTxChannel_handle_hello_single (t : BluefinHost) (hs : HelloState)
    (pkt : BluefinPacket) (addr : SocketAddr) : BluefinResult (HelloAction * HelloState) :=
  if negb (is_hello_packet t pkt) then Ok (NotHello, hs)
  else
    match t with
    | PackLeader =>
        match pending_accept_ids hs with
        | id :: ids =>
            Ok (Routed id, {| pending_accept_ids := ids; hello_queue := hello_queue hs |})
        | [] =>
            if decide (length (hello_queue hs) < MAX_QUEUED_HELLOS) then
              Ok (Queued, {| pending_accept_ids := []; hello_queue := hello_queue hs ++ [(pkt, addr)] |})
            else Ok (Queued, hs)
        end
    | Client => Ok (Routed 0, hs)
    | PackFollower => Panic
    end.

Definition ReaderTxChannel_build_conn_buff_key (is_hello : bool) (src_conn_id dst_conn_id : Z) : Z * Z :=
  if negb is_hello then (src_conn_id, dst_conn_id) else (src_conn_id, 0%Z).

(** ** Buffering one packet *)

Definition ReaderTxChannel_buffer_to_conn_buffer (cb : ConnectionBuffer) (packet : BluefinPacket)
    (addr : SocketAddr) (is_hello is_client_ack : bool) :
    BluefinResult unit * ConnectionBuffer * list effect :=
  let packet_src_conn_id := source_connection_id (header packet) in
  let '(r, cb) :=
    if negb is_hello && negb is_client_ack then ConnectionBuffer_buffer_in_bytes cb packet
    else
      match ConnectionBuffer_buffer_in_packet cb packet with
      | (Ok _, cb) => (Ok tt, snd (ConnectionBuffer_buffer_in_addr cb addr))
      | (e, cb) => (e, cb)
      end in
  match r with
  | Ok _ =>
      let cb := ConnectionBuffer_set_dst_conn_id cb packet_src_conn_id in
      match cb_waker cb with
      | Some w => (Ok tt, cb, [WakeTask w])
      | None => (Err NoSuchWakerError, cb, [])
      end
  | e => (e, cb, [])
  end.

Definition ReaderTxChannel_buffer_to_ack_buffer (ab : AckBuffer) (packet : BluefinPacket) :
    BluefinResult unit * AckBuffer * list effect :=
  match AckBuffer_buffer_in_ack_packet ab packet with
  | (Ok _, ab) =>
      match AckBuffer_wake ab with
      | Ok w => (Ok tt, ab, [WakeTask w])
      | Err e => (Err e, ab, [])
      | _ => (Panic, ab, [])
      end
  | (e, ab) => (e, ab, [])
  end.

Definition ReaderTxChannel_buffer_in_data (is_hello : bool) (t : BluefinHost) (packet : BluefinPacket)
    (addr : SocketAddr) (s : ConnShared) : BluefinResult unit * ConnShared * list effect :=
  let is_client_ack := is_client_ack_packet t packet in
  if negb is_client_ack && negb is_hello && bool_decide (type_field (header packet) = Ack) then
    let '(r, ab, evs) := ReaderTxChannel_buffer_to_ack_buffer (ack_buff s) packet in
    (r, with_ack_buff s ab, evs)
  else
    let '(r, cb, evs) :=
      ReaderTxChannel_buffer_to_conn_buffer (conn_buff s) packet addr is_hello is_client_ack in
    (r, with_conn_buff s cb, evs).

(** [for p in packets.drain(..) { let _ = buffer_in_data(..); }]. *)
Fixpoint buffer_all (is_hello : bool) (t : BluefinHost) (packets : list BluefinPacket)
    (addr : SocketAddr) (s : ConnShared) : option ConnShared * list effect :=
  match packets with
  | [] => (Some s, [])
  | p :: packets' =>
      match ReaderTxChannel_buffer_in_data is_hello t p addr s with
      | (Panic, _, evs) => (None, evs)
      | (_, s', evs) =>
          let '(r, evs') := buffer_all is_hello t packets' addr s' in (r, evs ++ evs')
      end
  end.

(** ** One round of [run]

    [None]: the worker has ended in a panic. *)

(** The routing decision on the first packet: the connection key and whether
    the datagram is a hello, or nothing when it was queued. *)
Definition route (h : Host) (first : BluefinPacket) (n : nat) (addr : SocketAddr) :
    BluefinResult (option (bool * (Z * Z)) * Host) :=
  let src_conn_id := destination_connection_id (header first) in
  let dst_conn_id := source_connection_id (header first) in
  if decide (n = 1) then
    (let? (action, hs) := ReaderTxChannel_handle_hello_single (host_type h) (hello_state h) first addr in
     let h := with_hello_state h hs in
     match action with
     | Routed id =>
         let src := if decide (host_type h = PackLeader) then id else src_conn_id in
         Ok (Some (true, ReaderTxChannel_build_conn_buff_key true src dst_conn_id), h)
     | NotHello => Ok (Some (false, ReaderTxChannel_build_conn_buff_key false src_conn_id dst_conn_id), h)
     | Queued => Ok (None, h)
     end)%rust
  else Ok (Some (false, ReaderTxChannel_build_conn_buff_key false src_conn_id dst_conn_id), h).

(** The round after a successful parse. *)
Definition ReaderTxChannel_handle_packets (h : Host) (packets : list BluefinPacket) (addr : SocketAddr) :
    option Host * list effect :=
  match packets with
  | [] => (Some h, [])
  | first :: _ =>
      match route h first (length packets) addr with
      | Ok (None, h) => (Some h, [])
      | Ok (Some (is_hello, key), h) =>
          match conn_manager h !! key with
          | None => (Some h, [])
          | Some entry =>
              match heap h !! shared_at entry with
              | None => (None, [])
              | Some s =>
                  match buffer_all is_hello (host_type h) packets addr s with
                  | (Some s', evs) => (Some (with_heap h (shared_at entry) s'), evs)
                  | (None, evs) => (None, evs)
                  end
              end
          end
      | _ => (None, [])
      end
  end.

Definition ReaderTxChannel_run_round (h : Host) (dg : bytes) (addr : SocketAddr) :
    option Host * list effect :=
  match BluefinPacket_from_bytes_into dg [] with
  | (Ok _, packets) => ReaderTxChannel_handle_packets h packets addr
  | (Err _, _) => (Some h, [])
  | (_, _) => (None, [])
  end.

(** ** The hello queue *)

(** The two ways the shared state changes: a hello arrives at a worker, and an
    [accept] takes a queued hello or leaves its slot. *)
Inductive hello_op : Type :=
  | HelloArrives (pkt : BluefinPacket) (addr : SocketAddr)
  | AcceptCalled (src_conn_id : Z).

(** The part of [accept] under the lock. *)
Definition take_hello_or_register (hs : HelloState) (src_conn_id : Z) :
    option (BluefinPacket * SocketAddr) * HelloState :=
  match hello_queue hs with
  | hello :: queue =>
      (Some hello, {| pending_accept_ids := pending_accept_ids hs; hello_queue := queue |})
  | [] =>
      (None, {| pending_accept_ids := pending_accept_ids hs ++ [src_conn_id]; hello_queue := [] |})
  end.

Definition hello_do (hs : HelloState) (op : hello_op) : HelloState :=
  match op with
  | HelloArrives pkt addr =>
      match ReaderTxChannel_handle_hello_single PackLeader hs pkt addr with
      | Ok (_, hs') => hs'
      | _ => hs
      end
  | AcceptCalled id => snd (take_hello_or_register hs id)
  end.

(** Never both a waiting slot and a waiting hello, and a bounded queue. *)
Definition hello_inv (hs : HelloState) : Prop :=
  (pending_accept_ids hs = [] \/ hello_queue hs = []) /\ length (hello_queue hs) <= MAX_QUEUED_HELLOS.

Lemma hello_inv_do hs op : hello_inv hs -> hello_inv (hello_do hs op).
Proof.
  intros [Hor Hlen]. destruct op as [pkt addr|id]; simpl.
  - unfold ReaderTxChannel_handle_hello_single. destruct (is_hello_packet PackLeader pkt); [|done]. simpl.
    destruct (pending_accept_ids hs) as [|id ids] eqn:Hp.
    + case_decide; [|split; [by rewrite Hp|done]]. split; simpl; [auto|]. rewrite length_app. simpl. lia.
    + destruct Hor as [?|Hq]; [done|]. split; simpl; auto.
  - unfold take_hello_or_register. destruct (hello_queue hs) as [|x q] eqn:Hq; simpl.
    + split; simpl; [auto|lia].
    + destruct Hor as [Hp|?]; [|done]. split; simpl; [auto|]. simpl in Hlen. lia.
Qed.

(** What arrivals and accepts hand over, in order: each accept gets the hello
    it was matched with. *)
Fixpoint hello_matches (hs : HelloState) (ops : list hello_op) : list BluefinPacket :=
  match ops with
  | [] => []
  | op :: ops' =>
      match op with
      | HelloArrives pkt addr =>
          match ReaderTxChannel_handle_hello_single PackLeader hs pkt addr with
          | Ok (Routed _, _) => [pkt]
          | _ => []
          end
      | AcceptCalled id =>
          match take_hello_or_register hs id with
          | (Some (pkt, _), _) => [pkt]
          | _ => []
          end
      end ++ hello_matches (hello_do hs op) ops'
  end.

(** The valid hellos of a history. *)
Definition valid_hellos (ops : list hello_op) : list BluefinPacket :=
  omap (fun op => match op with
                  | HelloArrives pkt _ => if is_hello_packet PackLeader pkt then Some pkt else None
                  | AcceptCalled _ => None
                  end) ops.

Lemma hello_matches_fifo ops hs :
  hello_inv hs -> length (hello_queue hs) + length (valid_hellos ops) <= MAX_QUEUED_HELLOS ->
  hello_matches hs ops `prefix_of` map fst (hello_queue hs) ++ valid_hellos ops.
Proof.
  revert hs. induction ops as [|op ops IH]; intros hs Hinv Hlen; simpl; [apply prefix_nil|].
  pose proof (hello_inv_do hs op Hinv) as Hinv'. destruct Hinv as [Hor Hb].
  destruct op as [pkt addr|id]; simpl in *.
  - unfold ReaderTxChannel_handle_hello_single in *. destruct (is_hello_packet PackLeader pkt); simpl in *.
    + destruct (pending_accept_ids hs) as [|id ids] eqn:Hp.
      * rewrite decide_True in * by lia.
        specialize (IH _ Hinv'). simpl in IH. rewrite length_app in IH. simpl in IH.
        rewrite map_app in IH. simpl in IH. rewrite <- app_assoc in IH. apply IH. lia.
      * destruct Hor as [?|Hq]; [done|]. specialize (IH _ Hinv'). rewrite Hq in *. simpl in *.
        apply prefix_cons, IH. lia.
    + apply IH; [done|lia].
  - unfold take_hello_or_register in *. destruct (hello_queue hs) as [|[pkt addr] q] eqn:Hq; simpl in *.
    + apply (IH _ Hinv'). simpl. lia.
    + apply prefix_cons. apply (IH _ Hinv'). simpl. lia.
Qed.

(** ** Properties *)

(** Whatever way hellos and accepts interleave, there is never both an
    accept waiting and a hello queued, and never more than 64 hellos queued. *)
Theorem hello_state_invariant ops :
  let hs := foldl hello_do HelloState_new ops in
  (pending_accept_ids hs = [] \/ hello_queue hs = []) /\ length (hello_queue hs) <= MAX_QUEUED_HELLOS.
Proof.
  cbv zeta. assert (H0 : hello_inv HelloState_new) by (split; simpl; [auto|lia]).
  revert H0. generalize HelloState_new.
  induction ops as [|op ops IH]; intros hs Hinv; [done|]. simpl. by apply IH, hello_inv_do.
Qed.

(** Hellos are matched with accepts first come first served: as long as no
    more than 64 valid ones come, the accepts get a prefix of the valid hellos
    in the order they came, none lost, repeated or overtaken. *)
Theorem hellos_matched_in_order ops :
  length (valid_hellos ops) <= MAX_QUEUED_HELLOS ->
  hello_matches HelloState_new ops `prefix_of` valid_hellos ops.
Proof. intros H. apply (hello_matches_fifo ops HelloState_new); [split; simpl; [auto|lia]|done]. Qed.

Definition sample_hello (c : Z) : BluefinPacket := empty_packet c 0 5 UnencryptedClientHello.

Lemma hellos_matched_in_order_witness :
  let ops := [HelloArrives (sample_hello 1) (0, 0)%Z; HelloArrives (sample_hello 2) (0, 0)%Z;
              AcceptCalled 7; AcceptCalled 8; AcceptCalled 9; HelloArrives (sample_hello 3) (0, 0)%Z] in
  hello_matches HelloState_new ops = [sample_hello 1; sample_hello 2; sample_hello 3] /\
  hello_matches HelloState_new ops `prefix_of` valid_hellos ops.
Proof.
  split; [vm_compute; reflexivity|].
  apply (hellos_matched_in_order [HelloArrives (sample_hello 1) (0, 0)%Z; HelloArrives (sample_hello 2) (0, 0)%Z;
              AcceptCalled 7; AcceptCalled 8; AcceptCalled 9; HelloArrives (sample_hello 3) (0, 0)%Z]).
  apply Nat.leb_le. vm_compute. reflexivity.
Defined.

(** The key a datagram is routed to: the ids of its first packet, reversed; for
    a single hello packet, the accept that has waited longest at a server, and
    the connection named by the packet at a client. *)
Inductive routes_to (h : Host) (p : BluefinPacket) (n : nat) : Z * Z -> Prop :=
  | to_connection :
      n <> 1 \/ is_hello_packet (host_type h) p = false ->
      routes_to h p n (destination_connection_id (header p), source_connection_id (header p))
  | to_accept id ids :
      n = 1 -> is_hello_packet PackLeader p = true -> host_type h = PackLeader ->
      pending_accept_ids (hello_state h) = id :: ids -> routes_to h p n (id, 0%Z)
  | to_connect :
      n = 1 -> is_hello_packet Client p = true -> host_type h = Client ->
      routes_to h p n (destination_connection_id (header p), 0%Z).

(** What becomes of the waiting accepts and the queued hellos. *)
Definition hello_state_after (h : Host) (p : BluefinPacket) (n : nat) (addr : SocketAddr) : HelloState :=
  let hs := hello_state h in
  if bool_decide (n = 1 /\ host_type h = PackLeader) && is_hello_packet PackLeader p then
    match pending_accept_ids hs with
    | _ :: ids => {| pending_accept_ids := ids; hello_queue := hello_queue hs |}
    | [] => {| pending_accept_ids := []; hello_queue := take MAX_QUEUED_HELLOS (hello_queue hs ++ [(p, addr)]) |}
    end
  else hs.

(** Routing a packet changes nothing but the hello state. *)
Lemma route_frame h p n addr o h' :
  length (hello_queue (hello_state h)) <= MAX_QUEUED_HELLOS ->
  route h p n addr = Ok (o, h') ->
  host_type h' = host_type h /\ conn_manager h' = conn_manager h /\ heap h' = heap h /\ next_loc h' = next_loc h /\
  hello_state h' = hello_state_after h p n addr /\
  forall is_hello key, o = Some (is_hello, key) -> routes_to h p n key.
Proof.
  intros Hq. unfold route, hello_state_after. case_decide as Hn.
  2:{ rewrite bool_decide_false by tauto. intros [= <- <-]. split_and!; try done. intros ? ? [= <- <-].
      constructor. by left. }
  unfold ReaderTxChannel_handle_hello_single.
  destruct (is_hello_packet (host_type h) p) eqn:Hh; simpl.
  2:{ intros [= <- <-]. split_and!; try done; [|intros ? ? [= <- <-]; constructor; by right].
      case_bool_decide as Hl; [|done]. destruct Hl as [_ Hl]. by rewrite <- Hl, Hh. }
  destruct (host_type h) eqn:Ht; simpl; try done.
  - rewrite bool_decide_true by done. rewrite Hh. cbn [andb].
    destruct (pending_accept_ids (hello_state h)) as [|id ids] eqn:Hp; [case_decide as Hl|];
      intros [= <- <-]; cbn [with_hello_state host_type conn_manager heap next_loc hello_state]; rewrite ?Ht; split_and!; try done.
    + rewrite take_ge; [done|]. rewrite length_app. cbn [length]. lia.
    + rewrite take_app_le, take_ge by lia. by destruct (hello_state h); simplify_eq/=.
    + intros ? ? [= <- <-]. by apply (to_accept _ _ _ id ids).
  - rewrite bool_decide_false by naive_solver. intros [= <- <-]. cbn. rewrite ?Ht. split_and!; try done.
    intros ? ? [= <- <-]. by apply to_connect.
Qed.

(** C28: a datagram reaches one connection at most.  Handling it leaves the
    connection table as it is and changes the contents of no location but the
    one registered under the key the datagram is routed to: the ids of its first
    packet, or, for a single hello packet, the hello key of the accept that has
    waited longest (at a client, of the connection the packet names).  A hello
    takes exactly that accept off the list, or joins the end of the queue when
    none waits and there is room; other datagrams leave both alone. *)
Theorem routing_isolation h packets addr h' evs :
  length (hello_queue (hello_state h)) <= MAX_QUEUED_HELLOS ->
  ReaderTxChannel_handle_packets h packets addr = (Some h', evs) ->
  conn_manager h' = conn_manager h /\ host_type h' = host_type h /\ next_loc h' = next_loc h /\
  match packets with
  | [] => h' = h
  | p :: _ =>
      hello_state h' = hello_state_after h p (length packets) addr /\
      (heap h' = heap h \/
       exists key entry s s', routes_to h p (length packets) key /\ conn_manager h !! key = Some entry /\
         heap h !! shared_at entry = Some s /\ heap h' = <[shared_at entry := s']> (heap h))
  end.
Proof.
  intros Hq. unfold ReaderTxChannel_handle_packets. destruct packets as [|p ps]; [intros [= <- <-]; auto|].
  destruct (route h p (length (p :: ps)) addr) as [[o h1]| | |] eqn:Hr; try done.
  apply route_frame in Hr as (Ht & Hm & Hh & Hl & Hs & Hkey); [|done].
  destruct o as [[is_hello key]|]; [|intros [= <- <-]; split_and!; [done..|by left]].
  destruct (conn_manager h1 !! key) as [entry|] eqn:He; [|intros [= <- <-]; split_and!; [done..|by left]].
  destruct (heap h1 !! shared_at entry) as [s|] eqn:Hloc; [|done].
  destruct (buffer_all _ _ _ _ _) as [[s'|] evs']; [|done]. intros [= <- <-]. cbn [with_heap conn_manager host_type heap next_loc hello_state].
  split_and!; [done..|]. right. exists key, entry, s, s'. rewrite Hm in He. rewrite Hh in Hloc |- *.
  split_and!; [by apply (Hkey is_hello)|done..].
Qed.

Definition sample_host : Host :=
  with_heap (with_conn_manager (Host_new PackLeader)
    {[ (5, 6)%Z := {| shared_at := 3; fin_ack_tx := false; diag_tx := false |} ]})
    3 (ConnShared_new 5 PackLeader 9).

Definition sample_data : BluefinPacket :=
  {| header := BluefinHeader_with_packet_number
                 (BluefinHeader_new 6 5 UnencryptedData 1 BluefinSecurityFields_default) 3;
     payload := [1%Z] |}.

Lemma routing_isolation_witness :
  exists h' evs,
    ReaderTxChannel_handle_packets sample_host [sample_data] (0, 0)%Z = (Some h', evs) /\
    heap h' !! 3 <> heap sample_host !! 3 /\ conn_manager h' = conn_manager sample_host.
Proof.
  destruct (ReaderTxChannel_handle_packets sample_host [sample_data] (0, 0)%Z) as [[h'|] evs] eqn:H;
    [|vm_compute in H; discriminate].
  exists h', evs. split; [reflexivity|]. destruct (routing_isolation sample_host _ _ _ _ (Nat.le_0_l _) H) as (Hm & _).
  split; [|exact Hm]. vm_compute in H. injection H as <- <-. vm_compute. discriminate.
Defined.
