(* ===== verification/Handshake.v ===== *)
(** * The three-way handshake

    Models [BluefinClient] (src/bluefin/src/net/client.rs), [BluefinServer]
    (src/bluefin/src/net/server.rs) and the construction of a
    [BluefinConnection] (src/bluefin/src/net/connection.rs).

    [connect] and [accept] are asynchronous: each is cut at its awaits into
    segments, and what the host's reader worker does between two segments is
    [ReaderTxChannel_run_round].  What the operating system answers (a socket,
    a send) and what the random generator draws are arguments. *)
From stdpp Require Import base numbers list option strings gmap.
From S2P Require Import Prelude Proto Header Packet Window OrderedBytes Close Buffers Net Packetiser Writer Reader Routing.

(** ** Connections *)

Record BluefinConnection : Type := {
  bc_src_conn_id : Z;
  bc_dst_conn_id : Z;
  bc_shared : nat;
  bc_writer : WriterHandler;
  bc_reader : ReaderRxChannel;
  bc_dst_addr : SocketAddr;
  bc_src_addr : SocketAddr;
  bc_diag : bool;
}.

(** A socket that cannot be made panics. *)
Definition BluefinConnection_new (src_conn_id dst_conn_id next_send_packet_num : Z) (loc : nat)
    (dst_addr src_addr : SocketAddr) (diag : bool) (socket_ok : bool) : BluefinResult BluefinConnection :=
  if socket_ok then
    let writer := WriterHandler_new next_send_packet_num src_conn_id dst_conn_id in
    let writer :=
      {| wh_next_packet_num := wh_next_packet_num writer;
         next_packet_num_shared := next_packet_num_shared writer; wh_closed := wh_closed writer;
         data_sender := data_sender writer; ack_sender := ack_sender writer;
         wh_src_conn_id := wh_src_conn_id writer; wh_dst_conn_id := wh_dst_conn_id writer;
         pending_bytes := pending_bytes writer; flush_notify := flush_notify writer;
         wh_diag_tx := diag |} in
    Ok {| bc_src_conn_id := src_conn_id; bc_dst_conn_id := dst_conn_id; bc_shared := loc;
          bc_writer := WriterHandler_start writer; bc_reader := ReaderRxChannel_new diag;
          bc_dst_addr := dst_addr; bc_src_addr := src_addr; bc_diag := diag |}
  else Panic.

(** [conn_manager.insert(key, ..)] with newly made shared parts; [true] when an
    entry was there, which has then been replaced. *)
Definition register (h : Host) (key : Z * Z) (s : ConnShared) (diag : bool) :
    bool * ConnectionManagedBuffers * Host :=
  let entry := {| shared_at := next_loc h; fin_ack_tx := false; diag_tx := diag |} in
  (bool_decide (is_Some (conn_manager h !! key)), entry,
   {| host_type := host_type h; conn_manager := <[key := entry]> (conn_manager h);
      hello_state := hello_state h; heap := <[next_loc h := s]> (heap h); next_loc := S (next_loc h) |}).

(** Removes the hello entry and inserts the connection's: the two errors on
    the way leave what was done before them. *)
Definition promote (h : Host) (hello_key key : Z * Z) (entry : ConnectionManagedBuffers) :
    BluefinResult unit * Host :=
  match conn_manager h !! hello_key with
  | None => (Err NoSuchConnectionError, h)
  | Some _ =>
      let m := delete hello_key (conn_manager h) in
      let h := with_conn_manager h (<[key := entry]> m) in
      match m !! key with
      | Some _ => (Err ConnectionAlreadyExists, h)
      | None => (Ok tt, h)
      end
  end.

(** ** The client *)

Record BluefinClient : Type := {
  cl_host : Host;
  cl_socket : bool;
  cl_src_addr : SocketAddr;
  cl_dst_addr : option SocketAddr;
  cl_num_reader_workers : Z;
  cl_handshake_handler : HandshakeHandler;
  cl_diag_tx : bool;
}.

Definition BluefinClient_new (src_addr : SocketAddr) : BluefinResult BluefinClient :=
  (let? handler := HandshakeHandler_new Client in
   Ok {| cl_host := Host_new Client; cl_socket := false; cl_src_addr := src_addr; cl_dst_addr := None;
         cl_num_reader_workers := 1; cl_handshake_handler := handler; cl_diag_tx := false |})%rust.

Definition BluefinClient_set_num_reader_workers (c : BluefinClient) (n : Z) :
    BluefinResult unit * BluefinClient :=
  if (n =? 0)%Z then (Err (Unexpected "Cannot have zero reader values"), c)
  else
    (Ok tt,
     {| cl_host := cl_host c; cl_socket := cl_socket c; cl_src_addr := cl_src_addr c;
        cl_dst_addr := cl_dst_addr c; cl_num_reader_workers := n;
        cl_handshake_handler := cl_handshake_handler c; cl_diag_tx := cl_diag_tx c |}).

Definition BluefinClient_set_diagnostics (c : BluefinClient) : BluefinClient :=
  {| cl_host := cl_host c; cl_socket := cl_socket c; cl_src_addr := cl_src_addr c;
     cl_dst_addr := cl_dst_addr c; cl_num_reader_workers := cl_num_reader_workers c;
     cl_handshake_handler := cl_handshake_handler c; cl_diag_tx := true |}.

Definition with_client (c : BluefinClient) (h : Host) (hh : HandshakeHandler) (dst : SocketAddr) :
    BluefinClient :=
  {| cl_host := h; cl_socket := true; cl_src_addr := cl_src_addr c; cl_dst_addr := Some dst;
     cl_num_reader_workers := cl_num_reader_workers c; cl_handshake_handler := hh;
     cl_diag_tx := cl_diag_tx c |}.

Record Connecting : Type := {
  cn_src_conn_id : Z;
  cn_packet_number : Z;
  cn_entry : ConnectionManagedBuffers;
  cn_dst_addr : SocketAddr;
}.

(** What [rand] draws in a [connect]: two values in [begin], then the id and
    the number used on the wire. *)
Record connect_draws : Type := {
  draw_begin : Z * Z;
  draw_src_conn_id : Z;
  draw_packet_number : Z;
}.

(** [connect] up to the wait for the server hello, and the datagram it sends. *)
Definition BluefinClient_connect_start (c : BluefinClient) (dst_addr : SocketAddr) (d : connect_draws)
    (socket : BluefinResult unit) (sent : BluefinResult unit) :
    BluefinResult (Connecting * bytes) * BluefinClient :=
  match socket with
  | Ok _ =>
      match HandshakeHandler_begin (fst (draw_begin d)) (snd (draw_begin d)) (cl_handshake_handler c) with
      | (Ok _, hh) =>
          let src := draw_src_conn_id d in
          let pn := draw_packet_number d in
          let shared := ConnShared_new src Client (u64_add pn 2) in
          let '(existed, entry, h) := register (cl_host c) (src, 0%Z) shared (cl_diag_tx c) in
          let c := with_client c h hh dst_addr in
          if existed then (Err ConnectionAlreadyExists, c)
          else
            ((let? packet := build_empty_encrypted_packet src 0 pn UnencryptedClientHello in
              let? _ := sent in
              Ok ({| cn_src_conn_id := src; cn_packet_number := pn; cn_entry := entry;
                     cn_dst_addr := dst_addr |}, serialise packet))%rust, c)
      | (Err e, hh) => (Err e, with_client c (cl_host c) hh dst_addr)
      | (_, hh) => (Panic, with_client c (cl_host c) hh dst_addr)
      end
  | Err e => (Err e, c)
  | _ => (Panic, c)
  end.

Definition with_client_host (c : BluefinClient) (h : Host) : BluefinClient :=
  {| cl_host := h; cl_socket := cl_socket c; cl_src_addr := cl_src_addr c; cl_dst_addr := cl_dst_addr c;
     cl_num_reader_workers := cl_num_reader_workers c;
     cl_handshake_handler := cl_handshake_handler c; cl_diag_tx := cl_diag_tx c |}.

(** [connect] from the server hello (or the timeout) on. *)
Definition BluefinClient_connect_finish (c : BluefinClient) (cn : Connecting)
    (hello : BluefinResult (BluefinPacket * SocketAddr)) (sent : BluefinResult unit) (socket_ok : bool) :
    BluefinResult (BluefinConnection * bytes) * BluefinClient :=
  match hello with
  | Ok (server_hello, _) =>
      let dst := source_connection_id (header server_hello) in
      let src := cn_src_conn_id cn in
      if (packet_number (header server_hello) =? 0)%Z then (Err UnexpectedPacketNumberError, c)
      else
        match promote (cl_host c) (src, 0%Z) (src, dst) (cn_entry cn) with
        | (Ok _, h) =>
            ((let? packet :=
                build_empty_encrypted_packet src dst (u64_add (cn_packet_number cn) 1) ClientAck in
              let? _ := sent in
              let? conn := BluefinConnection_new src dst (u64_add (cn_packet_number cn) 2)
                             (shared_at (cn_entry cn)) (cn_dst_addr cn) (cl_src_addr c) (cl_diag_tx c) socket_ok in
              Ok (conn, serialise packet))%rust, with_client_host c h)
        | (Err e, h) => (Err e, with_client_host c h)
        | (_, h) => (Panic, with_client_host c h)
        end
  | Err e => (Err e, c)
  | _ => (Panic, c)
  end.

(** ** The server *)

Record BluefinServer : Type := {
  sv_host : Host;
  sv_socket : bool;
  sv_src_addr : SocketAddr;
  sv_num_reader_workers : Z;
  sv_diag_tx : bool;
}.

Definition BluefinServer_new (src_addr : SocketAddr) : BluefinServer :=
  {| sv_host := Host_new PackLeader; sv_socket := false; sv_src_addr := src_addr;
     sv_num_reader_workers := 1; sv_diag_tx := false |}.

Definition BluefinServer_set_num_reader_workers (s : BluefinServer) (n : Z) :
    BluefinResult unit * BluefinServer :=
  if (n =? 0)%Z then (Err (Unexpected "Cannot have zero reader values"), s)
  else
    (Ok tt, {| sv_host := sv_host s; sv_socket := sv_socket s; sv_src_addr := sv_src_addr s;
               sv_num_reader_workers := n; sv_diag_tx := sv_diag_tx s |}).

Definition BluefinServer_set_diagnostics (s : BluefinServer) : BluefinServer :=
  {| sv_host := sv_host s; sv_socket := sv_socket s; sv_src_addr := sv_src_addr s;
     sv_num_reader_workers := sv_num_reader_workers s; sv_diag_tx := true |}.

Definition BluefinServer_bind (s : BluefinServer) (socket : BluefinResult unit) :
    BluefinResult unit * BluefinServer :=
  match socket with
  | Ok _ =>
      (Ok tt, {| sv_host := sv_host s; sv_socket := true; sv_src_addr := sv_src_addr s;
                 sv_num_reader_workers := sv_num_reader_workers s; sv_diag_tx := sv_diag_tx s |})
  | e => (e, s)
  end.

Definition with_server_host (s : BluefinServer) (h : Host) : BluefinServer :=
  {| sv_host := h; sv_socket := sv_socket s; sv_src_addr := sv_src_addr s;
     sv_num_reader_workers := sv_num_reader_workers s; sv_diag_tx := sv_diag_tx s |}.

Record Accepting : Type := {
  ac_src_conn_id : Z;
  ac_packet_number : Z;
  ac_entry : ConnectionManagedBuffers;
}.

(** [accept] up to its first wait: the entry is registered, and either a queued
    hello is taken or the slot is left for the reader. *)
Definition BluefinServer_accept_start (s : BluefinServer) (src pn : Z) :
    BluefinResult (Accepting * option (BluefinPacket * SocketAddr)) * BluefinServer :=
  let shared := ConnShared_new src PackLeader (u64_add pn 1) in
  let '(existed, entry, h) := register (sv_host s) (src, 0%Z) shared (sv_diag_tx s) in
  if existed then (Err ConnectionAlreadyExists, with_server_host s h)
  else
    let '(queued_hello, hs) := take_hello_or_register (hello_state h) src in
    (Ok ({| ac_src_conn_id := src; ac_packet_number := pn; ac_entry := entry |}, queued_hello),
     with_server_host s (with_hello_state h hs)).

Record Accepted : Type := {
  ad_accepting : Accepting;
  ad_dst_conn_id : Z;
  ad_client_packet_num : Z;
  ad_addr : SocketAddr;
}.

(** [accept] from the client hello to the wait for the client ack; a server that
    is not bound panics where it would send. *)
Definition BluefinServer_accept_hello (s : BluefinServer) (ac : Accepting)
    (hello : BluefinPacket * SocketAddr) (sent : BluefinResult unit) :
    BluefinResult (Accepted * bytes) * BluefinServer :=
  let '(packet, addr) := hello in
  let dst := source_connection_id (header packet) in
  let src := ac_src_conn_id ac in
  let client_packet_num := packet_number (header packet) in
  if (client_packet_num =? 0)%Z then (Err UnexpectedPacketNumberError, s)
  else
    match promote (sv_host s) (src, 0%Z) (src, dst) (ac_entry ac) with
    | (Ok _, h) =>
        ((let? packet := build_empty_encrypted_packet src dst (ac_packet_number ac) UnencryptedServerHello in
          let? _ := (if sv_socket s then sent else Panic) in
          Ok ({| ad_accepting := ac; ad_dst_conn_id := dst; ad_client_packet_num := client_packet_num;
                 ad_addr := addr |}, serialise packet))%rust, with_server_host s h)
    | (Err e, h) => (Err e, with_server_host s h)
    | (_, h) => (Panic, with_server_host s h)
    end.

(** [accept] from the client ack (or the timeout) on. *)
Definition BluefinServer_accept_ack (s : BluefinServer) (ad : Accepted)
    (client_ack : BluefinResult (BluefinPacket * SocketAddr)) (socket_ok : bool) :
    BluefinResult BluefinConnection :=
  (let? (ack, _) := client_ack in
   if negb (packet_number (header ack) =? u64_add (ad_client_packet_num ad) 1)%Z then
     Err UnexpectedPacketNumberError
   else
     let ac := ad_accepting ad in
     BluefinConnection_new (ac_src_conn_id ac) (ad_dst_conn_id ad) (u64_add (ac_packet_number ac) 1)
       (shared_at (ac_entry ac)) (ad_addr ad) (sv_src_addr s) (sv_diag_tx s) socket_ok)%rust.

(** A poll of the handshake future of the connection at [loc]. *)
Definition poll_handshake (h : Host) (loc : nat) (cx : Waker) :
    option (Poll (BluefinPacket * SocketAddr) * Host) :=
  match heap h !! loc with
  | None => None
  | Some s =>
      let '(r, cb) := HandshakeConnectionBuffer_poll (conn_buff s) cx in
      Some (r, with_heap h loc (with_conn_buff s cb))
  end.

(** ** The exchange

    A client at [caddr] connects to a server at [saddr].  With [queued] the
    client hello reaches the server before [accept] is called. *)
Definition ok_of {E A : Type} (r : outcome E A) : option A :=
  match r with Ok a => Some a | _ => None end.

Definition ready_of {A : Type} (p : Poll A) : option A :=
  match p with Ready a => Some a | Pending => None end.

(** One datagram at a host's reader worker, then a poll of the handshake
    future of the connection at [loc]. *)
Definition deliver (h : Host) (dg : bytes) (from : SocketAddr) (loc : nat) :
    option ((BluefinPacket * SocketAddr) * Host) :=
  h1 ← fst (ReaderTxChannel_run_round h dg from);
  '(p, h2) ← poll_handshake h1 loc 0;
  r ← ready_of p;
  Some (r, h2).

(** The server's side until the hello is in its hands. *)
Definition server_gets_hello (queued : bool) (s : BluefinServer) (sid ps : Z) (dg : bytes)
    (caddr : SocketAddr) : option (Accepting * (BluefinPacket * SocketAddr) * BluefinServer) :=
  if queued then
    h ← fst (ReaderTxChannel_run_round (sv_host s) dg caddr);
    let '(r, s) := BluefinServer_accept_start (with_server_host s h) sid ps in
    '(ac, q) ← ok_of r;
    hello ← q;
    Some (ac, hello, s)
  else
    let '(r, s) := BluefinServer_accept_start s sid ps in
    '(ac, _) ← ok_of r;
    '(hello, h) ← deliver (sv_host s) dg caddr (shared_at (ac_entry ac));
    Some (ac, hello, with_server_host s h).

Record handshake_result : Type := {
  hr_client : BluefinClient;
  hr_server : BluefinServer;
  hr_client_conn : BluefinConnection;
  hr_server_conn : BluefinConnection;
}.

Definition handshake (queued : bool) (caddr saddr : SocketAddr) (d : connect_draws) (sid ps : Z) :
    option handshake_result :=
  c0 ← ok_of (BluefinClient_new caddr);
  let '(r1, c1) := BluefinClient_connect_start c0 saddr d (Ok tt) (Ok tt) in
  '(cn, client_hello) ← ok_of r1;
  let s0 := snd (BluefinServer_bind (BluefinServer_new saddr) (Ok tt)) in
  '(ac, hello, s1) ← server_gets_hello queued s0 sid ps client_hello caddr;
  let '(r2, s2) := BluefinServer_accept_hello s1 ac hello (Ok tt) in
  '(ad, server_hello) ← ok_of r2;
  '(got, ch) ← deliver (cl_host c1) server_hello saddr (shared_at (cn_entry cn));
  let '(r3, c2) := BluefinClient_connect_finish (with_client_host c1 ch) cn (Ok got) (Ok tt) true in
  '(cconn, client_ack) ← ok_of r3;
  '(got_ack, sh) ← deliver (sv_host s2) client_ack caddr (shared_at (ac_entry ac));
  sconn ← ok_of (BluefinServer_accept_ack (with_server_host s2 sh) ad (Ok got_ack) true);
  Some {| hr_client := c2; hr_server := with_server_host s2 sh;
          hr_client_conn := cconn; hr_server_conn := sconn |}.

(** The first packet number the host expects on the connection. *)
Definition expects (h : Host) (conn : BluefinConnection) : option Z :=
  s ← heap h !! bc_shared conn;
  Some (smallest_packet_number (ordered_bytes (conn_buff s))).

(** The first acknowledgement the host expects. *)
Definition expects_ack (h : Host) (conn : BluefinConnection) : option Z :=
  s ← heap h !! bc_shared conn;
  Some (smallest_expected_packet_number (received_acks (ack_buff s))).

Section Exchange.
Context (caddr saddr : SocketAddr) (b1 b2 cid pc sid ps : Z).
Hypothesis Hcid : (0 < cid < 2 ^ 32)%Z.
Hypothesis Hsid : (0 < sid < 2 ^ 32)%Z.
Hypothesis Hpc : (0 < pc < 2 ^ 64 - 3)%Z.
Hypothesis Hps : (0 < ps < 2 ^ 64 - 3)%Z.

Let draws : connect_draws :=
  {| draw_begin := (b1, b2); draw_src_conn_id := cid; draw_packet_number := pc |}.

Lemma empty_packet_framed src dst pn t :
  (0 <= src < 2 ^ 32)%Z -> (0 <= dst < 2 ^ 32)%Z -> (0 <= pn < 2 ^ 64)%Z -> t <> UnencryptedData ->
  framed (empty_packet src dst pn t).
Proof.
  intros Hs Hd Hp Ht. unfold framed, wf_header, wf_security, empty_packet. cbn.
  split_and!; try int_lia; [done|by destruct t].
Qed.

(** A header-only packet in its own datagram reaches the routing as it is. *)
Lemma run_round_empty h src dst pn t addr :
  (0 <= src < 2 ^ 32)%Z -> (0 <= dst < 2 ^ 32)%Z -> (0 <= pn < 2 ^ 64)%Z -> t <> UnencryptedData ->
  ReaderTxChannel_run_round h (BluefinPacket_serialise (empty_packet src dst pn t)) addr =
    ReaderTxChannel_handle_packets h [empty_packet src dst pn t] addr.
Proof.
  intros Hs Hd Hp Ht. unfold ReaderTxChannel_run_round.
  assert (Hdg : BluefinPacket_serialise (empty_packet src dst pn t) = datagram [empty_packet src dst pn t]).
  { unfold datagram. cbn [map concat]. by rewrite app_nil_r. }
  rewrite Hdg, from_bytes_into_datagram; [done|done| |].
  - constructor; [by apply empty_packet_framed|constructor].
  - intros p [= <-] [He _]. done.
Qed.

(** ** The client *)

Definition client0 : BluefinClient :=
  {| cl_host := Host_new Client; cl_socket := false; cl_src_addr := caddr; cl_dst_addr := None;
     cl_num_reader_workers := 1;
     cl_handshake_handler := {| hh_state := ClientStart; hh_pending_accepts := []; hh_transmit_queue := [] |};
     cl_diag_tx := false |}.

Definition entry0 : ConnectionManagedBuffers := {| shared_at := 0; fin_ack_tx := false; diag_tx := false |}.

(** The client once its hello is out. *)
Definition client_host1 : Host :=
  {| host_type := Client; conn_manager := {[ (cid, 0%Z) := entry0 ]}; hello_state := HelloState_new;
     heap := {[ 0 := ConnShared_new cid Client (u64_add pc 2) ]}; next_loc := 1 |}.

Lemma connect_start_ok :
  exists c1, BluefinClient_connect_start client0 saddr draws (Ok tt) (Ok tt) =
    (Ok ({| cn_src_conn_id := cid; cn_packet_number := pc; cn_entry := entry0; cn_dst_addr := saddr |},
         BluefinPacket_serialise (empty_packet cid 0 pc UnencryptedClientHello)), c1) /\
    cl_host c1 = client_host1 /\ cl_src_addr c1 = caddr /\ cl_diag_tx c1 = false.
Proof. eexists. split; [reflexivity|]. split; [reflexivity|done]. Qed.

(** The connection buffer after the handshake packet [p] from [addr]. *)
Definition hello_buffered (cb : ConnectionBuffer) (p : BluefinPacket) (addr : SocketAddr) : ConnectionBuffer :=
  ConnectionBuffer_set_dst_conn_id
    (snd (ConnectionBuffer_buffer_in_addr (snd (ConnectionBuffer_buffer_in_packet cb p)) addr))
    (source_connection_id (header p)).

(** A handshake packet for a connection that is waiting for one reaches the
    task that waits. *)
Lemma deliver_handshake h h' p addr loc key s is_hello entry :
  route h p 1 addr = Ok (Some (is_hello, key), h') ->
  is_hello = true \/ is_client_ack_packet (host_type h') p = true ->
  conn_manager h' !! key = Some entry -> shared_at entry = loc -> heap h' !! loc = Some s ->
  cb_packet (conn_buff s) = None ->
  (match cb_addr (conn_buff s) with Some a => a = addr | None => True end) ->
  exists cb' evs,
    ReaderTxChannel_handle_packets h [p] addr =
      (Some (with_heap h' loc (with_conn_buff s (hello_buffered (conn_buff s) p addr))), evs) /\
    poll_handshake (with_heap h' loc (with_conn_buff s (hello_buffered (conn_buff s) p addr))) loc 0 =
      Some (Ready (p, addr),
            with_heap (with_heap h' loc (with_conn_buff s (hello_buffered (conn_buff s) p addr))) loc
              (with_conn_buff s cb')) /\
    cb' = with_packet (hello_buffered (conn_buff s) p addr) None.
Proof.
  intros Hroute Hkind Hkey Hloc Hheap Hp Ha.
  assert (Hneg : negb is_hello && negb (is_client_ack_packet (host_type h') p) = false).
  { destruct Hkind as [->| ->]; [done|]. by destruct is_hello. }
  assert (Hbuf : exists evs, buffer_all is_hello (host_type h') [p] addr s =
    (Some (with_conn_buff s (hello_buffered (conn_buff s) p addr)), evs)).
  { cbn [buffer_all]. unfold ReaderTxChannel_buffer_in_data.
    replace (negb (is_client_ack_packet (host_type h') p) && negb is_hello &&
             bool_decide (type_field (header p) = Ack)) with false
      by (rewrite (andb_comm (negb (is_client_ack_packet _ _))), Hneg; done).
    unfold ReaderTxChannel_buffer_to_conn_buffer. rewrite Hneg.
    unfold hello_buffered, ConnectionBuffer_buffer_in_packet. rewrite Hp. cbn [with_packet set_start_packet_number].
    destruct (set_start_packet_number (conn_buff s)); cbn [negb snd];
      match goal with |- context [cb_waker ?x] => destruct (cb_waker x) end; eauto. }
  destruct Hbuf as [evs Hbuf].
  do 2 eexists. split; [|split; [|reflexivity]].
  - unfold ReaderTxChannel_handle_packets. cbn [length]. rewrite Hroute, Hkey, Hloc, Hheap, Hbuf. done.
  - unfold poll_handshake. cbn [with_heap heap]. rewrite lookup_insert_eq.
    unfold HandshakeConnectionBuffer_poll. cbn [conn_buff with_conn_buff].
    assert (Hpk : cb_packet (hello_buffered (conn_buff s) p addr) = Some p /\
                  cb_addr (hello_buffered (conn_buff s) p addr) = Some addr).
    { unfold hello_buffered, ConnectionBuffer_buffer_in_packet. rewrite Hp. cbn [with_packet set_start_packet_number].
      destruct (set_start_packet_number (conn_buff s)); unfold ConnectionBuffer_buffer_in_addr; cbn;
        destruct (cb_addr (conn_buff s)) eqn:Hca; cbn; rewrite ?Hca; subst; done. }
    destruct Hpk as [-> Hpa]. cbn [with_packet cb_addr]. rewrite Hpa. done.
Qed.

Lemma deliver_ok h h' src dst pn t addr loc key s is_hello entry :
  let p := empty_packet src dst pn t in
  (0 <= src < 2 ^ 32)%Z -> (0 <= dst < 2 ^ 32)%Z -> (0 <= pn < 2 ^ 64)%Z -> t <> UnencryptedData ->
  route h p 1 addr = Ok (Some (is_hello, key), h') ->
  is_hello = true \/ is_client_ack_packet (host_type h') p = true ->
  conn_manager h' !! key = Some entry -> shared_at entry = loc -> heap h' !! loc = Some s ->
  cb_packet (conn_buff s) = None ->
  (match cb_addr (conn_buff s) with Some a => a = addr | None => True end) ->
  exists h'', deliver h (BluefinPacket_serialise p) addr loc = Some ((p, addr), h'') /\
    host_type h'' = host_type h' /\ conn_manager h'' = conn_manager h' /\ hello_state h'' = hello_state h' /\
    heap h'' !! loc = Some (with_conn_buff s (with_packet (hello_buffered (conn_buff s) p addr) None)).
Proof.
  intros p Hs Hd Hn Ht Hroute Hkind Hkey Hloc Hheap Hp Ha.
  destruct (deliver_handshake h h' p addr loc key s is_hello entry Hroute Hkind Hkey Hloc Hheap Hp Ha)
    as (cb' & evs & H1 & H2 & ->).
  unfold deliver, p. rewrite run_round_empty by done. fold p. rewrite H1. cbn [fst mbind option_bind].
  rewrite H2. cbn [mbind option_bind ready_of]. eexists. split; [reflexivity|].
  cbn [with_heap host_type conn_manager hello_state heap]. split_and!; [done..|]. apply lookup_insert_eq.
Qed.

(** ** The server *)

Definition server0 : BluefinServer :=
  {| sv_host := Host_new PackLeader; sv_socket := true; sv_src_addr := saddr;
     sv_num_reader_workers := 1; sv_diag_tx := false |}.

Definition server_shared0 : ConnShared := ConnShared_new sid PackLeader (u64_add ps 1).

Definition client_hello : BluefinPacket := empty_packet cid 0 pc UnencryptedClientHello.
Definition server_hello : BluefinPacket := empty_packet sid cid ps UnencryptedServerHello.
Definition client_ack : BluefinPacket := empty_packet cid sid (u64_add pc 1) ClientAck.

Lemma client_hello_is_hello : is_hello_packet PackLeader client_hello = true.
Proof using Hcid. apply is_hello_server. simpl. split_and!; [done|lia|done]. Qed.

Lemma server_hello_is_hello : is_hello_packet Client server_hello = true.
Proof using Hcid Hsid. apply is_hello_client. simpl. split_and!; [done|lia|lia]. Qed.

Lemma client_ack_is_ack :
  is_client_ack_packet PackLeader client_ack = true /\ is_hello_packet PackLeader client_ack = false.
Proof using Hcid Hsid.
  split; [|by vm_compute]. unfold is_client_ack_packet. rewrite decide_True; [done|]. simpl. split_and!; (done || lia).
Qed.

(** What the server has when it turns to the hello: an entry under the hello
    key, no slot left and nothing queued, and the connection's buffer. *)
Record server_ready (s : BluefinServer) (ac : Accepting) (cb : ConnectionBuffer) : Prop := {
  sr_type : host_type (sv_host s) = PackLeader;
  sr_manager : conn_manager (sv_host s) = {[ (sid, 0%Z) := entry0 ]};
  sr_hello : hello_state (sv_host s) = HelloState_new;
  sr_heap : heap (sv_host s) !! 0 = Some (with_conn_buff server_shared0 cb);
  sr_src : sv_src_addr s = saddr /\ sv_diag_tx s = false /\ sv_socket s = true;
  sr_ac : ac = {| ac_src_conn_id := sid; ac_packet_number := ps; ac_entry := entry0 |};
}.

Lemma server_routed_hello :
  exists ac s1,
    server_gets_hello false server0 sid ps (BluefinPacket_serialise client_hello) caddr =
      Some (ac, (client_hello, caddr), s1) /\
    server_ready s1 ac
      (with_packet (hello_buffered (ConnectionBuffer_new sid PackLeader) client_hello caddr) None).
Proof using Hcid Hpc.
  unfold server_gets_hello.
  set (s := snd (BluefinServer_accept_start server0 sid ps)).
  set (ac := {| ac_src_conn_id := sid; ac_packet_number := ps; ac_entry := entry0 |}).
  assert (Hst : BluefinServer_accept_start server0 sid ps = (Ok (ac, None), s)) by reflexivity.
  rewrite Hst. cbn [ok_of mbind option_bind].
  destruct (deliver_ok (sv_host s) (with_hello_state (sv_host s) HelloState_new) cid 0 pc UnencryptedClientHello
              caddr 0 (sid, 0%Z) server_shared0 true entry0) as (h'' & Hdl & H1 & H2 & H3 & H4);
    [lia|lia|lia|done| |by left|apply lookup_insert_eq|done|apply lookup_insert_eq|done|done|].
  { unfold route. cbn [decide]. rewrite decide_True by done.
    unfold ReaderTxChannel_handle_hello_single.
    change (host_type (sv_host s)) with PackLeader. fold client_hello. rewrite client_hello_is_hello. reflexivity. }
  cbn [ac_entry ac shared_at entry0]. fold client_hello in Hdl, H4.
  rewrite Hdl. cbn [mbind option_bind]. do 2 eexists. split; [reflexivity|].
  split; cbn [sv_host with_server_host]; [done|by rewrite H2|by rewrite H3|done|done|done].
Qed.

Lemma server_queued_hello :
  exists ac s1,
    server_gets_hello true server0 sid ps (BluefinPacket_serialise client_hello) caddr =
      Some (ac, (client_hello, caddr), s1) /\
    server_ready s1 ac (ConnectionBuffer_new sid PackLeader).
Proof using Hcid Hpc.
  unfold server_gets_hello. unfold client_hello. rewrite run_round_empty by (done || lia). fold client_hello.
  assert (Hq : fst (ReaderTxChannel_handle_packets (sv_host server0) [client_hello] caddr) =
    Some (with_hello_state (Host_new PackLeader)
            {| pending_accept_ids := []; hello_queue := [(client_hello, caddr)] |})).
  { unfold ReaderTxChannel_handle_packets, route. cbn [length]. rewrite decide_True by done.
    unfold ReaderTxChannel_handle_hello_single.
    change (host_type (sv_host server0)) with PackLeader.
    rewrite client_hello_is_hello. reflexivity. }
  rewrite Hq. cbn [mbind option_bind]. do 2 eexists. split; [reflexivity|].
  split; cbn; [done|done|done|apply lookup_insert_eq|done|done].
Qed.

(** Moving the entry from the hello key to the connection's key. *)
Lemma promote_ok h id peer entry :
  conn_manager h = {[ (id, 0%Z) := entry ]} -> peer <> 0%Z ->
  promote h (id, 0%Z) (id, peer) entry = (Ok tt, with_conn_manager h {[ (id, peer) := entry ]}).
Proof.
  intros Hm Hpeer. unfold promote. rewrite Hm, lookup_singleton_eq, delete_singleton_eq, lookup_empty. done.
Qed.

(** The server answers the hello. *)
Lemma server_sends_hello s1 ac cb :
  server_ready s1 ac cb ->
  BluefinServer_accept_hello s1 ac (client_hello, caddr) (Ok tt) =
    (Ok ({| ad_accepting := ac; ad_dst_conn_id := cid; ad_client_packet_num := pc; ad_addr := caddr |},
         BluefinPacket_serialise server_hello),
     with_server_host s1 (with_conn_manager (sv_host s1) {[ (sid, cid) := entry0 ]})).
Proof using Hcid Hpc.
  intros [_ Hm _ _ (_ & _ & Hso) ->]. unfold BluefinServer_accept_hello.
  cbn [client_hello empty_packet header packet_number BluefinHeader_with_packet_number source_connection_id
       BluefinHeader_new ac_src_conn_id ac_entry].
  rewrite (proj2 (Z.eqb_neq pc 0)) by lia. rewrite promote_ok by (done || lia). rewrite Hso. reflexivity.
Qed.

(** The client gets the server's hello. *)
Lemma client_gets_hello :
  exists ch, deliver client_host1 (BluefinPacket_serialise server_hello) saddr 0 = Some ((server_hello, saddr), ch) /\
    conn_manager ch = {[ (cid, 0%Z) := entry0 ]} /\
    heap ch !! 0 =
      Some (with_conn_buff (ConnShared_new cid Client (u64_add pc 2))
              (with_packet (hello_buffered (ConnectionBuffer_new cid Client) server_hello saddr) None)).
Proof using Hcid Hsid Hps.
  destruct (deliver_ok client_host1 client_host1 sid cid ps UnencryptedServerHello saddr 0 (cid, 0%Z)
              (ConnShared_new cid Client (u64_add pc 2)) true entry0) as (ch & Hd & _ & Hm & _ & Hheap);
    [lia|lia|lia|done| |by left|apply lookup_singleton_eq|done|apply lookup_singleton_eq|done|done|eauto].
  unfold route. rewrite decide_True by done. unfold ReaderTxChannel_handle_hello_single.
  change (host_type client_host1) with Client. fold server_hello. rewrite server_hello_is_hello. reflexivity.
Qed.

(** The client sends its ack and has its connection. *)
Lemma client_finishes c ch :
  conn_manager ch = {[ (cid, 0%Z) := entry0 ]} ->
  exists cconn c2,
    BluefinClient_connect_finish (with_client_host c ch)
      {| cn_src_conn_id := cid; cn_packet_number := pc; cn_entry := entry0; cn_dst_addr := saddr |}
      (Ok (server_hello, saddr)) (Ok tt) true = (Ok (cconn, BluefinPacket_serialise client_ack), c2) /\
    ok_of (BluefinConnection_new cid sid (u64_add pc 2) 0 saddr (cl_src_addr c) (cl_diag_tx c) true) = Some cconn /\
    cl_host c2 = with_conn_manager ch {[ (cid, sid) := entry0 ]}.
Proof using Hsid Hps.
  intros Hm. unfold BluefinClient_connect_finish.
  cbn [server_hello empty_packet header packet_number BluefinHeader_with_packet_number source_connection_id
       BluefinHeader_new cn_src_conn_id cn_entry with_client_host cl_host].
  rewrite (proj2 (Z.eqb_neq ps 0)) by lia. rewrite promote_ok by (lia || exact Hm).
  do 2 eexists. split; [reflexivity|]. split; reflexivity.
Qed.

(** The server gets the client's ack. *)
Lemma server_gets_ack h cb :
  host_type h = PackLeader -> conn_manager h = {[ (sid, cid) := entry0 ]} -> hello_state h = HelloState_new ->
  heap h !! 0 = Some (with_conn_buff server_shared0 cb) -> cb_packet cb = None ->
  (match cb_addr cb with Some a => a = caddr | None => True end) ->
  exists sh, deliver h (BluefinPacket_serialise client_ack) caddr 0 = Some ((client_ack, caddr), sh) /\
    conn_manager sh = {[ (sid, cid) := entry0 ]} /\
    heap sh !! 0 = Some (with_conn_buff server_shared0 (with_packet (hello_buffered cb client_ack caddr) None)).
Proof using Hcid Hsid Hpc.
  intros Ht Hm Hh Hheap Hp Ha. pose proof client_ack_is_ack as [Hack Hnh].
  assert (Hpc1 : u64_add pc 1 = (pc + 1)%Z) by (apply u64_add_small; int_lia).
  destruct (deliver_ok h h cid sid (u64_add pc 1) ClientAck caddr 0 (sid, cid)
              (with_conn_buff server_shared0 cb) false entry0) as (sh & Hd & _ & Hm2 & _ & Hheap2);
    [lia|lia|lia|done| |right; by rewrite Ht|by rewrite Hm, lookup_singleton_eq|done|done|exact Hp|exact Ha|].
  - unfold route. rewrite decide_True by done. unfold ReaderTxChannel_handle_hello_single. fold client_ack.
    rewrite Ht, Hnh. cbn [negb outcome_bind]. unfold with_hello_state. rewrite Hh, Ht.
    destruct h. cbn in *. by subst.
  - exists sh. rewrite Hm in Hm2. done.
Qed.

(** The rest of the exchange, once the server has the hello. *)
Lemma exchange_rest c1 cn s1 ac cb :
  cl_host c1 = client_host1 -> cl_src_addr c1 = caddr -> cl_diag_tx c1 = false ->
  cn = {| cn_src_conn_id := cid; cn_packet_number := pc; cn_entry := entry0; cn_dst_addr := saddr |} ->
  server_ready s1 ac cb -> cb_packet cb = None ->
  (match cb_addr cb with Some a => a = caddr | None => True end) ->
  exists s2 ad ch c2 cconn sh sconn,
    BluefinServer_accept_hello s1 ac (client_hello, caddr) (Ok tt) =
      (Ok (ad, BluefinPacket_serialise server_hello), s2) /\
    deliver (cl_host c1) (BluefinPacket_serialise server_hello) saddr 0 = Some ((server_hello, saddr), ch) /\
    BluefinClient_connect_finish (with_client_host c1 ch) cn (Ok (server_hello, saddr)) (Ok tt) true =
      (Ok (cconn, BluefinPacket_serialise client_ack), c2) /\
    deliver (sv_host s2) (BluefinPacket_serialise client_ack) caddr 0 = Some ((client_ack, caddr), sh) /\
    ok_of (BluefinServer_accept_ack (with_server_host s2 sh) ad (Ok (client_ack, caddr)) true) = Some sconn /\
    conn_manager (cl_host c2) = {[ (cid, sid) := entry0 ]} /\
    conn_manager sh = {[ (sid, cid) := entry0 ]} /\
    heap (cl_host c2) !! 0 =
      Some (with_conn_buff (ConnShared_new cid Client (u64_add pc 2))
              (with_packet (hello_buffered (ConnectionBuffer_new cid Client) server_hello saddr) None)) /\
    heap sh !! 0 = Some (with_conn_buff server_shared0 (with_packet (hello_buffered cb client_ack caddr) None)) /\
    ok_of (BluefinConnection_new cid sid (u64_add pc 2) 0 saddr caddr false true) = Some cconn /\
    ok_of (BluefinConnection_new sid cid (u64_add ps 1) 0 caddr saddr false true) = Some sconn.
Proof using Hcid Hsid Hpc Hps.
  intros Hch Hca Hcd -> Hready Hp Ha.
  pose proof (server_sends_hello s1 ac cb Hready) as Hacc.
  destruct client_gets_hello as (ch & Hd1 & Hm1 & Hheap1).
  destruct (client_finishes c1 ch Hm1) as (cconn & c2 & Hfin & Hcc & Hc2).
  set (s2 := with_server_host _ _) in Hacc. set (ad := {| ad_accepting := ac |}) in Hacc.
  destruct Hready as [Ht Hm Hh Hheap (Hsa & Hsd & _) ->].
  destruct (server_gets_ack (sv_host s2) cb Ht eq_refl Hh Hheap Hp Ha) as (sh & Hd2 & Hm2 & Hheap2).
  assert (Hsc : exists sconn,
    ok_of (BluefinServer_accept_ack (with_server_host s2 sh) ad (Ok (client_ack, caddr)) true) = Some sconn /\
    ok_of (BluefinConnection_new sid cid (u64_add ps 1) 0 caddr saddr false true) = Some sconn).
  { rewrite <- Hsa, <- Hsd. unfold BluefinServer_accept_ack. cbn [outcome_bind].
    change (packet_number (header client_ack)) with (u64_add (ad_client_packet_num ad) 1).
    rewrite Z.eqb_refl. eexists. split; reflexivity. }
  destruct Hsc as (sconn & Hsc & Hsc'). rewrite Hca, Hcd in Hcc. rewrite Hch.
  exists s2, ad, ch, c2, cconn, sh, sconn.
  split_and!; [exact Hacc|exact Hd1|exact Hfin|exact Hd2|exact Hsc|by rewrite Hc2|exact Hm2|
               by rewrite Hc2|exact Hheap2|exact Hcc|exact Hsc'].
Qed.

(** What both ends agree on after the exchange, and the first number the
    server takes for data. *)
Definition established (r : handshake_result) (server_start : Z) : Prop :=
  let c := hr_client_conn r in
  let s := hr_server_conn r in
  bc_src_conn_id c = cid /\ bc_dst_conn_id c = sid /\ bc_dst_addr c = saddr /\
  bc_src_conn_id s = sid /\ bc_dst_conn_id s = cid /\ bc_dst_addr s = caddr /\
  conn_manager (cl_host (hr_client r)) = {[ (cid, sid) := entry0 ]} /\
  conn_manager (sv_host (hr_server r)) = {[ (sid, cid) := entry0 ]} /\
  bc_shared c = 0 /\ bc_shared s = 0 /\
  wh_next_packet_num (bc_writer c) = (pc + 2)%Z /\ wh_next_packet_num (bc_writer s) = (ps + 1)%Z /\
  expects (cl_host (hr_client r)) c = Some (ps + 1)%Z /\
  expects_ack (cl_host (hr_client r)) c = Some (pc + 2)%Z /\
  expects (sv_host (hr_server r)) s = Some server_start /\
  expects_ack (sv_host (hr_server r)) s = Some (ps + 1)%Z.

(** Where a buffer that has not seen a handshake packet starts, and that one
    that has keeps its start. *)
Lemma hello_buffered_start cb p addr :
  cb_packet cb = None ->
  smallest_packet_number (ordered_bytes (with_packet (hello_buffered cb p addr) None)) =
    (if set_start_packet_number cb then smallest_packet_number (ordered_bytes cb)
     else match cb_host_type cb with
          | PackLeader => u64_add (packet_number (header p)) 2
          | Client => u64_add (packet_number (header p)) 1
          | PackFollower => smallest_packet_number (ordered_bytes cb)
          end).
Proof.
  intros Hp. unfold hello_buffered, ConnectionBuffer_buffer_in_packet. rewrite Hp.
  cbn [with_packet set_start_packet_number].
  destruct (set_start_packet_number cb); unfold ConnectionBuffer_buffer_in_addr; cbn;
    destruct (cb_addr cb); cbn; try done; by destruct (cb_host_type cb).
Qed.

(** The outcome of the exchange, with the shared parts of both connections. *)
Lemma exchange_run queued cb :
  (exists ac s1,
    server_gets_hello queued server0 sid ps (BluefinPacket_serialise client_hello) caddr =
      Some (ac, (client_hello, caddr), s1) /\ server_ready s1 ac cb) ->
  cb_packet cb = None ->
  (match cb_addr cb with Some a => a = caddr | None => True end) ->
  exists r, handshake queued caddr saddr draws sid ps = Some r /\
    conn_manager (cl_host (hr_client r)) = {[ (cid, sid) := entry0 ]} /\
    conn_manager (sv_host (hr_server r)) = {[ (sid, cid) := entry0 ]} /\
    heap (cl_host (hr_client r)) !! 0 =
      Some (with_conn_buff (ConnShared_new cid Client (u64_add pc 2))
              (with_packet (hello_buffered (ConnectionBuffer_new cid Client) server_hello saddr) None)) /\
    heap (sv_host (hr_server r)) !! 0 =
      Some (with_conn_buff server_shared0 (with_packet (hello_buffered cb client_ack caddr) None)) /\
    ok_of (BluefinConnection_new cid sid (u64_add pc 2) 0 saddr caddr false true) = Some (hr_client_conn r) /\
    ok_of (BluefinConnection_new sid cid (u64_add ps 1) 0 caddr saddr false true) = Some (hr_server_conn r).
Proof using Hcid Hsid Hpc Hps.
  intros (ac & s1 & Hgets & Hready) Hp Ha.
  destruct connect_start_ok as (c1 & Hstart & Hch & Hca & Hcd).
  destruct (exchange_rest c1 _ s1 ac cb Hch Hca Hcd eq_refl Hready Hp Ha)
    as (s2 & ad & ch & c2 & cconn & sh & sconn & Hacc & Hd1 & Hfin & Hd2 & Hsc & Hm1 & Hm2 & Hh1 & Hh2 & Hc & Hs).
  assert (Hac : ac_entry ac = entry0) by (by rewrite (sr_ac _ _ _ Hready)).
  exists {| hr_client := c2; hr_server := with_server_host s2 sh; hr_client_conn := cconn; hr_server_conn := sconn |}.
  split; [|split_and!; done].
  unfold handshake. change (ok_of (BluefinClient_new caddr)) with (Some client0). cbn [mbind option_bind].
  rewrite Hstart. cbn [ok_of mbind option_bind]. fold client_hello.
  change (snd (BluefinServer_bind (BluefinServer_new saddr) (Ok tt))) with server0. rewrite Hgets. cbn [mbind option_bind].
  rewrite Hacc. cbn [ok_of mbind option_bind cn_entry shared_at entry0]. rewrite Hd1. cbn [mbind option_bind].
  rewrite Hfin. cbn [ok_of mbind option_bind]. rewrite Hac. cbn [shared_at entry0]. rewrite Hd2.
  cbn [mbind option_bind]. rewrite Hsc. reflexivity.
Qed.

Lemma exchange queued cb :
  (exists ac s1,
    server_gets_hello queued server0 sid ps (BluefinPacket_serialise client_hello) caddr =
      Some (ac, (client_hello, caddr), s1) /\ server_ready s1 ac cb) ->
  cb_packet cb = None ->
  (match cb_addr cb with Some a => a = caddr | None => True end) ->
  exists r, handshake queued caddr saddr draws sid ps = Some r /\
    established r (smallest_packet_number
                     (ordered_bytes (with_packet (hello_buffered cb client_ack caddr) None))).
Proof using Hcid Hsid Hpc Hps.
  intros Hgets Hp Ha. destruct (exchange_run queued cb Hgets Hp Ha) as (r & Hr & Hm1 & Hm2 & Hh1 & Hh2 & Hc & Hs).
  exists r. split; [done|]. injection Hc as Hc. injection Hs as Hs.
  unfold established, expects, expects_ack. rewrite <- Hc, <- Hs, Hm1, Hm2.
  cbn [bc_shared bc_src_conn_id bc_dst_conn_id bc_dst_addr bc_writer]. rewrite Hh1, Hh2.
  cbn [mbind option_bind wh_next_packet_num WriterHandler_start WriterHandler_new conn_buff with_conn_buff ack_buff
       ConnShared_new AckBuffer_new received_acks SlidingWindow_new smallest_expected_packet_number
       set_start_packet_number cb_host_type server_shared0].
  rewrite (hello_buffered_start (ConnectionBuffer_new cid Client) server_hello) by done.
  cbn [ConnectionBuffer_new set_start_packet_number cb_host_type].
  change (packet_number (header server_hello)) with ps.
  rewrite !u64_add_small by int_lia. split_and!; done.
Qed.

Lemma exchange_routed : exists r,
  handshake false caddr saddr draws sid ps = Some r /\ established r (pc + 2)%Z.
Proof using Hcid Hsid Hpc Hps.
  destruct (exchange false _ server_routed_hello) as (r & Hr & He); [done|done|].
  exists r. split; [done|]. rewrite hello_buffered_start in He by done.
  replace (pc + 2)%Z with (u64_add pc 2) by (apply u64_add_small; int_lia). exact He.
Qed.

Lemma exchange_queued : exists r,
  handshake true caddr saddr draws sid ps = Some r /\ established r (pc + 3)%Z.
Proof using Hcid Hsid Hpc Hps.
  destruct (exchange true _ server_queued_hello) as (r & Hr & He); [done|done|].
  exists r. split; [done|]. rewrite hello_buffered_start in He by done.
  replace (pc + 3)%Z with (u64_add (u64_add pc 1) 2); [exact He|].
  rewrite (u64_add_small pc 1) by int_lia. rewrite u64_add_small by int_lia. lia.
Qed.
End Exchange.

(** ** Properties *)

(** C9: the handshake on both branches of [accept]: the client hello reaches an
    [accept] that waits, or was queued before it was called.  Both ends return a
    connection with mirrored ids and each other's address, each host has exactly
    the entry of that connection (the hello entries are gone), and the numbers
    agree but for one: the first data number the server sends is the first the
    client takes, each end expects its first acknowledgement for the first data
    number it sends, and the server takes data from the first number the client
    sends when the hello was not queued, and from the number after it, one too
    high, when it was. *)
Theorem handshake_establishes queued caddr saddr b1 b2 cid pc sid ps :
  (0 < cid < 2 ^ 32)%Z -> (0 < sid < 2 ^ 32)%Z -> (0 < pc < 2 ^ 64 - 3)%Z -> (0 < ps < 2 ^ 64 - 3)%Z ->
  exists r,
    handshake queued caddr saddr
      {| draw_begin := (b1, b2); draw_src_conn_id := cid; draw_packet_number := pc |} sid ps = Some r /\
    let c := hr_client_conn r in
    let s := hr_server_conn r in
    bc_src_conn_id c = cid /\ bc_dst_conn_id c = sid /\ bc_dst_addr c = saddr /\
    bc_src_conn_id s = sid /\ bc_dst_conn_id s = cid /\ bc_dst_addr s = caddr /\
    dom (conn_manager (cl_host (hr_client r))) = {[ (cid, sid) ]} /\
    dom (conn_manager (sv_host (hr_server r))) = {[ (sid, cid) ]} /\
    expects (sv_host (hr_server r)) s = Some (wh_next_packet_num (bc_writer c) + if queued then 1 else 0)%Z /\
    expects (cl_host (hr_client r)) c = Some (wh_next_packet_num (bc_writer s)) /\
    expects_ack (cl_host (hr_client r)) c = Some (wh_next_packet_num (bc_writer c)) /\
    expects_ack (sv_host (hr_server r)) s = Some (wh_next_packet_num (bc_writer s)).
Proof.
  intros Hc Hs Hpc Hps.
  assert (He : exists r, handshake queued caddr saddr
      {| draw_begin := (b1, b2); draw_src_conn_id := cid; draw_packet_number := pc |} sid ps = Some r /\
    established caddr saddr cid pc sid ps r (pc + 2 + if queued then 1 else 0)%Z).
  { destruct queued.
    - replace (pc + 2 + 1)%Z with (pc + 3)%Z by lia. by apply exchange_queued.
    - replace (pc + 2 + 0)%Z with (pc + 2)%Z by lia. by apply exchange_routed. }
  destruct He as (r & Hr & He). exists r. split; [exact Hr|]. cbv zeta. unfold established in He.
  destruct He as (? & ? & ? & ? & ? & ? & Hm1 & Hm2 & _ & _ & Hn1 & Hn2 & ? & ? & ? & ?).
  rewrite Hm1, Hm2, Hn1, Hn2, !dom_singleton_L. split_and!; done.
Qed.

Lemma handshake_establishes_witness :
  exists r,
    handshake false (1, 80)%Z (2, 81)%Z {| draw_begin := (5, 6)%Z; draw_src_conn_id := 7; draw_packet_number := 100 |} 9 500 = Some r /\
    bc_dst_conn_id (hr_client_conn r) = 9%Z /\
    expects (sv_host (hr_server r)) (hr_server_conn r) = Some (wh_next_packet_num (bc_writer (hr_client_conn r))).
Proof.
  destruct (handshake_establishes false (1, 80)%Z (2, 81)%Z 5 6 7 100 9 500) as (r & Hr & He); [lia|lia|lia|lia|].
  exists r. split; [exact Hr|]. destruct He as (_ & ? & _ & _ & _ & _ & _ & _ & He & _). split; [assumption|].
  rewrite Z.add_0_r in He. exact He.
Defined.

(** A client hello that arrives before [accept] is called completes the
    handshake too, but the server's buffer first sees the client ack, so it
    starts one number too high: the client's first data packet is refused and
    leaves the buffer as it is. *)
Theorem queued_hello_refuses_first_data caddr saddr b1 b2 cid pc sid ps :
  (0 < cid < 2 ^ 32)%Z -> (0 < sid < 2 ^ 32)%Z -> (0 < pc < 2 ^ 64 - 3)%Z -> (0 < ps < 2 ^ 64 - 3)%Z ->
  exists r,
    handshake true caddr saddr
      {| draw_begin := (b1, b2); draw_src_conn_id := cid; draw_packet_number := pc |} sid ps = Some r /\
    expects (sv_host (hr_server r)) (hr_server_conn r) =
      Some (wh_next_packet_num (bc_writer (hr_client_conn r)) + 1)%Z /\
    forall sh p,
      heap (sv_host (hr_server r)) !! bc_shared (hr_server_conn r) = Some sh ->
      packet_number (header p) = wh_next_packet_num (bc_writer (hr_client_conn r)) ->
      fst (ConnectionBuffer_buffer_in_bytes (conn_buff sh) p) = Err UnexpectedPacketNumberError /\
      ordered_bytes (snd (ConnectionBuffer_buffer_in_bytes (conn_buff sh) p)) = ordered_bytes (conn_buff sh).
Proof.
  intros Hc Hs Hpc Hps.
  destruct (exchange_queued caddr saddr b1 b2 cid pc sid ps Hc Hs Hpc Hps) as (r & Hr & He).
  exists r. split; [exact Hr|].
  destruct He as (_ & _ & _ & _ & _ & _ & _ & _ & _ & _ & Hn1 & _ & _ & _ & He & _).
  rewrite Hn1. split; [rewrite He; f_equal; lia|].
  intros sh p Hsh Hp. unfold expects in He. rewrite Hsh in He. injection He as He.
  unfold ConnectionBuffer_buffer_in_bytes, OrderedBytes_buffer_in_packet.
  rewrite Hp, He, (proj2 (Z.ltb_lt _ _)) by lia. done.
Qed.

Lemma queued_hello_refuses_first_data_witness :
  exists r,
    handshake true (1, 80)%Z (2, 81)%Z {| draw_begin := (5, 6)%Z; draw_src_conn_id := 7; draw_packet_number := 100 |} 9 500 = Some r /\
    expects (sv_host (hr_server r)) (hr_server_conn r) =
      Some (wh_next_packet_num (bc_writer (hr_client_conn r)) + 1)%Z.
Proof.
  destruct (queued_hello_refuses_first_data (1, 80)%Z (2, 81)%Z 5 6 7 100 9 500) as (r & Hr & He & _); [lia|lia|lia|lia|].
  exists r. split; assumption.
Defined.

(** A data packet with source id 0, sent to a client that waits for its server
    hello, lands in the connection's buffer. *)
Lemma early_data_buffered cid pc p addr i :
  type_field (header p) = UnencryptedData -> destination_connection_id (header p) = cid ->
  source_connection_id (header p) = 0%Z -> packet_number (header p) = Z.of_nat i -> i < MAX_BUFFER_SIZE ->
  exists h1 evs s1,
    ReaderTxChannel_handle_packets (client_host1 cid pc) [p] addr = (Some h1, evs) /\
    heap h1 !! 0 = Some s1 /\ slots (ordered_bytes (conn_buff s1)) !! i = Some (Some p) /\
    cb_packet (conn_buff s1) = None /\ set_start_packet_number (conn_buff s1) = false /\
    cb_host_type (conn_buff s1) = Client.
Proof.
  intros Ht Hd Hs Hp Hi.
  set (ob := OrderedBytes_new cid 0).
  assert (Hwf : wf_ob ob) by (apply wf_ob_new; int_lia).
  assert (Hpn : (0 <= packet_number (header p) < 2 ^ 64 - 1)%Z).
  { rewrite Hp. unfold MAX_BUFFER_SIZE in Hi. lia. }
  pose proof (buffer_in_packet_spec ob Hwf p Hpn) as H.
  destruct (OrderedBytes_buffer_in_packet ob p) as [r ob'] eqn:Hbuf. destruct H as [_ H].
  assert (Hv : buffer_verdict ob (packet_number (header p)) = Ok i).
  { unfold buffer_verdict. change (smallest_packet_number ob) with 0%Z. rewrite Hp.
    rewrite !decide_False by lia. replace (Z.to_nat (Z.of_nat i - 0)) with i by lia.
    unfold ob. rewrite slots_new, lookup_replicate_2; done. }
  rewrite Hv in H. destruct H as (-> & _ & _ & _ & Hsl & _).
  assert (Hslot : slots ob' !! i = Some (Some p)).
  { rewrite Hsl. apply list_lookup_insert_eq. unfold ob. by rewrite slots_new, length_replicate. }
  unfold ReaderTxChannel_handle_packets, route. cbn [length]. rewrite decide_True by done.
  unfold ReaderTxChannel_handle_hello_single. change (host_type (client_host1 cid pc)) with Client.
  assert (Hnh : is_hello_packet Client p = false).
  { unfold is_hello_packet. rewrite Ht, decide_False by (intros [? _]; done). by rewrite decide_True. }
  rewrite Hnh. cbn [negb outcome_bind ReaderTxChannel_build_conn_buff_key]. rewrite Hd, Hs.
  cbn [with_hello_state client_host1 conn_manager heap host_type]. rewrite lookup_singleton_eq.
  cbn [entry0 shared_at]. rewrite lookup_singleton_eq. cbn [buffer_all].
  unfold ReaderTxChannel_buffer_in_data, is_client_ack_packet. rewrite decide_False by (intros [? _]; done).
  cbn [negb andb]. rewrite bool_decide_false by (rewrite Ht; done).
  unfold ReaderTxChannel_buffer_to_conn_buffer. cbn [negb andb]. unfold ConnectionBuffer_buffer_in_bytes.
  change (ordered_bytes (conn_buff (ConnShared_new cid Client (u64_add pc 2)))) with ob. rewrite Hbuf.
  do 3 eexists. split; [reflexivity|]. split; [apply lookup_insert_eq|]. split_and!; [exact Hslot|done..].
Qed.

(** C36: data that arrives before the handshake is not discarded.  A data packet
    that claims source id 0 is buffered by a client that is still waiting for
    its server hello, and the server hello only renumbers the buffer: the
    packet's bytes then stand for the stream position as many packets after
    the first as its own number, whatever the server sends there. *)
Theorem early_data_survives_handshake cid pc p addr i hello saddr :
  type_field (header p) = UnencryptedData -> destination_connection_id (header p) = cid ->
  source_connection_id (header p) = 0%Z -> packet_number (header p) = Z.of_nat i -> i < MAX_BUFFER_SIZE ->
  exists h1 evs s1,
    ReaderTxChannel_handle_packets (client_host1 cid pc) [p] addr = (Some h1, evs) /\
    heap h1 !! 0 = Some s1 /\
    let cb := hello_buffered (conn_buff s1) hello saddr in
    smallest_packet_number (ordered_bytes cb) = u64_add (packet_number (header hello)) 1 /\
    slots (ordered_bytes cb) !! i = Some (Some p).
Proof.
  intros Ht Hd Hs Hp Hi.
  destruct (early_data_buffered cid pc p addr i Ht Hd Hs Hp Hi) as (h1 & evs & s1 & H1 & H2 & H3 & H4 & H5 & H6).
  exists h1, evs, s1. split; [exact H1|]. split; [exact H2|]. cbv zeta. split.
  - pose proof (hello_buffered_start (conn_buff s1) hello saddr H4) as H. rewrite H5, H6 in H. exact H.
  - unfold hello_buffered, ConnectionBuffer_buffer_in_packet. rewrite H4. cbn [with_packet set_start_packet_number].
    rewrite H5. cbn [negb]. unfold ConnectionBuffer_buffer_in_addr.
    destruct (cb_addr (conn_buff s1)) eqn:Ha; cbn; rewrite ?Ha, ?H6; exact H3.
Qed.

Definition early_packet : BluefinPacket :=
  {| header := BluefinHeader_with_packet_number
                 (BluefinHeader_new 0 7 UnencryptedData 1 BluefinSecurityFields_default) 4;
     payload := [66%Z] |}.

Lemma early_data_survives_handshake_witness :
  exists h1 evs s1,
    ReaderTxChannel_handle_packets (client_host1 7 100) [early_packet] (3, 3)%Z = (Some h1, evs) /\
    heap h1 !! 0 = Some s1 /\
    let cb := hello_buffered (conn_buff s1) (empty_packet 9 7 500 UnencryptedServerHello) (2, 81)%Z in
    smallest_packet_number (ordered_bytes cb) = 501%Z /\
    slots (ordered_bytes cb) !! 4 = Some (Some early_packet).
Proof.
  exact (early_data_survives_handshake 7 100 early_packet (3, 3)%Z 4
           (empty_packet 9 7 500 UnencryptedServerHello) (2, 81)%Z eq_refl eq_refl eq_refl eq_refl
           ltac:(apply Nat.ltb_lt; vm_compute; reflexivity)).
Defined.
