(* ===== verification/Connection.v ===== *)
(** * Sending on and closing a connection

    Models the send calls and [flush] of [BluefinConnection], its [close],
    [deregister_from_conn_manager] and [is_closed]
    (src/bluefin/src/net/connection.rs) and the task that answers FINs, spawned
    by [BluefinConnection::new].

    While [close] awaits, the receive task works on the same close buffer:
    each attempt carries the operations that happen in each of its three
    windows, whatever they are. *)
From stdpp Require Import base numbers list option strings gmap.
From S2P Require Import Prelude Proto Header Packet Window OrderedBytes Close Buffers Net ConnReader Packetiser Writer Reader Routing Handshake.

(** ** Sending

    The methods call the writer's handle; the third component is the message
    its channel got. *)
Definition with_writer (conn : BluefinConnection) (w : WriterHandler) : BluefinConnection :=
  {| bc_src_conn_id := bc_src_conn_id conn; bc_dst_conn_id := bc_dst_conn_id conn; bc_shared := bc_shared conn;
     bc_writer := w; bc_reader := bc_reader conn; bc_dst_addr := bc_dst_addr conn;
     bc_src_addr := bc_src_addr conn; bc_diag := bc_diag conn |}.

Definition BluefinConnection_send (conn : BluefinConnection) (buf : bytes) (accepted : bool) :
    BluefinResult nat * BluefinConnection * option bytes :=
  let '(r, w, msg) := WriterHandler_send_data (bc_writer conn) buf accepted in (r, with_writer conn w, msg).

Definition BluefinConnection_send_bytes (conn : BluefinConnection) (payload : bytes) (accepted : bool) :
    BluefinResult nat * BluefinConnection * option bytes :=
  let '(r, w, msg) := WriterHandler_send_bytes (bc_writer conn) payload accepted in (r, with_writer conn w, msg).

Definition BluefinConnection_send_bytes_async (conn : BluefinConnection) (payload : bytes) (accepted : bool) :
    BluefinResult nat * BluefinConnection * option bytes :=
  let '(r, w, msg) := WriterHandler_send_bytes_async (bc_writer conn) payload accepted in
  (r, with_writer conn w, msg).

Definition BluefinConnection_flush (conn : BluefinConnection) : bool := WriterHandler_flush_check (bc_writer conn).

(** ** The close driver *)

Definition MAX_FIN_ATTEMPTS : nat := 3.

(** What happens in one attempt: during [send_fin(..).await] and what it
    returns, between [notified()] and the first check, and until the wait ends. *)
Record close_attempt : Type := {
  during_send : list close_op;
  send_result : BluefinResult unit;
  during_race : list close_op;
  during_wait : list close_op;
}.

(** The close buffer with its flag, the host's connections, and what has been
    sent and reported so far. *)
Record Closing : Type := {
  cg_close : CloseBuffer * bool;
  cg_manager : gmap (Z * Z) ConnectionManagedBuffers;
  cg_wire : list bytes;
  cg_events : list effect;
}.

Definition with_cg_close (c : Closing) (s : CloseBuffer * bool) : Closing :=
  {| cg_close := s; cg_manager := cg_manager c; cg_wire := cg_wire c; cg_events := cg_events c |}.

Definition others_do (c : Closing) (ops : list close_op) : Closing :=
  with_cg_close c (foldl close_do (cg_close c) ops).

Definition emitted (c : Closing) (dg : bytes) (evs : list effect) : Closing :=
  {| cg_close := cg_close c; cg_manager := cg_manager c; cg_wire := cg_wire c ++ [dg];
     cg_events := cg_events c ++ evs |}.

Definition BluefinConnection_deregister_from_conn_manager (conn : BluefinConnection) (c : Closing) : Closing :=
  {| cg_close := cg_close c; cg_manager := delete (bc_src_conn_id conn, bc_dst_conn_id conn) (cg_manager c);
     cg_wire := cg_wire c; cg_events := cg_events c |}.

Definition mark_closed_and_deregister (conn : BluefinConnection) (c : Closing) : Closing :=
  BluefinConnection_deregister_from_conn_manager conn
    (with_cg_close c (CloseBuffer_mark_closed (fst (cg_close c)), snd (cg_close c))).

(** [received_fin_ack_for() == Some(fin_pn)]. *)
Definition fin_acked (c : Closing) (fin_pn : Z) : bool :=
  bool_decide (received_fin_ack_for (fst (cg_close c)) = Some fin_pn).

(** One round of the retransmit loop; [None] goes on with the next.  A wait
    that saw a [notify_waiters] since [notified()] ends with [Ok], one that did
    not ends with the timeout.  An error of [send_fin] leaves [close] at once. *)
Definition close_attempt_step (conn : BluefinConnection) (fin_pn : Z) (a : close_attempt) (c : Closing) :
    option (BluefinResult unit) * Closing :=
  let c := others_do c (during_send a) in
  match WriterHandler_send_fin (bc_writer conn) fin_pn (send_result a) with
  | Ok (buf, evs) =>
      let c := emitted c buf evs in
      let notified := fin_ack_notify (fst (cg_close c)) in
      let c := others_do c (during_race a) in
      if fin_acked c fin_pn then (Some (Ok tt), mark_closed_and_deregister conn c)
      else
        let c := others_do c (during_wait a) in
        if bool_decide (fin_ack_notify (fst (cg_close c)) <> notified) && fin_acked c fin_pn
        then (Some (Ok tt), mark_closed_and_deregister conn c)
        else (None, c)
  | Err e => (Some (Err e), c)
  | _ => (Some Panic, c)
  end.

Definition close_timed_out : BluefinResult unit :=
  Err (TimedOut "close: peer did not send FinAck within retransmit budget").

Fixpoint close_attempts (conn : BluefinConnection) (fin_pn : Z) (env : nat -> close_attempt) (k n : nat)
    (c : Closing) : BluefinResult unit * Closing :=
  match n with
  | 0 => (close_timed_out, mark_closed_and_deregister conn c)
  | S n =>
      match close_attempt_step conn fin_pn (env k) c with
      | (Some r, c) => (r, c)
      | (None, c) => close_attempts conn fin_pn env (S k) n c
      end
  end.

(** [close], from a check of [flush] that lets it through ([None] otherwise:
    it is still waiting); the handle is the one every clone shares. *)
Definition BluefinConnection_close (conn : BluefinConnection) (env : nat -> close_attempt) (c : Closing) :
    option (BluefinResult unit * WriterHandler * Closing) :=
  if WriterHandler_flush_check (bc_writer conn) then
    let w := WriterHandler_mark_closed (bc_writer conn) in
    let '(fin_pn, w) := WriterHandler_reserve_close_packet_num w in
    let c := with_cg_close c (CloseBuffer_record_local_fin_sent (fst (cg_close c)) fin_pn, snd (cg_close c)) in
    let '(r, c) := close_attempts conn fin_pn env 0 MAX_FIN_ATTEMPTS c in
    Some (r, w, c)
  else None.


(** Once [close] got past [flush] the connection takes nothing more: each of the
    three calls fails and queues nothing. *)
Lemma send_after_close conn env c r w c' buf accepted :
  BluefinConnection_close conn env c = Some (r, w, c') ->
  let conn' := with_writer conn w in
  BluefinConnection_send conn' buf accepted = (Err ConnectionClosed, conn', None) /\
  BluefinConnection_send_bytes conn' buf accepted = (Err ConnectionClosed, conn', None) /\
  BluefinConnection_send_bytes_async conn' buf accepted = (Err ConnectionClosed, conn', None).
Proof.
  unfold BluefinConnection_close. destruct (WriterHandler_flush_check _); [|done]. cbn zeta.
  destruct (WriterHandler_reserve_close_packet_num _) as [fin_pn w1] eqn:Hr. injection Hr as <- <-.
  destruct (close_attempts _ _ _ _ _ _) as [r1 c1]. by intros [= <- <- <-].
Qed.

(** ** The attempts *)

Definition is_fin_ack (op : close_op) : bool := match op with PeerFinAck _ => true | _ => false end.

(** What the receive task does: FINs of any number, FIN-ACKs for [pn] only. *)
Definition peer_op (pn : Z) (op : close_op) : Prop :=
  match op with
  | PeerFin _ | TakePending => True
  | PeerFinAck n => n = pn
  | RecordLocalFin _ | MarkClosed => False
  end.

Definition attempt_ops (a : close_attempt) : list close_op := during_send a ++ during_race a ++ during_wait a.

Definition acked (a : close_attempt) : bool := existsb is_fin_ack (attempt_ops a).

Definition num_acks (ops : list close_op) : nat := length (filter (fun op => is_fin_ack op = true) ops).

Lemma peer_ops_spec pn ops s :
  Forall (peer_op pn) ops ->
  received_fin_ack_for (fst (foldl close_do s ops)) =
    (if existsb is_fin_ack ops then Some pn else received_fin_ack_for (fst s)) /\
  fin_ack_notify (fst (foldl close_do s ops)) = fin_ack_notify (fst s) + num_acks ops.
Proof.
  intros H. revert s. induction H as [|op ops Hop _ IH]; intros s; cbn [foldl existsb];
    [unfold num_acks; simpl; split; [done|lia]|].
  destruct (IH (close_do s op)) as [-> ->]. destruct s as [cb flag].
  unfold num_acks. rewrite filter_cons.
  destruct op as [n|n| |n|]; try done; unfold close_do; rewrite ?buffer_in_fin_eq; cbn [is_fin_ack orb].
  - destruct (close_state cb) as [|m|m|]; [| |..]; try (destruct (m =? _)%Z); simpl; split; (done || lia).
  - cbn in Hop. subst n. rewrite decide_True by done. simpl.
    destruct (existsb is_fin_ack ops); (split; [done|lia]).
Qed.

Lemma num_acks_pos ops : existsb is_fin_ack ops = true <-> 0 < num_acks ops.
Proof.
  unfold num_acks. induction ops as [|op ops IH]; simpl; [split; [done|lia]|].
  rewrite filter_cons. destruct (is_fin_ack op); simpl; [|done]. split; [lia|done].
Qed.

(** The datagram of the FIN. *)
Definition fin_datagram (w : WriterHandler) (t : PacketType) (pn : Z) : bytes :=
  BluefinPacket_serialise (empty_packet (wh_src_conn_id w) (wh_dst_conn_id w) pn t).

Lemma send_control_eq w t pn sent :
  WriterHandler_send_control_packet w t pn sent =
    match sent with Ok _ => Ok (fin_datagram w t pn) | Err e => Err e | Panic => Panic | NoFuel => NoFuel end.
Proof.
  unfold WriterHandler_send_control_packet. rewrite serialise_into_eq, length_replicate. by destruct sent.
Qed.

Lemma others_do_nested c ops ops' : others_do (others_do c ops) ops' = others_do c (ops ++ ops').
Proof. unfold others_do. cbn. by rewrite foldl_app. Qed.

Lemma fin_acked_spec c pn ops :
  Forall (peer_op pn) ops -> received_fin_ack_for (fst (cg_close c)) = None ->
  fin_acked (others_do c ops) pn = existsb is_fin_ack ops.
Proof.
  intros Hops Hnone. unfold fin_acked, others_do. cbn [with_cg_close cg_close].
  destruct (peer_ops_spec pn ops (cg_close c) Hops) as [-> _]. rewrite Hnone.
  destruct (existsb is_fin_ack ops); [by rewrite bool_decide_true|by rewrite bool_decide_false].
Qed.

(** An attempt ends the close exactly when a FIN-ACK came in it. *)
Lemma close_attempt_step_spec conn pn a c :
  send_result a = Ok tt -> Forall (peer_op pn) (attempt_ops a) ->
  received_fin_ack_for (fst (cg_close c)) = None ->
  exists c', cg_manager c' = cg_manager c /\
    cg_wire c' = cg_wire c ++ [fin_datagram (bc_writer conn) Fin pn] /\
    close_attempt_step conn pn a c =
      (if acked a then (Some (Ok tt), mark_closed_and_deregister conn c') else (None, c')) /\
    (acked a = false -> received_fin_ack_for (fst (cg_close c')) = None).
Proof.
  intros Hsent Hops Hnone. unfold attempt_ops in Hops.
  apply Forall_app in Hops as [H1 H23]. apply Forall_app in H23 as [H2 H3].
  unfold close_attempt_step, WriterHandler_send_fin. rewrite send_control_eq, Hsent. cbn [outcome_bind].
  set (dg := fin_datagram _ _ _). set (evs := diag_try_send _ _).
  change (emitted (others_do c (during_send a)) dg evs) with (others_do (emitted c dg evs) (during_send a)).
  set (c0 := emitted c dg evs). rewrite !others_do_nested.
  assert (Hn0 : received_fin_ack_for (fst (cg_close c0)) = None) by done.
  rewrite !(fin_acked_spec c0 pn) by (repeat apply Forall_app_2; done).
  unfold acked, attempt_ops. rewrite app_assoc, (existsb_app is_fin_ack (_ ++ _)).
  destruct (existsb is_fin_ack (during_send a ++ during_race a)) eqn:Hex; cbn [orb].
  { eexists. split_and!; [| |reflexivity|done]; done. }
  eexists (others_do c0 ((during_send a ++ during_race a) ++ during_wait a)). split_and!; [done|done| |].
  - rewrite existsb_app in Hex. apply orb_false_iff in Hex as [Hs Hr].
    destruct (existsb is_fin_ack (during_wait a)) eqn:Hw; [|by rewrite andb_false_r].
    rewrite bool_decide_true; [done|]. unfold others_do. cbn [with_cg_close cg_close].
    rewrite foldl_app, foldl_app.
    destruct (peer_ops_spec pn (during_wait a) (foldl close_do (foldl close_do (cg_close c0) (during_send a))
      (during_race a)) H3) as [_ ->].
    destruct (peer_ops_spec pn (during_race a) (foldl close_do (cg_close c0) (during_send a)) H2) as [_ ->].
    apply num_acks_pos in Hw. lia.
  - intros Hw. unfold others_do. cbn [with_cg_close cg_close].
    destruct (peer_ops_spec pn ((during_send a ++ during_race a) ++ during_wait a) (cg_close c0)) as [-> _];
      [repeat apply Forall_app_2; done|].
    by rewrite existsb_app, Hex, Hw.
Qed.

(** The attempts up to and including the first that is acknowledged. *)
Fixpoint attempts_made (env : nat -> close_attempt) (k n : nat) : nat :=
  match n with
  | 0 => 0
  | S n => if acked (env k) then 1 else S (attempts_made env (S k) n)
  end.

Lemma close_attempts_spec conn pn env n : forall k c,
  (forall i, send_result (env i) = Ok tt /\ Forall (peer_op pn) (attempt_ops (env i))) ->
  received_fin_ack_for (fst (cg_close c)) = None ->
  exists c', close_attempts conn pn env k n c =
      ((if existsb (fun i => acked (env i)) (seq k n) then Ok tt else close_timed_out),
       mark_closed_and_deregister conn c') /\
    cg_manager c' = cg_manager c /\
    cg_wire c' = cg_wire c ++ replicate (attempts_made env k n) (fin_datagram (bc_writer conn) Fin pn).
Proof.
  induction n as [|n IH]; intros k c Henv Hnone; cbn [close_attempts seq existsb attempts_made].
  { exists c. split; [done|]. split; [done|]. by rewrite app_nil_r. }
  destruct (Henv k) as [Hs Ho].
  destruct (close_attempt_step_spec conn pn (env k) c Hs Ho Hnone) as (c1 & Hm & Hw & -> & Hnext).
  destruct (acked (env k)); cbn [orb]; [by exists c1|].
  destruct (IH (S k) c1 Henv (Hnext eq_refl)) as (c2 & -> & Hm2 & Hw2).
  exists c2. split; [done|]. split; [congruence|]. rewrite Hw2, Hw, <- app_assoc. done.
Qed.

(** ** Every way out of [close] *)













(** The state of the peer's end of the exchange: its receive task, which asks
    for FIN-ACKs, and its handle, through which the FIN-ACK task sends them. *)
Definition fin_ack_requests (evs : list effect) : list Z :=
  omap (fun e => match e with FinAckRequest pn => Some pn | _ => None end) evs.

(** What a datagram from the peer does to the close buffer. *)
Definition close_ops_of (dg : bytes) : list close_op :=
  omap (fun p => let pn := packet_number (header p) in
                 match type_field (header p) with
                 | Fin => Some (PeerFin pn)
                 | FinAck => Some (PeerFinAck pn)
                 | _ => None
                 end) (snd (BluefinPacket_from_bytes_into dg [])).

(** The task [BluefinConnection::new] spawns: every request becomes a FIN-ACK
    datagram; an error of the socket is ignored. *)
Definition fin_ack_task (w : WriterHandler) (sent : BluefinResult unit) (requests : list Z) : list bytes :=
  omap (fun pn => match WriterHandler_send_fin_ack w pn sent with Ok (buf, _) => Some buf | _ => None end) requests.

(** The peer gets a datagram and answers. *)
Definition peer_round (w : WriterHandler) (env : reader_env) (s : ConnShared) (dg : bytes) :
    ConnShared * list close_op :=
  let '(s', evs) := recv_and_buffer_inline_round env s dg in
  (default s s', flat_map close_ops_of (fin_ack_task w (Ok tt) (fin_ack_requests evs))).

(** [close] over a network that loses nothing: each FIN is handled by the peer
    and the answers come back while [close] waits. *)
Definition against_peer (w : WriterHandler) (env : reader_env) (s : ConnShared) (dg : bytes) (k : nat) :
    close_attempt :=
  let sk := Nat.iter k (fun s => fst (peer_round w env s dg)) s in
  {| during_send := []; send_result := Ok tt; during_race := [];
     during_wait := snd (peer_round w env sk dg) |}.

Lemma fin_datagram_parses w t pn packets :
  (0 <= wh_src_conn_id w < 2 ^ 32)%Z -> (0 <= wh_dst_conn_id w < 2 ^ 32)%Z -> (0 <= pn < 2 ^ 64)%Z ->
  t <> UnencryptedData ->
  BluefinPacket_from_bytes_into (fin_datagram w t pn) packets =
    (Ok 1, packets ++ [empty_packet (wh_src_conn_id w) (wh_dst_conn_id w) pn t]).
Proof.
  intros Hs Hd Hp Ht. set (p := empty_packet _ _ _ _).
  replace (fin_datagram w t pn) with (datagram [p])
    by (unfold datagram, fin_datagram; cbn [map concat]; by rewrite app_nil_r).
  apply (from_bytes_into_datagram [p]); [done| |].
  - constructor; [by apply empty_packet_framed|constructor].
  - intros q [= <-] [He _]. by destruct t.
Qed.

Section Peer.
Context (w pw : WriterHandler) (env : reader_env) (pn : Z).
Hypothesis Hids : (0 <= wh_src_conn_id w < 2 ^ 32)%Z /\ (0 <= wh_dst_conn_id w < 2 ^ 32)%Z.
Hypothesis Hpids : (0 <= wh_src_conn_id pw < 2 ^ 32)%Z /\ (0 <= wh_dst_conn_id pw < 2 ^ 32)%Z.
Hypothesis Hpn : (0 <= pn < 2 ^ 64)%Z.
Hypothesis Henv : env_fin_ack_tx env = true.

Lemma peer_round_fin s :
  close_settled s ->
  let '(s', ops) := peer_round pw env s (fin_datagram w Fin pn) in
  close_settled s' /\ ops = (if fin_answered (close_buff s) pn then [PeerFinAck pn] else []) /\
  (if fin_answered (close_buff s) pn then close_state (close_buff s') = PeerFinReceived pn
   else close_buff s' = close_buff s).
Proof using Hids Hpids Hpn Henv.
  intros Hs. unfold peer_round, recv_and_buffer_inline_round.
  rewrite (fin_datagram_parses w Fin pn []) by (done || apply Hids). cbn [app].
  destruct (buffer_in_fin_datagram env s (empty_packet (wh_src_conn_id w) (wh_dst_conn_id w) pn Fin) eq_refl Hs)
    as (s' & -> & Hs' & _ & _ & _ & Hcb).
  change (packet_number (header (empty_packet (wh_src_conn_id w) (wh_dst_conn_id w) pn Fin))) with pn in *.
  cbn [from_option id]. split; [done|]. split; [|done].
  replace (fin_ack_requests _) with (if fin_answered (close_buff s) pn then [pn] else []).
  - destruct (fin_answered (close_buff s) pn); [|done].
    unfold fin_ack_task, WriterHandler_send_fin_ack. cbn [omap list_omap]. rewrite send_control_eq.
    cbn [outcome_bind flat_map]. unfold close_ops_of.
    rewrite (fin_datagram_parses pw FinAck pn []) by (done || apply Hpids). done.
  - unfold fin_ack_requests, diag_try_send. rewrite Henv.
    destruct (env_diag_tx env), (fin_answered (close_buff s) pn), (cb_waker (conn_buff s)); done.
Qed.

Lemma peer_iter s k :
  close_settled s ->
  let sk := Nat.iter k (fun s => fst (peer_round pw env s (fin_datagram w Fin pn))) s in
  close_settled sk /\ fin_answered (close_buff sk) pn = fin_answered (close_buff s) pn.
Proof using Hids Hpids Hpn Henv.
  intros Hs. cbv zeta. induction k as [|k [IH1 IH2]]; [done|]. cbn [Nat.iter nat_rect].
  set (sk := Nat.iter k _ s) in *. pose proof (peer_round_fin sk IH1) as H.
  change (nat_rect _ _ _ k) with sk. destruct (peer_round pw env sk _) as [s' ops]. cbn [fst].
  destruct H as (H1 & _ & H3). split; [done|]. rewrite <- IH2.
  destruct (fin_answered (close_buff sk) pn) eqn:Ha; [|by rewrite H3].
  unfold fin_answered. rewrite H3. apply Z.eqb_refl.
Qed.

Lemma against_peer_spec s k :
  close_settled s ->
  let a := against_peer pw env s (fin_datagram w Fin pn) k in
  send_result a = Ok tt /\ Forall (peer_op pn) (attempt_ops a) /\ acked a = fin_answered (close_buff s) pn.
Proof using Hids Hpids Hpn Henv.
  intros Hs. cbv zeta. destruct (peer_iter s k Hs) as [H1 H2].
  unfold acked, attempt_ops, against_peer. cbn [during_send during_race during_wait send_result app].
  pose proof (peer_round_fin _ H1) as H. destruct (peer_round pw env _ _) as [s' ops].
  cbn [snd]. destruct H as (_ & -> & _). rewrite H2.
  split; [done|]. destruct (fin_answered (close_buff s) pn); (split; [repeat constructor|done]).
Qed.
End Peer.

(** ** Properties *)


Definition open_conn : BluefinConnection :=
  {| bc_src_conn_id := 7; bc_dst_conn_id := 9; bc_shared := 0;
     bc_writer := WriterHandler_start (WriterHandler_new 102 7 9); bc_reader := ReaderRxChannel_new false;
     bc_dst_addr := (2, 81)%Z; bc_src_addr := (1, 80)%Z; bc_diag := false |}.

Definition sample_closing : Closing :=
  {| cg_close := (CloseBuffer_new, false); cg_manager := ∅; cg_wire := []; cg_events := [] |}.




(** C23: over a network that loses nothing, [close] returns [Ok] against a peer
    that is open or has itself sent a FIN, after one FIN, and the timeout error,
    after three FINs, against one that is closed (or is acknowledging a FIN
    with another number): of two ends that close one after the other, the
    second always reports a timeout. *)
Theorem second_close_times_out conn pw env s c :
  let pn := next_packet_num_shared (bc_writer conn) in
  let w := bc_writer conn in
  WriterHandler_flush_check w = true -> received_fin_ack_for (fst (cg_close c)) = None ->
  (0 <= wh_src_conn_id w < 2 ^ 32)%Z /\ (0 <= wh_dst_conn_id w < 2 ^ 32)%Z ->
  (0 <= wh_src_conn_id pw < 2 ^ 32)%Z /\ (0 <= wh_dst_conn_id pw < 2 ^ 32)%Z ->
  (0 <= pn < 2 ^ 64)%Z -> env_fin_ack_tx env = true -> close_settled s ->
  exists w' c',
    BluefinConnection_close conn (against_peer pw env s (fin_datagram w Fin pn)) c =
      Some (match close_state (close_buff s) with
            | Closed => close_timed_out
            | PeerFinReceived m => if (m =? pn)%Z then Ok tt else close_timed_out
            | Active | LocalFinSent _ => Ok tt
            end, w', c') /\
    cg_wire c' = cg_wire c ++ replicate (if fin_answered (close_buff s) pn then 1 else 3) (fin_datagram w Fin pn).
Proof.
  intros pn w Hflush Hnone Hids Hpids Hpn Henv Hs.
  set (att := against_peer pw env s (fin_datagram w Fin pn)).
  pose proof (fun k => against_peer_spec w pw env pn Hids Hpids Hpn Henv s k Hs) as Hatt. cbv zeta in Hatt.
  fold att in Hatt.
  destruct (close_attempts_spec conn pn att MAX_FIN_ATTEMPTS 0
    (with_cg_close c (CloseBuffer_record_local_fin_sent (fst (cg_close c)) pn, snd (cg_close c))))
    as (c' & Hc & _ & Hw).
  { intros i. destruct (Hatt i) as (? & ? & _). done. }
  { cbn [with_cg_close cg_close fst]. unfold CloseBuffer_record_local_fin_sent. by destruct (close_state _). }
  cbn [seq existsb attempts_made MAX_FIN_ATTEMPTS] in Hc, Hw.
  destruct (Hatt 0) as (_ & _ & E0), (Hatt 1) as (_ & _ & E1), (Hatt 2) as (_ & _ & E2).
  rewrite E0, E1, E2 in Hc. rewrite E0, E1, E2 in Hw.
  exists (snd (WriterHandler_reserve_close_packet_num (WriterHandler_mark_closed w))), (mark_closed_and_deregister conn c').
  assert (Hclose : BluefinConnection_close conn att c =
    Some (if fin_answered (close_buff s) pn then Ok tt else close_timed_out,
          snd (WriterHandler_reserve_close_packet_num (WriterHandler_mark_closed w)), mark_closed_and_deregister conn c')).
  { unfold BluefinConnection_close. fold w. rewrite Hflush. cbn [WriterHandler_reserve_close_packet_num].
    change (next_packet_num_shared (WriterHandler_mark_closed w)) with pn. rewrite Hc.
    by destruct (fin_answered (close_buff s) pn). }
  split; [|cbn; rewrite Hw; by destruct (fin_answered (close_buff s) pn)].
  rewrite Hclose. unfold fin_answered. by destruct (close_state (close_buff s)).
Qed.

Lemma second_close_times_out_witness :
  exists w' c',
    BluefinConnection_close open_conn
      (against_peer (WriterHandler_new 500 9 7) sample_env
         (with_close_buff sample_shared (CloseBuffer_mark_closed CloseBuffer_new) false)
         (fin_datagram (bc_writer open_conn) Fin 102)) sample_closing =
      Some (close_timed_out, w', c') /\ length (cg_wire c') = 3.
Proof.
  destruct (second_close_times_out open_conn (WriterHandler_new 500 9 7) sample_env
    (with_close_buff sample_shared (CloseBuffer_mark_closed CloseBuffer_new) false) sample_closing)
    as (w' & c' & H & Hw); [reflexivity|reflexivity|cbn; lia|cbn; lia|cbn; lia|reflexivity|split; [reflexivity|discriminate]|].
  exists w', c'. split; [exact H|]. rewrite Hw. reflexivity.
Defined.
