(* ===== verification/Transfer.v ===== *)
(** * From one end to the other

    Composes the sending side (Writer.v), the wire format (Packet.v), the
    receive task (ConnReader.v) and reassembly (OrderedBytes.v) of a
    connection: what an application sends is what the peer's application can
    read, over a network that reorders and repeats datagrams as it likes. *)
From stdpp Require Import base numbers list option strings.
From S2P Require Import Prelude Proto Header Packet Window OrderedBytes Close Buffers Net ConnReader Packetiser Writer.

(** The packets a datagram parses to. *)
Definition packets_of (dg : bytes) : list BluefinPacket := snd (BluefinPacket_from_bytes_into dg []).

(** How many packets the writer has put on the wire: what a datagram has beside
    its payload bytes is a 20-byte header per packet. *)
Definition ws_packets (s : WriterSystem) : nat :=
  sum_list_with (fun out => (length (fst out) - snd out) / 20) (ws_wire s).

Lemma datagram_overhead ps : (length (datagram ps) - length (payloads ps)) / 20 = length ps.
Proof.
  assert (H : length (datagram ps) = length ps * 20 + length (payloads ps)).
  { induction ps as [|p ps IH]; [done|]. rewrite datagram_cons, length_app, length_BluefinPacket_serialise, IH.
    unfold payloads. cbn [map concat length]. rewrite length_app. lia. }
  rewrite H, Nat.add_sub. by apply Nat.div_mul.
Qed.

Lemma ws_packets_groups s groups :
  ws_wire s = map outgoing groups -> ws_packets s = length (concat groups).
Proof.
  unfold ws_packets. intros ->. induction groups as [|g groups IH]; [done|].
  cbn [map sum_list_with concat outgoing fst snd]. by rewrite IH, datagram_overhead, length_app.
Qed.

(** Slots hold a packet up to [n] and none at [n]. *)
Lemma length_ready_exact l n :
  n <= length l -> (forall i, i < n -> exists p, l !! i = Some (Some p)) ->
  (n < length l -> ~ exists p, l !! n = Some (Some p)) -> length (ready l) = n.
Proof.
  intros Hn Hfill Hno. pose proof (ready_filled l n Hfill) as Hge.
  pose proof (length_ready l) as Hle. destruct (decide (length (ready l) = n)) as [|Hne]; [done|].
  exfalso. apply Hno; [lia|].
  destruct (lookup_lt_is_Some_2 (ready l) n) as [p Hp]; [lia|]. exists p. by apply ready_lookup.
Qed.

(** When exactly the packets [start .. start + n) arrive, in any order and any
    number of times, exactly their bytes can be read. *)
Lemma arrive_exactly start pay conn_id ps n :
  is_u64 start -> n <= MAX_BUFFER_SIZE -> Forall (genuine start pay) ps ->
  (forall i, (exists p, p ∈ ps /\ packet_number (header p) = (start + Z.of_nat i)%Z) <-> i < n) ->
  let ob' := arrive_all (OrderedBytes_new conn_id start) ps in
  wf_ob ob' /\ available ob' = stream_prefix pay n.
Proof.
  intros Hs Hn Hps Hall. cbv zeta.
  destruct (arrive_all_filled start pay ps (OrderedBytes_new conn_id start)) as (Hinv & Hc & Hsm & Hfill);
    [by apply stream_inv_new|reflexivity|reflexivity|assumption|].
  set (ob' := arrive_all _ ps) in *. destruct Hinv as [Hwf (k & Hk & Hp & _)]. split; [exact Hwf|].
  assert (k = 0) as -> by lia.
  assert (Hlen : length (slots ob') = MAX_BUFFER_SIZE) by (apply length_rotate; apply Hwf).
  assert (Hempty : forall i, ~ exists p, slots (OrderedBytes_new conn_id start) !! i = Some (Some p)).
  { intros i [p Hpi]. rewrite slots_new in Hpi. apply lookup_replicate in Hpi as [? _]. done. }
  assert (Hready : length (ready (slots ob')) = n).
  { apply length_ready_exact; [lia| |].
    - intros i Hi. apply Hfill; [lia|]. right. by apply Hall.
    - intros Hlt Hex. apply Hfill in Hex as [Hex|Hex]; [by apply Hempty in Hex| |lia].
      apply Hall in Hex. lia. }
  unfold available. rewrite Hc. cbn [from_option id app].
  rewrite <- (take_ge (ready (slots ob')) n) by lia.
  apply (ready_stream pay (slots ob') 0 n); [done|lia].
Qed.

(** The pieces by index are the stream. *)
Lemma stream_prefix_pieces (chunks : list bytes) :
  stream_prefix (fun i => default [] (chunks !! i)) (length chunks) = concat chunks.
Proof.
  unfold stream_prefix. f_equal. apply list_eq. intros i. rewrite list_lookup_fmap.
  destruct (decide (i < length chunks)) as [Hi|Hi].
  - rewrite lookup_seq_lt by done. destruct (lookup_lt_is_Some_2 chunks i Hi) as [c Hc].
    simpl. by rewrite Hc.
  - rewrite !lookup_ge_None_2; [done|lia|rewrite length_seq; lia].
Qed.

Section Wire.
Context (pn src dst : Z) (groups : list (list BluefinPacket)) (chunks : list bytes).
Hypothesis Hpn : is_u64 pn.
Hypothesis Hsrc : is_u32 src.
Hypothesis Hdst : is_u32 dst.
Hypothesis Hpackets : concat groups = numbered src dst pn chunks.
Hypothesis Hgroups : Forall (fun ps : list BluefinPacket => ps <> []) groups.
Hypothesis Hchunks : Forall (fun c : bytes => 0 < length c <= MAX_BLUEFIN_PAYLOAD_SIZE_BYTES) chunks.
Hypothesis Hbytes : Forall is_u8 (concat chunks).
Hypothesis Hroom : (pn + Z.of_nat (length chunks) < 2 ^ 64)%Z.

Lemma wire_packet p :
  p ∈ concat groups ->
  exists i c, chunks !! i = Some c /\ p = data_pkt src dst (pn + Z.of_nat i) c.
Proof using Hpackets Hpn Hroom.
  rewrite Hpackets. intros Hp. apply list_elem_of_lookup in Hp as [i Hi].
  apply numbered_lookup in Hi as (c & Hc & ->). exists i, c. split; [done|].
  apply lookup_lt_Some in Hc. rewrite u64_wrap_small by int_lia. done.
Qed.

Lemma wire_packet_at i : i < length chunks ->
  exists p, p ∈ concat groups /\ packet_number (header p) = (pn + Z.of_nat i)%Z.
Proof using Hpackets Hpn Hroom.
  intros Hi. destruct (lookup_lt_is_Some_2 chunks i Hi) as [c Hc].
  exists (data_pkt src dst (pn + Z.of_nat i) c). split; [|done].
  rewrite Hpackets. apply list_elem_of_lookup. exists i. unfold numbered. rewrite list_lookup_imap, Hc. simpl.
  rewrite u64_wrap_small by int_lia. done.
Qed.

Lemma wire_packet_data p : p ∈ concat groups -> data_packet p.
Proof using Hpackets Hpn Hroom Hsrc Hdst Hchunks Hbytes.
  intros Hp. apply wire_packet in Hp as (i & c & Hc & ->).
  pose proof (lookup_lt_Some _ _ _ Hc) as Hi.
  assert (Hsz : 0 < length c <= MAX_BLUEFIN_PAYLOAD_SIZE_BYTES) by (by apply (proj1 (Forall_lookup _ _) Hchunks i)).
  split_and!; [|done| |cbn; int_lia].
  - apply data_pkt_framed; [done|done|int_lia| |lia].
    apply Forall_forall. intros b Hb. rewrite Forall_forall in Hbytes. apply Hbytes.
    apply list_elem_of_In, in_concat. exists c. split; apply list_elem_of_In; [|done].
    by apply list_elem_of_lookup_2 in Hc.
  - cbn. intros ->. simpl in Hsz. lia.
Qed.

Lemma group_ok g : g ∈ groups -> g <> [] /\ Forall data_packet g.
Proof using Hpackets Hpn Hroom Hsrc Hdst Hchunks Hbytes Hgroups.
  intros Hg. split; [by apply (proj1 (Forall_forall _ _) Hgroups)|].
  apply Forall_forall. intros p Hp. apply wire_packet_data.
  apply list_elem_of_In, in_concat. exists g. split; by apply list_elem_of_In.
Qed.

Lemma parsed_group g : g ∈ groups -> packets_of (datagram g) = g.
Proof using Hpackets Hpn Hroom Hsrc Hdst Hchunks Hbytes Hgroups.
  intros Hg. destruct (group_ok g Hg) as [Hne Hd]. unfold packets_of. by rewrite data_datagram_parses.
Qed.

(** A delivery of the datagrams, in any order and any number of times. *)
Lemma delivery_parses dgs :
  (forall dg, dg ∈ dgs <-> dg ∈ map datagram groups) ->
  dgs = map datagram (map packets_of dgs) /\ (forall g, g ∈ map packets_of dgs <-> g ∈ groups).
Proof using Hpackets Hpn Hroom Hsrc Hdst Hchunks Hbytes Hgroups.
  intros Hd. split.
  - rewrite map_map. rewrite <- (map_id dgs) at 1. apply map_ext_in. intros dg Hin.
    apply list_elem_of_In, Hd, list_elem_of_fmap in Hin as (g & -> & Hg). by rewrite parsed_group.
  - intros g. rewrite list_elem_of_fmap. split.
    + intros (dg & -> & Hin). apply Hd, list_elem_of_fmap in Hin as (g & -> & Hg). by rewrite parsed_group.
    + intros Hg. exists (datagram g). rewrite parsed_group by done. split; [done|].
      apply Hd, list_elem_of_fmap. by exists g.
Qed.

(** Whatever the order and the number of times, the reassembly buffer then
    holds the stream. *)
Lemma arrivals_deliver cid dgs :
  length chunks <= MAX_BUFFER_SIZE ->
  (forall dg, dg ∈ dgs <-> dg ∈ map datagram groups) ->
  let ob := arrive_all (OrderedBytes_new cid pn) (concat (map packets_of dgs)) in
  wf_ob ob /\ available ob = concat chunks.
Proof using Hpackets Hpn Hroom Hsrc Hdst Hchunks Hbytes Hgroups.
  intros Hn Hd. cbv zeta. destruct (delivery_parses dgs Hd) as [_ Hin].
  set (pss := map packets_of dgs) in *.
  assert (Hflat : forall p, p ∈ concat pss <-> p ∈ concat groups).
  { intros p. rewrite !list_elem_of_In, !in_concat. split; intros (g & Hg & Hp); exists g; (split; [|done]);
      apply list_elem_of_In; apply Hin; by apply list_elem_of_In. }
  rewrite <- (stream_prefix_pieces chunks). apply arrive_exactly; [done|done| |].
  - apply Forall_forall. intros p Hp. apply Hflat in Hp. split; [apply data_packet_number; by apply wire_packet_data|].
    intros i Hi. apply wire_packet in Hp as (j & c & Hc & ->). cbn in Hi. assert (i = j) as -> by lia. by rewrite Hc.
  - intros i. split.
    + intros (p & Hp & Hi). apply Hflat, wire_packet in Hp as (j & c & Hc & ->). cbn in Hi.
      apply lookup_lt_Some in Hc. lia.
    + intros Hi. destruct (wire_packet_at i Hi) as (p & Hp & Hpi). exists p. split; [by apply Hflat|done].
Qed.

Lemma delivered_to env s0 cid dgs :
  length chunks <= MAX_BUFFER_SIZE ->
  ordered_bytes (conn_buff s0) = OrderedBytes_new cid pn ->
  (forall dg, dg ∈ dgs <-> dg ∈ map datagram groups) ->
  exists s1 evs, inline_task env s0 dgs = (Some s1, evs) /\
    wf_ob (ordered_bytes (conn_buff s1)) /\ available (ordered_bytes (conn_buff s1)) = concat chunks.
Proof using Hpackets Hpn Hroom Hsrc Hdst Hchunks Hbytes Hgroups.
  intros Hn Hob Hd. destruct (delivery_parses dgs Hd) as [Hdgs Hin].
  destruct (inline_task_data env (map packets_of dgs) s0) as [evs Hrun].
  { rewrite Hob. by apply wf_ob_new. }
  { apply Forall_forall. intros g Hg. apply group_ok. by apply Hin. }
  rewrite Hob, <- Hdgs in Hrun. do 2 eexists. split; [exact Hrun|]. by apply arrivals_deliver.
Qed.
End Wire.

(** A connection buffer that expects [start] first. *)
Definition start_at (start : Z) : ConnectionBuffer :=
  with_ordered_bytes (ConnectionBuffer_new 1 Client) (OrderedBytes_new 1 start).

(** What a flushed writer has put on the wire. *)
Lemma flushed_wire pn src dst acts s :
  is_u64 pn -> (Z.of_nat (length (accepted_bytes acts)) < 2 ^ 64)%Z ->
  writer_run (writer_init pn src dst) acts = Some s -> WriterHandler_flush_check (ws_handle s) = true ->
  exists groups chunks,
    map fst (ws_wire s) = map datagram groups /\ concat groups = numbered src dst pn chunks /\
    Forall (fun ps : list BluefinPacket => ps <> []) groups /\
    Forall (fun c : bytes => 0 < length c <= MAX_BLUEFIN_PAYLOAD_SIZE_BYTES) chunks /\
    concat chunks = accepted_bytes acts /\ ws_packets s = length chunks.
Proof.
  intros Hpn Hlen Hrun Hflush.
  destruct (writer_inv_run pn src dst acts s Hpn Hlen Hrun) as (groups & chunks & Hi).
  destruct (flushed _ _ _ _ _ _ _ Hi Hflush) as [Hsend Hc].
  assert (Hwire : ws_wire s = map outgoing groups).
  { pose proof (wi_datagrams _ _ _ _ _ _ _ Hi) as H. by rewrite Hsend, app_nil_r in H. }
  exists groups, chunks. split_and!.
  - by rewrite Hwire, map_map.
  - apply (wi_packets _ _ _ _ _ _ _ Hi).
  - eapply Forall_impl; [apply (wi_groups _ _ _ _ _ _ _ Hi)|]. by intros g [? _].
  - apply (wi_chunks _ _ _ _ _ _ _ Hi).
  - done.
  - rewrite (ws_packets_groups s groups Hwire), (wi_packets _ _ _ _ _ _ _ Hi). apply length_imap.
Qed.

(** Every datagram on the wire parses. *)
Lemma wire_parses pn src dst acts s dg :
  is_u64 pn -> is_u32 src -> is_u32 dst -> Forall is_u8 (accepted_bytes acts) ->
  (Z.of_nat (length (accepted_bytes acts)) < 2 ^ 64)%Z ->
  writer_run (writer_init pn src dst) acts = Some s -> WriterHandler_flush_check (ws_handle s) = true ->
  (pn + Z.of_nat (ws_packets s) < 2 ^ 64)%Z -> dg ∈ map fst (ws_wire s) ->
  exists ps, tx_impl_round dg = Some ps.
Proof.
  intros Hpn Hsrc Hdst Hu8 Hlen Hrun Hflush Hroom Hdg.
  destruct (flushed_wire pn src dst acts s Hpn Hlen Hrun Hflush) as (groups & chunks & Hw & Hp & Hg & Hch & Hc & Hn).
  rewrite Hw in Hdg. apply list_elem_of_fmap in Hdg as (g & -> & Hin). rewrite Hn in Hroom.
  destruct (group_ok pn src dst groups chunks) with (g := g) as [Hne Hd]; try done; [by rewrite Hc|].
  unfold tx_impl_round. rewrite data_datagram_parses by done. eauto.
Qed.

(** Shared with the form for several receive tasks. *)
Lemma delivered_stream pn src dst acts s env s0 cid dgs buf :
  is_u64 pn -> is_u32 src -> is_u32 dst -> Forall is_u8 (accepted_bytes acts) ->
  (Z.of_nat (length (accepted_bytes acts)) < 2 ^ 64)%Z ->
  writer_run (writer_init pn src dst) acts = Some s -> WriterHandler_flush_check (ws_handle s) = true ->
  (pn + Z.of_nat (ws_packets s) < 2 ^ 64)%Z -> ws_packets s <= MAX_BUFFER_SIZE ->
  ordered_bytes (conn_buff s0) = OrderedBytes_new cid pn ->
  (forall dg, dg ∈ dgs <-> dg ∈ map fst (ws_wire s)) ->
  length (accepted_bytes acts) <= length buf ->
  exists s1 evs r ob',
    inline_task env s0 dgs = (Some s1, evs) /\
    OrderedBytes_consume (ordered_bytes (conn_buff s1)) (length (accepted_bytes acts)) buf =
      Ok (r, ob', accepted_bytes acts ++ drop (length (accepted_bytes acts)) buf) /\
    available ob' = [].
Proof.
  intros Hpn Hsrc Hdst Hu8 Hlen Hrun Hflush Hroom Hfit Hob Hd Hbuf.
  destruct (flushed_wire pn src dst acts s Hpn Hlen Hrun Hflush) as (groups & chunks & Hw & Hp & Hg & Hch & Hc & Hn).
  rewrite Hn in Hroom, Hfit. rewrite Hw in Hd.
  destruct (delivered_to pn src dst groups chunks) with (env := env) (s0 := s0) (cid := cid) (dgs := dgs)
    as (s1 & evs & Htask & Hwf & Hav); try done; [by rewrite Hc|].
  rewrite Hc in Hav.
  destruct (consume_ok (ordered_bytes (conn_buff s1)) (length (accepted_bytes acts)) buf Hwf Hbuf)
    as (r & ob' & k & b & Hr & Hdel & _). pose proof (delivers_available _ _ _ _ Hdel) as Ha.
  rewrite Hav, take_ge in Hr, Ha by done. exists s1, evs, r, ob'. split; [exact Htask|]. split; [exact Hr|].
  rewrite <- (app_nil_r (accepted_bytes acts)) in Ha at 1. by apply app_inv_head in Ha.
Qed.

(** ** Property *)

(** End to end.  Once [flush] lets the sender go on, let every datagram it
    put on the wire reach the peer's receive task, in any order and any number
    of times.  If the peer's buffer starts at the sender's first number and
    the packets fit in it, the receive task takes them all without an error,
    and a read hands the application exactly the bytes that were sent. *)
Theorem stream_delivered pn src dst acts s env s0 cid dgs buf :
  is_u64 pn -> is_u32 src -> is_u32 dst -> Forall is_u8 (accepted_bytes acts) ->
  (Z.of_nat (length (accepted_bytes acts)) < 2 ^ 64)%Z ->
  writer_run (writer_init pn src dst) acts = Some s -> WriterHandler_flush_check (ws_handle s) = true ->
  (pn + Z.of_nat (ws_packets s) < 2 ^ 64)%Z -> ws_packets s <= MAX_BUFFER_SIZE ->
  ordered_bytes (conn_buff s0) = OrderedBytes_new cid pn ->
  (forall dg, dg ∈ dgs <-> dg ∈ map fst (ws_wire s)) ->
  length (accepted_bytes acts) <= length buf ->
  exists s1 evs r ob',
    inline_task env s0 dgs = (Some s1, evs) /\
    OrderedBytes_consume (ordered_bytes (conn_buff s1)) (length (accepted_bytes acts)) buf =
      Ok (r, ob', accepted_bytes acts ++ drop (length (accepted_bytes acts)) buf) /\
    available ob' = [].
Proof. exact (delivered_stream pn src dst acts s env s0 cid dgs buf). Qed.

Lemma stream_delivered_witness :
  exists s1 evs r ob',
    inline_task sample_env (with_conn_buff sample_shared (start_at 9))
      (let dg := datagram (numbered 1 2 9 [[1; 2; 3]%Z]) in [dg; dg]) = (Some s1, evs) /\
    OrderedBytes_consume (ordered_bytes (conn_buff s1)) 3 [0; 0; 0; 0]%Z = Ok (r, ob', [1; 2; 3; 0]%Z) /\
    available ob' = [].
Proof.
  destruct (writer_run (writer_init 9 1 2) small_history) as [s|] eqn:Hrun;
    [|vm_compute in Hrun; discriminate].
  pose proof (stream_delivered 9 1 2 small_history s sample_env (with_conn_buff sample_shared (start_at 9)) 1
    (let dg := datagram (numbered 1 2 9 [[1; 2; 3]%Z]) in [dg; dg]) [0; 0; 0; 0]%Z
    ltac:(int_lia) ltac:(int_lia) ltac:(int_lia)) as H.
  specialize (H ltac:(apply (bool_decide_unpack _); vm_compute; exact I) ltac:(vm_compute; reflexivity) Hrun).
  vm_compute in Hrun. injection Hrun as <-.
  apply H; [reflexivity|cbn; int_lia|apply Nat.leb_le; vm_compute; reflexivity|reflexivity| |simpl; lia].
  intros dg. cbn [ws_wire map fst]. change (datagram _) with (datagram (numbered 1 2 9 [[1; 2; 3]%Z])).
  rewrite !elem_of_cons. tauto.
Defined.
