(* ===== verification/Text.v ===== *)
(** * Text: the parts of Rust's strings the programs use

    A [str] is the list of its code points.  [trim], the decimal parsers of the
    integer types and the formatting of decimal and hexadecimal numbers follow
    the standard library: an optional [+] sign (and [-] for a signed type), at
    least one digit, digits only, and the checked accumulation that refuses a
    number outside the type.  Numbers print and parse back, also with white
    space around them. *)
From stdpp Require Import base numbers list option strings.
From S2P Require Import Prelude.

Definition str : Type := list Z.

(** A string literal of the source. *)
Fixpoint lit (s : string) : str :=
  match s with
  | EmptyString => []
  | String a s' => Z.of_N (Ascii.N_of_ascii a) :: lit s'
  end.

(** ** [str::trim]: the code points with the Unicode property White_Space *)

Definition between (a b c : Z) : bool := (a <=? c)%Z && (c <=? b)%Z.

Definition is_whitespace (c : Z) : bool :=
  between 9 13 c || (c =? 32)%Z || (c =? 133)%Z || (c =? 160)%Z || (c =? 5760)%Z ||
  between 8192 8202 c || between 8232 8233 c || (c =? 8239)%Z || (c =? 8287)%Z ||
  (c =? 12288)%Z.

Fixpoint trim_start (s : str) : str :=
  match s with
  | [] => []
  | c :: s' => if is_whitespace c then trim_start s' else s
  end.

Definition trim (s : str) : str := reverse (trim_start (reverse (trim_start s))).

(** ** Decimal parsing *)

Definition digit_value (c : Z) : option Z := if between 48 57 c then Some (c - 48)%Z else None.

(** One digit: [checked_mul(10)], then [checked_add] (or [checked_sub] for a
    negative number). *)
Definition push_digit (lo hi sgn acc c : Z) : option Z :=
  d ← digit_value c;
  let a := (acc * 10 + sgn * d)%Z in
  if between lo hi a then Some a else None.

Fixpoint parse_digits (lo hi sgn acc : Z) (s : str) : option Z :=
  match s with
  | [] => Some acc
  | c :: s' => a ← push_digit lo hi sgn acc c; parse_digits lo hi sgn a s'
  end.

(** [str::parse] at an integer type with the bounds [lo..=hi]; the type is
    signed when [lo] is negative. *)
Definition parse_int (lo hi : Z) (s : str) : option Z :=
  match s with
  | [] => None
  | c :: s' =>
      if (c =? 43)%Z then match s' with [] => None | _ => parse_digits lo hi 1 0 s' end
      else if (c =? 45)%Z && (lo <? 0)%Z then
        match s' with [] => None | _ => parse_digits lo hi (-1) 0 s' end
      else parse_digits lo hi 1 0 s
  end.

Definition u16_MAX : Z := (2 ^ 16 - 1)%Z.
Definition u64_MAX : Z := (2 ^ 64 - 1)%Z.
Definition i64_MAX : Z := (2 ^ 63 - 1)%Z.

Definition parse_u16 : str -> option Z := parse_int 0 u16_MAX.
Definition parse_u64 : str -> option Z := parse_int 0 u64_MAX.
(** [usize] is 64 bits wide on the platforms the workspace supports. *)
Definition parse_usize : str -> option Z := parse_int 0 u64_MAX.
Definition parse_i64 : str -> option Z := parse_int (- 2 ^ 63) i64_MAX.

(** ** Formatting *)

Definition digit_char (d : Z) : Z := if (d <? 10)%Z then (48 + d)%Z else (87 + d)%Z.

Fixpoint to_digits (base : Z) (fuel : nat) (n : Z) : str :=
  match fuel with
  | O => []
  | S fuel' =>
      if (n <? base)%Z then [digit_char n]
      else to_digits base fuel' (n / base) ++ [digit_char (n mod base)]
  end.

(** Each digit takes at least one bit off the number. *)
Definition digits_of (base n : Z) : str := to_digits base (S (Z.to_nat (Z.log2 n))) n.

(** [{}] of an unsigned integer. *)
Definition fmt_dec (n : Z) : str := digits_of 10 n.

(** Padding: [{:0w}] on the left with zeros, [{:<w}] on the right with
    blanks. *)
Definition pad_left (w : nat) (s : str) : str := replicate (w - length s) 48%Z ++ s.
Definition pad_right (w : nat) (s : str) : str := s ++ replicate (w - length s) 32%Z.

(** [{:x}] and [{:0wx}] *)
Definition fmt_hex (n : Z) : str := digits_of 16 n.
Definition fmt_hex0 (w : nat) (n : Z) : str := pad_left w (fmt_hex n).

(** [Vec<String>::join]. *)
Fixpoint join (sep : str) (l : list str) : str :=
  match l with
  | [] => []
  | [s] => s
  | s :: l' => s ++ sep ++ join sep l'
  end.

(** ** Trimming *)

Lemma trim_start_blank s t : Forall is_whitespace s -> trim_start (s ++ t) = trim_start t.
Proof. induction 1 as [|c s Hc _ IH]; simpl; [done|]. by destruct (is_whitespace c). Qed.

Lemma trim_start_id s :
  match head s with Some c => is_whitespace c = false | None => True end -> trim_start s = s.
Proof. destruct s as [|c s]; simpl; [done|]. by intros ->. Qed.

(** White space around a text that neither begins nor ends with it goes. *)
Lemma trim_around pre s post :
  Forall is_whitespace pre -> Forall is_whitespace post ->
  s <> [] -> Forall (fun c => is_whitespace c = false) s -> trim (pre ++ s ++ post) = s.
Proof.
  intros Hpre Hpost Hs Hc. unfold trim. rewrite trim_start_blank by done.
  rewrite (trim_start_id (s ++ post)).
  2:{ destruct s; [done|]. simpl. by inversion Hc. }
  rewrite reverse_app, trim_start_blank by by apply Forall_reverse.
  rewrite trim_start_id; [by rewrite reverse_involutive|].
  destruct (reverse s) as [|c r] eqn:E; [done|]. simpl.
  apply Forall_reverse in Hc. rewrite E in Hc. by inversion Hc.
Qed.

(** ** Parsing stays in the type and inverts printing *)

Lemma parse_digits_range lo hi sgn s acc v :
  (lo <= acc <= hi)%Z -> parse_digits lo hi sgn acc s = Some v -> (lo <= v <= hi)%Z.
Proof.
  revert acc. induction s as [|c s IH]; intros acc Hacc; simpl.
  - by intros [= <-].
  - unfold push_digit. destruct (digit_value c) as [d|]; simpl; [|done].
    destruct (between lo hi (acc * 10 + sgn * d)) eqn:E; simpl; [|done].
    apply IH. unfold between in E. apply andb_true_iff in E as [?%Z.leb_le ?%Z.leb_le]. lia.
Qed.

Lemma parse_int_range lo hi s v : (lo <= 0 <= hi)%Z -> parse_int lo hi s = Some v -> (lo <= v <= hi)%Z.
Proof.
  intros H0. unfold parse_int. destruct s as [|c s]; [done|].
  destruct (c =? 43)%Z; [destruct s; [done|by apply parse_digits_range]|].
  destruct ((c =? 45)%Z && (lo <? 0)%Z); [destruct s; [done|by apply parse_digits_range]|].
  by apply parse_digits_range.
Qed.

Lemma parse_digits_snoc lo hi sgn s c acc :
  parse_digits lo hi sgn acc (s ++ [c]) =
    (a ← parse_digits lo hi sgn acc s; push_digit lo hi sgn a c).
Proof.
  revert acc. induction s as [|x s IH]; intros acc; simpl.
  - by destruct (push_digit lo hi sgn acc c).
  - destruct (push_digit lo hi sgn acc x); simpl; [apply IH|done].
Qed.

Lemma push_digit_char lo hi acc d :
  (lo <= 0)%Z -> (0 <= acc)%Z -> (0 <= d < 10)%Z -> (acc * 10 + d <= hi)%Z ->
  push_digit lo hi 1 acc (digit_char d) = Some (acc * 10 + d)%Z.
Proof.
  intros Hlo Hacc Hd Hhi. unfold push_digit, digit_char, digit_value, between.
  rewrite (proj2 (Z.ltb_lt d 10)) by lia.
  rewrite (proj2 (Z.leb_le 48 (48 + d))), (proj2 (Z.leb_le (48 + d) 57)) by lia. simpl.
  replace (acc * 10 + _)%Z with (acc * 10 + d)%Z by lia.
  by rewrite (proj2 (Z.leb_le lo _)), (proj2 (Z.leb_le _ hi)) by lia.
Qed.

Lemma parse_to_digits lo hi fuel n :
  (lo <= 0)%Z -> (0 <= n <= hi)%Z -> (n < 2 ^ Z.of_nat fuel)%Z ->
  0 < fuel -> parse_digits lo hi 1 0 (to_digits 10 fuel n) = Some n.
Proof.
  intros Hlo. revert n. induction fuel as [|fuel IH]; intros n Hn Hfuel Hpos; [lia|].
  simpl. destruct (n <? 10)%Z eqn:E; [apply Z.ltb_lt in E|apply Z.ltb_ge in E].
  - simpl. rewrite push_digit_char by lia. simpl. f_equal; lia.
  - rewrite Nat2Z.inj_succ, Z.pow_succ_r in Hfuel by lia.
    assert (n / 10 * 10 + n mod 10 = n)%Z as Hdm by (rewrite (Z.div_mod n 10) at 3; lia).
    assert (0 <= n mod 10 < 10)%Z by (apply Z.mod_pos_bound; lia).
    assert (0 < n / 10)%Z by (apply Z.div_str_pos; lia).
    rewrite parse_digits_snoc, IH.
    + simpl. rewrite push_digit_char by lia. f_equal; lia.
    + split; [lia|]. lia.
    + lia.
    + destruct fuel; [simpl in Hfuel; lia|lia].
Qed.

Lemma log2_fuel n : (0 <= n)%Z -> (n < 2 ^ Z.of_nat (S (Z.to_nat (Z.log2 n))))%Z.
Proof.
  intros Hn. rewrite Nat2Z.inj_succ, Z2Nat.id by apply Z.log2_nonneg.
  destruct (decide (n = 0%Z)) as [->|]; [done|]. apply Z.log2_spec. lia.
Qed.

Definition is_digit (c : Z) : Prop := (48 <= c <= 57)%Z.

Lemma to_digits_digits fuel n : (0 <= n)%Z -> Forall is_digit (to_digits 10 fuel n).
Proof.
  revert n. induction fuel as [|fuel IH]; intros n Hn; simpl; [done|].
  assert (forall d, (0 <= d < 10)%Z -> is_digit (digit_char d)) as Hd.
  { intros d Hd. unfold digit_char, is_digit. rewrite (proj2 (Z.ltb_lt d 10)); lia. }
  destruct (n <? 10)%Z eqn:E; [apply Z.ltb_lt in E|].
  - constructor; [|done]. apply Hd. lia.
  - apply Forall_app. split; [apply IH, Z.div_pos; lia|].
    constructor; [|done]. apply Hd, Z.mod_pos_bound. lia.
Qed.

Lemma to_digits_nonempty base fuel n : to_digits base (S fuel) n <> [].
Proof. simpl. destruct (n <? base)%Z; [done|]. by destruct (to_digits base fuel _). Qed.

Lemma digit_not_whitespace c : is_digit c -> is_whitespace c = false.
Proof. unfold is_digit, is_whitespace, between. intros H. lia. Qed.

(** A number that fits the type survives printing and parsing, white space
    around it included. *)
Lemma parse_fmt_dec lo hi n pre post :
  (lo <= 0)%Z -> (0 <= n <= hi)%Z -> Forall is_whitespace pre -> Forall is_whitespace post ->
  parse_int lo hi (trim (pre ++ fmt_dec n ++ post)) = Some n.
Proof.
  intros Hlo Hn Hpre Hpost.
  assert (Forall is_digit (fmt_dec n)) as Hd by (apply to_digits_digits; lia).
  rewrite trim_around; [|done|done|apply to_digits_nonempty|].
  2:{ eapply Forall_impl; [exact Hd|]. intros c. apply digit_not_whitespace. }
  pose proof (parse_to_digits lo hi (S (Z.to_nat (Z.log2 n))) n Hlo Hn
    (log2_fuel n (proj1 Hn)) ltac:(lia)) as Hp.
  fold (digits_of 10 n) in Hp. fold (fmt_dec n) in Hp.
  destruct (fmt_dec n) as [|c s] eqn:E; [by apply to_digits_nonempty in E|].
  inversion Hd as [|? ? Hc _]. unfold is_digit in Hc. unfold parse_int.
  rewrite (proj2 (Z.eqb_neq c 43)), (proj2 (Z.eqb_neq c 45)) by lia. done.
Qed.

(** Without white space there is nothing to trim. *)
Lemma trim_fmt_dec n : (0 <= n)%Z -> trim (fmt_dec n) = fmt_dec n.
Proof.
  intros Hn. pose proof (trim_around [] (fmt_dec n) []) as H. rewrite app_nil_r in H.
  apply H; [done..|apply to_digits_nonempty|].
  eapply Forall_impl; [by apply to_digits_digits|]. intros c. apply digit_not_whitespace.
Qed.

Lemma parse_fmt_dec_plain lo hi n :
  (lo <= 0)%Z -> (0 <= n <= hi)%Z -> parse_int lo hi (fmt_dec n) = Some n.
Proof.
  intros Hlo Hn. pose proof (parse_fmt_dec lo hi n [] [] Hlo Hn) as H.
  rewrite app_nil_r in H. simpl in H. rewrite trim_fmt_dec in H by lia. by apply H.
Qed.

(** A wider type reads the same number. *)
Lemma parse_digits_widen lo hi hi' sgn s acc v :
  (hi <= hi')%Z -> parse_digits lo hi sgn acc s = Some v -> parse_digits lo hi' sgn acc s = Some v.
Proof.
  intros Hle. revert acc. induction s as [|c s IH]; intros acc; simpl; [done|].
  unfold push_digit. destruct (digit_value c) as [d|]; simpl; [|done].
  unfold between. destruct (_ && _) eqn:E; simpl; [|done].
  apply andb_true_iff in E as [E1 E2%Z.leb_le]. rewrite E1. simpl.
  rewrite (proj2 (Z.leb_le _ hi')) by lia. apply IH.
Qed.

Lemma parse_int_widen lo hi hi' s v :
  (hi <= hi')%Z -> parse_int lo hi s = Some v -> parse_int lo hi' s = Some v.
Proof.
  intros Hle. unfold parse_int. destruct s as [|c s]; [done|].
  destruct (c =? 43)%Z; [destruct s; [done|by apply parse_digits_widen]|].
  destruct (_ && _); [destruct s; [done|by apply parse_digits_widen]|].
  by apply parse_digits_widen.
Qed.

(** A number over the bound of the type is refused. *)
Lemma parse_fmt_dec_overflow lo hi n pre post :
  (lo <= 0 <= hi)%Z -> (hi < n)%Z -> Forall is_whitespace pre -> Forall is_whitespace post ->
  parse_int lo hi (trim (pre ++ fmt_dec n ++ post)) = None.
Proof.
  intros Hlo Hn Hpre Hpost. destruct (parse_int lo hi _) as [v|] eqn:E; [exfalso|done].
  pose proof (parse_int_range lo hi _ _ Hlo E) as Hv.
  apply (parse_int_widen lo hi n) in E; [|lia].
  rewrite parse_fmt_dec in E by (done || lia). simplify_eq. lia.
Qed.
