(* ===== verification/Display.v ===== *)
(** * The text of the reassembly buffer

    Models the [Display] of [OrderedBytes] (src/bluefin/src/net/ordered_bytes.rs)
    and the text of the error for a packet that is there already, which
    OrderedBytes.v abbreviates.  How the [bytes] crate prints a byte string is a
    parameter; that it escapes line breaks is what the theorem relies on. *)
From stdpp Require Import base numbers list option strings.
From S2P Require Import Prelude Proto Header Packet OrderedBytes Text.

Section Display.
(** [{:?}] of a [Bytes]. *)
Context (debug_bytes : bytes -> str).

(** [{:?}] of an [Option]. *)
Definition debug_option (o : option bytes) : str :=
  match o with Some bs => lit "Some(" ++ debug_bytes bs ++ lit ")" | None => lit "None" end.

Definition newline : Z := 10.

(** One slot of the array. *)
Definition slot_text (o : option BluefinPacket) : str :=
  match o with
  | Some p =>
      lit "Some(packet_number: " ++ fmt_dec (packet_number (header p)) ++ lit ", payload: " ++
      debug_bytes (payload p) ++ lit ")" ++ [newline]
  | None => lit "None" ++ [newline]
  end.

Definition packets_str (slots : list (option BluefinPacket)) : str := lit "[" ++ concat (map slot_text slots) ++ lit " ]".

Definition OrderedBytes_fmt (ob : OrderedBytes) : str :=
  lit "(id: " ++ fmt_dec (ob_conn_id ob) ++ lit ", start #: " ++ fmt_dec (smallest_packet_number ob) ++
  lit ", start ix: " ++ fmt_dec (Z.of_nat (smallest_packet_number_index ob)) ++ lit ", buff: " ++
  packets_str (packets ob) ++ lit ", carry_over: " ++ debug_option (carry_over_bytes ob) ++ lit ")".

(** What [buffer_in_packet] says of a packet that is there already. *)
Definition already_buffered (ob : OrderedBytes) (packet_num : Z) (index : nat) : str :=
  lit "(" ++ fmt_dec (ob_conn_id ob) ++ lit ") Already buffered in packet with packet number: " ++ fmt_dec packet_num ++
  lit " @ index " ++ fmt_dec (Z.of_nat index) ++ lit ". DEBUG: " ++ OrderedBytes_fmt ob.

(** ** One line per slot *)

Definition lines (s : str) : nat := length (List.filter (Z.eqb newline) s).

Lemma lines_app s t : lines (s ++ t) = lines s + lines t.
Proof using Type. unfold lines. by rewrite List.filter_app, length_app. Qed.

Lemma lines_dec n : (0 <= n)%Z -> lines (fmt_dec n) = 0.
Proof using Type.
  intros Hn. pose proof (to_digits_digits (S (Z.to_nat (Z.log2 n))) n Hn) as Hd. unfold fmt_dec, digits_of.
  induction Hd as [|c s Hc _ IH]; [done|]. unfold lines in *. cbn [List.filter]. unfold is_digit, newline in *.
  rewrite (proj2 (Z.eqb_neq 10 c)) by lia. exact IH.
Qed.

(** What the crate documents: a line break is printed as an escape. *)
Hypothesis debug_escapes : forall bs, lines (debug_bytes bs) = 0.

Lemma lines_slot o : (forall p, o = Some p -> (0 <= packet_number (header p))%Z) -> lines (slot_text o) = 1.
Proof using debug_escapes.
  intros Hp. destruct o as [p|]; [|done]. unfold slot_text. rewrite !lines_app, debug_escapes, lines_dec by auto. done.
Qed.

Lemma lines_slots slots :
  Forall (fun o => forall p, o = Some p -> (0 <= packet_number (header p))%Z) slots ->
  lines (concat (map slot_text slots)) = length slots.
Proof using debug_escapes.
  induction 1 as [|o slots Ho _ IH]; [done|]. cbn [map concat length]. by rewrite lines_app, IH, lines_slot.
Qed.

(** The text has one line per slot of the array, 2000 in all, whatever is held. *)
Lemma display_lines ob :
  wf_ob ob -> (0 <= ob_conn_id ob)%Z -> lines (OrderedBytes_fmt ob) = MAX_BUFFER_SIZE.
Proof using debug_escapes.
  intros Hwf Hid. pose proof (wf_smallest _ Hwf) as Hs. unfold OrderedBytes_fmt, packets_str.
  rewrite !lines_app, !lines_dec by int_lia. rewrite lines_slots.
  - rewrite (wf_len _ Hwf). unfold debug_option. destruct (carry_over_bytes ob);
      rewrite ?lines_app, ?debug_escapes;
      repeat match goal with |- context [lines (lit ?s)] => change (lines (lit s)) with 0 end; lia.
  - apply Forall_forall. intros o Ho p ->.
    assert (Hin : Some p ∈ slots ob).
    { unfold slots, rotate. rewrite <- (take_drop (smallest_packet_number_index ob) (packets ob)) in Ho.
      rewrite elem_of_app in *. tauto. }
    apply list_elem_of_lookup in Hin as [i Hi]. destruct (wf_slots _ Hwf i p Hi). int_lia.
Qed.
End Display.

(** A printer that escapes everything but letters and digits. *)
Definition hex_bytes (bs : bytes) : str := concat (map (fun b => lit "\x" ++ [digit_char (b / 16 mod 16); digit_char (b mod 16)]) bs).

Lemma hex_bytes_escapes bs : lines (hex_bytes bs) = 0.
Proof.
  assert (Hd : forall d, (0 <= d < 16)%Z -> (newline =? digit_char d)%Z = false).
  { intros d Hd. unfold digit_char, newline. apply Z.eqb_neq. destruct (d <? 10)%Z; lia. }
  unfold hex_bytes. induction bs as [|b bs IH]; [done|]. cbn [map concat]. rewrite lines_app, IH, lines_app.
  unfold lines. cbn [List.filter]. rewrite !Hd by (apply Z.mod_pos_bound; lia). done.
Qed.

Lemma display_lines_witness : lines (OrderedBytes_fmt hex_bytes sample_ob) = MAX_BUFFER_SIZE.
Proof. apply (display_lines hex_bytes hex_bytes_escapes); [apply sample_ob_wf|vm_compute; discriminate]. Defined.
