(* ===== verification/Sys.v ===== *)
(** * System calls: a trace of requests and an oracle of answers

    The socket code of the workspace is a sequence of requests to the operating
    system, each followed by [?].  Here a program is a function from the requests
    made so far to its outcome and the requests made after it; what the system
    answers to a request may depend on all requests before it, and is an argument
    ([os]).  [run_calls] is the reference: ask for the requests of a list in
    order, and stop at the first refusal. *)
From stdpp Require Import base numbers list option strings.
From S2P Require Import Prelude.

(** [std::io::Error]: its kind and the text it prints. *)
Inductive ErrorKind : Type := Interrupted | WouldBlock | Unsupported | OtherKind.

#[export] Instance ErrorKind_eq_dec : EqDecision ErrorKind.
Proof. solve_decision. Defined.

Record io_Error := IoError { io_kind : ErrorKind; io_text : string }.

(** A Rust call that takes the trace along. *)
Definition sys (C E A : Type) : Type := list C -> outcome E A * list C.

Definition sys_ret {C E A : Type} (a : A) : sys C E A := fun t => (Ok a, t).

Definition sys_bind {C E A B : Type} (m : sys C E A) (k : A -> sys C E B) : sys C E B :=
  fun t =>
    match m t with
    | (Ok a, t') => k a t'
    | (Err e, t') => (Err e, t')
    | (Panic, t') => (Panic, t')
    | (NoFuel, t') => (NoFuel, t')
    end.

Notation "'do?' x ':=' m 'in' k" := (sys_bind m (fun x => k))
  (at level 10, x pattern, m at level 100, k at level 200) : rust_scope.

(** [m.unwrap()] *)
Definition sys_unwrap {C E A : Type} (m : sys C E A) : sys C E A :=
  fun t => match m t with (Err _, t') => (Panic, t') | r => r end.

(** [?] on a call whose error type is another: [From] converts. *)
Definition sys_from {C E F A : Type} (from : E -> F) (m : sys C E A) : sys C F A :=
  fun t =>
    match m t with
    | (Ok a, t') => (Ok a, t')
    | (Err e, t') => (Err (from e), t')
    | (Panic, t') => (Panic, t')
    | (NoFuel, t') => (NoFuel, t')
    end.

(** One request. *)
Definition sys_call {C E : Type} (os : list C -> C -> option E) (c : C) : sys C E unit :=
  fun t => (match os t c with None => Ok tt | Some e => Err e end, t ++ [c]).

(** ** The reference *)

Fixpoint run_calls {C E : Type} (os : list C -> C -> option E) (cs : list C) (t : list C) :
    option E * list C :=
  match cs with
  | [] => (None, t)
  | c :: cs' =>
      match os t c with
      | None => run_calls os cs' (t ++ [c])
      | Some e => (Some e, t ++ [c])
      end
  end.

(** What [run_calls] asks for: everything when nothing is refused, and up to and
    including the first request that is refused otherwise. *)
Lemma run_calls_spec {C E : Type} (os : list C -> C -> option E) cs t :
  match run_calls os cs t with
  | (None, t') => t' = t ++ cs /\ forall i c, cs !! i = Some c -> os (t ++ take i cs) c = None
  | (Some e, t') => exists i c, cs !! i = Some c /\ t' = t ++ take (S i) cs /\
      os (t ++ take i cs) c = Some e /\
      forall j d, j < i -> cs !! j = Some d -> os (t ++ take j cs) d = None
  end.
Proof.
  revert t. induction cs as [|c cs IH]; intros t; simpl.
  { split; [by rewrite app_nil_r|]. intros i c; by rewrite lookup_nil. }
  destruct (os t c) as [e|] eqn:Hos.
  { exists 0, c. simpl. rewrite app_nil_r. split_and!; [done..|lia]. }
  specialize (IH (t ++ [c])). destruct (run_calls os cs (t ++ [c])) as [[e|] t'].
  - destruct IH as (i & d & Hi & -> & He & Hno). exists (S i), d.
    rewrite <- !app_assoc in *. simpl in *. split_and!; [done..|].
    intros [|j] d' Hj Hd; simpl in *.
    + simplify_eq. by rewrite app_nil_r.
    + rewrite <- (Hno j d') by (done || lia). by rewrite <- app_assoc.
  - destruct IH as [-> Hno]. split; [by rewrite <- app_assoc|].
    intros [|i] d Hd; simpl in *; [simplify_eq; by rewrite app_nil_r|].
    rewrite <- (Hno i d) by done. by rewrite <- app_assoc.
Qed.

(** The outcome of a program that returns [v] after the requests of a list. *)
Definition ran {C E A : Type} (v : A) (r : option E * list C) : outcome E A * list C :=
  match r with
  | (None, t) => (Ok v, t)
  | (Some e, t) => (Err e, t)
  end.

(** A request followed by the rest of a program is the head of the list the
    program asks for. *)
Lemma sys_call_run {C E A : Type} (os : list C -> C -> option E) c cs (k : sys C E A) (v : A) t :
  (forall t', k t' = ran v (run_calls os cs t')) ->
  sys_bind (sys_call os c) (fun _ => k) t = ran v (run_calls os (c :: cs) t).
Proof. intros Hk. unfold sys_bind, sys_call. simpl. destruct (os t c); [done|apply Hk]. Qed.

Lemma sys_ret_run {C E A : Type} (os : list C -> C -> option E) (v : A) t :
  sys_ret v t = ran v (run_calls os [] t).
Proof. done. Qed.
