(* ===== verification/Io.v ===== *)
(** * The socket crate

    Models src/bluefin-io/src: the errors (error.rs), the option setter
    (socket/mod.rs), the socket with its two builds, plain and [macos_fast]
    (socket/udp_socket.rs), and the writer of ancillary data
    (socket/cmsghdr.rs).

    Answers of the kernel are arguments: an oracle for the calls that set a
    socket up, the list of answers for the calls that are repeated on [EINTR].
    A received message comes with what the kernel left in the buffer and in the
    address.  The value of [MSG_TRUNC], [AF_INET] and the [CMSG_*] macros belong
    to libc and are parameters; what cmsg(3) says of the macros is a class with
    the 64-bit Linux layout as an instance.  A pointer in a message header names
    the variable it points to, so that one into a frame that has returned can be
    told from the others. *)
From stdpp Require Import base numbers list option strings pretty.
From S2P Require Import Prelude Text Sys Close Buffers.

(** ** Errors *)

Inductive BluefinIoError : Type :=
  | IoStdIoError (msg : string)
  | InsufficientBufferSize (msg : string)
  | IoUnsupported (msg : string).

(** [From<std::io::Error>] *)
Definition BluefinIoError_from_io (error : io_Error) : BluefinIoError := IoStdIoError (io_text error).

Abbreviation BluefinIoResult := (outcome BluefinIoError).

(** ** Socket setup *)

Inductive level : Type := SOL_SOCKET | IPPROTO_IP | SOL_UDP.

Inductive optname : Type :=
  | IP_RECVTOS | SO_SNDBUF | SO_RCVBUF | IP_RECVDSTADDR | SO_NOSIGPIPE | IP_PKTINFO | UDP_SEGMENT.

Inductive sock_call : Type :=
  | SocketNew (protocol_udp : bool)
  | SetReuseAddress
  | SetReusePort
  | SetCloexec
  | SetNonblocking
  | SetRecvBufferSize (n : Z)
  | SetSendBufferSize (n : Z)
  | Bind (addr : SocketAddr)
  | Connect (addr : SocketAddr)
  | SetSockOpt (lvl : level) (name : optname) (value : Z)
  | IntoTokio.

Definition kernel : Type := list sock_call -> sock_call -> option io_Error.

Definition MSG_CONTROLLEN : nat := 88.
Definition IOVEC_SIZE : nat := 8.
Definition MAX_CHUNK_SIZE : nat := 1500.
Definition c_int_MAX : Z := (2 ^ 31 - 1)%Z.

(** The environment of the process: [None] when unset or not Unicode. *)
Definition environment : Type := str -> option str.

Definition socket_buf_size_from_env (env : environment) (env_var : str) (default_bytes : Z) : Z :=
  let parsed := s ← env env_var; parse_i64 (trim s) in
  match parsed with
  | Some n => if (0 <? n)%Z && (n <=? c_int_MAX)%Z then n else default_bytes
  | None => default_bytes
  end.

Definition set_sock_opt (os : kernel) (lvl : level) (name : optname) (value : Z) :
    sys sock_call BluefinIoError unit :=
  fun t =>
    (match os t (SetSockOpt lvl name value) with
     | None => Ok tt
     | Some e => Err (IoStdIoError (io_text e))
     end, t ++ [SetSockOpt lvl name value]).

Inductive target : Type := MacOS | Linux | OtherTarget.

#[export] Instance target_eq_dec : EqDecision target.
Proof. solve_decision. Defined.

Local Open Scope rust_scope.

(** [BluefinSocket::new]; the options at the end depend on the target. *)
Definition BluefinSocket_new (tgt : target) (env : environment) (os : kernel) (src_addr : SocketAddr) :
    sys sock_call BluefinIoError unit :=
  let call c := sys_from BluefinIoError_from_io (sys_call os c) in
  do? _ := call (SocketNew true) in
  do? _ := call SetReuseAddress in
  do? _ := call SetReusePort in
  do? _ := call SetCloexec in
  do? _ := call SetNonblocking in
  do? _ := call (Bind src_addr) in
  do? _ := set_sock_opt os IPPROTO_IP IP_RECVTOS 1 in
  let sndbuf := socket_buf_size_from_env env (lit "BLUEFIN_SOCKET_SNDBUF") 524288 in
  let rcvbuf := socket_buf_size_from_env env (lit "BLUEFIN_SOCKET_RCVBUF") 524288 in
  do? _ := set_sock_opt os SOL_SOCKET SO_SNDBUF sndbuf in
  do? _ := set_sock_opt os SOL_SOCKET SO_RCVBUF rcvbuf in
  do? _ := match tgt with
           | MacOS =>
               do? _ := set_sock_opt os IPPROTO_IP IP_RECVDSTADDR 1 in
               set_sock_opt os SOL_SOCKET SO_NOSIGPIPE 1
           | Linux =>
               do? _ := set_sock_opt os IPPROTO_IP IP_PKTINFO 1 in
               set_sock_opt os SOL_UDP UDP_SEGMENT 1500
           | OtherTarget => sys_ret tt
           end in
  do? _ := call IntoTokio in
  sys_ret tt.

(** ** Messages *)

Record BufMetadata := { bm_src_addr : SocketAddr; bm_len : nat }.

Definition BufMetadata_default : BufMetadata := {| bm_src_addr := (0, 0)%Z; bm_len := 0 |}.

Record TransmitData := { td_src_addr : SocketAddr; td_dst_addr : SocketAddr; td_data : bytes }.

Definition TransmitData_new (src_addr dst_addr : SocketAddr) (data : bytes) : TransmitData :=
  {| td_src_addr := src_addr; td_dst_addr := dst_addr; td_data := data |}.

(** What is stored in a [sockaddr_storage]: the family, and the bytes of the
    port and of the address as a [sockaddr_in] lays them out. *)
Record sockaddr_storage := { ss_family : Z; sin_port : bytes; sin_addr : bytes }.

Definition sizeof_sockaddr_storage : nat := 128.

(** What a pointer in a message header points to: the address slot, the buffer,
    the control slot of message [i]; a variable of the caller; or a variable of
    the function that built the header. *)
Inductive ptr : Type :=
  | Null
  | NameSlot (i : nat)
  | BufSlot (i : nat)
  | ControlSlot (i : nat)
  | CallerIov
  | CallerAddr
  | LocalIov
  | LocalControl
  | LocalAddr.

(** [msghdr]; [msg_datalen] is the field that [msghdr_x] adds, and [msg_data]
    what the entry behind [msg_iov] covers. *)
Record msghdr := {
  msg_name : ptr;
  msg_namelen : nat;
  msg_iov : ptr;
  msg_iovlen : nat;
  msg_data : bytes;
  msg_control : ptr;
  msg_controllen : nat;
  msg_flags : Z;
  msg_datalen : nat
}.

Definition msghdr_zeroed : msghdr :=
  {| msg_name := Null; msg_namelen := 0; msg_iov := Null; msg_iovlen := 0; msg_data := [];
     msg_control := Null; msg_controllen := 0; msg_flags := 0; msg_datalen := 0 |}.

(** [init_buf] of the plain build: the control buffer is a local. *)
Definition BluefinSocket_init_buf (buf : bytes) : msghdr :=
  {| msg_name := NameSlot 0; msg_namelen := sizeof_sockaddr_storage;
     msg_iov := BufSlot 0; msg_iovlen := 1; msg_data := buf;
     msg_control := LocalControl; msg_controllen := MSG_CONTROLLEN;
     msg_flags := 0; msg_datalen := 0 |}.

(** [init_buf] of the fast build, for message [ix]: [msg_controllen] is assigned
    twice. *)
Definition BluefinSocket_init_buf_x (ix : nat) (buf : bytes) (h : msghdr) : msghdr :=
  let h := {| msg_name := NameSlot ix; msg_namelen := sizeof_sockaddr_storage;
              msg_iov := BufSlot ix; msg_iovlen := 1; msg_data := buf;
              msg_control := ControlSlot ix; msg_controllen := MSG_CONTROLLEN;
              msg_flags := 0; msg_datalen := msg_datalen h |} in
  {| msg_name := msg_name h; msg_namelen := msg_namelen h; msg_iov := msg_iov h;
     msg_iovlen := msg_iovlen h; msg_data := msg_data h; msg_control := msg_control h;
     msg_controllen := length buf; msg_flags := msg_flags h; msg_datalen := msg_datalen h |}.

(** [init_buf_for_send] of the plain build; [dst_len] is [dst_addr.len()]. *)
Definition BluefinSocket_init_buf_for_send (dst_len : nat) (transmit_data : TransmitData)
    (h : msghdr) : msghdr :=
  {| msg_name := CallerAddr; msg_namelen := dst_len; msg_iov := CallerIov; msg_iovlen := 1;
     msg_data := td_data transmit_data; msg_control := Null; msg_controllen := 0;
     msg_flags := msg_flags h; msg_datalen := msg_datalen h |}.

(** [init_buf_for_send] of the fast build: the header it returns points to its
    own [msg_iov], [msg_control] and [dst_addr]. *)
Definition BluefinSocket_init_buf_for_send_x (dst_len : nat) (transmit_data : TransmitData) : msghdr :=
  {| msg_name := LocalAddr; msg_namelen := dst_len; msg_iov := LocalIov; msg_iovlen := 1;
     msg_data := td_data transmit_data; msg_control := LocalControl;
     msg_controllen := MSG_CONTROLLEN; msg_flags := 0; msg_datalen := 0 |}.

(** ** Sending *)

(** What one [sendmsg] answers. *)
Inductive send_answer : Type :=
  | SendOk (n : nat)
  | SendErr (e : io_Error).

(** The loop around [sendmsg]: returns the number of the answer it ends with. *)
Fixpoint send_loop (answers : list send_answer) : BluefinIoResult nat * list send_answer :=
  match answers with
  | [] => (NoFuel, [])
  | SendOk n :: rest => (Ok n, rest)
  | SendErr e :: rest =>
      if decide (io_kind e = Interrupted) then send_loop rest
      else (Err (BluefinIoError_from_io e), rest)
  end.

(** [send_to] of the plain build: the header given to the kernel, the result and
    the answers not asked for. *)
Definition BluefinSocket_send_to (dst_len : nat) (transmit_data : TransmitData)
    (answers : list send_answer) : msghdr * BluefinIoResult nat * list send_answer :=
  let h := BluefinSocket_init_buf_for_send dst_len transmit_data msghdr_zeroed in
  let '(r, rest) := send_loop answers in
  (h, outcome_map (fun _ => 1) r, rest).

(** [send_to] of the fast build: one header per chunk, eight at most. *)
Definition send_headers_x (dst_len : nat) (transmit_data : TransmitData) : list msghdr :=
  map (fun bytes => BluefinSocket_init_buf_for_send_x dst_len
                      (TransmitData_new (td_src_addr transmit_data) (td_dst_addr transmit_data) bytes))
    (take IOVEC_SIZE (chunks MAX_CHUNK_SIZE (td_data transmit_data))).

Definition BluefinSocket_send_to_x (dst_len : nat) (transmit_data : TransmitData)
    (answers : list send_answer) : list msghdr * BluefinIoResult nat * list send_answer :=
  let hs := send_headers_x dst_len transmit_data in
  let '(r, rest) := send_loop answers in
  (hs, r, rest).

(** ** Receiving *)

Section Receive.
  Context (MSG_TRUNC AF_INET : Z).

(** What one [recvmsg] answers: the length it returns, the flags it sets, and
    what it leaves in the address and in the buffer. *)
Inductive recv_answer : Type :=
  | RecvMsg (n : nat) (flags : Z) (name : sockaddr_storage) (buf : bytes)
  | RecvErr (e : io_Error).

Definition BluefinSocket_get_metadata_buf (msg_name : sockaddr_storage) (len : nat) :
    BluefinIoResult BufMetadata :=
  if (ss_family msg_name =? AF_INET)%Z then
    Ok {| bm_src_addr := (from_be_bytes (sin_addr msg_name), from_be_bytes (sin_port msg_name));
          bm_len := len |}
  else Err (IoStdIoError ("Unknown ss_family received: " +:+ pretty (ss_family msg_name))).

(** The loop around [recvmsg], with what is in the buffer after each call. *)
Fixpoint recv_loop (buf : bytes) (answers : list recv_answer) :
    BluefinIoResult (nat * sockaddr_storage) * bytes * list recv_answer :=
  match answers with
  | [] => (NoFuel, buf, [])
  | RecvErr e :: rest =>
      if decide (io_kind e = Interrupted) then recv_loop buf rest
      else (Err (BluefinIoError_from_io e), buf, rest)
  | RecvMsg n flags name buf' :: rest =>
      if (Z.land flags MSG_TRUNC =? 0)%Z then (Ok (n, name), buf', rest)
      else recv_loop buf' rest
  end.

(** [poll_recv_impl] of the plain build. *)
Definition BluefinSocket_poll_recv_impl (bufs : list bytes) (metadata_bufs : list BufMetadata)
    (answers : list recv_answer) :
    BluefinIoResult nat * list bytes * list BufMetadata * list recv_answer :=
  match bufs with
  | [] => (Panic, bufs, metadata_bufs, answers)
  | buf :: bufs_rest =>
      let '(r, buf', rest) := recv_loop (msg_data (BluefinSocket_init_buf buf)) answers in
      let bufs' := buf' :: bufs_rest in
      match r with
      | Ok (num_bytes, name) =>
          match BluefinSocket_get_metadata_buf name num_bytes with
          | Ok m =>
              match metadata_bufs with
              | [] => (Panic, bufs', metadata_bufs, rest)
              | _ :: ms => (Ok 1, bufs', m :: ms, rest)
              end
          | Err e => (Err e, bufs', metadata_bufs, rest)
          | Panic => (Panic, bufs', metadata_bufs, rest)
          | NoFuel => (NoFuel, bufs', metadata_bufs, rest)
          end
      | Err e => (Err e, bufs', metadata_bufs, rest)
      | Panic => (Panic, bufs', metadata_bufs, rest)
      | NoFuel => (NoFuel, bufs', metadata_bufs, rest)
      end
  end.

(** What [recvmsg_x] answers: for each message it received its length, its
    address and what it left in its buffer. *)
Inductive recv_x_answer : Type :=
  | RecvXMsgs (msgs : list (nat * sockaddr_storage * bytes))
  | RecvXErr (e : io_Error).

Fixpoint recv_x_loop (answers : list recv_x_answer) :
    BluefinIoResult (list (nat * sockaddr_storage * bytes)) * list recv_x_answer :=
  match answers with
  | [] => (NoFuel, [])
  | RecvXErr e :: rest =>
      if decide (io_kind e = Interrupted) then recv_x_loop rest
      else (Err (BluefinIoError_from_io e), rest)
  | RecvXMsgs msgs :: rest => (Ok msgs, rest)
  end.

(** [for ix in 0..num_messages: metadata_bufs[ix] = get_metadata_buf(&msg_names[ix], ..)?];
    the arrays on the right have [IOVEC_SIZE] entries. *)
Fixpoint fill_metadata (ix : nat) (msgs : list (nat * sockaddr_storage * bytes))
    (metadata_bufs : list BufMetadata) : BluefinIoResult unit * list BufMetadata :=
  match msgs with
  | [] => (Ok tt, metadata_bufs)
  | (len, name, _) :: msgs' =>
      match BluefinSocket_get_metadata_buf name len with
      | Ok m =>
          if decide (ix < IOVEC_SIZE /\ ix < length metadata_bufs) then
            fill_metadata (S ix) msgs' (<[ix := m]> metadata_bufs)
          else (Panic, metadata_bufs)
      | Err e => (Err e, metadata_bufs)
      | Panic => (Panic, metadata_bufs)
      | NoFuel => (NoFuel, metadata_bufs)
      end
  end.

(** The headers [poll_recv_impl] of the fast build hands to [recvmsg_x]. *)
Definition recv_headers_x (bufs : list bytes) : list msghdr :=
  imap (fun ix buf => BluefinSocket_init_buf_x ix buf msghdr_zeroed)
    (take (Nat.min (length bufs) IOVEC_SIZE) bufs).

Definition BluefinSocket_poll_recv_impl_x (bufs : list bytes) (metadata_bufs : list BufMetadata)
    (answers : list recv_x_answer) :
    list msghdr * BluefinIoResult nat * list bytes * list BufMetadata * list recv_x_answer :=
  let hs := recv_headers_x bufs in
  let '(r, rest) := recv_x_loop answers in
  match r with
  | Ok msgs =>
      let bufs' := map (fun m => snd m) msgs ++ drop (length msgs) bufs in
      let '(r', ms) := fill_metadata 0 msgs metadata_bufs in
      (hs, outcome_map (fun _ => 1) r', bufs', ms, rest)
  | Err e => (hs, Err e, bufs, metadata_bufs, rest)
  | Panic => (hs, Panic, bufs, metadata_bufs, rest)
  | NoFuel => (hs, NoFuel, bufs, metadata_bufs, rest)
  end.

(** [poll_recv] (plain build).  [ready] is what [poll_recv_ready] answers; it
    registers the waker exactly when it answers that the socket is not ready. *)
Definition BluefinSocket_poll_recv (ready : bool) (waker : Waker) (registered : option Waker)
    (bufs : list bytes) (metadata_bufs : list BufMetadata) (answers : list recv_answer) :
    BluefinIoResult (Poll nat) * option Waker * list bytes * list BufMetadata * list recv_answer :=
  if negb ready then (Ok Pending, Some waker, bufs, metadata_bufs, answers)
  else
    let '(r, bufs', ms, rest) := BluefinSocket_poll_recv_impl bufs metadata_bufs answers in
    match r with
    | Ok num_msgs => (Ok (Ready num_msgs), registered, bufs', ms, rest)
    | Err _ => (Ok Pending, registered, bufs', ms, rest)
    | Panic => (Panic, registered, bufs', ms, rest)
    | NoFuel => (NoFuel, registered, bufs', ms, rest)
    end.

End Receive.

(** ** Properties of the setup *)

Lemma sys_from_call {C E F : Type} (from : E -> F) (os : list C -> C -> option E) c t :
  sys_from from (sys_call os c) t = sys_call (fun t c => from <$> os t c) c t.
Proof. unfold sys_from, sys_call. by destruct (os t c). Qed.

(** What [BluefinSocket::new] asks for, in order. *)
Definition socket_calls (tgt : target) (env : environment) (src_addr : SocketAddr) : list sock_call :=
  [SocketNew true; SetReuseAddress; SetReusePort; SetCloexec; SetNonblocking; Bind src_addr;
   SetSockOpt IPPROTO_IP IP_RECVTOS 1;
   SetSockOpt SOL_SOCKET SO_SNDBUF (socket_buf_size_from_env env (lit "BLUEFIN_SOCKET_SNDBUF") 524288);
   SetSockOpt SOL_SOCKET SO_RCVBUF (socket_buf_size_from_env env (lit "BLUEFIN_SOCKET_RCVBUF") 524288)] ++
  match tgt with
  | MacOS => [SetSockOpt IPPROTO_IP IP_RECVDSTADDR 1; SetSockOpt SOL_SOCKET SO_NOSIGPIPE 1]
  | Linux => [SetSockOpt IPPROTO_IP IP_PKTINFO 1; SetSockOpt SOL_UDP UDP_SEGMENT 1500]
  | OtherTarget => []
  end ++ [IntoTokio].

(** Runs a program and its reference along until the answer [os] gives next. *)
Ltac step_os os :=
  repeat (simpl; match goal with
    | |- context [match os ?u ?c with _ => _ end] => destruct (os u c); simpl; [done|]
    | |- context [_ <$> os ?u ?c] => destruct (os u c); simpl; [done|]
    end).

Lemma BluefinSocket_new_runs tgt env os src_addr t :
  BluefinSocket_new tgt env os src_addr t =
    ran tt (run_calls (fun t c => BluefinIoError_from_io <$> os t c) (socket_calls tgt env src_addr) t).
Proof.
  unfold BluefinSocket_new, socket_calls, sys_bind, set_sock_opt, sys_from, sys_call, sys_ret.
  cbv zeta. step_os os. destruct tgt; step_os os; done.
Qed.

(** [BluefinSocket::new] returns a socket exactly when the kernel accepts
    every request of the list [socket_calls] (socket, options, bind, the buffer
    sizes of the environment, the options of the target), which are then the
    requests made; otherwise it returns the first refusal, with the kernel's
    text, and asks for nothing after it. *)
Theorem socket_setup tgt env os src_addr :
  let cs := socket_calls tgt env src_addr in
  (BluefinSocket_new tgt env os src_addr [] = (Ok tt, cs) /\
   forall i c, cs !! i = Some c -> os (take i cs) c = None) \/
  (exists i c e, cs !! i = Some c /\ os (take i cs) c = Some e /\
     (forall j d, j < i -> cs !! j = Some d -> os (take j cs) d = None) /\
     BluefinSocket_new tgt env os src_addr [] = (Err (IoStdIoError (io_text e)), take (S i) cs)).
Proof.
  cbv zeta. rewrite BluefinSocket_new_runs.
  pose proof (run_calls_spec (fun t c => BluefinIoError_from_io <$> os t c)
    (socket_calls tgt env src_addr) []) as H.
  destruct (run_calls _ _ _) as [[e|] t']; [right|left].
  - destruct H as (i & c & Hi & -> & He & Hno).
    destruct (os ([] ++ take i (socket_calls tgt env src_addr)) c) as [e'|] eqn:Hos; simplify_eq/=.
    exists i, c, e'. split_and!; [done..| |done].
    intros j d Hj Hd. specialize (Hno j d Hj Hd). by apply fmap_None in Hno.
  - destruct H as [-> Hno]. split; [done|]. intros i c Hc.
    specialize (Hno i c Hc). by apply fmap_None in Hno.
Qed.

(** The buffer size taken from the environment is a positive [c_int]
    whatever the variable holds; a number in decimal, with white space around it,
    is taken when it is one and replaced by the default when it is zero or does
    not fit; an unset variable gives the default. *)
Theorem buf_size_from_env env var default_bytes :
  (0 < default_bytes <= c_int_MAX)%Z ->
  (0 < socket_buf_size_from_env env var default_bytes <= c_int_MAX)%Z /\
  (env var = None -> socket_buf_size_from_env env var default_bytes = default_bytes) /\
  (forall pre n post, env var = Some (pre ++ fmt_dec n ++ post) -> (0 <= n)%Z ->
     Forall is_whitespace pre -> Forall is_whitespace post ->
     socket_buf_size_from_env env var default_bytes =
       if decide (0 < n <= c_int_MAX)%Z then n else default_bytes).
Proof.
  intros Hd. unfold socket_buf_size_from_env. split; [|split].
  - destruct (s ← env var; parse_i64 (trim s)) as [n|]; [|done].
    destruct ((0 <? n)%Z && (n <=? c_int_MAX)%Z) eqn:H; lia.
  - intros ->. done.
  - intros pre n post -> Hn Hpre Hpost. simpl. unfold parse_i64.
    destruct (decide (n <= i64_MAX)%Z).
    + rewrite parse_fmt_dec by (done || unfold i64_MAX in *; lia).
      destruct (decide (0 < n <= c_int_MAX)%Z); destruct (_ && _) eqn:H; lia.
    + rewrite parse_fmt_dec_overflow by (done || unfold i64_MAX in *; lia).
      rewrite decide_False; [done|]. unfold i64_MAX, c_int_MAX in *. lia.
Qed.

Lemma buf_size_from_env_witness :
  socket_buf_size_from_env (fun _ => Some (lit " 8388608 ")) (lit "BLUEFIN_SOCKET_SNDBUF") 524288 = 8388608%Z.
Proof.
  destruct (buf_size_from_env (fun _ => Some (lit " 8388608 ")) (lit "BLUEFIN_SOCKET_SNDBUF") 524288)
    as (_ & _ & H); [unfold c_int_MAX; lia|].
  exact (H (lit " ") 8388608%Z (lit " ") eq_refl ltac:(lia) ltac:(by repeat constructor)
    ltac:(by repeat constructor)).
Defined.

(** ** Receiving and sending *)

(** An answer that makes the receive loop go round again. *)
Definition recv_skips (MSG_TRUNC : Z) (a : recv_answer) : Prop :=
  match a with
  | RecvErr e => io_kind e = Interrupted
  | RecvMsg _ flags _ _ => Z.land flags MSG_TRUNC <> 0%Z
  end.

(** What the buffer holds after answers that were skipped. *)
Definition recv_scratch (buf : bytes) (skipped : list recv_answer) : bytes :=
  foldl (fun b a => match a with RecvMsg _ _ _ b' => b' | RecvErr _ => b end) buf skipped.

Lemma recv_loop_skips MSG_TRUNC buf skipped rest :
  Forall (recv_skips MSG_TRUNC) skipped ->
  recv_loop MSG_TRUNC buf (skipped ++ rest) = recv_loop MSG_TRUNC (recv_scratch buf skipped) rest.
Proof.
  intros H. revert buf. induction H as [|a l Ha _ IH]; intros buf; [done|].
  destruct a as [n flags name b|e]; simpl in *.
  - rewrite (proj2 (Z.eqb_neq _ _) Ha). apply IH.
  - rewrite decide_True by done. apply IH.
Qed.

(** [poll_recv_impl] passes over interrupted calls and messages the kernel
    truncated; the first other answer decides.  A message from an IPv4 address
    is reported as one message with its length and its address, the bytes of the
    address in network order, and leaves the other buffers and entries alone; one
    of another family and every other error is the error returned, with the
    entries unchanged. *)
Theorem recv_first_whole_message MSG_TRUNC AF_INET buf bufs m ms skipped rest :
  Forall (recv_skips MSG_TRUNC) skipped ->
  (forall n flags name b, Z.land flags MSG_TRUNC = 0%Z ->
     BluefinSocket_poll_recv_impl MSG_TRUNC AF_INET (buf :: bufs) (m :: ms)
         (skipped ++ RecvMsg n flags name b :: rest) =
       if decide (ss_family name = AF_INET) then
         (Ok 1, b :: bufs,
          {| bm_src_addr := (from_be_bytes (sin_addr name), from_be_bytes (sin_port name));
             bm_len := n |} :: ms, rest)
       else (Err (IoStdIoError ("Unknown ss_family received: " +:+ pretty (ss_family name))),
             b :: bufs, m :: ms, rest)) /\
  (forall e, io_kind e <> Interrupted ->
     BluefinSocket_poll_recv_impl MSG_TRUNC AF_INET (buf :: bufs) (m :: ms)
         (skipped ++ RecvErr e :: rest) =
       (Err (IoStdIoError (io_text e)), recv_scratch buf skipped :: bufs, m :: ms, rest)).
Proof.
  intros Hs. unfold BluefinSocket_poll_recv_impl. cbn [BluefinSocket_init_buf msg_data]. split.
  - intros n flags name b Hf. rewrite recv_loop_skips by done. simpl. rewrite Hf. simpl.
    unfold BluefinSocket_get_metadata_buf.
    destruct (decide (ss_family name = AF_INET)) as [E|E].
    + by rewrite (proj2 (Z.eqb_eq _ _) E).
    + by rewrite (proj2 (Z.eqb_neq _ _) E).
  - intros e He. rewrite recv_loop_skips by done. simpl. by rewrite decide_False.
Qed.

Lemma recv_first_whole_message_witness :
  BluefinSocket_poll_recv_impl 32 2 [[0; 0; 0]]%Z [BufMetadata_default]
      [RecvErr (IoError Interrupted EmptyString); RecvMsg 3 32 (Build_sockaddr_storage 2 [] []) [9; 9; 9]%Z;
       RecvMsg 2 0 (Build_sockaddr_storage 2 [5; 38]%Z [127; 0; 0; 1]%Z) [7; 8; 9]%Z] =
    (Ok 1, [[7; 8; 9]%Z], [{| bm_src_addr := (2130706433, 1318)%Z; bm_len := 2 |}], []).
Proof.
  destruct (recv_first_whole_message 32 2 [0; 0; 0]%Z [] BufMetadata_default []
    [RecvErr (IoError Interrupted EmptyString); RecvMsg 3 32 (Build_sockaddr_storage 2 [] []) [9; 9; 9]%Z] [])
    as [H _]; [repeat constructor; done|].
  exact (H 2 0%Z (Build_sockaddr_storage 2 [5; 38]%Z [127; 0; 0; 1]%Z) [7; 8; 9]%Z eq_refl).
Defined.

(** The loop around [sendmsg] and [sendmsg_x] tries again exactly on
    interruptions. *)
Lemma send_loop_spec interrupted a rest :
  Forall (fun x => exists e, x = SendErr e /\ io_kind e = Interrupted) interrupted ->
  send_loop (interrupted ++ a :: rest) = send_loop (a :: rest).
Proof.
  induction 1 as [|x l (e & -> & He) _ IH]; [done|]. simpl. rewrite decide_True by done. apply IH.
Qed.

(** *** Which headers the kernel can use *)

(** A pointer into the frame of a function that has returned. *)
Definition dangling (p : ptr) : bool :=
  match p with LocalIov | LocalControl | LocalAddr => true | _ => false end.

(** How much memory there is behind a control pointer. *)
Definition control_capacity (p : ptr) : nat :=
  match p with ControlSlot _ => MSG_CONTROLLEN | _ => 0 end.

(** A header is usable when nothing in it dangles and the control length it
    promises is there. *)
Definition usable (h : msghdr) : bool :=
  negb (dangling (msg_name h)) && negb (dangling (msg_iov h)) && negb (dangling (msg_control h)) &&
  (msg_controllen h <=? control_capacity (msg_control h)).

Lemma concat_take_chunks {A : Type} k n (l : list A) :
  0 < n -> concat (take k (chunks n l)) = take (k * n) l.
Proof.
  intros Hn. revert l. induction k as [|k IH]; intros l; [done|].
  destruct (decide (l = [])) as [->|Hl]; [by rewrite chunks_nil, !take_nil|].
  rewrite chunks_step by done. simpl. by rewrite IH, take_take_drop.
Qed.

(** Of the headers handed to the kernel, the one [send_to] of the plain
    build makes is usable and covers the whole data.  The others are not: the
    receiving header promises 88 bytes of control data in a frame that is gone;
    the fast one promises as much control data as the receive buffer is long, so
    that it is usable exactly for a buffer of at most 88 bytes; the fast sending
    headers point to locals of the function that made them, and cover the first
    12,000 bytes only. *)
Theorem message_headers dst_len td answers buf ix bufs :
  (let '(h, _, _) := BluefinSocket_send_to dst_len td answers in
   usable h = true /\ msg_data h = td_data td) /\
  usable (BluefinSocket_init_buf buf) = false /\
  usable (BluefinSocket_init_buf_x ix buf msghdr_zeroed) = bool_decide (length buf <= 88) /\
  length (recv_headers_x bufs) = Nat.min (length bufs) 8 /\
  (let '(hs, _, _) := BluefinSocket_send_to_x dst_len td answers in
   Forall (fun h => usable h = false) hs /\
   concat (map msg_data hs) = take (8 * 1500) (td_data td)).
Proof.
  split_and!.
  - unfold BluefinSocket_send_to. destruct (send_loop answers). done.
  - done.
  - unfold usable, BluefinSocket_init_buf_x. simpl. unfold MSG_CONTROLLEN.
    destruct (Nat.leb_spec (length buf) 88); case_bool_decide; (done || lia).
  - unfold recv_headers_x, IOVEC_SIZE. rewrite length_imap, length_take. lia.
  - unfold BluefinSocket_send_to_x, send_headers_x. destruct (send_loop answers). split.
    + apply Forall_map, Forall_true. done.
    + rewrite map_map. cbn [msg_data BluefinSocket_init_buf_for_send_x td_data TransmitData_new].
      rewrite map_id, concat_take_chunks by (unfold MAX_CHUNK_SIZE; lia). done.
Qed.

(** An error is reported as [Pending] with the registration as it was: a task
    that polls a ready socket and meets one is not woken again by it. *)
Lemma poll_recv_error_keeps_registration MSG_TRUNC AF_INET waker registered buf bufs m ms e rest :
  io_kind e <> Interrupted ->
  BluefinSocket_poll_recv MSG_TRUNC AF_INET true waker registered (buf :: bufs) (m :: ms) (RecvErr e :: rest) =
    (Ok Pending, registered, buf :: bufs, m :: ms, rest).
Proof.
  intros He. unfold BluefinSocket_poll_recv, BluefinSocket_poll_recv_impl. simpl.
  by rewrite decide_False.
Qed.
