(* ===== verification/Cmsg.v ===== *)
(** * Ancillary data

    Models src/bluefin-io/src/socket/cmsghdr.rs: [CmsghdrBufferHandler] appends
    control messages to the control buffer of a message header.  The [CMSG_*]
    macros and the layout of [cmsghdr] belong to libc; [CmsgMacros] names them
    and [CmsgLaws] states what cmsg(3) documents: where the first header, the data
    and the next header are, and when there is none.  The 64-bit Linux layout is
    an instance.  The buffer is the list of its bytes; a header is written with
    [cmsghdr_repr], and a write outside the buffer would be a [Panic]. *)
From stdpp Require Import base numbers list option strings.
From S2P Require Import Prelude Io.

Class CmsgMacros : Type := {
  sizeof_cmsghdr : nat;
  cmsghdr_repr : nat -> Z -> Z -> bytes;
  CMSG_SPACE : nat -> nat;
  CMSG_LEN : nat -> nat;
  CMSG_DATA : nat -> nat;
  CMSG_FIRSTHDR : nat -> option nat;
  CMSG_NXTHDR : bytes -> nat -> option nat
}.

(** cmsg(3).  [CMSG_NXTHDR] looks at the header it is given, and needs what comes
    after its message to be zero. *)
Class CmsgLaws (M : CmsgMacros) : Prop := {
  length_cmsghdr_repr : forall len lvl typ, length (cmsghdr_repr len lvl typ) = sizeof_cmsghdr;
  CMSG_LEN_data : forall n, CMSG_LEN n = CMSG_LEN 0 + n;
  CMSG_LEN_header : sizeof_cmsghdr <= CMSG_LEN 0;
  CMSG_SPACE_LEN : forall n, CMSG_LEN n <= CMSG_SPACE n;
  CMSG_DATA_offset : forall off, CMSG_DATA off = off + CMSG_LEN 0;
  CMSG_FIRSTHDR_room : forall total,
    CMSG_FIRSTHDR total = if decide (sizeof_cmsghdr <= total) then Some 0 else None;
  CMSG_NXTHDR_room : forall pre len lvl typ mid rest n,
    is_u64 (Z.of_nat len) -> len = CMSG_LEN n ->
    length (cmsghdr_repr len lvl typ ++ mid) = CMSG_SPACE n ->
    CMSG_NXTHDR (pre ++ (cmsghdr_repr len lvl typ ++ mid) ++ replicate rest 0%Z) (length pre) =
      if decide (sizeof_cmsghdr <= rest) then Some (length pre + CMSG_SPACE n) else None
}.

Section Handler.
  Context {M : CmsgMacros}.

(** The control buffer behind [src_msghdr] and the fields of the handler. *)
Record CmsghdrBufferHandler := {
  ch_control : bytes;
  cmsghdr_ptr : option nat;
  ch_size : nat;
  total_bytes : nat
}.

Definition CmsghdrBufferHandler_new (control : bytes) : CmsghdrBufferHandler :=
  {| ch_control := control; cmsghdr_ptr := CMSG_FIRSTHDR (length control); ch_size := 0;
     total_bytes := length control |}.

Definition CmsghdrBufferHandler_append (h : CmsghdrBufferHandler) (cmsg_level cmsg_type : Z)
    (cmsg_data : bytes) : BluefinIoResult unit * CmsghdrBufferHandler :=
  let val_size := CMSG_SPACE (length cmsg_data) in
  if total_bytes h <? ch_size h + val_size then
    (Err (InsufficientBufferSize
            "Could not add value to ancillary data as data exceeds available free space"), h)
  else
    match cmsghdr_ptr h with
    | None => (Panic, h)
    | Some off =>
        let r := outcome_bind
                   (buf_write (ch_control h) off
                      (cmsghdr_repr (CMSG_LEN (length cmsg_data)) cmsg_level cmsg_type))
                   (fun control => buf_write control (CMSG_DATA off) cmsg_data) in
        match r with
        | Ok control =>
            (Ok tt, {| ch_control := control; cmsghdr_ptr := CMSG_NXTHDR control off;
                       ch_size := ch_size h + val_size; total_bytes := total_bytes h |})
        | Err e => (Err e, h)
        | Panic => (Panic, h)
        | NoFuel => (NoFuel, h)
        end
    end.

(** A control message, and appending a list of them, errors ignored. *)
Definition cmsg : Type := Z * Z * bytes.

Fixpoint append_all (h : CmsghdrBufferHandler) (ms : list cmsg) :
    list (BluefinIoResult unit) * CmsghdrBufferHandler :=
  match ms with
  | [] => ([], h)
  | (lvl, typ, data) :: ms' =>
      let '(r, h') := CmsghdrBufferHandler_append h lvl typ data in
      let '(rs, h'') := append_all h' ms' in
      (r :: rs, h'')
  end.

(** ** The specification *)

(** A message in the buffer: header, padding, data, padding. *)
Definition cmsg_image (m : cmsg) : bytes :=
  let '(lvl, typ, data) := m in
  cmsghdr_repr (CMSG_LEN (length data)) lvl typ ++
  replicate (CMSG_LEN 0 - sizeof_cmsghdr) 0%Z ++ data ++
  replicate (CMSG_SPACE (length data) - CMSG_LEN (length data)) 0%Z.

(** The messages of a list that fit, taken greedily from the free space. *)
Fixpoint fitting (room : nat) (ms : list cmsg) : list cmsg :=
  match ms with
  | [] => []
  | m :: ms' =>
      let need := CMSG_SPACE (length m.2) in
      if room <? need then fitting room ms' else m :: fitting (room - need) ms'
  end.

(** Which of them fit. *)
Fixpoint fits (room : nat) (ms : list cmsg) : list bool :=
  match ms with
  | [] => []
  | m :: ms' =>
      let need := CMSG_SPACE (length m.2) in
      if room <? need then false :: fits room ms' else true :: fits (room - need) ms'
  end.

(** Between calls: the messages accepted one after the other, zeros behind them,
    and the pointer behind the last message whenever a header fits there. *)
Definition ch_inv (total : nat) (ms : list cmsg) (h : CmsghdrBufferHandler) : Prop :=
  let used := concat (map cmsg_image ms) in
  total_bytes h = total /\ ch_size h = length used /\ length used <= total /\
  ch_control h = used ++ replicate (total - length used) 0%Z /\
  cmsghdr_ptr h = if decide (sizeof_cmsghdr <= total - length used) then Some (length used) else None.

  Context {L : CmsgLaws M}.

Lemma length_cmsg_image m : length (cmsg_image m) = CMSG_SPACE (length m.2).
Proof.
  destruct m as [[lvl typ] data]. unfold cmsg_image. simpl.
  rewrite !length_app, !length_replicate, length_cmsghdr_repr.
  pose proof CMSG_LEN_header. pose proof (CMSG_SPACE_LEN (length data)).
  pose proof (CMSG_LEN_data (length data)). lia.
Qed.

(** The two writes of [append] put the image of the message over zeros. *)
Lemma write_cmsg {E : Type} pre R lvl typ data :
  CMSG_SPACE (length data) <= R ->
  outcome_bind
    (buf_write (E := E) (pre ++ replicate R 0%Z) (length pre)
       (cmsghdr_repr (CMSG_LEN (length data)) lvl typ))
    (fun control => buf_write control (CMSG_DATA (length pre)) data) =
  Ok (pre ++ cmsg_image (lvl, typ, data) ++ replicate (R - CMSG_SPACE (length data)) 0%Z).
Proof.
  intros HR. pose proof CMSG_LEN_header as H0. pose proof (CMSG_SPACE_LEN (length data)) as H1.
  pose proof (CMSG_LEN_data (length data)) as H2.
  rewrite buf_write_prefix by (rewrite ?length_replicate, ?length_cmsghdr_repr; lia). simpl.
  rewrite drop_replicate, length_cmsghdr_repr.
  replace (R - sizeof_cmsghdr) with ((CMSG_LEN 0 - sizeof_cmsghdr) + (R - CMSG_LEN 0)) by lia.
  rewrite replicate_add, app_assoc, buf_write_prefix.
  - f_equal. rewrite drop_replicate. unfold cmsg_image.
    replace (R - CMSG_LEN 0 - length data) with
      ((CMSG_SPACE (length data) - CMSG_LEN (length data)) + (R - CMSG_SPACE (length data))) by lia.
    by rewrite replicate_add, <- !app_assoc.
  - rewrite !length_app, length_replicate, length_cmsghdr_repr, CMSG_DATA_offset. lia.
  - rewrite length_replicate. lia.
Qed.

Lemma append_keeps_inv total ms h lvl typ data :
  is_u64 (Z.of_nat total) -> ch_inv total ms h ->
  if total - ch_size h <? CMSG_SPACE (length data) then
    exists e, CmsghdrBufferHandler_append h lvl typ data = (Err (InsufficientBufferSize e), h)
  else exists h', CmsghdrBufferHandler_append h lvl typ data = (Ok tt, h') /\
    ch_inv total (ms ++ [(lvl, typ, data)]) h' /\
    ch_size h' = ch_size h + CMSG_SPACE (length data).
Proof.
  intros Htot (Ht & Hs & Hle & Hc & Hp). unfold CmsghdrBufferHandler_append.
  rewrite Hs in *. rewrite Ht.
  set (used := concat (map cmsg_image ms)) in *.
  destruct (Nat.ltb_spec (total - length used) (CMSG_SPACE (length data))) as [Hlt|Hge].
  { rewrite (proj2 (Nat.ltb_lt _ _)) by lia. by eexists. }
  rewrite (proj2 (Nat.ltb_ge _ _)) by lia.
  pose proof CMSG_LEN_header. pose proof (CMSG_SPACE_LEN (length data)).
  pose proof (CMSG_LEN_data (length data)).
  rewrite Hp, decide_True by lia. rewrite Hc, write_cmsg by lia. eexists. split; [done|].
  split; [|done].
  assert (concat (map cmsg_image (ms ++ [(lvl, typ, data)])) = used ++ cmsg_image (lvl, typ, data))
    as Hu by (rewrite map_app, concat_app; simpl; by rewrite app_nil_r).
  unfold ch_inv. cbv zeta. cbn [total_bytes ch_size ch_control cmsghdr_ptr].
  rewrite Hu, !length_app, length_cmsg_image. simpl length. rewrite Nat.sub_add_distr.
  split_and!; [done|done|lia|by rewrite <- app_assoc|].
  assert (cmsg_image (lvl, typ, data) = cmsghdr_repr (CMSG_LEN (length data)) lvl typ ++
    (replicate (CMSG_LEN 0 - sizeof_cmsghdr) 0%Z ++ data ++
     replicate (CMSG_SPACE (length data) - CMSG_LEN (length data)) 0%Z)) as Himg by done.
  rewrite Himg, (CMSG_NXTHDR_room used _ lvl typ _ _ (length data)); [done| |done|].
  - int_lia.
  - rewrite <- Himg. apply length_cmsg_image.
Qed.

Lemma new_inv total : ch_inv total [] (CmsghdrBufferHandler_new (replicate total 0%Z)).
Proof.
  unfold ch_inv, CmsghdrBufferHandler_new. simpl.
  rewrite length_replicate, CMSG_FIRSTHDR_room, Nat.sub_0_r. split_and!; [done..|lia|done|done].
Qed.

Lemma append_all_spec total pre ms h :
  is_u64 (Z.of_nat total) -> ch_inv total pre h ->
  let '(rs, h') := append_all h ms in
  map is_ok rs = fits (total - ch_size h) ms /\
  Forall (fun r => r <> Panic /\ r <> NoFuel) rs /\
  ch_inv total (pre ++ fitting (total - ch_size h) ms) h'.
Proof.
  intros Htot. revert pre h. induction ms as [|[[lvl typ] data] ms IH]; intros pre h Hinv; simpl.
  { rewrite app_nil_r. auto. }
  pose proof (append_keeps_inv total pre h lvl typ data Htot Hinv) as Hstep. simpl.
  destruct (total - ch_size h <? CMSG_SPACE (length data)).
  - destruct Hstep as [e ->]. specialize (IH pre h Hinv).
    destruct (append_all h ms) as [rs h'']. destruct IH as (H1 & H2 & H3). simpl.
    split_and!; [by f_equal|by constructor|done].
  - destruct Hstep as (h' & -> & Hinv' & Hsz). specialize (IH _ h' Hinv').
    destruct (append_all h' ms) as [rs h'']. destruct IH as (H1 & H2 & H3). simpl.
    rewrite Hsz, Nat.sub_add_distr, <- app_assoc in *.
    split_and!; [by f_equal|by constructor|done].
Qed.

(** C40: however many control messages of whatever sizes are appended to a zeroed
    control buffer, no append panics or writes outside it: an append succeeds
    exactly when its message fits the space left, an append that fails changes
    nothing, and the buffer is at the end the accepted messages one after the
    other, padded as cmsg(3) asks, and zeros. *)
Theorem cmsg_appends_in_bounds total ms :
  is_u64 (Z.of_nat total) ->
  let '(rs, h) := append_all (CmsghdrBufferHandler_new (replicate total 0%Z)) ms in
  let used := concat (map cmsg_image (fitting total ms)) in
  map is_ok rs = fits total ms /\
  Forall (fun r => r <> Panic /\ r <> NoFuel) rs /\
  length used <= total /\ ch_size h = length used /\
  ch_control h = used ++ replicate (total - length used) 0%Z.
Proof.
  intros Htot. pose proof (append_all_spec total [] ms _ Htot (new_inv total)) as H.
  destruct (append_all _ ms) as [rs h]. simpl in H. rewrite Nat.sub_0_r in H.
  destruct H as (H1 & H2 & _ & Hs & Hle & Hc & _). auto.
Qed.

End Handler.

(** ** The 64-bit Linux layout *)

Definition cmsg_align (n : nat) : nat := (n + 7) / 8 * 8.

Definition linux_repr (len : nat) (lvl typ : Z) : bytes :=
  reverse (to_be_bytes 8 (Z.of_nat len)) ++ reverse (to_be_bytes 4 lvl) ++ reverse (to_be_bytes 4 typ).

Definition linux_len (control : bytes) (off : nat) : nat :=
  Z.to_nat (from_be_bytes (reverse (slice off (off + 8) control))).

#[export] Instance linux_cmsg : CmsgMacros := {|
  sizeof_cmsghdr := 16;
  cmsghdr_repr := linux_repr;
  CMSG_SPACE n := cmsg_align n + 16;
  CMSG_LEN n := 16 + n;
  CMSG_DATA off := off + 16;
  CMSG_FIRSTHDR total := if decide (16 <= total) then Some 0 else None;
  CMSG_NXTHDR control off :=
    if linux_len control off <? 16 then None
    else
      let next := off + cmsg_align (linux_len control off) in
      if length control <? next + 16 then None
      else if length control <? next + cmsg_align (linux_len control next) then None
      else Some next
|}.

Lemma cmsg_align_bounds n : n <= cmsg_align n < n + 8 /\ cmsg_align (16 + n) = cmsg_align n + 16.
Proof.
  unfold cmsg_align. pose proof (Nat.div_mod (n + 7) 8 ltac:(lia)).
  pose proof (Nat.mod_upper_bound (n + 7) 8 ltac:(lia)).
  replace (16 + n + 7) with (n + 7 + 2 * 8) by lia. rewrite Nat.div_add by lia. lia.
Qed.

Lemma linux_len_repr pre len lvl typ rest :
  is_u64 (Z.of_nat len) -> linux_len (pre ++ linux_repr len lvl typ ++ rest) (length pre) = len.
Proof.
  intros Hlen. unfold linux_len, linux_repr. rewrite <- !app_assoc.
  rewrite (slice_middle _ _ pre (reverse (to_be_bytes 8 (Z.of_nat len)))).
  - rewrite reverse_involutive, from_to_be_bytes by done. lia.
  - done.
  - by rewrite length_reverse, length_to_be_bytes.
Qed.

Lemma linux_len_zeros pre rest : 8 <= rest -> linux_len (pre ++ replicate rest 0%Z) (length pre) = 0.
Proof.
  intros H. unfold linux_len. replace rest with (8 + (rest - 8)) by lia.
  rewrite replicate_add, (slice_middle _ _ pre (replicate 8 0%Z)) by done. done.
Qed.

#[export] Instance linux_cmsg_laws : CmsgLaws linux_cmsg.
Proof.
  constructor; cbn -[linux_repr cmsg_align Nat.add Nat.ltb]; try (intros; done || lia).
  - intros n. pose proof (cmsg_align_bounds n). lia.
  - intros pre len lvl typ mid rest n Hlen -> Himg.
    set (img := linux_repr (16 + n) lvl typ ++ mid) in *.
    assert (linux_len (pre ++ img ++ replicate rest 0%Z) (length pre) = 16 + n) as ->
      by (unfold img; rewrite <- app_assoc; by apply linux_len_repr).
    pose proof (cmsg_align_bounds n) as [? Hal].
    rewrite (proj2 (Nat.ltb_ge (16 + n) 16) ltac:(lia)), Hal.
    rewrite (app_assoc pre img), !length_app, length_replicate, Himg.
    destruct (decide (16 <= rest)).
    + rewrite (proj2 (Nat.ltb_ge (length pre + (cmsg_align n + 16) + rest)
        (length pre + (cmsg_align n + 16) + 16))) by lia.
      replace (length pre + (cmsg_align n + 16)) with (length (pre ++ img)) by (rewrite length_app; lia).
      rewrite linux_len_zeros by lia. rewrite (proj2 (Nat.ltb_ge _ _)); [done|].
      change (cmsg_align 0) with 0. lia.
    + rewrite (proj2 (Nat.ltb_lt _ _)); [done|lia].
Qed.

Lemma cmsg_appends_in_bounds_witness :
  map is_ok (fst (append_all (CmsghdrBufferHandler_new (replicate 88 0%Z))
    [(0, 8, replicate 12 1); (0, 8, replicate 60 2); (0, 8, replicate 12 3)]%Z)) = [true; false; true].
Proof.
  pose proof (cmsg_appends_in_bounds 88
    [(0, 8, replicate 12 1); (0, 8, replicate 60 2); (0, 8, replicate 12 3)]%Z ltac:(int_lia)) as H.
  destruct (append_all _ _) as [rs h]. exact (proj1 H).
Defined.
