(* ===== verification/Platform.v ===== *)
(** * Sockets, processors and batched system calls of the library crate

    Models src/bluefin/src/utils: the two ways to make a socket (mod.rs), CPU
    affinity (cpu_affinity.rs) and the wrappers of macOS's batched calls
    (macos_io.rs).  The kernel's answers are arguments, as in the socket crate;
    [debug_assert!] is off, as in the release profile. *)
From stdpp Require Import base numbers list option strings.
From S2P Require Import Prelude Sys Proto Buffers Io.

Local Open Scope rust_scope.

(** ** Sockets: utils/mod.rs *)

(** [From<std::io::Error> for BluefinError] *)
Definition BluefinError_from_io (error : io_Error) : BluefinError := StdIoError (io_text error).

Definition get_udp_socket_impl (os : kernel) (src_addr : SocketAddr) : sys sock_call BluefinError unit :=
  let call c := sys_from BluefinError_from_io (sys_call os c) in
  do? _ := call (SocketNew false) in
  do? _ := call SetReuseAddress in
  do? _ := call SetReusePort in
  do? _ := call SetCloexec in
  do? _ := sys_unwrap (call SetNonblocking) in
  do? _ := call (SetRecvBufferSize (32 * 1024 * 1024)) in
  do? _ := call (SetSendBufferSize (32 * 1024 * 1024)) in
  do? _ := call (Bind src_addr) in
  sys_ret tt.

Definition get_udp_socket (os : kernel) (src_addr : SocketAddr) : sys sock_call BluefinError unit :=
  do? _ := get_udp_socket_impl os src_addr in
  sys_from BluefinError_from_io (sys_call os IntoTokio).

Definition get_connected_udp_socket (os : kernel) (src_addr dst_addr : SocketAddr) :
    sys sock_call BluefinError unit :=
  do? _ := get_udp_socket_impl os src_addr in
  do? _ := sys_from BluefinError_from_io (sys_call os (Connect dst_addr)) in
  sys_from BluefinError_from_io (sys_call os IntoTokio).

(** ** CPU affinity: cpu_affinity.rs *)

(** [as integer_t]: the low 32 bits, signed. *)
Definition as_i32 (z : Z) : Z := ((z + 2 ^ 31) mod 2 ^ 32 - 2 ^ 31)%Z.

(** macOS: the tag that is asked for and the result; [rc] is what
    [thread_policy_set] returns. *)
Definition set_cpu_affinity_macos (cpu_id rc : Z) : Z * outcome io_Error unit :=
  (as_i32 (u64_add cpu_id 1), Ok tt).

Definition set_cpu_affinity_linux (cpu_id : Z) : outcome io_Error unit :=
  Err (IoError Unsupported "CPU affinity not yet implemented for Linux").

Definition set_cpu_affinity_unsupported (cpu_id : Z) : outcome io_Error unit :=
  Err (IoError Unsupported "CPU affinity not supported on this platform").

Definition set_current_thread_affinity (tgt : target) (cpu_id rc : Z) : outcome io_Error unit :=
  match tgt with
  | MacOS => snd (set_cpu_affinity_macos cpu_id rc)
  | Linux => set_cpu_affinity_linux cpu_id
  | OtherTarget => set_cpu_affinity_unsupported cpu_id
  end.

(** [count] is what [sysconf] answers. *)
Definition num_cpus_impl (tgt : target) (count : Z) : Z :=
  match tgt with
  | MacOS | Linux => if (count <? 1)%Z then 1%Z else count
  | OtherTarget => 1%Z
  end.

Definition get_num_cpus (tgt : target) (count : Z) : Z := num_cpus_impl tgt count.

(** ** Batched datagrams: macos_io.rs *)

Definition MAX_BATCH : nat := 16.

(** [MsghdrX] has the fields of the socket crate's [msghdr_x]. *)
Definition MsghdrX : Type := msghdr.

(** The loop [for i in 0..n] over arrays of [MAX_BATCH] zeroed entries. *)
Fixpoint fill_headers (mk : nat -> bytes -> MsghdrX) (i : nat) (items : list bytes)
    (hdrs : list MsghdrX) : outcome io_Error (list MsghdrX) :=
  match items with
  | [] => Ok hdrs
  | d :: items' =>
      if decide (i < length hdrs) then fill_headers mk (S i) items' (<[i := mk i d]> hdrs)
      else Panic
  end.

Definition send_header (i : nat) (datagram : bytes) : MsghdrX :=
  {| msg_name := Null; msg_namelen := 0; msg_iov := BufSlot i; msg_iovlen := 1;
     msg_data := datagram; msg_control := Null; msg_controllen := 0; msg_flags := 0;
     msg_datalen := 0 |}.

Definition recv_header (i : nat) (buf : bytes) : MsghdrX :=
  {| msg_name := NameSlot i; msg_namelen := sizeof_sockaddr_storage; msg_iov := BufSlot i;
     msg_iovlen := 1; msg_data := buf; msg_control := Null; msg_controllen := 0; msg_flags := 0;
     msg_datalen := 0 |}.

(** The headers given to [sendmsg_x] (none when it is not reached) and the
    result; [answer] is the kernel's. *)
Definition sendmsg_x_connected (datagrams : list bytes) (answer : send_answer) :
    option (list MsghdrX) * outcome io_Error nat :=
  match fill_headers send_header 0 datagrams (replicate MAX_BATCH msghdr_zeroed) with
  | Ok hdrs =>
      (Some (take (length datagrams) hdrs),
       match answer with SendOk rc => Ok rc | SendErr e => Err e end)
  | Err e => (None, Err e)
  | Panic => (None, Panic)
  | NoFuel => (None, NoFuel)
  end.

(** [for i in 0..count: lens[i] = hdrs[i].msg_datalen] *)
Fixpoint fill_lens (i : nat) (datalens : list nat) (lens : list nat) : outcome io_Error unit * list nat :=
  match datalens with
  | [] => (Ok tt, lens)
  | n :: datalens' =>
      if decide (i < MAX_BATCH /\ i < length lens) then fill_lens (S i) datalens' (<[i := n]> lens)
      else (Panic, lens)
  end.

Definition recvmsg_x_into (bufs : list bytes) (lens : list nat) (answer : recv_x_answer) :
    option (list MsghdrX) * outcome io_Error nat * list bytes * list nat :=
  match fill_headers recv_header 0 bufs (replicate MAX_BATCH msghdr_zeroed) with
  | Ok hdrs =>
      let given := Some (take (length bufs) hdrs) in
      match answer with
      | RecvXErr e => (given, Err e, bufs, lens)
      | RecvXMsgs msgs =>
          let bufs' := map (fun m => snd m) msgs ++ drop (length msgs) bufs in
          match fill_lens 0 (map (fun m => m.1.1) msgs) lens with
          | (Ok _, lens') => (given, Ok (length msgs), bufs', lens')
          | (Err e, lens') => (given, Err e, bufs', lens')
          | (Panic, lens') => (given, Panic, bufs', lens')
          | (NoFuel, lens') => (given, NoFuel, bufs', lens')
          end
      end
  | Err e => (None, Err e, bufs, lens)
  | Panic => (None, Panic, bufs, lens)
  | NoFuel => (None, NoFuel, bufs, lens)
  end.

(** ** Properties *)

(** What a connected socket is made with. *)
Definition connected_socket_calls (src_addr dst_addr : SocketAddr) : list sock_call :=
  [SocketNew false; SetReuseAddress; SetReusePort; SetCloexec; SetNonblocking;
   SetRecvBufferSize (32 * 1024 * 1024); SetSendBufferSize (32 * 1024 * 1024); Bind src_addr;
   Connect dst_addr; IntoTokio].

(** The first refusal ends the setup; that of [set_nonblocking] is a panic. *)
Definition setup_outcome (r : option io_Error * list sock_call) : outcome BluefinError unit * list sock_call :=
  match r with
  | (None, t) => (Ok tt, t)
  | (Some e, t) => (match last t with Some SetNonblocking => Panic | _ => Err (BluefinError_from_io e) end, t)
  end.

Lemma get_connected_udp_socket_runs os src_addr dst_addr :
  get_connected_udp_socket os src_addr dst_addr [] =
    setup_outcome (run_calls os (connected_socket_calls src_addr dst_addr) []).
Proof.
  unfold get_connected_udp_socket, get_udp_socket_impl, connected_socket_calls, setup_outcome,
    sys_bind, sys_from, sys_unwrap, sys_call, sys_ret.
  cbv zeta. step_os os. done.
Qed.

(** The loop fills the array from the front, and panics when it is too short. *)
Lemma fill_headers_app mk pre items rest :
  fill_headers mk (length pre) items (pre ++ rest) =
    if decide (length items <= length rest) then
      Ok (pre ++ imap (fun k d => mk (length pre + k) d) items ++ drop (length items) rest)
    else Panic.
Proof.
  revert pre rest. induction items as [|d items IH]; intros pre rest; simpl.
  { by rewrite drop_0. }
  rewrite length_app. destruct rest as [|h rest]; simpl.
  { repeat case_decide; done || lia. }
  rewrite decide_True, insert_app_r_alt, Nat.sub_diag by lia. simpl.
  replace (S (length pre)) with (length (pre ++ [mk (length pre) d])) by (rewrite length_app; simpl; lia).
  rewrite (cons_middle _ pre rest), app_assoc, IH.
  destruct (decide (length items <= length rest)); [|by rewrite decide_False by lia].
  rewrite decide_True by lia. f_equal. rewrite <- app_assoc. simpl. rewrite Nat.add_0_r.
  f_equal. f_equal. f_equal. apply imap_ext. intros k x _. unfold compose. rewrite length_app. f_equal. simpl. lia.
Qed.

Lemma fill_headers_batch mk items :
  fill_headers mk 0 items (replicate MAX_BATCH msghdr_zeroed) =
    if decide (length items <= MAX_BATCH) then
      Ok (imap mk items ++ replicate (MAX_BATCH - length items) msghdr_zeroed)
    else Panic.
Proof.
  pose proof (fill_headers_app mk [] items (replicate MAX_BATCH msghdr_zeroed)) as H.
  rewrite length_replicate, drop_replicate in H. exact H.
Qed.

Lemma fill_lens_app pre datalens rest :
  length pre + length datalens <= MAX_BATCH ->
  fill_lens (length pre) datalens (pre ++ rest) =
    if decide (length datalens <= length rest) then
      (Ok tt, pre ++ datalens ++ drop (length datalens) rest)
    else (Panic, pre ++ take (length rest) datalens).
Proof.
  revert pre rest. induction datalens as [|n datalens IH]; intros pre rest Hlen; simpl in *.
  { by rewrite drop_0. }
  rewrite length_app. destruct rest as [|l rest]; simpl.
  { repeat case_decide; done || lia. }
  rewrite decide_True, insert_app_r_alt, Nat.sub_diag by lia. simpl.
  replace (S (length pre)) with (length (pre ++ [n])) by (rewrite length_app; simpl; lia).
  rewrite (cons_middle _ pre rest), app_assoc, IH by (rewrite length_app; simpl; lia).
  destruct (decide (length datalens <= length rest)).
  - by rewrite decide_True, <- app_assoc by lia.
  - by rewrite decide_False, <- app_assoc by lia.
Qed.

(** The batched calls index inside their arrays for up to [MAX_BATCH]
    messages: [sendmsg_x_connected] then hands the kernel one header per datagram,
    in order and without an address, and [recvmsg_x_into] one per buffer, and
    stores the lengths of the messages received, one each, leaving the other
    entries alone.  With more than [MAX_BATCH] both panic before the call; with
    fewer lengths than messages [recvmsg_x_into] panics after it. *)
Theorem batched_calls_in_bounds items lens msgs :
  (forall answer,
     sendmsg_x_connected items answer =
       if decide (length items <= MAX_BATCH) then
         (Some (imap send_header items), match answer with SendOk rc => Ok rc | SendErr e => Err e end)
       else (None, Panic)) /\
  (MAX_BATCH < length items -> forall answer,
     recvmsg_x_into items lens answer = (None, Panic, items, lens)) /\
  (length items <= MAX_BATCH -> length msgs <= length items ->
     recvmsg_x_into items lens (RecvXMsgs msgs) =
       (Some (imap recv_header items),
        if decide (length msgs <= length lens) then Ok (length msgs) else Panic,
        map snd msgs ++ drop (length msgs) items,
        if decide (length msgs <= length lens) then
          map (fun m => m.1.1) msgs ++ drop (length msgs) lens
        else take (length lens) (map (fun m => m.1.1) msgs))).
Proof.
  split_and!.
  - intros answer. unfold sendmsg_x_connected. rewrite fill_headers_batch.
    destruct (decide _); [|done]. by rewrite take_app_length' by by rewrite length_imap.
  - intros H answer. unfold recvmsg_x_into. by rewrite fill_headers_batch, decide_False by lia.
  - intros H Hm. unfold recvmsg_x_into. rewrite fill_headers_batch, decide_True by done.
    rewrite take_app_length' by by rewrite length_imap.
    pose proof (fill_lens_app [] (map (fun m : nat * sockaddr_storage * bytes => m.1.1) msgs) lens) as Hf.
    rewrite length_map in Hf. simpl in Hf. rewrite Hf by lia.
    by destruct (decide (length msgs <= length lens)).
Qed.

Lemma batched_calls_in_bounds_witness :
  recvmsg_x_into [[0; 0]; [0; 0]]%Z [7; 7] (RecvXMsgs [(1, Build_sockaddr_storage 2 [] [], [5; 0]%Z)]) =
    (Some (imap recv_header [[0; 0]; [0; 0]]%Z), Ok 1, [[5; 0]; [0; 0]]%Z, [1; 7]).
Proof.
  destruct (batched_calls_in_bounds [[0; 0]; [0; 0]]%Z [7; 7]
    [(1, Build_sockaddr_storage 2 [] [], [5; 0]%Z)]) as (_ & _ & H).
  exact (H ltac:(unfold MAX_BATCH; simpl; lia) ltac:(simpl; lia)).
Defined.

(** The number of processors is at least one, and asking for a processor always
    reports success on macOS, also when the system refused. *)
Lemma platform_answers tgt count cpu_id rc :
  (1 <= get_num_cpus tgt count)%Z /\
  set_current_thread_affinity MacOS cpu_id rc = Ok tt /\
  is_err (set_current_thread_affinity Linux cpu_id rc) = true.
Proof.
  split_and!; [|done..]. unfold get_num_cpus, num_cpus_impl.
  destruct tgt; [| |done]; destruct (count <? 1)%Z eqn:H; lia.
Qed.
