(* ===== verification/ToolArgs.v ===== *)
(** * The command line tool: arguments, addresses and the hex dump

    Models the pure half of src/bluefintool/src/main.rs: [parse_args], the
    hex dump of the diagnostics mode and the lines it prints, and the parsing of
    an IPv4 address.  [process::exit] is an [Err] with the exit code; the random
    source port is an argument.  The specification of the command line is
    [mode_of]: options may come in any order and in either spelling, the last
    [-b] and [-s] count, the other arguments are positional. *)
From stdpp Require Import base numbers list option strings.
From S2P Require Import Prelude Text Net.

(** ** Arguments *)

Inductive Mode : Type :=
  | Listen (bind : str) (port : Z)
  | ConnectTo (host : str) (port source_port : Z).

Record parsed := {
  p_listen : bool;
  p_diag : bool;
  p_bind : str;
  p_source_port : option Z;
  p_positional : list str
}.

Definition parsed_init : parsed :=
  {| p_listen := false; p_diag := false; p_bind := lit "127.0.0.1"; p_source_port := None;
     p_positional := [] |}.

Definition with_listen (p : parsed) : parsed :=
  {| p_listen := true; p_diag := p_diag p; p_bind := p_bind p; p_source_port := p_source_port p;
     p_positional := p_positional p |}.

Definition with_diag (p : parsed) : parsed :=
  {| p_listen := p_listen p; p_diag := true; p_bind := p_bind p; p_source_port := p_source_port p;
     p_positional := p_positional p |}.

Definition with_bind (b : str) (p : parsed) : parsed :=
  {| p_listen := p_listen p; p_diag := p_diag p; p_bind := b; p_source_port := p_source_port p;
     p_positional := p_positional p |}.

Definition with_source_port (n : Z) (p : parsed) : parsed :=
  {| p_listen := p_listen p; p_diag := p_diag p; p_bind := p_bind p; p_source_port := Some n;
     p_positional := p_positional p |}.

Definition with_positional (s : str) (p : parsed) : parsed :=
  {| p_listen := p_listen p; p_diag := p_diag p; p_bind := p_bind p; p_source_port := p_source_port p;
     p_positional := p_positional p ++ [s] |}.

(** The [match] on an argument: short or long form. *)
Definition is_opt (short long : string) (arg : str) : bool :=
  bool_decide (arg = lit short) || bool_decide (arg = lit long).

Fixpoint parse_args_loop (args : list str) (p : parsed) : outcome Z parsed :=
  match args with
  | [] => Ok p
  | arg :: rest =>
      if is_opt "-l" "--listen" arg then parse_args_loop rest (with_listen p)
      else if is_opt "-d" "--diagnostics" arg then parse_args_loop rest (with_diag p)
      else if is_opt "-b" "--bind" arg then
        match rest with
        | [] => Err 1%Z
        | b :: rest' => parse_args_loop rest' (with_bind b p)
        end
      else if is_opt "-s" "--source-port" arg then
        match rest with
        | [] => Err 1%Z
        | v :: rest' =>
            match parse_u16 v with
            | Some n => parse_args_loop rest' (with_source_port n p)
            | None => Err 1%Z
            end
        end
      else if is_opt "-h" "--help" arg then Err 0%Z
      else parse_args_loop rest (with_positional arg p)
  end.

(** The part after the loop; [rnd] is the random source port. *)
Definition parse_args_mode (rnd : Z) (p : parsed) : outcome Z (Mode * bool) :=
  if p_listen p then
    match p_positional p with
    | [] => Err 1%Z
    | s :: _ =>
        match parse_u16 s with
        | Some port => Ok (Listen (p_bind p) port, p_diag p)
        | None => Err 1%Z
        end
    end
  else
    match p_positional p with
    | [] => Err 0%Z
    | [host; s] =>
        match parse_u16 s with
        | Some port => Ok (ConnectTo host port (default rnd (p_source_port p)), p_diag p)
        | None => Err 1%Z
        end
    | _ => Err 1%Z
    end.

Definition parse_args (rnd : Z) (args : list str) : outcome Z (Mode * bool) :=
  outcome_bind (parse_args_loop args parsed_init) (parse_args_mode rnd).

(** ** Printing *)

(** The lines of [print_usage]; 8212 is the dash. *)
Definition print_usage : list str :=
  [lit "bluefintool " ++ [8212%Z] ++ lit " netcat-like tool for the Bluefin protocol"; []; lit "USAGE:";
   lit "  bluefintool -l <port>                     Listen on 127.0.0.1:<port>";
   lit "  bluefintool -l <port> -b <bind_addr>      Listen on <bind_addr>:<port>";
   lit "  bluefintool <host> <port>                 Connect to <host>:<port>";
   lit "  bluefintool <host> <port> -s <src_port>   Connect from specific source port"; []; lit "OPTIONS:";
   lit "  -l, --listen               Listen mode (accept multiple connections)";
   lit "  -b, --bind <addr>          Bind address for listen mode [default: 127.0.0.1]";
   lit "  -s, --source-port <port>   Source port for connect mode [default: random]";
   lit "  -d, --diagnostics          Show hex dumps, byte counts, and peer tags for all traffic";
   lit "  -h, --help                 Show this help"].

(** [u8::is_ascii_graphic] *)
Definition is_ascii_graphic (b : Z) : bool := between 33 126 b.

Definition hex_column (chunk : bytes) : str := join (lit " ") (map (fmt_hex0 2) chunk).

Definition ascii_column (chunk : bytes) : str :=
  map (fun b => if is_ascii_graphic b || (b =? 32)%Z then b else 46%Z) chunk.

Definition hex_line (prefix : str) (i : nat) (chunk : bytes) : str :=
  prefix ++ lit " " ++ fmt_hex0 4 (Z.of_nat (i * 16)) ++ lit "  " ++
  pad_right 48 (hex_column chunk) ++ lit "  |" ++ ascii_column chunk ++ lit "|".

Definition hex_dump (prefix : str) (data : bytes) : list str :=
  imap (hex_line prefix) (chunks 16 data).

(** [{peer_tag}] in brackets *)
Definition tagged (tag : str) (s : str) : str := lit "[" ++ tag ++ lit "]" ++ s.

(** The line [drain_diag] prints for an event. *)
Definition diag_line (tag : str) (event : DiagnosticEvent) : str :=
  tagged tag
    match event with
    | AckReceived base count =>
        lit " ack-recv: peer acked pkts 0x" ++ fmt_hex base ++ lit "..+" ++ fmt_dec count
    | AckSent base count =>
        lit " ack-sent: we acked pkts 0x" ++ fmt_hex base ++ lit "..+" ++ fmt_dec (Z.of_nat count)
    | DataSent start packets nbytes =>
        lit " data-sent: pkts 0x" ++ fmt_hex start ++ lit "..+" ++ fmt_dec packets ++ lit " (" ++
        fmt_dec (Z.of_nat nbytes) ++ lit " bytes)"
    | DataReceived base packets nbytes =>
        lit " data-recv: pkts 0x" ++ fmt_hex base ++ lit "..+" ++ fmt_dec (Z.of_nat packets) ++ lit " (" ++
        fmt_dec (Z.of_nat nbytes) ++ lit " bytes)"
    | FinSent n => lit " fin-sent: pkt 0x" ++ fmt_hex n
    | FinAckSent n => lit " fin-ack-sent: pkt 0x" ++ fmt_hex n
    | FinReceived n => lit " fin-recv: pkt 0x" ++ fmt_hex n
    | FinAckReceived n => lit " fin-ack-recv: pkt 0x" ++ fmt_hex n
    end.

(** [drain_diag]: every queued event, in order, in diagnostics mode.  [diag_rx]
    is [None] on a connection without a diagnostics channel. *)
Definition drain_diag (diag : bool) (tag : str) (diag_rx : option (list DiagnosticEvent)) : list str :=
  if diag then map (diag_line tag) (default [] diag_rx) else [].

(** ** Addresses: [Ipv4Addr::from_str] *)

(** One octet: one to three digits, no leading zero, at most 255. *)
Definition parse_octet (s : str) : option Z :=
  if (bool_decide (1 <= length s <= 3)) && negb (bool_decide (1 < length s) && bool_decide (head s = Some 48%Z))
  then parse_digits 0 255 1 0 s
  else None.

Fixpoint split_on (sep : Z) (s : str) : list str :=
  match s with
  | [] => [[]]
  | c :: s' =>
      if (c =? sep)%Z then [] :: split_on sep s'
      else match split_on sep s' with
           | w :: ws => (c :: w) :: ws
           | [] => [[c]]
           end
  end.

(** The four octets, as one number in network order. *)
Definition parse_ipv4 (s : str) : option Z :=
  match split_on 46 s with
  | [a; b; c; d] =>
      a ← parse_octet a; b ← parse_octet b; c ← parse_octet c; d ← parse_octet d;
      Some (from_be_bytes [a; b; c; d])
  | _ => None
  end.

(** ** The command line *)

Inductive item : Type :=
  | ListenFlag
  | DiagFlag
  | BindOpt (addr : str)
  | SourceOpt (port : str)
  | Positional (s : str).

Definition spell (long : bool) (i : item) : list str :=
  match i with
  | ListenFlag => [lit (if long then "--listen" else "-l")]
  | DiagFlag => [lit (if long then "--diagnostics" else "-d")]
  | BindOpt a => [lit (if long then "--bind" else "-b"); a]
  | SourceOpt v => [lit (if long then "--source-port" else "-s"); v]
  | Positional s => [s]
  end.

Definition is_option (s : str) : bool :=
  is_opt "-l" "--listen" s || is_opt "-d" "--diagnostics" s || is_opt "-b" "--bind" s ||
  is_opt "-s" "--source-port" s || is_opt "-h" "--help" s.

Definition item_ok (i : item) : Prop :=
  match i with
  | SourceOpt v => is_Some (parse_u16 v)
  | Positional s => is_option s = false
  | _ => True
  end.

(** What a list of items says. *)
Definition summary (items : list item) : parsed :=
  {| p_listen := existsb (fun i => match i with ListenFlag => true | _ => false end) items;
     p_diag := existsb (fun i => match i with DiagFlag => true | _ => false end) items;
     p_bind := default (lit "127.0.0.1")
       (last (omap (fun i => match i with BindOpt a => Some a | _ => None end) items));
     p_source_port := last (omap (fun i => match i with SourceOpt v => parse_u16 v | _ => None end) items);
     p_positional := omap (fun i => match i with Positional s => Some s | _ => None end) items |}.

Definition item_apply (p : parsed) (i : item) : parsed :=
  match i with
  | ListenFlag => with_listen p
  | DiagFlag => with_diag p
  | BindOpt a => with_bind a p
  | SourceOpt v => match parse_u16 v with Some n => with_source_port n p | None => p end
  | Positional s => with_positional s p
  end.

Lemma summary_snoc items i : item_ok i -> item_apply (summary items) i = summary (items ++ [i]).
Proof.
  intros Hi. unfold summary. rewrite !existsb_app, !omap_app, !last_app.
  destruct i as [| | |v|]; simpl; unfold with_listen, with_diag, with_bind, with_source_port,
    with_positional; simpl; rewrite ?orb_false_r, ?orb_true_r, ?app_nil_r; try done.
  destruct Hi as [n Hn]. rewrite Hn. simpl. by rewrite ?orb_false_r.
Qed.

Lemma loop_spell long i rest p :
  item_ok i -> parse_args_loop (spell long i ++ rest) p = parse_args_loop rest (item_apply p i).
Proof.
  intros Hi. destruct i as [| |a|v|s].
  1-3: by destruct long.
  - destruct Hi as [n Hn]. destruct long; simpl; by rewrite Hn.
  - simpl in Hi. unfold is_option in Hi. rewrite !orb_false_iff in Hi.
    destruct Hi as [[[[H1 H2] H3] H4] H5]. simpl. by rewrite H1, H2, H3, H4, H5.
Qed.

Lemma loop_items pre items rest :
  Forall (fun x => item_ok x.2) items ->
  parse_args_loop (flat_map (fun x => spell x.1 x.2) items ++ rest) (summary pre) =
    parse_args_loop rest (summary (pre ++ map snd items)).
Proof.
  intros H. revert pre. induction H as [|[long i] items Hi _ IH]; intros pre; simpl.
  { by rewrite app_nil_r. }
  rewrite <- app_assoc, loop_spell, summary_snoc, IH by done. by rewrite <- app_assoc.
Qed.

(** A port that was parsed fits its type. *)
Lemma parse_u16_range s n : parse_u16 s = Some n -> is_u16 n.
Proof. intros H. apply parse_int_range in H; unfold u16_MAX in *; int_lia. Qed.

Definition mode_ok (m : Mode) : Prop :=
  match m with
  | Listen _ port => is_u16 port
  | ConnectTo _ port source_port => is_u16 port /\ is_u16 source_port
  end.

Lemma loop_source_port args p p' :
  parse_args_loop args p = Ok p' -> (forall n, p_source_port p = Some n -> is_u16 n) ->
  forall n, p_source_port p' = Some n -> is_u16 n.
Proof.
  revert p. induction args as [args IH] using (well_founded_induction
    (well_founded_ltof _ (@length str))); intros p Hp Hn.
  destruct args as [|arg rest]; simpl in Hp; [by simplify_eq|].
  assert (ltof _ length rest (arg :: rest)) as Hrest by (unfold ltof; simpl; lia).
  destruct (is_opt "-l" _ arg); [eapply (IH rest Hrest); [exact Hp|done]|].
  destruct (is_opt "-d" _ arg); [eapply (IH rest Hrest); [exact Hp|done]|].
  destruct (is_opt "-b" _ arg).
  { destruct rest as [|b rest']; [done|]. eapply (IH rest'); [unfold ltof; simpl; lia|exact Hp|done]. }
  destruct (is_opt "-s" _ arg).
  { destruct rest as [|v rest']; [done|]. destruct (parse_u16 v) as [n|] eqn:Hv; [|done].
    eapply (IH rest'); [unfold ltof; simpl; lia|exact Hp|].
    intros m [= <-]. by eapply parse_u16_range. }
  destruct (is_opt "-h" _ arg); [done|]. eapply (IH rest Hrest); [exact Hp|done].
Qed.

Lemma mode_in_range rnd p m d :
  is_u16 rnd -> (forall n, p_source_port p = Some n -> is_u16 n) ->
  parse_args_mode rnd p = Ok (m, d) -> mode_ok m.
Proof.
  intros Hr Hs. unfold parse_args_mode.
  destruct (p_listen p), (p_positional p) as [|s1 [|s2 [|]]]; try done;
    destruct (parse_u16 _) as [port|] eqn:Hp; intros H; simplify_eq/=;
    try (by eapply parse_u16_range); split; try (by eapply parse_u16_range);
    destruct (p_source_port p); simpl; auto.
Qed.

(** The command line.  Options in any order and in either spelling are
    summed up by [summary]: whether [-l] and [-d] occur, the last [-b] and the
    last [-s], the other arguments in order; [-h] after such arguments exits
    with 0, whatever follows; a mode that is returned has ports in range. *)
Theorem command_line rnd items rest :
  is_u16 rnd -> Forall (fun x => item_ok x.2) items ->
  parse_args rnd (flat_map (fun x => spell x.1 x.2) items) =
    parse_args_mode rnd (summary (map snd items)) /\
  parse_args rnd (flat_map (fun x => spell x.1 x.2) items ++ lit "-h" :: rest) = Err 0%Z /\
  (forall args m d, parse_args rnd args = Ok (m, d) -> mode_ok m).
Proof.
  intros Hr Hitems. unfold parse_args. change parsed_init with (summary []). split_and!.
  - rewrite <- (app_nil_r (flat_map _ items)), loop_items by done. done.
  - by rewrite loop_items by done.
  - intros args m d H. destruct (parse_args_loop args _) as [p|e| |] eqn:Hp; try done.
    eapply mode_in_range; [done| |exact H]. by eapply loop_source_port.
Qed.

Lemma command_line_witness :
  parse_args 20000 [lit "10.0.0.1"; lit "--source-port"; lit "4000"; lit "1318"; lit "-d"] =
    Ok (ConnectTo (lit "10.0.0.1") 1318 4000, true).
Proof.
  destruct (command_line 20000
    [(false, Positional (lit "10.0.0.1")); (true, SourceOpt (lit "4000"));
     (false, Positional (lit "1318")); (false, DiagFlag)] []) as [H _].
  - int_lia.
  - repeat constructor. by exists 4000%Z.
  - exact H.
Defined.

(** ** The hex dump *)

Definition hex_digit_value (c : Z) : option Z :=
  if between 48 57 c then Some (c - 48)%Z else if between 97 102 c then Some (c - 87)%Z else None.

(** Reads bytes as pairs of digits, blanks skipped. *)
Fixpoint read_hex (s : str) : option bytes :=
  match s with
  | [] => Some []
  | c :: s' =>
      if (c =? 32)%Z then read_hex s'
      else match s' with
           | [] => None
           | d :: s'' =>
               a ← hex_digit_value c; b ← hex_digit_value d; l ← read_hex s'';
               Some ((a * 16 + b)%Z :: l)
           end
  end.

(** The bytes a line of the dump shows. *)
Definition line_bytes (prefix line : str) : option bytes :=
  read_hex (take 48 (drop (length prefix + 7) line)).

Lemma fmt_byte b : is_u8 b -> exists c d, fmt_hex0 2 b = [c; d] /\
  (c =? 32)%Z = false /\ hex_digit_value c = Some (b / 16)%Z /\ hex_digit_value d = Some (b mod 16)%Z.
Proof.
  intros Hb.
  pose proof (u8_forallb (fun b => match fmt_hex0 2 b with
    | [c; d] => negb (c =? 32)%Z && bool_decide (hex_digit_value c = Some (b / 16)%Z) &&
                bool_decide (hex_digit_value d = Some (b mod 16)%Z)
    | _ => false end) ltac:(vm_compute; done) b Hb) as H. simpl in H.
  destruct (fmt_hex0 2 b) as [|c [|d [|]]]; try done. exists c, d.
  apply andb_true_iff in H as [[H1%negb_true_iff H2%bool_decide_eq_true]%andb_true_iff
    H3%bool_decide_eq_true]. auto.
Qed.

Lemma read_hex_byte b s : is_u8 b -> read_hex (fmt_hex0 2 b ++ s) = (l ← read_hex s; Some (b :: l)).
Proof.
  intros Hb. destruct (fmt_byte b Hb) as (c & d & -> & Hc & H1 & H2). simpl.
  rewrite Hc, H1, H2. simpl. destruct (read_hex s); simpl; [|done].
  do 2 f_equal. rewrite (Z.div_mod b 16) at 3; lia.
Qed.

Lemma read_hex_blanks n : read_hex (replicate n 32%Z) = Some [].
Proof. induction n as [|n IH]; [done|]. exact IH. Qed.

Lemma read_hex_column chunk n :
  Forall is_u8 chunk -> read_hex (hex_column chunk ++ replicate n 32%Z) = Some chunk.
Proof.
  unfold hex_column. induction 1 as [|b l Hb Hl IH]; [apply read_hex_blanks|].
  destruct l as [|b' l].
  - simpl. by rewrite read_hex_byte, read_hex_blanks.
  - change (join (lit " ") (map (fmt_hex0 2) (b :: b' :: l))) with
      (fmt_hex0 2 b ++ lit " " ++ join (lit " ") (map (fmt_hex0 2) (b' :: l))).
    rewrite <- !app_assoc, read_hex_byte by done.
    change (read_hex (lit " " ++ ?s)) with (read_hex s). by rewrite IH.
Qed.

Lemma length_hex_column chunk : Forall is_u8 chunk -> length (hex_column chunk) <= 3 * length chunk.
Proof.
  unfold hex_column. induction 1 as [|b l Hb Hl IH]; [done|].
  destruct (fmt_byte b Hb) as (c & d & E & _). destruct l as [|b' l]; simpl in *; rewrite E.
  - simpl. lia.
  - simpl in *. lia.
Qed.

Lemma length_to_digits base fuel n k :
  (1 < base)%Z -> (0 <= n < base ^ Z.of_nat k)%Z -> 0 < k -> length (to_digits base fuel n) <= k.
Proof.
  intros Hb. revert n k. induction fuel as [|fuel IH]; intros n k Hn Hk; simpl; [lia|].
  destruct (n <? base)%Z eqn:H; [simpl; lia|apply Z.ltb_ge in H].
  rewrite length_app. simpl. destruct k as [|k]; [lia|]. destruct k as [|k].
  { change (Z.of_nat 1) with 1%Z in Hn. lia. }
  rewrite Nat2Z.inj_succ, Z.pow_succ_r in Hn by lia.
  specialize (IH (n / base)%Z (S k)). rewrite Nat.add_1_r. apply le_n_S, IH; [|lia].
  split; [apply Z.div_pos; lia|apply Z.div_lt_upper_bound; lia].
Qed.

Lemma line_bytes_spec prefix i chunk :
  Forall is_u8 chunk -> length chunk <= 16 -> (Z.of_nat (i * 16) < 2 ^ 16)%Z ->
  line_bytes prefix (hex_line prefix i chunk) = Some chunk.
Proof.
  intros Hc Hlen Hi. unfold line_bytes, hex_line.
  assert (length (fmt_hex0 4 (Z.of_nat (i * 16))) = 4) as H4.
  { unfold fmt_hex0, pad_left. rewrite length_app, length_replicate.
    assert (length (fmt_hex (Z.of_nat (i * 16))) <= 4); [|lia].
    apply length_to_digits; [lia| |lia]. change (16 ^ Z.of_nat 4)%Z with (2 ^ 16)%Z. lia. }
  rewrite (app_assoc prefix), (app_assoc (prefix ++ _)), (app_assoc ((prefix ++ _) ++ _)).
  rewrite drop_app_length' by (rewrite !length_app, H4; simpl; lia).
  assert (length (pad_right 48 (hex_column chunk)) = 48) as H48.
  { unfold pad_right. rewrite length_app, length_replicate.
    pose proof (length_hex_column chunk Hc). lia. }
  rewrite take_app_length' by done. by apply read_hex_column.
Qed.

Lemma chunks_lookup {A : Type} n (l : list A) i c :
  0 < n -> chunks n l !! i = Some c -> c = take n (drop (i * n) l) /\ i * n < length l.
Proof.
  intros Hn. revert l. induction i as [|i IH]; intros l Hc.
  - destruct (decide (l = [])) as [->|Hl]; [by rewrite chunks_nil in Hc|].
    rewrite chunks_step in Hc by done. simplify_eq/=. split; [by rewrite drop_0|].
    destruct l; [done|simpl; lia].
  - destruct (decide (l = [])) as [->|Hl]; [by rewrite chunks_nil in Hc|].
    rewrite chunks_step in Hc by done. simpl in Hc. apply IH in Hc as [-> Hlt].
    rewrite length_drop in Hlt. rewrite drop_drop. split; [|simpl; lia]. do 2 f_equal.
Qed.

Lemma length_chunks {A : Type} n (l : list A) :
  0 < n -> length (chunks n l) = (length l + (n - 1)) / n.
Proof.
  intros Hn. induction l as [|l Hl IH] using (chunks_ind n Hn).
  { rewrite chunks_nil. symmetry. apply Nat.div_small. simpl. lia. }
  rewrite chunks_step by done. simpl. rewrite IH, length_drop.
  destruct (decide (n <= length l)).
  - replace (length l + (n - 1)) with (length l - n + (n - 1) + 1 * n) by lia.
    rewrite Nat.div_add by lia. lia.
  - replace (length l - n) with 0 by lia. rewrite Nat.div_small by lia.
    apply (Nat.div_unique _ _ 1 (length l - 1)); destruct l; simpl in *; done || lia.
Qed.

(** A hex dump shows the data.  The dump of up to 64 KiB has one line per 16
    bytes, and the byte columns of its lines, read back and put together, are
    the data. *)
Theorem hex_dump_round_trip (prefix : str) (data : bytes) :
  Forall is_u8 data -> (Z.of_nat (length data) <= 2 ^ 16)%Z ->
  @concat Z <$> mapM (line_bytes prefix) (hex_dump prefix data) = Some data /\
  length (hex_dump prefix data) = (length data + 15) / 16.
Proof.
  intros Hd Hlen. unfold hex_dump. split.
  - assert (mapM (line_bytes prefix) (imap (hex_line prefix) (chunks 16 data)) = Some (chunks 16 data)) as ->.
    { apply mapM_Some, Forall2_same_length_lookup_2; [by rewrite length_imap|].
      intros i line chunk Hl Hc. rewrite list_lookup_imap, Hc in Hl. simplify_eq/=.
      apply chunks_lookup in Hc as [-> Hi]; [|lia]. apply line_bytes_spec.
      - by apply Forall_take, Forall_drop.
      - rewrite length_take. lia.
      - lia. }
    simpl. f_equal. pose proof (concat_chunks 16 data ltac:(lia)). done.
  - rewrite length_imap, length_chunks by lia. done.
Qed.

Lemma hex_dump_round_trip_witness :
  hex_dump (lit ">") [72; 105; 10]%Z =
    [lit "> 0000  48 69 0a                                          |Hi.|"] /\
  @concat Z <$> mapM (line_bytes (lit ">")) (hex_dump (lit ">") [72; 105; 10]%Z) = Some [72; 105; 10]%Z.
Proof.
  split; [reflexivity|].
  exact (proj1 (hex_dump_round_trip (lit ">") [72; 105; 10]%Z
    ltac:(repeat constructor; int_lia) ltac:(simpl; lia))).
Defined.
