(* ===== verification/Tool.v ===== *)
(** * The command line tool: the pipe between the terminal and a connection

    Models the asynchronous half of src/bluefintool/src/main.rs: the stdin reader
    task, [run_pipe], the two modes and [main].

    [run_pipe] and the reader task share a channel.  They are one transition
    system: the reader reads a line and queues it ([ReadLine]); the pipe goes once
    round its loop ([Round]), with what the connection, the signal handler and
    the diagnostics channel answer during that round as the argument.  What the
    pipe does is a trace.  The channel's bound of 64 lines makes the reader wait
    and changes nothing else, so it is left out.  Errors printed with [{:?}] are
    events with the error, the other lines of stderr are their text. *)
From stdpp Require Import base numbers list option strings.
From S2P Require Import Prelude Text Proto Header Buffers Net ToolArgs Handshake.

(** ** Reading lines *)

(** [str::from_utf8]: the well-formed byte sequences of the Unicode standard. *)
Fixpoint valid_utf8 (l : bytes) : bool :=
  match l with
  | [] => true
  | b0 :: l1 =>
      if (b0 <? 128)%Z then valid_utf8 l1
      else
        match l1 with
        | [] => false
        | b1 :: l2 =>
            if between 194 223 b0 then between 128 191 b1 && valid_utf8 l2
            else
              match l2 with
              | [] => false
              | b2 :: l3 =>
                  if between 224 239 b0 then
                    between (if (b0 =? 224)%Z then 160 else 128) (if (b0 =? 237)%Z then 159 else 191) b1 &&
                    between 128 191 b2 && valid_utf8 l3
                  else
                    match l3 with
                    | [] => false
                    | b3 :: l4 =>
                        between 240 244 b0 &&
                        between (if (b0 =? 240)%Z then 144 else 128) (if (b0 =? 244)%Z then 143 else 191) b1 &&
                        between 128 191 b2 && between 128 191 b3 && valid_utf8 l4
                    end
              end
        end
  end.

(** What [read_line] takes: up to the newline, which it keeps, or to the end. *)
Fixpoint take_line (input : bytes) : bytes * bytes :=
  match input with
  | [] => ([], [])
  | c :: rest =>
      if (c =? 10)%Z then ([c], rest)
      else let '(line, rest') := take_line rest in (c :: line, rest')
  end.

(** ** The pipe *)

Inductive exit_reason : Type := ShutdownSignal | StdinEof | PeerClosed.

Inductive pipe_event : Type :=
  | EvSend (data : bytes)
  | EvFlush
  | EvRecv (data : bytes)
  | EvStdout (data : bytes)
  | EvStderr (line : str)
  | EvError (what : string) (e : BluefinError)
  | EvSleep
  | EvClose.

Record pipe_config := {
  pc_tag : str;
  pc_interactive : bool;
  pc_diag : bool;
  pc_close_on_stdin_eof : bool;
  pc_has_stdin : bool
}.

Definition show_prompt (c : pipe_config) : bool := pc_interactive c && pc_has_stdin c.

(** The locals of [run_pipe] and what it has done. *)
Record pipe := {
  pi_rx : bool;
  total_sent : nat;
  total_recv : nat;
  pi_trace : list pipe_event
}.

(** What a [select!] over the shutdown watch and [timeout(recv)] gives. *)
Inductive recv_outcome : Type :=
  | RecvShutdown
  | RecvTimeout
  | RecvData (data : bytes)
  | RecvError (e : BluefinError).

(** What becomes of an await that nothing bounds: it never returns ([flush] waits
    for the writer, Writer.v), or it returns with or without an error. *)
Inductive awaited : Type :=
  | Waiting
  | Returned (e : option BluefinError).

(** The answers of one round: the shutdown flag, the result of the [i]-th send,
    of the flush, the receive and the close, and the diagnostic events queued at
    each drain. *)
Record round := {
  rd_shutdown : bool;
  rd_send : nat -> option BluefinError;
  rd_flush : awaited;
  rd_recv : recv_outcome;
  rd_close : awaited;
  rd_diag : nat -> option (list DiagnosticEvent)
}.

Definition emit_events (p : pipe) (evs : list pipe_event) : pipe :=
  {| pi_rx := pi_rx p; total_sent := total_sent p; total_recv := total_recv p;
     pi_trace := pi_trace p ++ evs |}.

Definition drain_events (c : pipe_config) (r : round) (k : nat) : list pipe_event :=
  map EvStderr (drain_diag (pc_diag c) (pc_tag c) (rd_diag r k)).

Definition sent_events (c : pipe_config) (data : bytes) (total : nat) : list pipe_event :=
  if pc_diag c then
    map EvStderr
      (tagged (pc_tag c) (lit " sent " ++ fmt_dec (Z.of_nat (length data)) ++ lit " bytes, total " ++
                          fmt_dec (Z.of_nat total)) ::
       hex_dump (lit "  " ++ tagged (pc_tag c) (lit " >>>")) data)
  else [].

(** The [try_recv] loop: sends what the channel holds, up to the first error. *)
Fixpoint drain_stdin (c : pipe_config) (r : round) (i : nat) (chan : list bytes) (p : pipe) :
    option BluefinError * pipe :=
  match chan with
  | [] => (None, p)
  | data :: chan' =>
      match rd_send r i with
      | Some e => (Some e, emit_events p [EvError "send error" e])
      | None =>
          let total := total_sent p + length data in
          drain_stdin c r (S i) chan'
            {| pi_rx := pi_rx p; total_sent := total; total_recv := total_recv p;
               pi_trace := pi_trace p ++ EvSend data :: sent_events c data total |}
      end
  end.

Definition recv_events (c : pipe_config) (r : round) (data : bytes) (total : nat) : list pipe_event :=
  drain_events c r 2 ++
  (if pc_diag c then
     map EvStderr
       (tagged (pc_tag c) (lit " recv " ++ fmt_dec (Z.of_nat (length data)) ++ lit " bytes, total " ++
                           fmt_dec (Z.of_nat total)) ::
        hex_dump (lit "  " ++ tagged (pc_tag c) (lit " <<<")) data)
   else if pc_interactive c then [EvStderr (tagged (pc_tag c) (lit " ")); EvStdout data]
   else [EvStdout data]).

(** How a round ends: the loop goes on, leaves with a reason, returns, or waits
    in [flush]. *)
Inductive round_end : Type :=
  | Again (p : pipe)
  | Leave (reason : exit_reason) (p : pipe)
  | Return (e : BluefinError) (p : pipe)
  | InFlush (p : pipe).

(** The end of a round: [conn.recv] against the shutdown watch. *)
Definition pipe_recv (c : pipe_config) (r : round) (p : pipe) : round_end :=
  match rd_recv r with
  | RecvShutdown => Leave ShutdownSignal p
  | RecvTimeout => Again p
  | RecvData [] => Leave PeerClosed p
  | RecvData data =>
      let total := total_recv p + length data in
      Again {| pi_rx := pi_rx p; total_sent := total_sent p; total_recv := total;
               pi_trace := pi_trace p ++ EvRecv data :: recv_events c r data total |}
  | RecvError e => Return e (emit_events p [EvError "recv error" e])
  end.

(** The branch on [stdin_eof], once its [flush] has returned. *)
Definition pipe_flushed (c : pipe_config) (r : round) (res : option BluefinError) (p : pipe) : round_end :=
  let p := emit_events p (EvFlush :: match res with
                                     | Some e => [EvError "flush after stdin EOF returned" e]
                                     | None => []
                                     end) in
  if pc_close_on_stdin_eof c && negb (pc_interactive c) then Leave StdinEof p
  else
    pipe_recv c r
      {| pi_rx := false; total_sent := total_sent p; total_recv := total_recv p;
         pi_trace := pi_trace p ++
           [EvStderr (tagged (pc_tag c)
              (lit " stdin EOF " ++ [8212%Z] ++ lit " half-closing (recv side stays open; Ctrl-C to exit)"))] |}.

(** The branch on [stdin_eof]. *)
Definition pipe_stdin_eof (c : pipe_config) (r : round) (p : pipe) : round_end :=
  match rd_flush r with
  | Waiting => InFlush (emit_events p [EvFlush])
  | Returned res => pipe_flushed c r res p
  end.

(** One round of the loop; [chan] is what the channel holds and [eof] that the
    reader has dropped its end. *)
Definition pipe_round (c : pipe_config) (r : round) (chan : list bytes) (eof : bool) (p : pipe) : round_end :=
  let p := emit_events p (drain_events c r 0) in
  if rd_shutdown r then Leave ShutdownSignal p
  else if pi_rx p then
    match drain_stdin c r 0 chan p with
    | (Some e, p) => Return e p
    | (None, p) =>
        let p := match chan with
                 | [] => p
                 | _ => emit_events p (drain_events c r 1 ++
                          (if show_prompt c then [EvStderr (lit "> ")] else []))
                 end in
        if eof then pipe_stdin_eof c r p else pipe_recv c r p
    end
  else pipe_recv c r p.

Definition reason_text (reason : exit_reason) : str :=
  match reason with
  | ShutdownSignal => lit "shutdown signal"
  | StdinEof => lit "stdin EOF"
  | PeerClosed => lit "peer closed (EOF)"
  end.

(** What comes after the loop. *)
Definition tail_events (c : pipe_config) (r : round) (reason : exit_reason) : list pipe_event :=
  EvStderr (tagged (pc_tag c) (lit " closing connection (" ++ reason_text reason ++ lit ") ...")) ::
  drain_events c r 3 ++
  match reason with
  | PeerClosed =>
      EvSleep :: drain_events c r 4 ++
      [EvStderr (tagged (pc_tag c) (lit " connection closed (peer Fin observed)"))]
  | _ =>
      EvClose ::
      match rd_close r with
      | Waiting => []
      | Returned None => drain_events c r 4 ++
          [EvStderr (tagged (pc_tag c) (lit " connection closed (local Fin acked by peer)"))]
      | Returned (Some e) => [EvError "close() returned" e;
          EvStderr (tagged (pc_tag c) (lit " connection closed (Fin sent; no FinAck from peer)"))]
      end
  end.

Definition pipe_tail (c : pipe_config) (r : round) (reason : exit_reason) (p : pipe) : pipe :=
  emit_events p (tail_events c r reason).

(** ** The reader task and the pipe together *)

Inductive pipe_status : Type :=
  | Running
  | Exited (reason : exit_reason)
  | Failed (e : BluefinError)
  | WaitsFlush                        (* [flush] does not return *)
  | WaitsClose (reason : exit_reason) (* [close] does not return *).

(** How the tail ends. *)
Definition tail_status (r : round) (reason : exit_reason) : pipe_status :=
  match reason, rd_close r with
  | PeerClosed, _ | _, Returned _ => Exited reason
  | _, Waiting => WaitsClose reason
  end.

Record tool := {
  tl_input : bytes;
  tl_reading : bool;
  tl_chan : list bytes;
  tl_pipe : pipe;
  tl_status : pipe_status
}.

Inductive tool_action : Type :=
  | ReadLine
  | Round (r : round).

(** One turn of the reader task's loop.  The line it has read is lost when it is
    not UTF-8 or when the receiver is gone, and the task ends. *)
Definition read_line_step (t : tool) : tool :=
  if tl_reading t then
    let '(line, rest) := take_line (tl_input t) in
    match line with
    | [] => {| tl_input := tl_input t; tl_reading := false; tl_chan := tl_chan t;
               tl_pipe := tl_pipe t; tl_status := tl_status t |}
    | _ =>
        if valid_utf8 line && pi_rx (tl_pipe t) then
          {| tl_input := rest; tl_reading := true; tl_chan := tl_chan t ++ [line];
             tl_pipe := tl_pipe t; tl_status := tl_status t |}
        else {| tl_input := tl_input t; tl_reading := false; tl_chan := tl_chan t;
                tl_pipe := tl_pipe t; tl_status := tl_status t |}
    end
  else t.

Definition round_step (c : pipe_config) (r : round) (t : tool) : tool :=
  let eof := negb (tl_reading t) in
  let chan' := if rd_shutdown r then tl_chan t else if pi_rx (tl_pipe t) then [] else tl_chan t in
  let go p st := {| tl_input := tl_input t; tl_reading := tl_reading t; tl_chan := chan';
                    tl_pipe := p; tl_status := st |} in
  match pipe_round c r (tl_chan t) eof (tl_pipe t) with
  | Again p => go p Running
  | Leave reason p => go (pipe_tail c r reason p) (tail_status r reason)
  | Return e p => go p (Failed e)
  | InFlush p => go p WaitsFlush
  end.

Definition tool_step (c : pipe_config) (t : tool) (a : tool_action) : tool :=
  match tl_status t with
  | Running => match a with ReadLine => read_line_step t | Round r => round_step c r t end
  | _ => t
  end.

(** [run_pipe] begins: with the reader task when there is a stdin. *)
Definition run_pipe_start (c : pipe_config) (input : bytes) : tool :=
  {| tl_input := if pc_has_stdin c then input else []; tl_reading := pc_has_stdin c; tl_chan := [];
     tl_pipe := {| pi_rx := pc_has_stdin c; total_sent := 0; total_recv := 0;
                   pi_trace := if show_prompt c then [EvStderr (lit "> ")] else [] |};
     tl_status := Running |}.

Definition run_pipe (c : pipe_config) (input : bytes) (acts : list tool_action) : tool :=
  foldl (tool_step c) (run_pipe_start c input) acts.

(** ** The modes and [main] *)

(** One turn of the accept loop: the shutdown flag, and what [select!] gives. *)
Inductive accept_select : Type :=
  | ShutdownChanged
  | AcceptedConn (conn : BluefinConnection)
  | AcceptFailed (e : BluefinError).

Record accept_round := { ar_shutdown : bool; ar_select : accept_select }.

Definition peer_tag (conn : BluefinConnection) : str := fmt_hex0 8 (bc_dst_conn_id conn).

(** The lines of [dump_connection_info]; a connection has version 0 and the default
    security fields. *)
Definition dump_connection_info (conn : BluefinConnection) (role local_addr : str) (remote_addr : option str) : list str :=
  let sec := BluefinSecurityFields_default in
  [lit "  local_addr  = " ++ local_addr] ++
  (match remote_addr with Some remote => [lit "  remote_addr = " ++ remote] | None => [] end) ++
  [lit "  src_conn_id = 0x" ++ fmt_hex0 8 (bc_src_conn_id conn);
   lit "  dst_conn_id = 0x" ++ fmt_hex0 8 (bc_dst_conn_id conn);
   lit "  role        = " ++ role;
   lit "  version     = 0x" ++ fmt_hex 0;
   lit "  encrypted   = " ++ lit (if header_encrypted sec then "true" else "false");
   lit "  mask        = 0x" ++ fmt_hex0 2 (header_protection_mask sec)].

(** The accept loop: the pipes it has spawned, in order, and whether it has
    returned. *)
Record listener := {
  li_first : bool;
  li_spawned : list (BluefinConnection * pipe_config);
  li_returned : bool
}.

Definition accept_step (interactive diag : bool) (l : listener) (r : accept_round) : listener :=
  let stop := {| li_first := li_first l; li_spawned := li_spawned l; li_returned := true |} in
  if li_returned l then l
  else if ar_shutdown r then stop
  else
    match ar_select r with
    | ShutdownChanged => stop
    | AcceptFailed _ => l
    | AcceptedConn conn =>
        {| li_first := false;
           li_spawned := li_spawned l ++
             [(conn, {| pc_tag := peer_tag conn; pc_interactive := interactive; pc_diag := diag;
                        pc_close_on_stdin_eof := false; pc_has_stdin := li_first l |})];
           li_returned := false |}
    end.

(** [do_listen]: exits with 1 on a bad address, returns the error of the setup,
    and otherwise runs the accept loop.  [socket] is what binding answers. *)
Definition do_listen (interactive diag : bool) (bind : str) (port : Z) (socket : BluefinResult unit)
    (rounds : list accept_round) : outcome Z (BluefinResult BluefinServer * listener) :=
  let l0 := {| li_first := true; li_spawned := []; li_returned := false |} in
  match parse_ipv4 bind with
  | None => Err 1%Z
  | Some addr =>
      match BluefinServer_set_num_reader_workers (BluefinServer_new (addr, port)) 1 with
      | (Ok _, server) =>
          let server := if diag then BluefinServer_set_diagnostics server else server in
          match BluefinServer_bind server socket with
          | (Ok _, server) => Ok (Ok server, foldl (accept_step interactive diag) l0 rounds)
          | (Err e, _) => Ok (Err e, l0)
          | (_, _) => Panic
          end
      | (Err e, _) => Ok (Err e, l0)
      | (_, _) => Panic
      end
  end.

(** [do_connect]: [connect] is what the handshake answers to the source and the
    destination. *)
Definition do_connect (interactive diag : bool) (host : str) (port source_port : Z)
    (connect : SocketAddr -> SocketAddr -> BluefinResult BluefinConnection)
    (input : bytes) (acts : list tool_action) : outcome Z (BluefinResult tool) :=
  match parse_ipv4 host with
  | None => Err 1%Z
  | Some dst_addr =>
      Ok (outcome_map
            (fun conn =>
               run_pipe {| pc_tag := peer_tag conn; pc_interactive := interactive; pc_diag := diag;
                           pc_close_on_stdin_eof := true; pc_has_stdin := true |} input acts)
            (connect (2130706433, source_port)%Z (dst_addr, port)))
  end.

(** What [main] ends with: the exit code, or that it still runs.  [shutdown] is
    the observer's flag at the end, which makes no difference to the code. *)
Definition main_exit (rnd : Z) (args : list str) (interactive : bool) (socket : BluefinResult unit)
    (rounds : list accept_round)
    (connect : SocketAddr -> SocketAddr -> BluefinResult BluefinConnection)
    (input : bytes) (acts : list tool_action) : outcome unit (option Z) :=
  match parse_args rnd args with
  | Err code => Ok (Some code)
  | Ok (Listen bind port, diag) =>
      match do_listen interactive diag bind port socket rounds with
      | Err code => Ok (Some code)
      | Ok (Err _, _) => Ok (Some 1%Z)
      | Ok (Ok _, l) => Ok (if li_returned l then Some 0%Z else None)
      | _ => Panic
      end
  | Ok (ConnectTo host port source_port, diag) =>
      match do_connect interactive diag host port source_port connect input acts with
      | Err code => Ok (Some code)
      | Ok (Err _) => Ok (Some 1%Z)
      | Ok (Ok t) =>
          Ok match tl_status t with
             | Running | WaitsFlush | WaitsClose _ => None
             | Exited _ => Some 0%Z
             | Failed _ => Some 1%Z
             end
      | _ => Panic
      end
  | _ => Panic
  end.

(** ** What a trace says *)

Definition sends (tr : list pipe_event) : list bytes :=
  omap (fun e => match e with EvSend d => Some d | _ => None end) tr.
Definition recvs (tr : list pipe_event) : list bytes :=
  omap (fun e => match e with EvRecv d => Some d | _ => None end) tr.
Definition stdouts (tr : list pipe_event) : list bytes :=
  omap (fun e => match e with EvStdout d => Some d | _ => None end) tr.
Definition closes (tr : list pipe_event) : nat :=
  length (omap (fun e => match e with EvClose => Some tt | _ => None end) tr).

(** Lines on stderr and sleeps, which say nothing of the stream. *)
Definition quiet (e : pipe_event) : Prop :=
  match e with EvStderr _ | EvError _ _ | EvSleep | EvFlush => True | _ => False end.

Lemma quiet_omap {A : Type} (f : pipe_event -> option A) evs :
  (forall e, quiet e -> f e = None) -> Forall quiet evs -> omap f evs = [].
Proof. intros Hf. induction 1 as [|e l He _ IH]; [done|]. simpl. by rewrite Hf. Qed.

Lemma quiet_stderr lines : Forall quiet (map EvStderr lines).
Proof. by apply Forall_map, Forall_true. Qed.

Lemma quiet_drain c r k : Forall quiet (drain_events c r k).
Proof. apply quiet_stderr. Qed.

Lemma quiet_sent c data total : Forall quiet (sent_events c data total).
Proof. unfold sent_events. destruct (pc_diag c); [apply quiet_stderr|done]. Qed.

Lemma closes_app a b : closes (a ++ b) = closes a + closes b.
Proof. unfold closes. by rewrite omap_app, length_app. Qed.

Lemma sends_app a b : sends (a ++ b) = sends a ++ sends b.
Proof. apply omap_app. Qed.

Lemma recvs_app a b : recvs (a ++ b) = recvs a ++ recvs b.
Proof. apply omap_app. Qed.

Lemma stdouts_app a b : stdouts (a ++ b) = stdouts a ++ stdouts b.
Proof. apply omap_app. Qed.

(** What a quiet piece of the trace leaves alone. *)
Lemma quiet_spec evs :
  Forall quiet evs -> sends evs = [] /\ recvs evs = [] /\ stdouts evs = [] /\ closes evs = 0.
Proof.
  intros H. unfold closes. rewrite quiet_omap by (done || by intros []).
  split_and!; [..|done]; (apply quiet_omap; [by intros []|done]).
Qed.

Create HintDb tool.
#[export] Hint Resolve quiet_drain quiet_sent quiet_stderr : tool.
#[export] Hint Resolve Forall_app_2 Forall_cons_2 Forall_nil_2 : tool.

(** Takes an appended quiet piece off. *)
Ltac quiet_tail evs :=
  let H := fresh "Hq" in
  assert (Forall quiet evs) as H by (auto with tool);
  destruct (quiet_spec _ H) as (? & ? & ? & ?).

(** ** The counters and stdout *)

(** The counters add up the trace, nothing is closed inside the loop, and stdout
    has what was received, except in diagnostics mode, which writes none. *)
Record pipe_ok (c : pipe_config) (p : pipe) : Prop := {
  ok_sent : total_sent p = length (concat (sends (pi_trace p)));
  ok_recv : total_recv p = length (concat (recvs (pi_trace p)));
  ok_out : stdouts (pi_trace p) = if pc_diag c then [] else recvs (pi_trace p);
  ok_open : closes (pi_trace p) = 0
}.

Lemma emit_quiet c p evs :
  Forall quiet evs -> pipe_ok c p ->
  pipe_ok c (emit_events p evs) /\ sends (pi_trace (emit_events p evs)) = sends (pi_trace p).
Proof.
  intros Hq [H1 H2 H3 H4]. destruct (quiet_spec evs Hq) as (E1 & E2 & E3 & E4).
  assert (sends (pi_trace p ++ evs) = sends (pi_trace p)) as Es by by rewrite sends_app, E1, app_nil_r.
  assert (recvs (pi_trace p ++ evs) = recvs (pi_trace p)) as Er by by rewrite recvs_app, E2, app_nil_r.
  split; [|exact Es]. constructor; simpl; rewrite ?Es, ?Er; try done.
  - by rewrite stdouts_app, E3, app_nil_r.
  - rewrite closes_app. lia.
Qed.

Lemma drain_stdin_spec c r i chan p :
  pipe_ok c p ->
  let '(e, p') := drain_stdin c r i chan p in
  pipe_ok c p' /\ pi_rx p' = pi_rx p /\
  exists k, sends (pi_trace p') = sends (pi_trace p) ++ take k chan /\
    (e = None -> take k chan = chan).
Proof.
  revert i p. induction chan as [|data chan IH]; intros i p Hok; simpl.
  { split_and!; [done..|]. exists 0. by rewrite app_nil_r. }
  destruct (rd_send r i) as [e|].
  { destruct (emit_quiet c p [EvError "send error" e]) as [H1 H2]; [by repeat constructor|done|].
    split_and!; [done..|]. exists 0. rewrite H2. simpl. by rewrite app_nil_r. }
  set (total := total_sent p + length data).
  set (p1 := {| pi_rx := pi_rx p; total_sent := total; total_recv := total_recv p;
                pi_trace := pi_trace p ++ EvSend data :: sent_events c data total |}).
  destruct (quiet_spec _ (quiet_sent c data total)) as (E1 & E2 & E3 & E4).
  assert (sends (pi_trace p1) = sends (pi_trace p) ++ [data]) as Hs.
  { unfold p1. simpl. rewrite (cons_middle _ (pi_trace p)), !sends_app, E1, app_nil_r. done. }
  assert (pipe_ok c p1) as Hok1.
  { assert (forall evs, pi_trace p ++ EvSend data :: evs = (pi_trace p ++ [EvSend data]) ++ evs) as Hm
      by (intros; by rewrite <- app_assoc).
    destruct Hok as [H1 H2 H3 H4]. constructor; [rewrite Hs; unfold p1; cbn [total_sent]
      |unfold p1; cbn [pi_trace total_sent total_recv]; rewrite Hm..];
      rewrite ?stdouts_app, ?recvs_app, ?closes_app, ?E2, ?E3, ?E4, ?app_nil_r.
    - rewrite concat_app, length_app. simpl. rewrite app_nil_r. unfold total. by rewrite H1.
    - done.
    - done.
    - by rewrite H4. }
  specialize (IH (S i) p1 Hok1). destruct (drain_stdin c r (S i) chan p1) as [e p'].
  destruct IH as (Hok' & Hrx & k & Hk & Hall). split_and!; [done..|].
  exists (S k). simpl. rewrite Hk, Hs, <- app_assoc. split; [done|]. intros He. by rewrite Hall.
Qed.

(** What a round's end leaves behind, whichever end it is. *)
Definition end_pipe (e : round_end) : pipe :=
  match e with Again p | Leave _ p | Return _ p | InFlush p => p end.

(** What the trace of a received message adds. *)
Lemma recv_events_spec c r d total :
  let evs := recv_events c r d total in
  sends evs = [] /\ recvs evs = [] /\ stdouts evs = (if pc_diag c then [] else [d]) /\ closes evs = 0.
Proof.
  cbv zeta. unfold recv_events. destruct (quiet_spec _ (quiet_drain c r 2)) as (D1 & D2 & D3 & D4).
  rewrite recvs_app, sends_app, closes_app, stdouts_app, D1, D2, D3, D4.
  destruct (pc_diag c); [|by destruct (pc_interactive c)]. apply quiet_spec, quiet_stderr.
Qed.

Lemma pipe_recv_spec c r p :
  pipe_ok c p -> pi_rx (end_pipe (pipe_recv c r p)) = pi_rx p /\
  pipe_ok c (end_pipe (pipe_recv c r p)) /\
  sends (pi_trace (end_pipe (pipe_recv c r p))) = sends (pi_trace p).
Proof.
  intros Hok. unfold pipe_recv. destruct (rd_recv r) as [| |[|b data]|e]; try done.
  2:{ destruct (emit_quiet c p [EvError "recv error" e]); [by repeat constructor|done|].
      split_and!; done. }
  set (d := b :: data). set (total := total_recv p + length d).
  destruct (recv_events_spec c r d total) as (E1 & E2 & E3 & E4).
  cbn [end_pipe pi_rx pi_trace]. split; [done|].
  assert (forall evs, pi_trace p ++ EvRecv d :: evs = (pi_trace p ++ [EvRecv d]) ++ evs) as Hm
    by (intros; by rewrite <- app_assoc).
  rewrite Hm, !sends_app, E1. simpl. rewrite !app_nil_r. split; [|done].
  destruct Hok as [H1 H2 H3 H4]. constructor; cbn [pi_trace total_sent total_recv];
    rewrite Hm, ?sends_app, ?stdouts_app, ?recvs_app, ?closes_app, ?E1, ?E2, ?E3, ?E4, ?app_nil_r.
  - done.
  - rewrite concat_app, length_app, <- H2. simpl. by rewrite app_nil_r.
  - rewrite H3. by destruct (pc_diag c); rewrite ?app_nil_r.
  - by rewrite H4.
Qed.

(** ** One round *)

(** The end of a round that has sent [chan]. *)
Lemma round_tail_spec c r (chan : list bytes) (eof : bool) p2 (tr : list bytes) :
  pipe_ok c p2 -> sends (pi_trace p2) = tr ++ chan -> pi_rx p2 = true ->
  let e := if eof then pipe_stdin_eof c r p2 else pipe_recv c r p2 in
  pipe_ok c (end_pipe e) /\
  (exists k, sends (pi_trace (end_pipe e)) = tr ++ take k chan) /\
  match e with
  | Return _ _ => True
  | _ => sends (pi_trace (end_pipe e)) = tr ++ chan
  end /\
  match e with
  | Again p' => pi_rx p' = true && negb eof
  | Leave StdinEof _ | InFlush _ => false = false /\ true = true /\ eof = true
  | _ => True
  end.
Proof.
  intros Hok Hs Hrx. cbv zeta.
  assert (forall p', pipe_ok c p' -> sends (pi_trace p') = tr ++ chan ->
    pipe_ok c (end_pipe (pipe_recv c r p')) /\
    sends (pi_trace (end_pipe (pipe_recv c r p'))) = tr ++ chan /\
    pi_rx (end_pipe (pipe_recv c r p')) = pi_rx p' /\
    match pipe_recv c r p' with Leave StdinEof _ | InFlush _ => False | _ => True end) as Hr.
  { intros p' Hok' Hs'. destruct (pipe_recv_spec c r p' Hok') as (R1 & R2 & R3).
    rewrite R3. split_and!; [done..|]. unfold pipe_recv. by destruct (rd_recv r) as [| |[]|]. }
  destruct eof.
  - unfold pipe_stdin_eof. destruct (rd_flush r) as [|res].
    { destruct (emit_quiet c p2 [EvFlush]) as [Hq1 Hq2]; [by repeat constructor|done|].
      cbn [end_pipe]. rewrite Hq2, Hs. split_and!; [done| |done..]. exists (length chan). by rewrite take_ge by lia. }
    unfold pipe_flushed.
    destruct (emit_quiet c p2 (EvFlush :: match res with
      | Some e => [EvError "flush after stdin EOF returned" e] | None => [] end)) as [Hq1 Hq2];
      [destruct res; by repeat constructor|done|].
    set (p3 := emit_events p2 _) in *. destruct (_ && _).
    + cbn [end_pipe]. rewrite Hq2, Hs. split_and!; [done| |done..]. exists (length chan).
      by rewrite take_ge by lia.
    + set (line := EvStderr (tagged _ _)).
      destruct (emit_quiet c p3 [line]) as [[O1 O2 O3 O4] Hs4]; [by repeat constructor|done|].
      destruct (Hr {| pi_rx := false; total_sent := total_sent p3; total_recv := total_recv p3;
        pi_trace := pi_trace p3 ++ [line] |}) as (R1 & R2 & R3 & R4);
        [by constructor|by rewrite <- Hs, <- Hq2|].
      rewrite R2. split_and!; [done|exists (length chan); by rewrite take_ge by lia| |];
        destruct (pipe_recv _ _ _) as [|[]| |]; done.
  - destruct (Hr p2 Hok Hs) as (R1 & R2 & R3 & R4). rewrite R2.
    split_and!; [done|exists (length chan); by rewrite take_ge by lia| |];
      destruct (pipe_recv _ _ _) as [|[]| |]; simpl in *; congruence || done.
Qed.

(** A round sends what the channel held, all of it unless it returns an error or
    finds the shutdown flag; at the end of stdin the receiver is dropped or the
    loop left. *)
Lemma pipe_round_spec c r chan eof p :
  pipe_ok c p ->
  let e := pipe_round c r chan eof p in
  pipe_ok c (end_pipe e) /\
  (exists k, sends (pi_trace (end_pipe e)) = sends (pi_trace p) ++ take k chan) /\
  match e with
  | Return _ _ => True
  | _ => sends (pi_trace (end_pipe e)) = sends (pi_trace p) ++
           (if rd_shutdown r then [] else if pi_rx p then chan else [])
  end /\
  match e with
  | Again p' => pi_rx p' = pi_rx p && negb eof
  | Leave StdinEof _ | InFlush _ => rd_shutdown r = false /\ pi_rx p = true /\ eof = true
  | _ => True
  end.
Proof.
  intros Hok. cbv zeta. unfold pipe_round.
  destruct (emit_quiet c p (drain_events c r 0)) as [Hok0 Hs0]; [auto with tool|done|].
  set (p0 := emit_events p (drain_events c r 0)) in *.
  destruct (rd_shutdown r).
  { cbn [end_pipe]. rewrite Hs0, app_nil_r. split_and!; [done|exists 0|done|done].
    by rewrite app_nil_r. }
  change (pi_rx p) with (pi_rx p0). destruct (pi_rx p0) eqn:Hrx.
  2:{ destruct (pipe_recv_spec c r p0 Hok0) as (R1 & R2 & R3). rewrite R3, Hs0.
      split_and!; [done|exists 0; by rewrite app_nil_r| |].
      - destruct (pipe_recv c r p0); rewrite ?app_nil_r; done.
      - destruct (pipe_recv c r p0) as [|[]| |] eqn:E; simpl in *; try done; [congruence|..];
          unfold pipe_recv in E; by destruct (rd_recv r) as [| |[]|]. }
  pose proof (drain_stdin_spec c r 0 chan p0 Hok0) as Hd.
  destruct (drain_stdin c r 0 chan p0) as [[e|] p1]; destruct Hd as (Hok1 & Hrx1 & k & Hk & Hall).
  { cbn [end_pipe]. rewrite Hk, Hs0. split_and!; [done|by exists k|done|done]. }
  rewrite (Hall eq_refl), Hs0 in Hk. clear k Hall.
  set (p2 := match chan with [] => p1 | _ => _ end).
  assert (pipe_ok c p2 /\ sends (pi_trace p2) = sends (pi_trace p) ++ chan /\ pi_rx p2 = true)
    as (Hok2 & Hs2 & Hrx2).
  { unfold p2. destruct chan; [split_and!; [done..|congruence]|].
    destruct (emit_quiet c p1 (drain_events c r 1 ++
      (if show_prompt c then [EvStderr (lit "> ")] else []))) as [Hq1 Hq2]; [|done|].
    - apply Forall_app. split; [auto with tool|]. destruct (show_prompt c); by repeat constructor.
    - rewrite Hq2. split_and!; [done..|]. simpl. congruence. }
  apply round_tail_spec; done.
Qed.

Lemma quiet_close_spec l1 l2 :
  Forall quiet l1 -> Forall quiet l2 ->
  let evs := l1 ++ EvClose :: l2 in
  sends evs = [] /\ recvs evs = [] /\ stdouts evs = [] /\ closes evs = 1.
Proof.
  intros H1 H2. cbv zeta.
  destruct (quiet_spec _ H1) as (A1 & A2 & A3 & A4). destruct (quiet_spec _ H2) as (B1 & B2 & B3 & B4).
  rewrite sends_app, recvs_app, stdouts_app, closes_app, A1, A2, A3, A4.
  split_and!; [exact B1|exact B2|exact B3|]. change (closes (EvClose :: l2)) with (S (closes l2)).
  by rewrite B4.
Qed.

Lemma add_events tr evs n :
  sends evs = [] /\ recvs evs = [] /\ stdouts evs = [] /\ closes evs = n ->
  sends (tr ++ evs) = sends tr /\ recvs (tr ++ evs) = recvs tr /\
  stdouts (tr ++ evs) = stdouts tr /\ closes (tr ++ evs) = closes tr + n.
Proof.
  intros (H1 & H2 & H3 & H4).
  by rewrite sends_app, recvs_app, stdouts_app, closes_app, H1, H2, H3, H4, !app_nil_r.
Qed.

(** The tail closes the connection unless the peer did, and sends nothing. *)
Lemma tail_events_spec c r reason :
  let evs := tail_events c r reason in
  sends evs = [] /\ recvs evs = [] /\ stdouts evs = [] /\
  closes evs = match reason with PeerClosed => 0 | _ => 1 end.
Proof.
  unfold tail_events. destruct reason.
  3:{ apply quiet_spec. constructor; [done|]. apply Forall_app; split; [auto with tool|].
      constructor; [done|]. apply Forall_app; split; [auto with tool|by repeat constructor]. }
  all: rewrite app_comm_cons; apply quiet_close_spec; [constructor; [done|auto with tool]|];
    destruct (rd_close r) as [|[]]; [constructor|by repeat constructor|apply Forall_app; split; [auto with tool|by repeat constructor]].
Qed.

Lemma pipe_tail_spec c r reason p :
  let tr := pi_trace (pipe_tail c r reason p) in
  sends tr = sends (pi_trace p) /\ recvs tr = recvs (pi_trace p) /\
  stdouts tr = stdouts (pi_trace p) /\
  closes tr = closes (pi_trace p) + match reason with PeerClosed => 0 | _ => 1 end.
Proof. apply add_events, tail_events_spec. Qed.

Lemma take_line_app l : (take_line l).1 ++ (take_line l).2 = l.
Proof.
  induction l as [|c l IH]; [done|]. simpl. destruct (c =? 10)%Z; [done|].
  destruct (take_line l) as [a b]. simpl in *. by rewrite IH.
Qed.

Lemma take_line_nil l : (take_line l).1 = [] -> l = [].
Proof. destruct l as [|c l]; [done|]. simpl. destruct (c =? 10)%Z; [done|]. by destruct (take_line l). Qed.

Lemma take_line_cons c l :
  (c =? 10)%Z = false -> take_line (c :: l) = (c :: (take_line l).1, (take_line l).2).
Proof. intros H. simpl. rewrite H. by destruct (take_line l). Qed.

Lemma high_not_newline a b c : (11 <= a)%Z -> between a b c = true -> (c =? 10)%Z = false.
Proof. unfold between. intros Ha H. apply andb_true_iff in H as [?%Z.leb_le _]. lia. Qed.

(** A newline is never inside a character: the lines of well-formed text are
    well formed. *)
Lemma take_line_utf8 l :
  valid_utf8 l = true -> valid_utf8 (take_line l).1 = true /\ valid_utf8 (take_line l).2 = true.
Proof.
  induction l as [l IH] using (well_founded_induction (well_founded_ltof _ (@length Z))).
  destruct l as [|b0 l1]; [done|]. intros H. simpl in H.
  destruct (b0 <? 128)%Z eqn:H0.
  { destruct (b0 =? 10)%Z eqn:Hn; [apply Z.eqb_eq in Hn as ->; by split|].
    rewrite take_line_cons by done. simpl. rewrite H0.
    apply (IH l1); [unfold ltof; simpl; lia|done]. }
  apply Z.ltb_ge in H0 as H0'. assert ((b0 =? 10)%Z = false) as N0 by lia.
  rewrite take_line_cons by done.
  destruct l1 as [|b1 l2]; [done|].
  destruct (between 194 223 b0) eqn:H2.
  { apply andb_true_iff in H as [H1 H]. rewrite take_line_cons by (by eapply high_not_newline; [|exact H1]).
    simpl. rewrite H0, H2, H1. simpl. apply (IH l2); [unfold ltof; simpl; lia|done]. }
  destruct l2 as [|b2 l3]; [done|].
  destruct (between 224 239 b0) eqn:H3.
  { apply andb_true_iff in H as [[H1 H4]%andb_true_iff H].
    rewrite take_line_cons by (eapply high_not_newline; [|exact H1]; by destruct (b0 =? 224)%Z).
    cbn [fst snd]. rewrite take_line_cons by (by eapply high_not_newline; [|exact H4]).
    simpl. rewrite H0, H2, H3, H1, H4. simpl. apply (IH l3); [unfold ltof; simpl; lia|done]. }
  destruct l3 as [|b3 l4]; [done|].
  apply andb_true_iff in H as [[[[H4 H1]%andb_true_iff H5]%andb_true_iff H6]%andb_true_iff H].
  rewrite take_line_cons by (eapply high_not_newline; [|exact H1]; by destruct (b0 =? 240)%Z).
  cbn [fst snd]. rewrite take_line_cons by (by eapply high_not_newline; [|exact H5]).
  cbn [fst snd]. rewrite take_line_cons by (by eapply high_not_newline; [|exact H6]).
  simpl. rewrite H0, H2, H3, H4, H1, H5, H6. simpl. apply (IH l4); [unfold ltof; simpl; lia|done].
Qed.

(** ** The whole run *)

(** In every reachable state: what was sent, what is queued and what is unread
    are the input, in order; once the reader has stopped on well-formed input
    nothing is unread; nothing is closed before the end; stdout is what was
    received. *)
Definition after_eof (st : pipe_status) : bool :=
  match st with Exited StdinEof | WaitsFlush | WaitsClose StdinEof => true | _ => false end.

(** How often [close] has been called. *)
Definition close_calls (st : pipe_status) : nat :=
  match st with Exited PeerClosed => 0 | Exited _ | WaitsClose _ => 1 | _ => 0 end.

Record tool_ok (c : pipe_config) (input : bytes) (t : tool) : Prop := {
  to_stream :
    match tl_status t with
    | Failed _ => exists rest, concat (sends (pi_trace (tl_pipe t))) ++ rest = input
    | _ => concat (sends (pi_trace (tl_pipe t))) ++ concat (tl_chan t) ++ tl_input t = input
    end;
  to_utf8 : valid_utf8 input = true ->
    valid_utf8 (tl_input t) = true /\ (tl_reading t = false -> tl_input t = []);
  to_rx : tl_status t = Running -> pi_rx (tl_pipe t) = false -> tl_reading t = false /\ tl_chan t = [];
  to_eof : after_eof (tl_status t) = true -> tl_reading t = false /\ tl_chan t = [];
  to_counts : tl_status t = Running -> pipe_ok c (tl_pipe t);
  to_out : stdouts (pi_trace (tl_pipe t)) = if pc_diag c then [] else recvs (pi_trace (tl_pipe t));
  to_closes : closes (pi_trace (tl_pipe t)) = close_calls (tl_status t)
}.

Definition input_of (c : pipe_config) (input : bytes) : bytes := if pc_has_stdin c then input else [].

Lemma start_ok c input : tool_ok c (input_of c input) (run_pipe_start c input).
Proof.
  unfold run_pipe_start, input_of.
  constructor; cbn [tl_status tl_pipe pi_trace tl_chan tl_input tl_reading]; try done.
  - by destruct (show_prompt c).
  - intros Hv. split; [done|]. by destruct (pc_has_stdin c).
  - intros _. constructor; simpl; destruct (show_prompt c), (pc_diag c); done.
  - destruct (show_prompt c), (pc_diag c); done.
  - by destruct (show_prompt c).
Qed.

Lemma read_line_ok c input t :
  tl_status t = Running -> tool_ok c input t -> tool_ok c input (read_line_step t).
Proof.
  intros Hrun Hok. unfold read_line_step.
  destruct (tl_reading t) eqn:Hr; [|done]. destruct Hok as [H1 H2 H3 H4 H5 H6 H7].
  pose proof (take_line_app (tl_input t)) as Happ. pose proof (take_line_nil (tl_input t)) as Hnil.
  pose proof (take_line_utf8 (tl_input t)) as Hutf.
  destruct (take_line (tl_input t)) as [line rest]. simpl in Happ, Hnil, Hutf.
  assert (pi_rx (tl_pipe t) = true) as Hrx.
  { destruct (pi_rx (tl_pipe t)); [done|]. destruct (H3 Hrun eq_refl). congruence. }
  rewrite Hrx, andb_true_r, Hrun in *.
  destruct line as [|b line]; [|destruct (valid_utf8 (b :: line)) eqn:Hv];
    constructor; cbn [tl_status tl_pipe tl_chan tl_input tl_reading]; try done.
  - intros Hin. split; [by apply H2|]. intros _. by apply Hnil.
  - intros _. congruence.
  - rewrite <- H1, <- Happ, concat_app. simpl. by rewrite app_nil_r, <- !app_assoc.
  - intros Hin. split; [|done]. by apply Hutf, H2.
  - intros _. congruence.
  - intros Hin. destruct (H2 Hin) as [Hi _]. destruct (Hutf Hi). congruence.
  - intros _. congruence.
Qed.

Lemma round_ok c input r t :
  tl_status t = Running -> tool_ok c input t -> tool_ok c input (round_step c r t).
Proof.
  intros Hrun [H1 H2 H3 H4 H5 H6 H7]. rewrite Hrun in *. specialize (H5 eq_refl).
  unfold round_step.
  destruct (pipe_round_spec c r (tl_chan t) (negb (tl_reading t)) (tl_pipe t) H5) as (Hok & (k & Hk) & Hs & He).
  set (chan' := if rd_shutdown r then _ else _).
  assert (concat (if rd_shutdown r then [] else if pi_rx (tl_pipe t) then tl_chan t else []) ++
    concat chan' = concat (tl_chan t)) as Hchan.
  { unfold chan'. destruct (rd_shutdown r); [done|]. destruct (pi_rx (tl_pipe t)); [|done].
    by rewrite app_nil_r. }
  destruct (pipe_round c r (tl_chan t) (negb (tl_reading t)) (tl_pipe t)) as [p|reason p|e p|p] eqn:Hround;
    cbn [end_pipe] in *.
  - constructor; cbn [tl_status tl_pipe tl_chan tl_input tl_reading]; try done.
    + rewrite Hs, concat_app, <- app_assoc, (app_assoc _ (concat chan')), Hchan. done.
    + intros _ Hrx. rewrite He in Hrx. unfold chan'.
      destruct (pi_rx (tl_pipe t)) eqn:Hrx'; simpl in Hrx.
      * destruct (tl_reading t) eqn:Hrd; [done|]. split; [done|]. destruct (rd_shutdown r) eqn:Hsd; [|done].
        exfalso. unfold pipe_round in Hround. by rewrite ?Hsd in Hround.
      * destruct (H3 eq_refl eq_refl) as [-> ->]. split; [done|]. by destruct (rd_shutdown r).
    + by destruct Hok.
    + by destruct Hok.
  - destruct (pipe_tail_spec c r reason p) as (T1 & T2 & T3 & T4).
    assert (tail_status r reason <> Running) as Hnr by (unfold tail_status; by destruct reason, (rd_close r)).
    constructor; cbn [tl_status tl_pipe tl_chan tl_input tl_reading]; try done.
    + rewrite T1, Hs, concat_app, <- app_assoc, (app_assoc _ (concat chan')), Hchan.
      unfold tail_status. by destruct reason, (rd_close r).
    + intros Heof. assert (reason = StdinEof) as -> by (unfold tail_status in Heof; by destruct reason, (rd_close r)).
      destruct He as (Hsd & Hrx & ?%negb_true_iff). unfold chan'. by rewrite Hsd, Hrx.
    + rewrite T2, T3. by destruct Hok.
    + rewrite T4. destruct Hok as [_ _ _ ->]. unfold tail_status. by destruct reason, (rd_close r).
  - constructor; cbn [tl_status tl_pipe tl_chan tl_input tl_reading]; try done.
    + rewrite Hk, concat_app. exists (concat (drop k (tl_chan t)) ++ tl_input t).
      rewrite <- app_assoc, (app_assoc (concat (take k _))), <- concat_app, take_drop. done.
    + by destruct Hok.
    + by destruct Hok.
  - constructor; cbn [tl_status tl_pipe tl_chan tl_input tl_reading]; try done.
    + rewrite Hs, concat_app, <- app_assoc, (app_assoc _ (concat chan')), Hchan. done.
    + intros _. destruct He as (Hsd & Hrx & ?%negb_true_iff). unfold chan'. by rewrite Hsd, Hrx.
    + by destruct Hok.
    + by destruct Hok.
Qed.

Lemma run_pipe_ok c input acts : tool_ok c (input_of c input) (run_pipe c input acts).
Proof.
  unfold run_pipe. pose proof (start_ok c input) as H. revert H.
  generalize (run_pipe_start c input). induction acts as [|a acts IH]; intros t Ht; [done|].
  simpl. apply IH. unfold tool_step. destruct (tl_status t) eqn:Hs; [|done..].
  destruct a; [by apply read_line_ok|by apply round_ok].
Qed.




(** ** One-shot use: [echo foo | bluefintool host port] *)









(** C38: the pipe.  At every moment of every run what has been sent is, in order,
    a beginning of the standard input, and all of it when the loop was left at
    the end of well-formed input; standard output is what was received, in order,
    except in diagnostics mode, where it stays empty; the connection is closed
    once when the loop was left for another reason than the peer's close, and not
    at all when a send or a receive failed or a flush has not returned. *)
Theorem pipe_stream c input acts :
  let t := run_pipe c input acts in
  let tr := pi_trace (tl_pipe t) in
  (exists rest, concat (sends tr) ++ rest = input_of c input) /\
  (tl_status t = Exited StdinEof -> valid_utf8 (input_of c input) = true ->
     concat (sends tr) = input_of c input) /\
  stdouts tr = (if pc_diag c then [] else recvs tr) /\
  closes tr = match tl_status t with Exited PeerClosed => 0 | Exited _ | WaitsClose _ => 1 | _ => 0 end.
Proof.
  cbv zeta. destruct (run_pipe_ok c input acts) as [H1 H2 H3 H4 H5 H6 H7].
  set (t := run_pipe c input acts) in *. split_and!; [|intros Hs Hv|done|done].
  - destruct (tl_status t); (by eexists) || done.
  - rewrite Hs in H1. destruct H4 as [Hr Hch]; [by rewrite Hs|]. destruct (H2 Hv) as [_ Hin].
    rewrite Hch, (Hin Hr) in H1. simpl in H1. by rewrite app_nil_r in H1.
Qed.

Lemma pipe_stream_witness :
  let c := {| pc_tag := lit "0000002a"; pc_interactive := false; pc_diag := false;
              pc_close_on_stdin_eof := true; pc_has_stdin := true |} in
  let r := {| rd_shutdown := false; rd_send := fun _ => None; rd_flush := Returned None;
              rd_recv := RecvData [7; 8]%Z; rd_close := Returned None; rd_diag := fun _ => None |} in
  let t := run_pipe c [104; 105; 10; 33]%Z [ReadLine; Round r; ReadLine; ReadLine; Round r] in
  tl_status t = Exited StdinEof /\ concat (sends (pi_trace (tl_pipe t))) = [104; 105; 10; 33]%Z /\
  stdouts (pi_trace (tl_pipe t)) = [[7; 8]%Z].
Proof.
  cbv zeta.
  match goal with |- tl_status (run_pipe ?c ?i ?a) = _ /\ _ =>
    destruct (pipe_stream c i a) as (_ & H & Ho & _) end.
  split; [reflexivity|]. split; [apply H; reflexivity|]. rewrite Ho. reflexivity.
Defined.



(** ** Listening *)

Definition stops (r : accept_round) : bool :=
  ar_shutdown r || match ar_select r with ShutdownChanged => true | _ => false end.

(** The rounds before the one that sees the signal. *)
Fixpoint until_stop (rounds : list accept_round) : list accept_round :=
  match rounds with
  | [] => []
  | r :: rounds' => if stops r then [] else r :: until_stop rounds'
  end.

Definition accepted_conns (rounds : list accept_round) : list BluefinConnection :=
  omap (fun r => match ar_select r with AcceptedConn c => Some c | _ => None end) rounds.

Definition listener_pipe (interactive diag : bool) (has_stdin : bool) (conn : BluefinConnection) :
    BluefinConnection * pipe_config :=
  (conn, {| pc_tag := peer_tag conn; pc_interactive := interactive; pc_diag := diag;
            pc_close_on_stdin_eof := false; pc_has_stdin := has_stdin |}).

(** The first connection of a list gets the standard input when [first]. *)
Definition listener_pipes (interactive diag first : bool) (conns : list BluefinConnection) :
    list (BluefinConnection * pipe_config) :=
  imap (fun i conn => listener_pipe interactive diag (first && (i =? 0)) conn) conns.

Lemma accept_returned interactive diag l rounds :
  li_returned l = true -> foldl (accept_step interactive diag) l rounds = l.
Proof.
  intros Hl. induction rounds as [|r rounds IH]; [done|]. simpl. unfold accept_step at 2. by rewrite Hl.
Qed.

Lemma accept_loop_spec interactive diag rounds l :
  li_returned l = false ->
  let l' := foldl (accept_step interactive diag) l rounds in
  li_spawned l' = li_spawned l ++
    listener_pipes interactive diag (li_first l) (accepted_conns (until_stop rounds)) /\
  li_returned l' = existsb stops rounds.
Proof.
  cbv zeta. revert l. induction rounds as [|r rounds IH]; intros l Hl; simpl.
  { by rewrite app_nil_r. }
  destruct (stops r) eqn:Hst; simpl.
  { assert (li_returned (accept_step interactive diag l r) = true /\
      li_spawned (accept_step interactive diag l r) = li_spawned l) as [H1 H2].
    { unfold accept_step, stops in *. rewrite Hl.
      destruct (ar_shutdown r); [done|]. by destruct (ar_select r). }
    by rewrite accept_returned, H1, H2, app_nil_r. }
  apply orb_false_iff in Hst as [Hsd Hsel].
  assert (li_returned (accept_step interactive diag l r) = false) as Hret.
  { unfold accept_step. rewrite Hl, Hsd. by destruct (ar_select r). }
  destruct (IH _ Hret) as [-> ->]. split; [|done].
  unfold accept_step. rewrite Hl, Hsd. destruct (ar_select r) as [|conn|e]; [done| |done].
  cbn [li_spawned li_first]. rewrite <- app_assoc. f_equal. unfold listener_pipes. simpl.
  rewrite andb_true_r. f_equal.
  apply imap_ext. intros i x _. simpl. by rewrite andb_false_r.
Qed.

(** Listen mode.  With a valid address and a socket, every connection that
    is accepted before the signal gets one pipe, in order, the first one with the
    standard input and the others without; failed accepts are passed over, and
    the loop returns exactly when a round sees the signal.  No pipe of listen
    mode closes its connection at the end of stdin. *)
Theorem listen_spawns interactive diag bind port addr socket rounds :
  parse_ipv4 bind = Some addr -> socket = Ok tt ->
  exists server l, do_listen interactive diag bind port socket rounds = Ok (Ok server, l) /\
    sv_src_addr server = (addr, port) /\ sv_diag_tx server = diag /\
    li_spawned l = listener_pipes interactive diag true (accepted_conns (until_stop rounds)) /\
    li_returned l = existsb stops rounds.
Proof.
  intros Ha ->. unfold do_listen. rewrite Ha. simpl.
  destruct (accept_loop_spec interactive diag rounds
    {| li_first := true; li_spawned := []; li_returned := false |} eq_refl) as [H1 H2].
  destruct diag; eexists _, _; split_and!; done.
Qed.

Lemma listen_spawns_witness :
  exists server l, do_listen false true (lit "127.0.0.1") 1318 (Ok tt)
      [{| ar_shutdown := false; ar_select := AcceptFailed NoSuchConnectionError |};
       {| ar_shutdown := true; ar_select := ShutdownChanged |}] = Ok (Ok server, l) /\
    sv_src_addr server = (2130706433, 1318)%Z /\ sv_diag_tx server = true /\
    li_spawned l = [] /\ li_returned l = true.
Proof. exact (listen_spawns false true (lit "127.0.0.1") 1318 2130706433 (Ok tt) _ eq_refl eq_refl). Defined.
