(* ===== verification/Bench.v ===== *)
(** * The benchmark client and server

    Models src/bluefin/src/bin: the settings read from the environment, the
    command lines, the client's send schedule ([run_connection]) and the server's
    accept and receive loops ([run]).  What the library answers (connect, send,
    flush, receive, close), the shutdown flag and the clock are arguments; what
    the programs do is a trace.  Time is in microseconds from the start of a
    connection.  Here is when a throughput line is printed and over which
    bytes; its figures, which are floating point, are in Throughput.v. *)
From stdpp Require Import base numbers list option strings.
From S2P Require Import Prelude Text Proto Io.

(** ** Settings *)

(** [env::var(..).ok().and_then(parse).filter(..).unwrap_or(default)] *)
Definition env_number (env : environment) (parse : str -> option Z) (keep : Z -> bool) (var : string)
    (dflt : Z) : Z :=
  match s ← env (lit var); parse (trim s) with
  | Some n => if keep n then n else dflt
  | None => dflt
  end.

Definition positive (n : Z) : bool := (0 <? n)%Z.

Definition DEFAULT_NUM_SENDS : Z := 10000000.
Definition DEFAULT_SEND_THROTTLE_US : Z := 0.
Definition SENDS_PER_YIELD : Z := 256.
Definition DEFAULT_SEND_THROTTLE_EVERY : Z := SENDS_PER_YIELD.
Definition DEFAULT_RECV_IDLE_TIMEOUT : Z := 2000000.
Definition DEFAULT_NUM_READER_WORKERS : Z := 3.
Definition IDLE_RESET_EVERY : Z := 4096.
Definition DEFAULT_PORTS : list Z := [1320; 1322; 1323; 1324; 1325]%Z.

Definition num_sends (env : environment) : Z :=
  env_number env parse_usize positive "BLUEFIN_NUM_SENDS" DEFAULT_NUM_SENDS.

Definition send_throttle_us (env : environment) : Z :=
  env_number env parse_u64 (fun _ => true) "BLUEFIN_CLIENT_SEND_THROTTLE_US" DEFAULT_SEND_THROTTLE_US.

Definition send_throttle_every (env : environment) : Z :=
  env_number env parse_usize positive "BLUEFIN_CLIENT_SEND_THROTTLE_EVERY" DEFAULT_SEND_THROTTLE_EVERY.

(** In microseconds; the variable is in seconds. *)
Definition recv_idle_timeout (env : environment) : Z :=
  match s ← env (lit "BLUEFIN_RECV_IDLE_TIMEOUT_SECS"); parse_u64 (trim s) with
  | Some n => if positive n then (n * 1000000)%Z else DEFAULT_RECV_IDLE_TIMEOUT
  | None => DEFAULT_RECV_IDLE_TIMEOUT
  end.

Definition num_reader_workers (env : environment) : Z :=
  env_number env parse_u16 positive "BLUEFIN_NUM_READER_WORKERS" DEFAULT_NUM_READER_WORKERS.

(** ** The client *)

(** [args] begins with the name of the program. *)
Definition single_task_index (args : list str) : outcome unit (option Z) :=
  match args !! 1 with
  | None => Ok None
  | Some a =>
      if decide (a = lit "--task") then
        match v ← args !! 2; parse_usize v with
        | Some ix => Ok (Some ix)
        | None => Panic
        end
      else Panic
  end.

Definition task_indices (single : option Z) : outcome unit (list Z) :=
  match single with
  | Some ix => if (ix <? Z.of_nat (length DEFAULT_PORTS))%Z then Ok [ix] else Panic
  | None => Ok [0; 1]%Z
  end.

(** The connections the client starts: index and source port. *)
Definition client_tasks (args : list str) : outcome unit (list (Z * Z)) :=
  outcome_bind (single_task_index args) (fun single =>
  outcome_bind (task_indices single) (fun ixs =>
  Ok (omap (fun ix => (fun port => (ix, port)) <$> DEFAULT_PORTS !! Z.to_nat ix) ixs))).

(** What a task ended with: a result, or a panic seen by [join]. *)
Inductive join_result : Type :=
  | Joined (r : option BluefinError)
  | JoinError.

Definition client_exit (results : list join_result) : Z :=
  if existsb (fun r => match r with Joined None => false | _ => true end) results then 1%Z else 0%Z.

Inductive client_event : Type :=
  | CSend (data : bytes)
  | CYield
  | CSleep (us : Z)
  | CFlush
  | CClose.

(** The answers: of the [k]-th send, whether the flag is up at the check after
    the [i]-th payload, of the flush and of the close. *)
Record client_env := {
  ce_send : nat -> option BluefinError;
  ce_shutdown : nat -> bool;
  ce_flush : option BluefinError;
  ce_close : option BluefinError
}.

Record client_state := { cs_total : nat; cs_trace : list client_event; cs_sends : nat }.

Definition client_did (s : client_state) (e : client_event) : client_state :=
  {| cs_total := cs_total s; cs_trace := cs_trace s ++ [e]; cs_sends := cs_sends s |}.

(** [total_bytes += conn.send(data)?]: the error that [?] returns, if any. *)
Definition client_send (env : client_env) (data : bytes) (s : client_state) :
    option BluefinError * client_state :=
  match ce_send env (cs_sends s) with
  | Some e => (Some e, s)
  | None => (None, {| cs_total := cs_total s + length data; cs_trace := cs_trace s ++ [CSend data];
                      cs_sends := S (cs_sends s) |})
  end.

Definition payload : bytes := replicate 1500 0%Z.

(** The pacing at the end of an iteration. *)
Definition client_pace (throttle_us throttle_every : Z) (i : nat) (s : client_state) : client_state :=
  if (0 <? throttle_us)%Z && (Z.of_nat i mod throttle_every =? 0)%Z then client_did s (CSleep throttle_us)
  else s.

(** [for i in ..n_sends], from [i] with [n] iterations left. *)
Fixpoint payload_loop (env : client_env) (throttle_us throttle_every : Z) (n i : nat) (s : client_state) :
    option BluefinError * client_state :=
  match n with
  | O => (None, s)
  | S n' =>
      match client_send env payload s with
      | (Some e, s1) => (Some e, s1)
      | (None, s1) =>
          if (Z.of_nat i mod SENDS_PER_YIELD =? 0)%Z then
            let s2 := client_did s1 CYield in
            if ce_shutdown env i then (None, s2)
            else payload_loop env throttle_us throttle_every n' (S i)
                   (client_pace throttle_us throttle_every i s2)
          else payload_loop env throttle_us throttle_every n' (S i)
                 (client_pace throttle_us throttle_every i s1)
      end
  end.

(** The sends before the loop; [None] is the one-second sleep. *)
Definition warm_up : list (option bytes) :=
  [Some [1; 2; 3; 4; 5; 6; 7]%Z; Some (replicate 6 12%Z); Some (replicate 100 13%Z); None;
   Some (replicate 6 14%Z)].

Fixpoint warm_up_loop (env : client_env) (l : list (option bytes)) (s : client_state) :
    option BluefinError * client_state :=
  match l with
  | [] => (None, s)
  | None :: l' => warm_up_loop env l' (client_did s (CSleep 1000000))
  | Some data :: l' =>
      match client_send env data s with
      | (None, s') => warm_up_loop env l' s'
      | (Some e, s') => (Some e, s')
      end
  end.

(** [run_connection]: its result and its trace; [connected] is what [connect]
    answers. *)
Definition run_connection (connected : option BluefinError) (env : client_env) (n_sends : nat)
    (throttle_us throttle_every : Z) : option BluefinError * client_state :=
  let s0 := {| cs_total := 0; cs_trace := []; cs_sends := 0 |} in
  match connected with
  | Some e => (Some e, s0)
  | None =>
      match warm_up_loop env warm_up s0 with
      | (Some e, s1) => (Some e, s1)
      | (None, s1) =>
          match payload_loop env throttle_us throttle_every n_sends 0 s1 with
          | (Some e, s2) => (Some e, s2)
          | (None, s2) =>
              let s3 := client_did s2 CFlush in
              match ce_flush env with
              | Some e => (Some e, s3)
              | None => (None, client_did s3 CClose)
              end
          end
      end
  end.

(** ** The server *)

(** [args] begins with the name of the program. *)
Definition num_expected_connections (env : environment) (args : list str) : outcome unit Z :=
  let cli := s ← args !! 1; parse_usize s in
  let n := match cli with
           | Some n => n
           | None => default 2%Z (s ← env (lit "BLUEFIN_BENCH_NUM_CONNS"); parse_usize s)
           end in
  if (1 <=? n)%Z then Ok n else Panic.

(** The accept loop: the connections that were accepted, with the number of the
    round that accepted them. *)
Definition accept_all {Conn : Type} (answers : list (outcome BluefinError Conn)) : list (nat * Conn) :=
  omap id (imap (fun i a => match a with Ok conn => Some (i, conn) | _ => None end) answers).

(** What a round of the receive loop meets: the flag, and what the [select!]
    gives, with the time it gives it. *)
Inductive recv_event : Type :=
  | GotBytes (size : nat) (chunks : list bytes)
  | GotError (e : BluefinError)
  | IdleFired.

Record recv_round := { rr_shutdown : bool; rr_event : recv_event; rr_time : Z }.

(** A throughput line: the bytes of the window since the last one. *)
Record server_state := {
  sv_total : nat;
  sv_min : Z;
  sv_max : nat;
  sv_iteration : Z;
  sv_unprinted : nat;
  sv_last_print : nat;
  sv_windows : list nat;
  sv_deadline : Z
}.

Definition server_state_init (recv_idle : Z) : server_state :=
  {| sv_total := 0; sv_min := u64_MAX; sv_max := 0; sv_iteration := 1; sv_unprinted := 0;
     sv_last_print := 0; sv_windows := []; sv_deadline := recv_idle |}.

(** The loop goes on, or breaks: [clean_eof] and the state. *)
Inductive server_next : Type :=
  | Continue (s : server_state)
  | Break (clean_eof : bool) (s : server_state).

Definition server_round (recv_idle : Z) (r : recv_round) (s : server_state) : server_next :=
  if rr_shutdown r then Break false s
  else
    match rr_event r with
    | GotError _ => Break false s
    | IdleFired => Break false s
    | GotBytes size chunks =>
        if (size =? 0) && bool_decide (chunks = []) then Break true s
        else
          let deadline := if (sv_iteration s mod IDLE_RESET_EVERY =? 0)%Z
                          then (rr_time r + recv_idle)%Z else sv_deadline s in
          let total := sv_total s + size in
          let smallest := foldl (fun m b => Z.min (Z.of_nat (length b)) m) (sv_min s) chunks in
          let largest := foldl (fun m b => Nat.max (length b) m) (sv_max s) chunks in
          let unprinted := S (sv_unprinted s) in
          let prints := (1000000 <=? Z.of_nat total)%Z && (3500 <=? unprinted) in
          Continue
            {| sv_total := total; sv_min := smallest; sv_max := largest;
               sv_iteration := (sv_iteration s + 1)%Z;
               sv_unprinted := if prints then 0 else unprinted;
               sv_last_print := if prints then total else sv_last_print s;
               sv_windows := if prints then sv_windows s ++ [total - sv_last_print s] else sv_windows s;
               sv_deadline := deadline |}
    end.

Fixpoint server_loop (recv_idle : Z) (rounds : list recv_round) (s : server_state) : server_next :=
  match rounds with
  | [] => Continue s
  | r :: rounds' =>
      match server_round recv_idle r s with
      | Continue s' => server_loop recv_idle rounds' s'
      | Break clean_eof s' => Break clean_eof s'
      end
  end.

(** After the loop: [close] unless the peer closed. *)
Definition server_closes (n : server_next) : bool :=
  match n with Break clean_eof _ => negb clean_eof | Continue _ => false end.

(** ** Settings are in range *)

Lemma env_number_range env parse keep var dflt (P : Z -> Prop) :
  P dflt -> (forall s n, parse s = Some n -> keep n = true -> P n) ->
  P (env_number env parse keep var dflt).
Proof.
  intros Hd Hp. unfold env_number. destruct (env (lit var)) as [s|]; simpl; [|done].
  destruct (parse (trim s)) as [n|] eqn:Hn; [|done]. destruct (keep n) eqn:Hk; [by eapply Hp|done].
Qed.

Lemma env_number_set env lo hi keep var dflt pre n post :
  env (lit var) = Some (pre ++ fmt_dec n ++ post) -> (lo <= 0)%Z -> (0 <= n <= hi)%Z ->
  Forall is_whitespace pre -> Forall is_whitespace post ->
  env_number env (parse_int lo hi) keep var dflt = if keep n then n else dflt.
Proof.
  intros He Hlo Hn H1 H2. unfold env_number. rewrite He. simpl. by rewrite parse_fmt_dec.
Qed.

(** The settings of the benchmark are usable whatever the environment holds:
    at least one send, a throttle cadence of at least one (it is a divisor), a
    throttle that is a [u64], an idle time above zero, and a number of reader
    workers between 1 and 65535, which [set_num_reader_workers] accepts.  A
    positive decimal number, with white space around it, is taken as it is. *)
Theorem settings_in_range env :
  (1 <= num_sends env <= u64_MAX)%Z /\ (1 <= send_throttle_every env <= u64_MAX)%Z /\
  is_u64 (send_throttle_us env) /\ (0 < recv_idle_timeout env)%Z /\
  (1 <= num_reader_workers env <= u16_MAX)%Z /\
  (forall pre n post, env (lit "BLUEFIN_NUM_SENDS") = Some (pre ++ fmt_dec n ++ post) ->
     (0 < n <= u64_MAX)%Z -> Forall is_whitespace pre -> Forall is_whitespace post -> num_sends env = n).
Proof.
  assert (forall hi s n, (0 <= hi)%Z -> parse_int 0 hi s = Some n -> positive n = true -> (1 <= n <= hi)%Z) as Hpos.
  { intros hi s n Hhi H Hp. apply parse_int_range in H; [|lia]. unfold positive in Hp. lia. }
  split; [|split; [|split; [|split; [|split]]]].
  - unfold num_sends. apply env_number_range; [done|]. intros s n. by apply Hpos.
  - unfold send_throttle_every. apply env_number_range; [done|]. intros s n. by apply Hpos.
  - unfold send_throttle_us. apply env_number_range; [by vm_compute|]. intros s n H _.
    apply parse_int_range in H; unfold u64_MAX in *; int_lia.
  - unfold recv_idle_timeout. destruct (s ← _; _) as [n|]; [|done].
    destruct (positive n) eqn:Hp; [|done]. unfold positive in Hp. lia.
  - unfold num_reader_workers. apply env_number_range; [done|]. intros s n. by apply Hpos.
  - intros pre n post He Hn H1 H2. unfold num_sends, parse_usize.
    rewrite (env_number_set _ _ _ _ _ _ _ _ _ He) by (done || lia).
    unfold positive. by rewrite (proj2 (Z.ltb_lt 0 n)) by lia.
Qed.

(** ** The client's schedule *)

Definition yields (i : nat) : bool := (Z.of_nat i mod SENDS_PER_YIELD =? 0)%Z.

(** What an iteration that goes on does. *)
Definition payload_events (us every : Z) (i : nat) : list client_event :=
  CSend payload :: (if yields i then [CYield] else []) ++
  (if (0 <? us)%Z && (Z.of_nat i mod every =? 0)%Z then [CSleep us] else []).

(** The first iteration that sees the flag, if any. *)
Definition stop_at (shutdown : nat -> bool) (i n : nat) : option nat :=
  head (filter (fun k => yields k && shutdown k = true) (seq i n)).

Definition after (s : client_state) (m : nat) (evs : list client_event) : client_state :=
  {| cs_total := cs_total s + m * 1500; cs_trace := cs_trace s ++ evs; cs_sends := cs_sends s + m |}.

Lemma after_after s m1 e1 m2 e2 : after (after s m1 e1) m2 e2 = after s (m1 + m2) (e1 ++ e2).
Proof. unfold after. simpl. rewrite <- app_assoc. f_equal; lia. Qed.

Lemma length_payload : length payload = 1500.
Proof. unfold payload. apply length_replicate. Qed.

Local Opaque payload.

Lemma stop_at_cons shutdown i n :
  stop_at shutdown i (S n) = if yields i && shutdown i then Some i else stop_at shutdown (S i) n.
Proof.
  unfold stop_at. simpl seq. rewrite filter_cons. case_decide as H; destruct (yields i && shutdown i); done.
Qed.

Lemma stop_at_ge shutdown i n k : stop_at shutdown i n = Some k -> i <= k.
Proof.
  unfold stop_at. intros H. apply head_Some_elem_of, list_elem_of_filter in H as [_ H].
  apply elem_of_seq in H. lia.
Qed.

(** An iteration that goes on. *)
Lemma payload_iteration us every i s s1 :
  s1 = {| cs_total := cs_total s + length payload; cs_trace := cs_trace s ++ [CSend payload];
          cs_sends := S (cs_sends s) |} ->
  client_pace us every i (if yields i then client_did s1 CYield else s1) =
    after s 1 (payload_events us every i).
Proof.
  intros ->. unfold client_pace, client_did, after, payload_events. rewrite length_payload.
  destruct (yields i), (_ && _); simpl; rewrite ?app_nil_r, <- ?app_assoc, Nat.add_1_r; f_equal; done.
Qed.

Lemma payload_loop_spec env us every n i s :
  (forall k, ce_send env k = None) ->
  payload_loop env us every n i s =
    (None, match stop_at (ce_shutdown env) i n with
           | Some k => after s (S (k - i))
                         (flat_map (payload_events us every) (seq i (k - i)) ++ [CSend payload; CYield])
           | None => after s n (flat_map (payload_events us every) (seq i n))
           end).
Proof.
  intros Hno. revert i s. induction n as [|n IH]; intros i s.
  { simpl. unfold after. rewrite app_nil_r, !Nat.add_0_r. by destruct s. }
  rewrite stop_at_cons. cbn [payload_loop]. unfold client_send. rewrite Hno. fold (yields i).
  pose proof (payload_iteration us every i s _ eq_refl) as Hit.
  destruct (yields i) eqn:Hy; [destruct (ce_shutdown env i) eqn:Hsd|]; simpl andb.
  { cbn [andb]. rewrite Nat.sub_diag. simpl. unfold after, client_did. simpl.
    rewrite length_payload, <- app_assoc, Nat.add_1_r. f_equal. }
  all: rewrite Hit, IH; f_equal;
    destruct (stop_at (ce_shutdown env) (S i) n) as [k|] eqn:Hk; rewrite after_after;
    [apply stop_at_ge in Hk; replace (k - i) with (S (k - S i)) by lia|];
    simpl seq; cbn [flat_map]; rewrite <- ?app_assoc; f_equal; lia.
Qed.

Definition warm_up_events : list client_event :=
  [CSend [1; 2; 3; 4; 5; 6; 7]%Z; CSend (replicate 6 12%Z); CSend (replicate 100 13%Z); CSleep 1000000;
   CSend (replicate 6 14%Z)].

Lemma warm_up_spec env :
  (forall k, ce_send env k = None) ->
  warm_up_loop env warm_up {| cs_total := 0; cs_trace := []; cs_sends := 0 |} =
    (None, {| cs_total := 119; cs_trace := warm_up_events; cs_sends := 4 |}).
Proof. intros Hno. unfold warm_up, warm_up_loop, client_send. rewrite !Hno. done. Qed.

(** Nothing is closed before the end. *)
Definition not_closing (e : client_event) : Prop := match e with CFlush | CClose => False | _ => True end.

Lemma client_send_open env data s :
  Forall not_closing (cs_trace s) -> Forall not_closing (cs_trace (client_send env data s).2).
Proof.
  intros H. unfold client_send. destruct (ce_send env (cs_sends s)); [done|].
  apply Forall_app. split; [done|]. by repeat constructor.
Qed.

Lemma client_did_open s e :
  not_closing e -> Forall not_closing (cs_trace s) -> Forall not_closing (cs_trace (client_did s e)).
Proof. intros He H. apply Forall_app. split; [done|]. by constructor. Qed.

Lemma client_pace_open us every i s :
  Forall not_closing (cs_trace s) -> Forall not_closing (cs_trace (client_pace us every i s)).
Proof. intros H. unfold client_pace. destruct (_ && _); [by apply client_did_open|done]. Qed.

Lemma payload_loop_open env us every n i s :
  Forall not_closing (cs_trace s) -> Forall not_closing (cs_trace (payload_loop env us every n i s).2).
Proof.
  revert i s. induction n as [|n IH]; intros i s H; [done|]. cbn [payload_loop].
  pose proof (client_send_open env payload s H) as H1.
  destruct (client_send env payload s) as [[e|] s1]; [done|]. simpl in H1.
  destruct (_ =? 0)%Z; [destruct (ce_shutdown env i)|]; [by apply client_did_open| |];
    apply IH, client_pace_open; [by apply client_did_open|done].
Qed.

Lemma warm_up_open env l s :
  Forall not_closing (cs_trace s) -> Forall not_closing (cs_trace (warm_up_loop env l s).2).
Proof.
  revert s. induction l as [|[data|] l IH]; intros s H; simpl; [done| |].
  - pose proof (client_send_open env data s H) as H1.
    destruct (client_send env data s) as [[e|] s1]; [done|by apply IH].
  - apply IH, client_did_open; done.
Qed.

(** The benchmark client.  As long as no send fails it makes the warm-up
    sends and then one 1500-byte send per iteration, yields every 256 and sleeps
    at its own cadence, stops after the first yield that sees the flag, and then
    flushes and closes; the bytes it reports are the bytes it handed over.  In
    every run it closes exactly when it reports success, after the flush, as the
    last thing it does: a send, flush or connect that fails leaves the
    connection unclosed. *)
Theorem client_schedule connected env n us every :
  ((forall k, ce_send env k = None) ->
   let m := match stop_at (ce_shutdown env) 0 n with Some k => S k | None => n end in
   let body := match stop_at (ce_shutdown env) 0 n with
               | Some k => flat_map (payload_events us every) (seq 0 k) ++ [CSend payload; CYield]
               | None => flat_map (payload_events us every) (seq 0 n)
               end in
   run_connection None env n us every =
     (ce_flush env,
      {| cs_total := 119 + m * 1500;
         cs_trace := warm_up_events ++ body ++ CFlush :: (if ce_flush env then [] else [CClose]);
         cs_sends := 4 + m |})) /\
  (let '(r, s) := run_connection connected env n us every in
   match r with
   | None => exists tr, cs_trace s = tr ++ [CFlush; CClose] /\ Forall not_closing tr
   | Some _ => CClose ∉ cs_trace s
   end).
Proof.
  split.
  - intros Hno. cbv zeta. unfold run_connection. rewrite warm_up_spec, payload_loop_spec by done.
    destruct (stop_at (ce_shutdown env) 0 n) as [k|]; unfold after, client_did; cbn [cs_total cs_trace cs_sends];
      rewrite ?Nat.sub_0_r; destruct (ce_flush env); simpl; rewrite <- ?app_assoc; done.
  - assert (forall tr, Forall not_closing tr -> CClose ∉ tr) as Hn.
    { intros tr H Hin. rewrite Forall_forall in H. by apply (H CClose). }
    unfold run_connection. destruct connected as [e|]; [by apply Hn|].
    set (s0 := {| cs_total := 0; cs_trace := []; cs_sends := 0 |}).
    pose proof (warm_up_open env warm_up s0 ltac:(constructor)) as Hw.
    destruct (warm_up_loop env warm_up s0) as [[e|] s1]; simpl in Hw; [by apply Hn|].
    pose proof (payload_loop_open env us every n 0 s1 Hw) as Hp.
    destruct (payload_loop env us every n 0 s1) as [[e|] s2]; simpl in Hp; [by apply Hn|].
    destruct (ce_flush env).
    + simpl. rewrite not_elem_of_app. split; [by apply Hn|]. intros ?%list_elem_of_singleton. done.
    + exists (cs_trace s2). simpl. by rewrite <- app_assoc.
Qed.

Lemma client_schedule_witness :
  let env := {| ce_send := fun _ => None; ce_shutdown := fun _ => false; ce_flush := None; ce_close := None |} in
  run_connection None env 2 25 2 =
    (None, {| cs_total := 3119;
              cs_trace := warm_up_events ++ [CSend payload; CYield; CSleep 25; CSend payload; CFlush; CClose];
              cs_sends := 6 |}).
Proof.
  cbv zeta.
  destruct (client_schedule None {| ce_send := fun _ => None; ce_shutdown := fun _ => false;
    ce_flush := None; ce_close := None |} 2 25 2) as [H _].
  exact (H (fun _ => eq_refl)).
Defined.

(** ** The server's receive loop *)

(** A round that received something. *)
Record got := { g_chunks : list bytes; g_time : Z }.

Definition got_ok (g : got) : Prop := g_chunks g <> [].

Definition g_size (g : got) : nat := length (concat (g_chunks g)).

Definition got_round (g : got) : recv_round :=
  {| rr_shutdown := false; rr_event := GotBytes (g_size g) (g_chunks g); rr_time := g_time g |}.

Definition sizes (gs : list got) : list nat := map length (concat (map g_chunks gs)).

(** The state after receiving [gs], deadline and printing apart. *)
Record received (gs : list got) (s : server_state) : Prop := {
  rc_total : sv_total s = length (concat (concat (map g_chunks gs)));
  rc_min : sv_min s = foldl (fun m n => Z.min (Z.of_nat n) m) u64_MAX (sizes gs);
  rc_max : sv_max s = foldl (fun m n => Nat.max n m) 0 (sizes gs);
  rc_iteration : sv_iteration s = (1 + Z.of_nat (length gs))%Z;
  rc_windows : sum_list (sv_windows s) = sv_last_print s;
  rc_last : sv_last_print s <= sv_total s
}.

Lemma foldl_map {A B C : Type} (f : C -> B -> C) (g : A -> B) l c :
  foldl f c (map g l) = foldl (fun c a => f c (g a)) c l.
Proof. revert c. induction l as [|a l IH]; intros c; [done|]. apply IH. Qed.

Lemma server_round_got recv_idle gs g s :
  got_ok g -> received gs s ->
  exists s', server_round recv_idle (got_round g) s = Continue s' /\ received (gs ++ [g]) s' /\
    sv_deadline s' = if (sv_iteration s mod IDLE_RESET_EVERY =? 0)%Z then (g_time g + recv_idle)%Z
                     else sv_deadline s.
Proof.
  intros Hg [H1 H2 H3 H4 H5 H6]. unfold server_round, got_round. cbn [rr_shutdown rr_event rr_time].
  rewrite (bool_decide_false _ Hg), andb_false_r. eexists. split; [done|]. split; [|done].
  assert (sizes (gs ++ [g]) = sizes gs ++ map length (g_chunks g)) as Hsz.
  { unfold sizes. rewrite map_app, concat_app, map_app. simpl. by rewrite app_nil_r. }
  constructor; cbn [sv_total sv_min sv_max sv_iteration sv_windows sv_last_print].
  - rewrite map_app, !concat_app, length_app, H1. simpl. by rewrite app_nil_r.
  - by rewrite Hsz, foldl_app, foldl_map, H2.
  - by rewrite Hsz, foldl_app, foldl_map, H3.
  - rewrite length_app, H4. simpl. lia.
  - destruct (_ && _); [|done]. rewrite sum_list_with_app, H5. simpl. lia.
  - destruct (_ && _); lia.
Qed.

Lemma server_loop_app recv_idle l1 l2 s :
  server_loop recv_idle (l1 ++ l2) s =
    match server_loop recv_idle l1 s with
    | Continue s' => server_loop recv_idle l2 s'
    | Break clean_eof s' => Break clean_eof s'
    end.
Proof.
  revert s. induction l1 as [|r l1 IH]; intros s; [done|]. simpl.
  destruct (server_round recv_idle r s); [apply IH|done].
Qed.

(** The times of the receives that push the deadline: every 4096th. *)
Definition resets (gs : list got) : list Z :=
  omap id (imap (fun i g => if (Z.of_nat (S i) mod IDLE_RESET_EVERY =? 0)%Z then Some (g_time g) else None) gs).

Lemma resets_snoc gs g :
  resets (gs ++ [g]) =
    resets gs ++ if (Z.of_nat (S (length gs)) mod IDLE_RESET_EVERY =? 0)%Z then [g_time g] else [].
Proof.
  unfold resets. rewrite imap_app, omap_app. simpl. rewrite Nat.add_0_r.
  by destruct (_ =? 0)%Z.
Qed.

Lemma resets_none gs : (Z.of_nat (length gs) < IDLE_RESET_EVERY)%Z -> resets gs = [].
Proof.
  induction gs as [|g gs IH] using rev_ind; intros H; [done|]. rewrite length_app in H. simpl in H.
  rewrite resets_snoc, IH by lia. rewrite Z.mod_small by lia.
  by rewrite (proj2 (Z.eqb_neq (Z.of_nat (S (length gs))) 0)) by lia.
Qed.

Lemma server_loop_got recv_idle gs :
  Forall got_ok gs ->
  exists s, server_loop recv_idle (map got_round gs) (server_state_init recv_idle) = Continue s /\
    received gs s /\ sv_deadline s = (default 0 (last (resets gs)) + recv_idle)%Z.
Proof.
  induction gs as [|g gs IH] using rev_ind; intros Hgs.
  { eexists. split; [done|]. split; [by constructor|done]. }
  apply Forall_app in Hgs as [Hgs Hg]. inversion Hg as [|? ? Hg' _]. subst.
  destruct (IH Hgs) as (s & Hl & Hr & Hd).
  destruct (server_round_got recv_idle gs g s Hg' Hr) as (s' & Hs' & Hr' & Hd').
  exists s'. rewrite map_app, server_loop_app, Hl. simpl. rewrite Hs'. split_and!; [done..|].
  rewrite Hd', Hd, resets_snoc, (rc_iteration _ _ Hr).
  replace (1 + Z.of_nat (length gs))%Z with (Z.of_nat (S (length gs))) by lia.
  destruct (Z.of_nat (S (length gs)) mod IDLE_RESET_EVERY =? 0)%Z;
    [by rewrite last_snoc|by rewrite app_nil_r].
Qed.

(** How a loop that has only received so far ends. *)
Definition ends (r : recv_round) : option bool :=
  if rr_shutdown r then Some false
  else match rr_event r with
       | GotBytes size chunks => if (size =? 0) && bool_decide (chunks = []) then Some true else None
       | _ => Some false
       end.

(** The benchmark server's receive loop.  After any sequence of receives it
    has counted every byte and the smallest and the largest payload, the windows
    of the throughput lines cover the bytes up to the last line without gap or
    overlap; the loop ends at the first end of stream, error, idle timeout or
    signal, with [clean_eof] exactly for the first of these, and closes the
    connection exactly for the others. *)
Theorem server_accounts recv_idle gs r rest clean_eof :
  Forall got_ok gs -> ends r = Some clean_eof ->
  exists s, server_loop recv_idle (map got_round gs ++ r :: rest) (server_state_init recv_idle) =
      Break clean_eof s /\
    received gs s /\ server_closes (Break clean_eof s) = negb clean_eof.
Proof.
  intros Hgs Hr. destruct (server_loop_got recv_idle gs Hgs) as (s & Hl & Hrec & _).
  exists s. rewrite server_loop_app, Hl. simpl. split; [|done].
  unfold ends, server_round in *. destruct (rr_shutdown r); [by simplify_eq|].
  destruct (rr_event r) as [size chunks|e|]; [|by simplify_eq..].
  destruct (_ && _); by simplify_eq.
Qed.

Lemma server_accounts_witness :
  exists s, server_loop 2000000
      [{| rr_shutdown := false; rr_event := GotBytes 3 [[1; 2]; [3]]%Z; rr_time := 5 |};
       {| rr_shutdown := false; rr_event := GotBytes 0 []; rr_time := 9 |}] (server_state_init 2000000) =
      Break true s /\ sv_total s = 3 /\ sv_min s = 1%Z /\ sv_max s = 2.
Proof.
  destruct (server_accounts 2000000 [{| g_chunks := [[1; 2]; [3]]%Z; g_time := 5 |}]
    {| rr_shutdown := false; rr_event := GotBytes 0 []; rr_time := 9 |} [] true) as (s & Hl & [H1 H2 H3 _ _ _] & _).
  - by repeat constructor.
  - reflexivity.
  - exists s. split_and!; [exact Hl|exact H1|exact H2|exact H3].
Defined.

(** A select can report the idle timer only at or after the deadline. *)
Definition possible (s : server_state) (r : recv_round) : Prop :=
  match rr_event r with IdleFired => (sv_deadline s <= rr_time r)%Z | _ => True end.

(** The idle timer counts from the last 4096th receive, not from the last
    bytes: a connection that has received fewer than 4096 times is cut
    [recv_idle] after its start, however recently bytes came; the loop then ends
    without [clean_eof] and closes the connection. *)
Theorem idle_timer_cuts_active recv_idle gs t :
  Forall got_ok gs -> (Z.of_nat (length gs) < IDLE_RESET_EVERY)%Z -> (recv_idle <= t)%Z ->
  let r := {| rr_shutdown := false; rr_event := IdleFired; rr_time := t |} in
  exists s, server_loop recv_idle (map got_round gs) (server_state_init recv_idle) = Continue s /\
    possible s r /\
    server_loop recv_idle (map got_round gs ++ [r]) (server_state_init recv_idle) = Break false s /\
    server_closes (Break false s) = true.
Proof.
  intros Hgs Hlen Ht. cbv zeta. destruct (server_loop_got recv_idle gs Hgs) as (s & Hl & _ & Hd).
  exists s. rewrite server_loop_app, Hl. split_and!; [done| |done..].
  unfold possible. simpl. rewrite Hd, resets_none by done. simpl. lia.
Qed.

Lemma idle_timer_cuts_active_witness :
  exists s, server_loop 2000000
      (map got_round [{| g_chunks := [[1]]%Z; g_time := 1999999 |}] ++
       [{| rr_shutdown := false; rr_event := IdleFired; rr_time := 2000000 |}]) (server_state_init 2000000) =
    Break false s.
Proof.
  destruct (idle_timer_cuts_active 2000000 [{| g_chunks := [[1]]%Z; g_time := 1999999 |}] 2000000)
    as (s & _ & _ & H & _).
  - by repeat constructor.
  - reflexivity.
  - lia.
  - exists s. exact H.
Defined.

(** The accept loop keeps the connections in order, each with the number of its
    round. *)
Lemma accept_all_spec {Conn : Type} (answers : list (outcome BluefinError Conn)) i conn :
  (i, conn) ∈ accept_all answers <-> answers !! i = Some (Ok conn).
Proof.
  unfold accept_all. rewrite list_elem_of_omap. split.
  - intros (x & Hx & Hid). simpl in Hid. subst. apply list_elem_of_lookup in Hx as [j Hj].
    rewrite list_lookup_imap in Hj. destruct (answers !! j) as [[]|] eqn:Ha; simplify_eq/=. done.
  - intros Ha. exists (Some (i, conn)). split; [|done]. apply list_elem_of_lookup. exists i.
    by rewrite list_lookup_imap, Ha.
Qed.

(** The client's command line: two tasks by default, the task named by [--task]
    when there is one with that index, a panic otherwise. *)
Lemma client_tasks_spec prog rest ix :
  client_tasks [prog] = Ok [(0, 1320); (1, 1322)]%Z /\
  ((0 <= ix <= u64_MAX)%Z ->
   client_tasks (prog :: lit "--task" :: fmt_dec ix :: rest) =
     match DEFAULT_PORTS !! Z.to_nat ix with Some port => Ok [(ix, port)] | None => Panic end) /\
  (forall a, a <> lit "--task" -> client_tasks (prog :: a :: rest) = Panic).
Proof.
  split_and!; [done| |].
  - intros Hix. unfold client_tasks, single_task_index. 
    change ((prog :: lit "--task" :: fmt_dec ix :: rest) !! 1) with (Some (lit "--task")).
    change ((prog :: lit "--task" :: fmt_dec ix :: rest) !! 2) with (Some (fmt_dec ix)).
    cbv beta iota. rewrite decide_True by done. cbn [mbind option_bind].
    unfold parse_usize. rewrite parse_fmt_dec_plain by lia. simpl.
    change (Z.of_nat 5) with 5%Z. destruct (Z.ltb_spec ix 5) as [H|H]; simpl.
    + destruct (lookup_lt_is_Some_2 DEFAULT_PORTS (Z.to_nat ix)) as [port Hp]; [simpl; lia|].
      by rewrite Hp.
    + by rewrite lookup_ge_None_2 by (simpl; lia).
  - intros a Ha. unfold client_tasks, single_task_index.
    change ((prog :: a :: rest) !! 1) with (Some a). cbv beta iota. by rewrite decide_False.
Qed.
