(* ===== verification/Throughput.v ===== *)
(** * The figures of the benchmark server

    Models the rest of src/bluefin/src/bin/server.rs: [run] around the receive
    loops of Bench.v, the throughput lines ([print_throughput],
    [fmt_throughput_mb]) and the summary at the end of a connection.  An [f64]
    is the Standard Library's specification of a binary64 number, with its
    rounding to nearest, ties to even; a figure is printed with a fixed number
    of decimals the way the formatter of the language does it, exactly and with
    ties to even. *)
From stdpp Require Import base numbers list option strings.
From Stdlib Require Import SpecFloat.
From S2P Require Import Prelude Text Proto Header Packet Window OrderedBytes Close Buffers Net Io Routing Handshake Bench.

(** ** Numbers *)

Definition f64 : Type := spec_float.

Definition f64_add : f64 -> f64 -> f64 := SFadd 53 1024.
Definition f64_sub : f64 -> f64 -> f64 := SFsub 53 1024.
Definition f64_mul : f64 -> f64 -> f64 := SFmul 53 1024.
Definition f64_div : f64 -> f64 -> f64 := SFdiv 53 1024.

(** [n as f64] *)
Definition f64_from (n : Z) : f64 := binary_normalize 53 1024 n 0 false.

Definition f64_MAX : f64 := SFmax_float 53 1024.
Definition milli : f64 := S754_finite false 4611686018427388 (-62).     (* 1e-3 *)

(** [f64::max]: the other one when one of them is no number. *)
Definition f64_max (x y : f64) : f64 :=
  match x with
  | S754_nan => y
  | _ => if SFltb x y then y else x
  end.

(** [Duration::as_secs_f64], of a duration in nanoseconds. *)
Definition as_secs_f64 (nanos : Z) : f64 :=
  f64_add (f64_from (nanos / 1000000000)) (f64_div (f64_from (nanos mod 1000000000)) (f64_from 1000000000)).

(** ** [{:.p}] *)

(** [a / b] to the nearest whole number, ties to even. *)
Definition div_nearest (a b : Z) : Z :=
  let q := (a / b)%Z in
  let r := (a mod b)%Z in
  match (2 * r ?= b)%Z with
  | Lt => q
  | Eq => if Z.even q then q else (q + 1)%Z
  | Gt => (q + 1)%Z
  end.

(** [m * 2 ^ e] in units of [10 ^ -p]. *)
Definition scaled (p : nat) (m e : Z) : Z :=
  if (0 <=? e)%Z then (m * 10 ^ Z.of_nat p * 2 ^ e)%Z else div_nearest (m * 10 ^ Z.of_nat p) (2 ^ (- e)).

(** A count of units of [10 ^ -p]. *)
Definition fmt_units (p : nat) (n : Z) : str :=
  fmt_dec (n / 10 ^ Z.of_nat p) ++ lit "." ++ pad_left p (fmt_dec (n mod 10 ^ Z.of_nat p)).

Definition fmt_fixed (p : nat) (x : f64) : str :=
  let sign (s : bool) := if s then lit "-" else [] in
  match x with
  | S754_nan => lit "NaN"
  | S754_infinity s => sign s ++ lit "inf"
  | S754_zero s => sign s ++ fmt_units p 0
  | S754_finite s m e => sign s ++ fmt_units p (scaled p (Z.pos m) e)
  end.

(** ** Throughput lines *)

Definition fmt_throughput_mb (mb_per_sec : f64) : str :=
  if SFleb (f64_from 1000) mb_per_sec then fmt_fixed 2 (f64_div mb_per_sec (f64_from 1000)) ++ lit " gb/s"
  else if SFleb (f64_from 1) mb_per_sec then fmt_fixed 1 mb_per_sec ++ lit " mb/s"
  else fmt_fixed 1 (f64_mul mb_per_sec (f64_from 1000)) ++ lit " kb/s".

(** The highest and the lowest throughput so far. *)
Record extremes : Type := { ex_max : f64; ex_min : f64 }.

Definition extremes_init : extremes := {| ex_max := S754_zero false; ex_min := f64_MAX |}.

Definition inst_mb (window_bytes : Z) (window_secs : f64) : f64 :=
  if SFltb (S754_zero false) window_secs
  then f64_div (f64_div (f64_from window_bytes) window_secs) (f64_from 1000000)
  else S754_zero false.

Definition track (x : f64) (ex : extremes) : extremes :=
  {| ex_max := if SFltb (ex_max ex) x then x else ex_max ex;
     ex_min := if SFltb x (ex_min ex) then x else ex_min ex |}.

Definition print_throughput (conn_num total_bytes iteration min_bytes max_bytes : Z) (elapsed_secs : f64)
    (window_bytes : Z) (window_secs : f64) (ex : extremes) : str * extremes :=
  if SFleb elapsed_secs (S754_zero false) then
    (lit "(#" ++ fmt_dec conn_num ++ lit ") Total bytes: " ++ fmt_dec total_bytes ++ lit " (elapsed " ++
     fmt_fixed 6 elapsed_secs ++ lit " s, throughput indeterminate)", ex)
  else
    let avg_bytes_per_sec := f64_div (f64_from total_bytes) elapsed_secs in
    let avg_mb := f64_div avg_bytes_per_sec (f64_from 1000000) in
    let avg_recv_bytes := f64_div (f64_from total_bytes) (f64_from iteration) in
    let inst := inst_mb window_bytes window_secs in
    let ex := track inst ex in
    let kb x := fmt_fixed 1 (f64_div x (f64_from 1000)) in
    (fmt_dec conn_num ++ lit " avg " ++ fmt_throughput_mb avg_mb ++ lit " | inst " ++ fmt_throughput_mb inst ++
     lit " (read " ++ kb avg_recv_bytes ++ lit " kb/iter, min: " ++ kb (f64_from min_bytes) ++ lit " kb, max: " ++
     kb (f64_from max_bytes) ++ lit " kb) (peak " ++ fmt_throughput_mb (ex_max ex) ++ lit ", trough " ++
     fmt_throughput_mb (ex_min ex) ++ lit ")", ex).

(** ** The summary *)

Definition final_elapsed (clean_eof : bool) (elapsed_raw recv_idle : Z) : f64 :=
  if clean_eof then f64_max (as_secs_f64 elapsed_raw) milli
  else f64_max (f64_sub (as_secs_f64 elapsed_raw) (as_secs_f64 recv_idle)) milli.

Definition avg_throughput_mb (total_bytes : Z) (elapsed : f64) : f64 :=
  if (0 <? total_bytes)%Z then f64_div (f64_div (f64_from total_bytes) elapsed) (f64_from 1000000)
  else S754_zero false.

Definition final_line (conn_num total_bytes : Z) (clean_eof : bool) (elapsed_raw recv_idle : Z) (ex : extremes) : str :=
  let elapsed := final_elapsed clean_eof elapsed_raw recv_idle in
  lit "(#" ++ fmt_dec conn_num ++ lit ") FINAL: " ++ fmt_dec total_bytes ++ lit " bytes in " ++ fmt_fixed 3 elapsed ++
  lit " s -- avg " ++ fmt_throughput_mb (avg_throughput_mb total_bytes elapsed) ++ lit " (peak " ++
  fmt_throughput_mb (ex_max ex) ++ lit ")".

(** ** [run] up to the receive loops *)

Definition SERVER_ADDR : SocketAddr := (127 * 2 ^ 24 + 1, 1318)%Z.

Definition server_greeting (n_workers : Z) : list str :=
  if (n_workers =? DEFAULT_NUM_READER_WORKERS)%Z then []
  else [lit "(server) reader workers overridden via env: " ++ fmt_dec n_workers ++ lit " (default " ++
        fmt_dec DEFAULT_NUM_READER_WORKERS ++ lit ")"].

(** A whole number of seconds prints as that number and an s. *)
Definition idle_notice (recv_idle : Z) : list str :=
  if (recv_idle =? DEFAULT_RECV_IDLE_TIMEOUT)%Z then []
  else [lit "(server) recv-idle timeout overridden via env: " ++ fmt_dec (recv_idle / 1000000) ++ lit "s (default " ++
        fmt_dec (DEFAULT_RECV_IDLE_TIMEOUT / 1000000) ++ lit "s)"].

(** What [run] gets from the socket and from [accept], round by round; the lines
    it prints, and the connections it then receives on with the idle timeout. *)
Definition server_run {Conn : Type} (env : environment) (args : list str) (socket : BluefinResult unit)
    (accepts : nat -> outcome BluefinError Conn) : outcome BluefinError (list (nat * Conn) * Z * BluefinServer) * list str :=
  let n_workers := num_reader_workers env in
  let lines := server_greeting n_workers in
  match BluefinServer_set_num_reader_workers (BluefinServer_new SERVER_ADDR) n_workers with
  | (Ok _, server) =>
      match BluefinServer_bind server socket with
      | (Ok _, server) =>
          match num_expected_connections env args with
          | Ok n =>
              let lines := lines ++ [lit "(server) accepting " ++ fmt_dec n ++
                                     lit " connection(s) before starting recv loops"] in
              let recv_idle := recv_idle_timeout env in
              (Ok (accept_all (map accepts (seq 0 (Z.to_nat n))), recv_idle, server), lines ++ idle_notice recv_idle)
          | _ => (Panic, lines)
          end
      | (Err e, _) => (Err e, lines)
      | _ => (Panic, lines)
      end
  | (Err e, _) => (Err e, lines)
  | _ => (Panic, lines)
  end.

Example throughput_line :
  print_throughput 0 3000000 2 1500 1500 (f64_from 2) 3000000 (as_secs_f64 500000000) extremes_init =
    (lit "0 avg 1.5 mb/s | inst 6.0 mb/s (read 1500.0 kb/iter, min: 1.5 kb, max: 1.5 kb) (peak 6.0 mb/s, trough 6.0 mb/s)",
     {| ex_max := f64_from 6; ex_min := f64_from 6 |}).
Proof. vm_compute. reflexivity. Qed.

Example final_line_text :
  final_line 1 2500000000 false 4500000000 2000000000 {| ex_max := f64_from 1200; ex_min := f64_from 1 |} =
    lit "(#1) FINAL: 2500000000 bytes in 2.500 s -- avg 1.00 gb/s (peak 1.20 gb/s)".
Proof. vm_compute. reflexivity. Qed.

Example milli_is : fmt_fixed 20 milli = lit "0.00100000000000000002".
Proof. vm_compute. reflexivity. Qed.

(** ** Printed figures are the nearest ones *)

Lemma div_nearest_spec a b :
  (0 < b)%Z -> (2 * Z.abs (div_nearest a b * b - a) <= b)%Z.
Proof.
  intros Hb. unfold div_nearest. pose proof (Z.div_mod a b ltac:(lia)) as Ha. pose proof (Z.mod_pos_bound a b Hb) as Hr.
  set (q := (a / b)%Z) in *. set (r := (a mod b)%Z) in *.
  destruct (Z.compare_spec (2 * r) b) as [He|Hl|Hg]; [destruct (Z.even q)|..]; nia.
Qed.

(** A finite figure prints as its sign and a number of units of the last
    decimal that is within half a unit of it. *)
Lemma fmt_fixed_nearest p s m e :
  exists n, fmt_fixed p (S754_finite s m e) = (if s then lit "-" else []) ++ fmt_units p n /\
    (if decide (0 <= e) then n = Z.pos m * 10 ^ Z.of_nat p * 2 ^ e
     else 2 * Z.abs (n * 2 ^ (- e) - Z.pos m * 10 ^ Z.of_nat p) <= 2 ^ (- e))%Z.
Proof.
  exists (scaled p (Z.pos m) e). split; [done|]. unfold scaled. case_decide as He.
  - by rewrite (proj2 (Z.leb_le 0 e) He).
  - rewrite (proj2 (Z.leb_gt 0 e)) by lia. apply div_nearest_spec. apply Z.pow_pos_nonneg; lia.
Qed.

(** ** The order of the numbers *)

(** A number by its class, its exponent and its mantissa: the comparison is the
    lexicographic one. *)
Definition rank (x : f64) : option (Z * Z * Z) :=
  match x with
  | S754_nan => None
  | S754_infinity s => Some ((if s then -2 else 2), 0, 0)%Z
  | S754_zero _ => Some (0, 0, 0)%Z
  | S754_finite s m e => Some (if s then (-1, -e, Z.neg m) else (1, e, Z.pos m))%Z
  end.

Definition rank_cmp (x y : Z * Z * Z) : comparison :=
  let '(a, b, c) := x in
  let '(a', b', c') := y in
  match (a ?= a')%Z with
  | Eq => match (b ?= b')%Z with Eq => (c ?= c')%Z | o => o end
  | o => o
  end.

Lemma SFcompare_rank x y :
  SFcompare x y = match rank x, rank y with Some a, Some b => Some (rank_cmp a b) | _, _ => None end.
Proof.
  destruct x as [sx|[]| |[] mx ex], y as [sy|[]| |[] my ey]; try done; cbn [rank rank_cmp SFcompare].
  rewrite <- (Z.compare_opp ey ex), Z.compare_antisym. change (-1 ?= -1)%Z with Eq. cbv iota.
  by destruct (- ex ?= - ey)%Z.
Qed.

Lemma rank_cmp_lt x y :
  rank_cmp x y = Lt <->
  let '(a, b, c) := x in let '(a', b', c') := y in (a < a' \/ a = a' /\ (b < b' \/ b = b' /\ c < c'))%Z.
Proof.
  destruct x as [[a b] c], y as [[a' b'] c']. unfold rank_cmp.
  destruct (Z.compare_spec a a'); [|split; auto; lia|split; [done|lia]].
  destruct (Z.compare_spec b b'); [|split; auto; lia|split; [done|lia]].
  rewrite Z.compare_lt_iff. lia.
Qed.

Lemma SFltb_rank x y : SFltb x y = true <-> exists a b, rank x = Some a /\ rank y = Some b /\ rank_cmp a b = Lt.
Proof.
  unfold SFltb. rewrite SFcompare_rank.
  destruct (rank x) as [a|], (rank y) as [b|]; [|naive_solver..].
  split; [intros H; exists a, b; by destruct (rank_cmp a b)|]. intros (? & ? & [= <-] & [= <-] & ->). done.
Qed.

Lemma SFltb_trans x y z : SFltb x y = true -> SFltb y z = true -> SFltb x z = true.
Proof.
  rewrite !SFltb_rank. intros (a & b & Ha & Hb & H1) (b' & c & Hb' & Hc & H2). exists a, c. split_and!; [done..|].
  assert (b' = b) as -> by congruence. rewrite rank_cmp_lt in *. destruct a as [[] ?], b as [[] ?], c as [[] ?]. lia.
Qed.

Lemma SFltb_irrefl x : SFltb x x = false.
Proof.
  destruct (SFltb x x) eqn:H; [|done]. apply SFltb_rank in H as (a & b & Ha & Hb & H).
  assert (b = a) as -> by congruence. apply rank_cmp_lt in H. destruct a as [[] ?]. lia.
Qed.

(** A number that is not below [y] is not below what is above [y]. *)
Lemma SFltb_not_lt x y z : SFltb x y = true -> SFltb x z = false -> SFltb y z = false.
Proof. intros Hxy Hxz. destruct (SFltb y z) eqn:Hyz; [|done]. by rewrite (SFltb_trans x y z) in Hxz. Qed.

(** ** Peak and trough *)

(** After any number of throughput lines the peak is zero or one of the figures
    printed and none of them is above it; the trough is the largest number or
    one of them and none of them is below it. *)
Theorem extremes_tracked xs :
  let ex := foldl (fun ex x => track x ex) extremes_init xs in
  ex_max ex ∈ S754_zero false :: xs /\ ex_min ex ∈ f64_MAX :: xs /\
  Forall (fun x => SFltb (ex_max ex) x = false /\ SFltb x (ex_min ex) = false) xs.
Proof.
  cbv zeta. induction xs as [|x xs IH] using rev_ind; [split_and!; [left|left|constructor]|].
  rewrite foldl_app. cbn [foldl]. set (ex := foldl _ _ xs) in *. destruct IH as (H1 & H2 & H3).
  rewrite !app_comm_cons, !elem_of_app, !list_elem_of_singleton. unfold track. cbn [ex_max ex_min].
  split_and!; [destruct (SFltb (ex_max ex) x); auto|destruct (SFltb x (ex_min ex)); auto|].
  apply Forall_app. split.
  - eapply Forall_impl; [exact H3|]. intros y [Hy1 Hy2]. split.
    + destruct (SFltb (ex_max ex) x) eqn:Hx; [by apply (SFltb_not_lt (ex_max ex))|done].
    + destruct (SFltb x (ex_min ex)) eqn:Hx; [|done].
      destruct (SFltb y x) eqn:Hyx; [|done]. by rewrite (SFltb_trans y x (ex_min ex)) in Hy2.
  - apply Forall_singleton. split.
    + destruct (SFltb (ex_max ex) x) eqn:Hx; [apply SFltb_irrefl|done].
    + destruct (SFltb x (ex_min ex)) eqn:Hx; [apply SFltb_irrefl|done].
Qed.

(** The time the average is taken over is at least a millisecond, whatever the
    clock gave: the average is not taken over zero or over no number. *)
Lemma final_elapsed_positive clean_eof elapsed_raw recv_idle :
  let t := final_elapsed clean_eof elapsed_raw recv_idle in SFltb t milli = false /\ SFltb (S754_zero false) t = true.
Proof.
  assert (Hmax : forall x, SFltb (f64_max x milli) milli = false /\ SFltb (S754_zero false) (f64_max x milli) = true).
  { intros x. assert (Hx : f64_max x milli = milli \/ f64_max x milli = x /\ SFltb x milli = false).
    { unfold f64_max. destruct x; auto; destruct (SFltb _ milli) eqn:Hlt; auto. }
    destruct Hx as [-> |[Hx Hlt]]; [done|]. rewrite Hx. split; [done|]. destruct x as [s|[]| |[] m e]; done. }
  unfold final_elapsed. destruct clean_eof; apply Hmax.
Qed.

(** ** The start of the server *)

(** The settings never stop the server: it fails before its receive loops only
    when the socket cannot be bound, or panics when it is asked for no
    connection at all. *)
Theorem server_run_outcome {Conn : Type} env args socket (accepts : nat -> outcome BluefinError Conn) :
  fst (server_run env args socket accepts) =
    match socket with
    | Ok _ =>
        match num_expected_connections env args with
        | Ok n =>
            Ok (accept_all (map accepts (seq 0 (Z.to_nat n))), recv_idle_timeout env,
                {| sv_host := Host_new PackLeader; sv_socket := true; sv_src_addr := SERVER_ADDR;
                   sv_num_reader_workers := num_reader_workers env; sv_diag_tx := false |})
        | _ => Panic
        end
    | Err e => Err e
    | _ => Panic
    end.
Proof.
  unfold server_run, BluefinServer_set_num_reader_workers.
  assert (Hn : (num_reader_workers env =? 0)%Z = false).
  { apply Z.eqb_neq. unfold num_reader_workers, env_number. destruct (_ ≫= _) as [n|]; [|done].
    unfold positive. destruct (Z.ltb_spec 0 n); [lia|done]. }
  rewrite Hn. destruct socket; cbn; try done. by destruct (num_expected_connections env args).
Qed.
