(* ===== verification/Hosts.v ===== *)
(** * A host stays well formed

    A host's connection table, the heap of shared connection parts it points
    into and the handshakes in progress, as one transition system: datagrams at
    the routing workers, the segments of [accept] and [connect] that change the
    table, polls of the handshake future, and the tasks of the connections
    (receiving, reading, consuming acknowledgements, closing).  The buffers of a
    connection are behind mutexes that are poisoned when a task panics with the
    guard in its hands; every [lock().unwrap()] on one of them panics from then
    on.  In every state that can be reached the table has no dangling entry, no
    two keys share a connection and every reassembly buffer has its shape, and a
    routing worker survives the packets of a datagram exactly when no mutex they
    are put behind is poisoned. *)
From stdpp Require Import base numbers list option gmap relations.
From S2P Require Import Prelude Proto Header Packet Window OrderedBytes Close Buffers Net ConnReader Packetiser Writer Reader Routing Handshake.

(** ** The shape of a reassembly buffer *)

(** What indexing needs, whatever the slots hold. *)
Record shape (ob : OrderedBytes) : Prop := {
  shape_len : length (packets ob) = MAX_BUFFER_SIZE;
  shape_index : smallest_packet_number_index ob < MAX_BUFFER_SIZE
}.

Definition no_panic {E A : Type} (r : outcome E A) : Prop := r <> Panic /\ r <> NoFuel.

Lemma shape_new conn_id start : shape (OrderedBytes_new conn_id start).
Proof. split; [apply length_replicate|apply MAX_BUFFER_SIZE_pos]. Qed.

Lemma shape_carry ob c : shape ob -> shape (with_carry ob c).
Proof. by intros []. Qed.

Lemma shape_packet_at ob i : shape ob -> i < MAX_BUFFER_SIZE -> exists o, packet_at ob i = Ok o.
Proof.
  intros [Hl _] Hi. unfold packet_at. destruct (lookup_lt_is_Some_2 (packets ob) i) as [o ->]; [lia|].
  by exists o.
Qed.

Lemma shape_release ob slot pn : shape ob -> shape (release_slot ob slot pn).
Proof.
  intros [Hl Hi]. split; simpl; [by rewrite length_insert|]. apply wrap_index_lt; [done|].
  unfold MAX_BUFFER_SIZE. lia.
Qed.

Lemma shape_buffer_in_packet ob p :
  shape ob -> shape (OrderedBytes_buffer_in_packet ob p).2 /\ no_panic (OrderedBytes_buffer_in_packet ob p).1.
Proof.
  intros Hs. unfold OrderedBytes_buffer_in_packet. destruct (_ <? _)%Z; [done|].
  destruct (Z.leb_spec (Z.of_nat MAX_BUFFER_SIZE)
    (u64_sub (packet_number (header p)) (smallest_packet_number ob))) as [|Hlt]; [done|].
  set (i := wrap_index _ _). assert (i < MAX_BUFFER_SIZE) as Hi.
  { apply wrap_index_lt; [apply Hs|]. pose proof (u64_wrap_range
      (packet_number (header p) - smallest_packet_number ob)) as Hr. unfold u64_sub in *. int_lia. }
  destruct (shape_packet_at ob i Hs Hi) as [[q|] ->]; [done|]. split; [|done].
  destruct Hs as [Hl Hx]. split; simpl; [by rewrite length_insert|done].
Qed.

(** A property that every round keeps holds of what a loop returns. *)
Lemma loop_inv {E S R : Type} (I : S -> Prop) (Q : R -> Prop) (step : S -> outcome E (ctl S R)) fuel s r :
  (forall s, I s -> match step s with Ok (Next s') => I s' | Ok (Done r) => Q r | _ => True end) ->
  I s -> loop fuel step s = Ok r -> Q r.
Proof.
  intros Hstep. revert s. induction fuel as [|fuel IH]; intros s HI; [done|]. simpl.
  specialize (Hstep s HI). destruct (step s) as [[s'|r']| | |]; try done; [by apply IH|].
  intros [= <-]. done.
Qed.

Lemma shape_consume ob len buf r ob' buf' :
  shape ob -> OrderedBytes_consume ob len buf = Ok (r, ob', buf') -> shape ob'.
Proof.
  assert (forall ob buf n r ob' buf', shape ob ->
    consume_packets ob len buf n = Ok (r, ob', buf') -> shape ob') as Hp.
  { clear. intros ob buf n r ob' buf' Hs. unfold consume_packets.
    destruct (base_number ob) as [b| | |]; cbn [outcome_bind]; try done.
    destruct (loop _ _ _) as [s| | |] eqn:Hl; cbn [outcome_bind]; try done.
    assert (shape (cs_ob s)) as Hs'.
    { refine (loop_inv (fun s => shape (cs_ob s)) (fun s => shape (cs_ob s)) _ _ _ _ _ _ Hl); [|exact Hs].
      intros s0 H0. unfold consume_step. case_decide; [|done].
      destruct (packet_at _ _) as [[p|]| | |]; simpl; try done. case_decide; [|done].
      case_decide; (destruct (buf_write _ _ _); simpl; try done); apply shape_release; [by apply shape_carry|done]. }
    case_decide; intros [= <- <- <-]; done. }
  intros Hs. unfold OrderedBytes_consume. destruct (carry_over_bytes ob) as [c|]; [|by apply Hp].
  case_decide; destruct (buf_write buf 0 _); simpl; try done.
  - apply Hp. by apply shape_carry.
  - intros [= <- <- <-]. by apply shape_carry.
Qed.

Lemma shape_consume_bytes ob out maxp r ob' out' :
  shape ob -> OrderedBytes_consume_bytes ob out maxp = Ok (r, ob', out') -> shape ob'.
Proof.
  intros Hs. unfold OrderedBytes_consume_bytes.
  set (x := match carry_over_bytes ob with Some c => _ | None => _ end).
  assert (shape (x.2)) as Hx by (unfold x; destruct (carry_over_bytes ob); [by apply shape_carry|done]).
  destruct x as [[total out1] ob1]. simpl in Hx.
  destruct (base_number ob1) as [b| | |]; cbn [outcome_bind]; try done.
  destruct (loop _ _ _) as [s| | |] eqn:Hl; cbn [outcome_bind]; try done.
  assert (shape (ds_ob s)) as Hs'.
  { refine (loop_inv (fun s => shape (ds_ob s)) (fun s => shape (ds_ob s)) _ _ _ _ _ _ Hl); [|exact Hx].
    intros s0 H0. unfold consume_bytes_step. case_decide; [|done].
    destruct (packet_at _ _) as [[p|]| | |]; simpl; try done. by apply shape_release. }
  case_decide; intros [= <- <- <-]; done.
Qed.

(** ** The shared part of a connection *)

Definition cb_shape (cb : ConnectionBuffer) : Prop := shape (ordered_bytes cb).
Definition sh_shape (s : ConnShared) : Prop := cb_shape (conn_buff s).

Lemma cb_shape_bytes cb p :
  cb_shape cb -> cb_shape (ConnectionBuffer_buffer_in_bytes cb p).2 /\
  no_panic (ConnectionBuffer_buffer_in_bytes cb p).1.
Proof.
  intros H. unfold ConnectionBuffer_buffer_in_bytes.
  pose proof (shape_buffer_in_packet _ p H) as Hs.
  by destruct (OrderedBytes_buffer_in_packet (ordered_bytes cb) p).
Qed.

Lemma cb_shape_packet cb p :
  cb_shape cb -> cb_shape (ConnectionBuffer_buffer_in_packet cb p).2 /\
  no_panic (ConnectionBuffer_buffer_in_packet cb p).1.
Proof.
  intros H. unfold ConnectionBuffer_buffer_in_packet. destruct (cb_packet cb); [done|].
  simpl. destruct (set_start_packet_number cb); simpl; [done|]. split; [|done].
  unfold cb_shape. simpl. destruct H as [Hl Hi]. unfold start_after. by destruct (cb_host_type cb).
Qed.

Lemma cb_shape_addr cb addr : cb_shape cb -> cb_shape (ConnectionBuffer_buffer_in_addr cb addr).2.
Proof. intros H. unfold ConnectionBuffer_buffer_in_addr. by destruct (cb_addr cb). Qed.

Lemma insert_each_no_panic w ns : no_panic (insert_each w ns).1.
Proof.
  revert w. induction ns as [|n ns IH]; intros w; [done|]. simpl.
  assert (no_panic (SlidingWindow_insert_packet_number w n).1) as Hn.
  { unfold SlidingWindow_insert_packet_number. destruct (_ <? _)%Z; [done|].
    destruct (_ <=? _)%Z; [done|]. destruct (last _) as [l|]; [|done].
    destruct (_ <? _)%Z; [done|]. destruct (_ =? _)%Z; [done|]. by destruct (binary_search _ _). }
  destruct (SlidingWindow_insert_packet_number w n) as [[] ?]; [apply IH|done..].
Qed.

Lemma ack_packet_no_panic ab p : no_panic (AckBuffer_buffer_in_ack_packet ab p).1.
Proof.
  unfold AckBuffer_buffer_in_ack_packet, SlidingWindow_insert_range.
  destruct (_ =? 0)%Z; [done|]. destruct (_ <? _)%Z; [done|]. destruct (_ <=? _)%Z; [done|].
  destruct (match last _ with Some _ => _ | None => _ end); [done|].
  pose proof (insert_each_no_panic (received_acks ab)
    (range_inclusive (packet_number (header p))
       (u64_sub (u64_add (packet_number (header p)) (type_specific_payload (header p))) 1))) as H.
  by destruct (insert_each _ _).
Qed.

Lemma buffer_to_conn_buffer_shape cb p addr is_hello is_client_ack :
  cb_shape cb ->
  cb_shape (ReaderTxChannel_buffer_to_conn_buffer cb p addr is_hello is_client_ack).1.2 /\
  no_panic (ReaderTxChannel_buffer_to_conn_buffer cb p addr is_hello is_client_ack).1.1.
Proof.
  intros H. unfold ReaderTxChannel_buffer_to_conn_buffer.
  set (x := if _ : bool then _ else _).
  assert (cb_shape x.2 /\ no_panic x.1) as [H1 H2].
  { unfold x. destruct (_ && _); [by apply cb_shape_bytes|].
    pose proof (cb_shape_packet cb p H) as [Hs Hn].
    destruct (ConnectionBuffer_buffer_in_packet cb p) as [[]cb']; try done.
    split; [by apply cb_shape_addr|done]. }
  destruct x as [[] cb']; try done. simpl. by destruct (cb_waker cb').
Qed.

Lemma buffer_in_data_shape is_hello t p addr s :
  sh_shape s ->
  sh_shape (ReaderTxChannel_buffer_in_data is_hello t p addr s).1.2 /\
  no_panic (ReaderTxChannel_buffer_in_data is_hello t p addr s).1.1.
Proof.
  intros H. unfold ReaderTxChannel_buffer_in_data. destruct (_ && _).
  - unfold ReaderTxChannel_buffer_to_ack_buffer.
    pose proof (ack_packet_no_panic (ack_buff s) p) as Hn.
    destruct (AckBuffer_buffer_in_ack_packet (ack_buff s) p) as [[] ab]; try done.
    unfold AckBuffer_wake. by destruct (ack_waker ab).
  - pose proof (buffer_to_conn_buffer_shape (conn_buff s) p addr is_hello (is_client_ack_packet t p) H) as Hs.
    by destruct (ReaderTxChannel_buffer_to_conn_buffer _ _ _ _ _) as [[r cb] evs].
Qed.

(** Buffering the packets of a datagram never panics. *)
Lemma buffer_all_shape is_hello t packets addr s :
  sh_shape s -> exists s' evs, buffer_all is_hello t packets addr s = (Some s', evs) /\ sh_shape s'.
Proof.
  revert s. induction packets as [|p ps IH]; intros s H; simpl; [by eexists _, _|].
  pose proof (buffer_in_data_shape is_hello t p addr s H) as [H1 H2].
  destruct (ReaderTxChannel_buffer_in_data is_hello t p addr s) as [[r s1] evs].
  simpl in H1, H2. destruct (IH s1 H1) as (s2 & evs2 & -> & Hs2).
  destruct r; try (by destruct H2); by eexists _, _.
Qed.

(** Further operations of the connection's tasks keep the shape. *)
Lemma data_packets_shape cb packets e : cb_shape cb -> cb_shape (data_packets_loop cb packets e).2.
Proof.
  revert cb e. induction packets as [|p ps IH]; intros cb e H; [done|]. simpl.
  pose proof (cb_shape_bytes cb p H) as [Hs _].
  destruct (ConnectionBuffer_buffer_in_bytes cb p) as [[] cb']; try done; by apply IH.
Qed.

Lemma receive_shape env s packets :
  sh_shape s -> sh_shape (ConnReaderHandler_buffer_in_packets env s packets).1.2.
Proof.
  intros H. unfold ConnReaderHandler_buffer_in_packets. destruct packets as [|p ps]; [done|].
  assert (sh_shape (ConnReaderHandler_buffer_in_close_packets env s (p :: ps)).1.2) as Hc.
  { unfold ConnReaderHandler_buffer_in_close_packets.
    destruct (close_packets_loop _ _ _) as [[] l]; try done. by destruct (if cl_saw_fin l then _ else _). }
  assert (sh_shape (let '(r, cb, evs) := ConnReaderHandler_buffer_in_data_packets (conn_buff s) (p :: ps) in
    (r, with_conn_buff s cb, evs)).1.2) as Hd.
  { unfold ConnReaderHandler_buffer_in_data_packets.
    pose proof (data_packets_shape (conn_buff s) (p :: ps) None H) as Hl.
    destruct (data_packets_loop _ _ _) as [[e| | |] cb']; try done. by destruct (wake_then _ e). }
  destruct (type_field (header p)); try done.
  unfold ConnReaderHandler_buffer_in_ack_packets.
  destruct (ack_packets_loop _ _ _ _) as [[[e| | |] ab] evs0]; try done. by destruct (wake_then _ e).
Qed.

Lemma read_shape rx w accepted cb fin n buf o :
  cb_shape cb -> ReaderRxChannel_read rx w accepted cb fin n buf = Ok o -> cb_shape (ro_conn o).
Proof.
  intros H. unfold ReaderRxChannel_read. destruct (eof_addr cb fin); [by intros [= <-]|].
  unfold ConnectionBuffer_consume. destruct (cb_addr cb) as [a|]; simpl; [|done].
  destruct (OrderedBytes_consume (ordered_bytes cb) n buf) as [[[r ob] buf']| | |] eqn:Hc; simpl; try done.
  apply shape_consume in Hc; [|done]. destruct r as [res| | |]; simpl; try done.
  intros [= <-]. by rewrite after_consume_conn.
Qed.

Lemma read_bytes_shape rx w accepted cb fin out n o :
  cb_shape cb -> ReaderRxChannel_read_bytes rx w accepted cb fin out n = Ok o -> cb_shape (ro_conn o).
Proof.
  intros H. unfold ReaderRxChannel_read_bytes. destruct (eof_addr cb fin); [by intros [= <-]|].
  unfold ConnectionBuffer_consume_bytes. destruct (cb_addr cb) as [a|]; simpl; [|by intros [= <-]].
  destruct (OrderedBytes_consume_bytes (ordered_bytes cb) out n) as [[[r ob] out']| | |] eqn:Hc; simpl; try done.
  apply shape_consume_bytes in Hc; [|done]. destruct r as [res| | |]; simpl; try done.
  - intros [= <-]. by rewrite after_consume_conn.
  - by intros [= <-].
Qed.

Lemma poll_shape cb cx : cb_shape cb -> cb_shape (HandshakeConnectionBuffer_poll cb cx).2.
Proof. intros H. unfold HandshakeConnectionBuffer_poll. simpl.
  by destruct (cb_packet cb), (cb_addr cb). Qed.

(** ** Mutexes *)

Inductive mutex : Type := ConnBuff | AckBuff | CloseBuff.

#[export] Instance mutex_eq_dec : EqDecision mutex.
Proof. solve_decision. Defined.

#[export] Instance mutex_countable : Countable mutex :=
  inj_countable' (fun m => match m with ConnBuff => 0 | AckBuff => 1 | CloseBuff => 2 end)
    (fun n => match n with 0 => ConnBuff | 1 => AckBuff | _ => CloseBuff end) ltac:(by intros []).

(** The poisoned mutexes of a host, by the location of their connection. *)
Abbreviation poisons := (gset (nat * mutex)).

(** What [buffer_in_data] locks for a packet. *)
Definition packet_lock (is_hello : bool) (t : BluefinHost) (p : BluefinPacket) : mutex :=
  if negb (is_client_ack_packet t p) && negb is_hello && bool_decide (type_field (header p) = Ack)
  then AckBuff else ConnBuff.

(** What [buffer_in_packets] of the receive task locks first. *)
Definition datagram_lock (packets : list BluefinPacket) : option mutex :=
  match packets with
  | [] => None
  | p :: _ => Some match type_field (header p) with Ack => AckBuff | Fin | FinAck => CloseBuff | _ => ConnBuff end
  end.

(** ** The routing worker

    [buffer_all] of Routing.v with its locks; the first component says whether
    the worker is still there. *)
Fixpoint buffer_all_locked (poisoned : mutex -> bool) (is_hello : bool) (t : BluefinHost)
    (packets : list BluefinPacket) (addr : SocketAddr) (s : ConnShared) : bool * ConnShared * list effect :=
  match packets with
  | [] => (true, s, [])
  | p :: packets' =>
      if poisoned (packet_lock is_hello t p) then (false, s, [])
      else
        match ReaderTxChannel_buffer_in_data is_hello t p addr s with
        | (Panic, s', evs) => (false, s', evs)
        | (_, s', evs) =>
            let '(alive, s'', evs') := buffer_all_locked poisoned is_hello t packets' addr s' in (alive, s'', evs ++ evs')
        end
  end.

Definition worker_round (poisoned : poisons) (h : Host) (packets : list BluefinPacket) (addr : SocketAddr) :
    bool * Host * list effect :=
  match packets with
  | [] => (true, h, [])
  | first :: _ =>
      match route h first (length packets) addr with
      | Ok (None, h) => (true, h, [])
      | Ok (Some (is_hello, key), h) =>
          match conn_manager h !! key with
          | None => (true, h, [])
          | Some entry =>
              match heap h !! shared_at entry with
              | None => (false, h, [])
              | Some s =>
                  let '(alive, s', evs) :=
                    buffer_all_locked (fun m => bool_decide ((shared_at entry, m) ∈ poisoned))
                      is_hello (host_type h) packets addr s in
                  (alive, with_heap h (shared_at entry) s', evs)
              end
          end
      | _ => (false, h, [])
      end
  end.

(** The mutexes behind which a datagram's packets are put. *)
Definition worker_locks (h : Host) (packets : list BluefinPacket) (addr : SocketAddr) : list (nat * mutex) :=
  match packets with
  | [] => []
  | first :: _ =>
      match route h first (length packets) addr with
      | Ok (Some (is_hello, key), h) =>
          match conn_manager h !! key with
          | Some entry => map (fun p => (shared_at entry, packet_lock is_hello (host_type h) p)) packets
          | None => []
          end
      | _ => []
      end
  end.

(** ** The host as a transition system *)

(** A host, the entries its unfinished [accept] and [connect] calls hold with
    the id each has drawn, the poisoned mutexes and the number of routing
    workers that are still there. *)
Record host_sys := {
  hs_host : Host;
  hs_held : list (Z * ConnectionManagedBuffers);
  hs_poisoned : poisons;
  hs_workers : nat;
}.

(** A task of a connection changes its shared part, or panics and poisons the
    mutex whose guard it holds.  [free]: the mutex can be locked.  What a panic
    leaves behind a poisoned mutex is not looked at again. *)
Inductive task_step (free : mutex -> Prop) : ConnShared -> ConnShared -> option mutex -> Prop :=
  | task_receive env s packets r s' evs :
      (forall m, datagram_lock packets = Some m -> free m) ->
      ConnReaderHandler_buffer_in_packets env s packets = (r, s', evs) ->
      task_step free s s' (match r with Panic => datagram_lock packets | _ => None end)
  | task_read rx w accepted s n buf o :
      free ConnBuff ->
      ReaderRxChannel_read rx w accepted (conn_buff s) (peer_fin_observed s) n buf = Ok o ->
      task_step free s (with_conn_buff s (ro_conn o)) None
  | task_read_panics rx w accepted s n buf :
      free ConnBuff ->
      ReaderRxChannel_read rx w accepted (conn_buff s) (peer_fin_observed s) n buf = Panic ->
      task_step free s s (Some ConnBuff)
  | task_read_bytes rx w accepted s n out o :
      free ConnBuff ->
      ReaderRxChannel_read_bytes rx w accepted (conn_buff s) (peer_fin_observed s) out n = Ok o ->
      task_step free s (with_conn_buff s (ro_conn o)) None
  | task_read_bytes_panics rx w accepted s n out :
      free ConnBuff ->
      ReaderRxChannel_read_bytes rx w accepted (conn_buff s) (peer_fin_observed s) out n = Panic ->
      task_step free s s (Some ConnBuff)
  | task_acks cx s largest ab largest' :
      free AckBuff ->
      AckConsumer_run cx (ack_buff s) largest = Ok (ab, largest') -> task_step free s (with_ack_buff s ab) None
  | task_close op s c flag :
      free CloseBuff ->
      close_do (close_buff s, peer_fin_observed s) op = (c, flag) -> task_step free s (with_close_buff s c flag) None
  | task_handshake cx s r cb :
      free ConnBuff ->
      HandshakeConnectionBuffer_poll (conn_buff s) cx = (r, cb) -> task_step free s (with_conn_buff s cb) None.

Definition poisoned_by (loc : nat) (o : option mutex) (ps : poisons) : poisons :=
  match o with Some m => {[ (loc, m) ]} ∪ ps | None => ps end.

Inductive host_step : host_sys -> host_sys -> Prop :=
  | host_datagram h held ps n dg k packets addr alive h' evs :
      BluefinPacket_from_bytes_into dg [] = (Ok k, packets) ->
      worker_round ps h packets addr = (alive, h', evs) ->
      host_step {| hs_host := h; hs_held := held; hs_poisoned := ps; hs_workers := S n |}
        {| hs_host := h'; hs_held := held; hs_poisoned := ps; hs_workers := if alive then S n else n |}
  | host_worker_ends h held ps n :     (* [recv_from] failed, or the parser panicked *)
      host_step {| hs_host := h; hs_held := held; hs_poisoned := ps; hs_workers := S n |}
        {| hs_host := h; hs_held := held; hs_poisoned := ps; hs_workers := n |}
  | host_register h held ps n src first_ack diag existed entry h' :
      register h (src, 0%Z) (ConnShared_new src (host_type h) first_ack) diag = (existed, entry, h') ->
      host_step {| hs_host := h; hs_held := held; hs_poisoned := ps; hs_workers := n |}
        {| hs_host := h'; hs_held := if existed then held else (src, entry) :: held; hs_poisoned := ps; hs_workers := n |}
  | host_take_hello h held ps n src q hs :
      take_hello_or_register (hello_state h) src = (q, hs) ->
      host_step {| hs_host := h; hs_held := held; hs_poisoned := ps; hs_workers := n |}
        {| hs_host := with_hello_state h hs; hs_held := held; hs_poisoned := ps; hs_workers := n |}
  | host_promote h held1 src dst entry held2 ps n r h' :
      promote h (src, 0%Z) (src, dst) entry = (r, h') ->
      host_step {| hs_host := h; hs_held := held1 ++ (src, entry) :: held2; hs_poisoned := ps; hs_workers := n |}
        {| hs_host := h'; hs_held := held1 ++ held2; hs_poisoned := ps; hs_workers := n |}
  | host_give_up h held1 x held2 ps n :
      host_step {| hs_host := h; hs_held := held1 ++ x :: held2; hs_poisoned := ps; hs_workers := n |}
        {| hs_host := h; hs_held := held1 ++ held2; hs_poisoned := ps; hs_workers := n |}
  | host_task h held ps n loc s s' o :
      heap h !! loc = Some s -> task_step (fun m => (loc, m) ∉ ps) s s' o ->
      host_step {| hs_host := h; hs_held := held; hs_poisoned := ps; hs_workers := n |}
        {| hs_host := with_heap h loc s'; hs_held := held; hs_poisoned := poisoned_by loc o ps; hs_workers := n |}
  | host_deregister h held ps n key :
      host_step {| hs_host := h; hs_held := held; hs_poisoned := ps; hs_workers := n |}
        {| hs_host := with_conn_manager h (delete key (conn_manager h)); hs_held := held; hs_poisoned := ps; hs_workers := n |}.

Definition host_start (t : BluefinHost) (workers : nat) : host_sys :=
  {| hs_host := Host_new t; hs_held := []; hs_poisoned := ∅; hs_workers := workers |}.

(** ** Well-formedness *)

Record host_wf (h : Host) (held : list (Z * ConnectionManagedBuffers)) (ps : poisons) : Prop := {
  hw_heap : forall l, is_Some (heap h !! l) <-> l < next_loc h;
  hw_table : forall key e, conn_manager h !! key = Some e -> shared_at e < next_loc h;
  hw_inj : forall k1 k2 e1 e2, conn_manager h !! k1 = Some e1 ->
    conn_manager h !! k2 = Some e2 -> shared_at e1 = shared_at e2 -> k1 = k2;
  hw_shared : forall l s, heap h !! l = Some s -> sh_shape s;
  hw_held : forall src e, (src, e) ∈ held -> shared_at e < next_loc h /\
    forall key e', conn_manager h !! key = Some e' -> shared_at e' = shared_at e -> key = (src, 0%Z);
  hw_linear : NoDup (map (fun x => shared_at x.2) held);
  hw_hello : hello_inv (hello_state h);
  hw_type : host_type h <> PackFollower;
  hw_poisoned : forall l m, (l, m) ∈ ps -> l < next_loc h
}.

Definition sys_wf (st : host_sys) : Prop := host_wf (hs_host st) (hs_held st) (hs_poisoned st).

Lemma sys_wf_start t n : t <> PackFollower -> sys_wf (host_start t n).
Proof.
  intros Ht. constructor; simpl; try done.
  - intros l. rewrite lookup_empty. split; [by intros [? [=]]|intros; lia].
  - intros src e H. by apply not_elem_of_nil in H.
  - constructor.
  - split; simpl; [auto|lia].
Qed.

Lemma task_step_shape free s s' o : task_step free s s' o -> sh_shape s -> sh_shape s'.
Proof.
  intros Hst Hs. destruct Hst as [env s packets r s' evs _ H|? ? ? ? ? ? ? _ H| |? ? ? ? ? ? ? _ H| |? ? ? ? ? _ H|? ? ? ? _ H|? ? ? ? _ H];
    try done.
  - pose proof (receive_shape env s packets Hs) as Hr. by rewrite H in Hr.
  - by eapply read_shape in H.
  - by eapply read_bytes_shape in H.
  - pose proof (poll_shape (conn_buff s) cx Hs) as Hp. by rewrite H in Hp.
Qed.

(** Replacing the contents of an allocated location. *)
Lemma host_wf_heap h held ps l s s' :
  host_wf h held ps -> heap h !! l = Some s -> sh_shape s' -> host_wf (with_heap h l s') held ps.
Proof.
  intros [H1 H2 H3 H4 H5 H6 H7 H8 H9] Hl Hs. constructor; simpl in *; try done.
  - intros l'. rewrite <- H1. destruct (decide (l = l')) as [<-|].
    + rewrite lookup_insert_eq, Hl. split; by eexists.
    + by rewrite lookup_insert_ne.
  - intros l' s0. destruct (decide (l = l')) as [<-|].
    + rewrite lookup_insert_eq. by intros [= <-].
    + rewrite lookup_insert_ne by done. apply H4.
Qed.

Lemma route_hello h p n addr o h' :
  route h p n addr = Ok (o, h') -> hello_inv (hello_state h) ->
  hello_inv (hello_state h') /\ next_loc h' = next_loc h.
Proof.
  unfold route. case_decide; [|by intros [= <- <-]].
  unfold ReaderTxChannel_handle_hello_single. intros Hr Hinv.
  pose proof (hello_inv_do (hello_state h) (HelloArrives p addr) Hinv) as Hdo.
  simpl in Hdo. unfold ReaderTxChannel_handle_hello_single in Hdo.
  destruct (host_type h) eqn:Ht; destruct (is_hello_packet _ p) eqn:Hp; simpl in *; try done;
    try (injection Hr as <- <-; split; done).
  destruct (pending_accept_ids (hello_state h)) as [|id ids]; [case_decide|];
    injection Hr as <- <-; split; done.
Qed.

Lemma route_wf h held ps p n addr :
  host_wf h held ps -> exists o h1, route h p n addr = Ok (o, h1) /\ host_wf h1 held ps.
Proof.
  intros Hwf. pose proof (hw_type _ _ _ Hwf) as Ht. pose proof (hw_hello _ _ _ Hwf) as Hh.
  assert (exists o h1, route h p n addr = Ok (o, h1)) as (o & h1 & Hr).
  { unfold route, ReaderTxChannel_handle_hello_single. case_decide; [|by eexists _, _].
    destruct (negb _); simpl; [by eexists _, _|]. destruct (host_type h) eqn:E; simpl; [|done|by eexists _, _].
    destruct (pending_accept_ids _); [case_decide|]; by eexists _, _. }
  exists o, h1. split; [done|]. pose proof (route_frame _ _ _ _ _ _ (proj2 Hh) Hr) as (F1 & F2 & F3 & F5 & _).
  pose proof (route_hello _ _ _ _ _ _ Hr Hh) as [F4 _].
  destruct Hwf as [H1 H2 H3 H4 H5 H6 H7 H8 H9]. constructor; rewrite ?F1, ?F2, ?F3, ?F5; done.
Qed.

(** Buffering packets behind locks: the worker panics exactly at a poisoned one,
    and does what Routing.v says when there is none. *)
Lemma buffer_all_locked_shape poisoned is_hello t packets addr s :
  sh_shape s ->
  let '(alive, s', evs) := buffer_all_locked poisoned is_hello t packets addr s in
  sh_shape s' /\ alive = negb (existsb (fun p => poisoned (packet_lock is_hello t p)) packets) /\
  (alive = true -> buffer_all is_hello t packets addr s = (Some s', evs)).
Proof.
  revert s. induction packets as [|p packets IH]; intros s Hs; cbn [buffer_all_locked existsb buffer_all]; [done|].
  destruct (poisoned (packet_lock is_hello t p)); [done|]. cbn [orb].
  pose proof (buffer_in_data_shape is_hello t p addr s Hs) as [H1 [H2 H3]].
  destruct (ReaderTxChannel_buffer_in_data is_hello t p addr s) as [[r s1] evs]. cbn [fst snd] in *.
  specialize (IH s1 H1). destruct (buffer_all_locked poisoned is_hello t packets addr s1) as [[alive s2] evs2].
  destruct IH as (I1 & I2 & I3). destruct r; try done; (split_and!; [done|done|]); intros Ha; by rewrite (I3 Ha).
Qed.

(** A round keeps the host well formed, and says when the worker survives. *)
Lemma worker_round_wf h held ps packets addr :
  host_wf h held ps ->
  let '(alive, h', evs) := worker_round ps h packets addr in
  host_wf h' held ps /\ (alive = true <-> Forall (fun l => l ∉ ps) (worker_locks h packets addr)) /\
  (alive = true -> ReaderTxChannel_handle_packets h packets addr = (Some h', evs)).
Proof.
  intros Hwf. unfold worker_round, worker_locks, ReaderTxChannel_handle_packets.
  destruct packets as [|p packets]; [split_and!; [done|by split; [constructor|]|done]|].
  destruct (route_wf h held ps p (length (p :: packets)) addr Hwf) as (o & h1 & -> & Hwf1).
  destruct o as [[is_hello key]|]; [|split_and!; [done|by split; [constructor|]|done]].
  destruct (conn_manager h1 !! key) as [entry|] eqn:He; [|split_and!; [done|by split; [constructor|]|done]].
  destruct (proj2 (hw_heap _ _ _ Hwf1 (shared_at entry)) (hw_table _ _ _ Hwf1 _ _ He)) as [s Hs]. rewrite Hs.
  set (poisoned := fun m => bool_decide ((shared_at entry, m) ∈ ps)).
  pose proof (buffer_all_locked_shape poisoned is_hello (host_type h1) (p :: packets) addr s (hw_shared _ _ _ Hwf1 _ _ Hs)) as Hb.
  destruct (buffer_all_locked _ _ _ _ _ _) as [[alive s'] evs]. destruct Hb as (Hs' & Ha & Hok).
  split_and!; [by eapply host_wf_heap| |intros Hal; by rewrite (Hok Hal)].
  rewrite Ha, negb_true_iff, Forall_map, <- not_true_iff_false, existsb_exists. split.
  - intros Hn. apply Forall_forall. intros q Hq Hin. apply Hn. exists q. split; [by apply list_elem_of_In|].
    by apply bool_decide_true.
  - intros Hf (q & Hq & Hp). apply list_elem_of_In in Hq. apply (proj1 (Forall_forall _ _) Hf q Hq).
    by apply bool_decide_eq_true in Hp.
Qed.

Lemma register_wf h held ps src s diag existed entry h' :
  host_wf h held ps -> sh_shape s ->
  register h (src, 0%Z) s diag = (existed, entry, h') ->
  host_wf h' (if existed then held else (src, entry) :: held) ps.
Proof.
  intros [H1 H2 H3 H4 H5 H6 H7 H8 H9] Hs. unfold register. intros [= <- <- <-]. simpl in *.
  assert (forall key e, <[(src, 0%Z) := {| shared_at := next_loc h; fin_ack_tx := false; diag_tx := diag |}]>
    (conn_manager h) !! key = Some e -> (key = (src, 0%Z) /\ shared_at e = next_loc h) \/
    (conn_manager h !! key = Some e /\ shared_at e < next_loc h)) as Hcase.
  { intros key e He. apply lookup_insert_Some in He as [[<- <-]|[_ He]]; [by left|].
    right. split; [done|by eapply H2]. }
  constructor; cbn [heap next_loc conn_manager hello_state host_type]; try done.
  - intros l. destruct (decide (next_loc h = l)) as [<-|].
    + rewrite lookup_insert_eq. split; [lia|by eexists].
    + rewrite lookup_insert_ne, H1 by done. lia.
  - intros key e He. destruct (Hcase key e He) as [[_ ->]|[_ ?]]; lia.
  - intros k1 k2 e1 e2 E1 E2 Heq.
    destruct (Hcase k1 e1 E1) as [[-> L1]|[K1 L1]], (Hcase k2 e2 E2) as [[-> L2]|[K2 L2]]; try lia; [done|].
    by eapply H3.
  - intros l s0 Hl. apply lookup_insert_Some in Hl as [[_ <-]|[_ Hl]]; [done|by eapply H4].
  - intros src' e' Hin. assert ((src', e') = (src, {| shared_at := next_loc h; fin_ack_tx := false; diag_tx := diag |}) \/ (src', e') ∈ held) as [Heq|Hin'].
    { destruct (bool_decide _); [by right|]. by apply elem_of_cons in Hin. }
    + simplify_eq. simpl. split; [lia|]. intros key e' He Heq. destruct (Hcase key e' He) as [[-> _]|[_ ?]]; [done|lia].
    + destruct (H5 _ _ Hin') as [Hlt Hk]. split; [lia|]. intros key e He Heq.
      destruct (Hcase key e He) as [[_ ?]|[He' _]]; [lia|by eapply Hk].
  - destruct (bool_decide _); [done|]. simpl. constructor; [|done].
    rewrite list_elem_of_fmap. intros ([src' e'] & Heq & Hin). simpl in Heq.
    destruct (H5 _ _ Hin). lia.
  - intros l m Hl. apply H9 in Hl. lia.
Qed.

(** Taking one element out of a list without duplicates. *)
Lemma NoDup_map_middle {A B : Type} (f : A -> B) l1 x l2 :
  NoDup (map f (l1 ++ x :: l2)) ->
  NoDup (map f (l1 ++ l2)) /\ forall y, y ∈ l1 ++ l2 -> f y <> f x.
Proof.
  intros H. assert (NoDup (f x :: map f (l1 ++ l2))) as Hp.
  { eapply NoDup_Permutation_proper; [|exact H]. rewrite !map_app. simpl. by rewrite Permutation_middle. }
  apply NoDup_cons in Hp as [Hx Hn]. split; [done|]. intros y Hy Heq. apply Hx.
  rewrite <- Heq. by apply list_elem_of_fmap_2.
Qed.

Lemma promote_wf h held1 src dst entry held2 ps r h' :
  host_wf h (held1 ++ (src, entry) :: held2) ps ->
  promote h (src, 0%Z) (src, dst) entry = (r, h') -> host_wf h' (held1 ++ held2) ps.
Proof.
  intros [H1 H2 H3 H4 H5 H6 H7 H8 H9] Hp. simpl in *.
  apply NoDup_map_middle in H6 as [Hnd Hne].
  assert (forall x, x ∈ held1 ++ held2 -> x ∈ held1 ++ (src, entry) :: held2) as Hsub.
  { intros x. rewrite !elem_of_app, elem_of_cons. tauto. }
  destruct (H5 src entry) as [Hloc Hkey]; [rewrite elem_of_app, elem_of_cons; auto|].
  unfold promote in Hp. destruct (conn_manager h !! (src, 0%Z)) as [old|].
  2:{ injection Hp as <- <-. constructor; simpl; try done. intros s' e' Hin. by apply H5, Hsub. }
  assert (h' = with_conn_manager h (<[(src, dst) := entry]> (delete (src, 0%Z) (conn_manager h)))) as ->.
  { destruct (_ !! (src, dst)); by injection Hp as <- <-. }
  assert (forall key e, <[(src, dst) := entry]> (delete (src, 0%Z) (conn_manager h)) !! key = Some e ->
    (key = (src, dst) /\ e = entry) \/ (conn_manager h !! key = Some e /\ shared_at e <> shared_at entry)) as Hcase.
  { intros key e He. apply lookup_insert_Some in He as [[<- <-]|[_ He]]; [by left|].
    apply lookup_delete_Some in He as [Hd He]. right. split; [done|]. intros Heq. apply Hd. by rewrite (Hkey key e). }
  constructor; cbn [with_conn_manager heap next_loc conn_manager hello_state host_type]; try done.
  - intros key e He. destruct (Hcase key e He) as [[_ ->]|[? _]]; [done|by eapply H2].
  - intros k1 k2 e1 e2 E1 E2 Heq.
    destruct (Hcase k1 e1 E1) as [[-> ->]|[K1 L1]], (Hcase k2 e2 E2) as [[-> ->]|[K2 L2]]; try done.
    by eapply H3.
  - intros s' e' Hin. destruct (H5 s' e' (Hsub _ Hin)) as [Hlt Hk]. split; [done|].
    intros key e He Heq. destruct (Hcase key e He) as [[_ ->]|[He' _]]; [|by eapply Hk].
    specialize (Hne _ Hin). by destruct Hne.
Qed.

Lemma poisoned_by_elem loc o ps l m :
  (l, m) ∈ poisoned_by loc o ps -> l = loc \/ (l, m) ∈ ps.
Proof. destruct o as [m'|]; cbn; [|auto]. rewrite elem_of_union, elem_of_singleton. naive_solver. Qed.

Lemma host_step_wf st st' : host_step st st' -> sys_wf st -> sys_wf st'.
Proof.
  intros Hst Hwf. destruct Hst as [h held ps n dg k packets addr alive h' evs _ H| |? ? ? ? ? ? ? ? ? ? H|? ? ? ? ? ? ? H|
    ? ? ? ? ? ? ? ? ? ? H|h held1 x held2 ps n|h held ps n loc s s' o H Ht|h held ps n key];
    unfold sys_wf in *; cbn [hs_host hs_held hs_poisoned] in *.
  - pose proof (worker_round_wf h held ps packets addr Hwf) as Hw. rewrite H in Hw. apply Hw.
  - done.
  - eapply register_wf; [done| |done]. apply shape_new.
  - pose proof (hello_inv_do (hello_state h) (AcceptCalled src) (hw_hello _ _ _ Hwf)) as Hh.
    simpl in Hh. rewrite H in Hh. destruct Hwf. by constructor.
  - by eapply promote_wf.
  - destruct Hwf as [H1 H2 H3 H4 H5 H6 H7 H8 H9]. apply NoDup_map_middle in H6 as [Hnd _].
    constructor; try done. intros src e Hin. apply H5.
    rewrite elem_of_app, elem_of_cons in *. tauto.
  - assert (Hl : host_wf (with_heap h loc s') held ps).
    { eapply host_wf_heap; [done..|]. eapply task_step_shape; [done|]. by eapply (hw_shared _ _ _ Hwf). }
    destruct Hl. constructor; try done. intros l m [->|Hin]%poisoned_by_elem; [|by eapply hw_poisoned0].
    apply (hw_heap _ _ _ Hwf). by eexists.
  - destruct Hwf as [H1 H2 H3 H4 H5 H6 H7 H8 H9].
    assert (forall k e, delete key (conn_manager h) !! k = Some e -> conn_manager h !! k = Some e) as Hd.
    { intros k e He. by apply lookup_delete_Some in He as [_ ?]. }
    constructor; simpl in *; try done; [by eauto..|].
    intros src e Hin. destruct (H5 src e Hin) as [? Hk]. split; [done|]. eauto.
Qed.

Lemma host_reached t n st : t <> PackFollower -> rtc host_step (host_start t n) st -> sys_wf st.
Proof.
  intros Ht Hr. pose proof (sys_wf_start t n Ht) as H0. induction Hr as [|x y z Hst _ IH]; [done|].
  apply IH. by eapply host_step_wf.
Qed.

(** A panicking read: the next packet for its connection ends the worker that
    gets it, though the worker serves every connection of the host. *)
Lemma panicking_read_ends_workers h held ps n loc s rx w accepted len buf key entry p addr :
  heap h !! loc = Some s -> (loc, ConnBuff) ∉ ps ->
  ReaderRxChannel_read rx w accepted (conn_buff s) (peer_fin_observed s) len buf = Panic ->
  conn_manager h !! key = Some entry -> shared_at entry = loc ->
  key = (destination_connection_id (header p), source_connection_id (header p)) ->
  is_hello_packet (host_type h) p = false -> type_field (header p) = UnencryptedData ->
  let st := {| hs_host := h; hs_held := held; hs_poisoned := ps; hs_workers := n |} in
  exists st', host_step st st' /\ hs_workers st' = n /\
    (worker_round (hs_poisoned st') (hs_host st') [p] addr).1.1 = false.
Proof.
  intros Hl Hf Hp He Hloc -> Hh Ht st. eexists. split; [by eapply host_task, task_read_panics|]. split; [done|].
  cbn [hs_poisoned hs_host poisoned_by]. unfold worker_round, route. cbn [length].
  rewrite decide_True by done. unfold ReaderTxChannel_handle_hello_single. cbn [with_heap host_type]. rewrite Hh.
  cbn. rewrite He. cbn. rewrite Hloc, lookup_insert_eq. unfold packet_lock. rewrite Ht.
  rewrite (bool_decide_false (UnencryptedData = Ack)) by done. rewrite !andb_false_r.
  rewrite bool_decide_true; [done|]. rewrite elem_of_union, elem_of_singleton. by left.
Qed.

(** C22: a host is well formed in every state it can reach, by datagrams, accepts
    and connects in any interleaving, failed or not, and by the tasks of its
    connections, those that panic included: every entry of its table points to
    a connection that exists, no connection is registered under two keys, the
    accept calls and the queued hellos never wait for each other, and every
    reassembly buffer can be indexed.  A routing worker survives the packets of
    a datagram exactly when none of the mutexes they are put behind was poisoned
    by a task that panicked, and then does what Routing.v says; either way it
    leaves the host well formed. *)
Theorem host_well_formed t n st packets addr :
  t <> PackFollower -> rtc host_step (host_start t n) st ->
  sys_wf st /\
  let '(alive, h', evs) := worker_round (hs_poisoned st) (hs_host st) packets addr in
  host_wf h' (hs_held st) (hs_poisoned st) /\
  (alive = true <-> Forall (fun l => l ∉ hs_poisoned st) (worker_locks (hs_host st) packets addr)) /\
  (alive = true -> ReaderTxChannel_handle_packets (hs_host st) packets addr = (Some h', evs)).
Proof.
  intros Ht Hr. pose proof (host_reached t n st Ht Hr) as Hwf. split; [exact Hwf|]. by apply worker_round_wf.
Qed.

Lemma host_well_formed_witness :
  exists h, rtc host_step (host_start PackLeader 1) {| hs_host := h; hs_held := []; hs_poisoned := ∅; hs_workers := 1 |} /\
    conn_manager h !! (7, 9)%Z = Some {| shared_at := 0; fin_ack_tx := false; diag_tx := false |} /\
    host_wf h [] ∅.
Proof.
  destruct (register (Host_new PackLeader) (7, 0)%Z (ConnShared_new 7 PackLeader 3) false)
    as [[ex e] h1] eqn:H1.
  destruct (promote h1 (7, 0)%Z (7, 9)%Z e) as [r h2] eqn:H2.
  assert (rtc host_step (host_start PackLeader 1) {| hs_host := h2; hs_held := []; hs_poisoned := ∅; hs_workers := 1 |}) as Hr.
  { eapply rtc_l; [exact (host_register _ _ _ _ 7 3 false _ _ _ H1)|].
    replace (if ex then [] else [(7%Z, e)]) with ([] ++ (7%Z, e) :: []) by (by injection H1 as <- <- <-).
    eapply rtc_l; [exact (host_promote _ [] 7 9 e [] _ _ _ _ H2)|]. apply rtc_refl. }
  exists h2. split; [exact Hr|].
  split; [|exact (proj1 (host_well_formed PackLeader 1 _ [] (0, 0)%Z ltac:(discriminate) Hr))].
  injection H1 as <- <- <-. unfold promote in H2. simpl in H2. by injection H2 as <- <-.
Defined.
