(* ===== verification/Acks.v ===== *)
(** * Acknowledgements from one end to the other

    Composes the ack task of the receiving end ([read_ack],
    src/bluefin/src/worker/writer.rs), the wire format, the receive task of the
    sending end (src/bluefin/src/worker/conn_reader.rs), its acknowledgement
    window and the consumer that publishes the largest acknowledged number
    (src/bluefin/src/net/ack_handler.rs).  The network loses, repeats and
    reorders ack datagrams, and the consumer runs between any two of them. *)
From stdpp Require Import base numbers list option strings.
From S2P Require Import Prelude Proto Header Packet Window OrderedBytes Close Buffers Net ConnReader Packetiser Writer.

(** ** The loop of the ack task *)

#[export] Instance AckData_eq_dec : EqDecision AckData.
Proof. solve_decision. Defined.

(** What the surroundings answer in one round: whether the socket takes the
    datagram refused before, what [recv_many] gives, and whether the socket
    takes each new datagram. *)
Record ack_round : Type := {
  kr_retry : bool;
  kr_batch : list AckData;
  kr_takes : nat -> bool;
}.

(** The task, what it has sent and the acks it has taken from its channel. *)
Record ack_loop : Type := {
  al_task : AckTask;
  al_wire : list bytes;
  al_taken : list AckData;
}.

Definition ack_loop_init : ack_loop :=
  {| al_task := {| at_queue := []; at_pending := None |}; al_wire := []; al_taken := [] |}.

Definition read_ack_step (src dst : Z) (l : ack_loop) (r : ack_round) : BluefinResult ack_loop :=
  let '(go, t, resent) := read_ack_retry (al_task l) (kr_retry r) in
  if go then
    (let? (t, sent) := read_ack_round src dst t (kr_batch r) (kr_takes r) in
     Ok {| al_task := t; al_wire := al_wire l ++ resent ++ sent; al_taken := al_taken l ++ kr_batch r |})%rust
  else Ok l.

Fixpoint read_ack (src dst : Z) (l : ack_loop) (rounds : list ack_round) : BluefinResult ack_loop :=
  match rounds with
  | [] => Ok l
  | r :: rounds => (let? l := read_ack_step src dst l r in read_ack src dst l rounds)%rust
  end.

(** ** What is on the wire *)

Definition ack_dg (src dst : Z) (g : list AckData) : bytes := datagram (map (ack_pkt src dst) g).

(** The acks of one datagram: at least one, and no more than fit. *)
Definition ack_group (g : list AckData) : Prop := g <> [] /\ length g <= acks_fitting 0.

Lemma acks_fitting_pos : 0 < acks_fitting 0.
Proof. apply Nat.ltb_lt. vm_compute. reflexivity. Qed.

Lemma take_group q : q <> [] -> ack_group (take (acks_fitting 0) q).
Proof.
  intros Hq. pose proof acks_fitting_pos. split; [|rewrite length_take; lia].
  destruct q; [done|]. destruct (acks_fitting 0); [lia|done].
Qed.

Lemma ack_dg_length src dst g : length (ack_dg src dst g) = length g * 20.
Proof.
  unfold ack_dg. induction g as [|a g IH]; [done|]. cbn [map]. rewrite datagram_cons, length_app, IH.
  rewrite length_BluefinPacket_serialise. cbn [payload ack_pkt length]. lia.
Qed.

Lemma read_ack_sends_groups src dst n queue takes :
  exists groups pend rest,
    read_ack_sends src dst n queue takes =
      Ok ({| at_queue := rest; at_pending := ack_dg src dst <$> pend |}, map (ack_dg src dst) groups) /\
    concat groups ++ default [] pend ++ rest = queue /\
    Forall ack_group (groups ++ option_list pend).
Proof.
  revert queue. induction n as [|n IH]; intros queue; cbn [read_ack_sends].
  - by exists [], None, queue.
  - rewrite consume_acks_into_spec. cbn [outcome_bind]. set (k := acks_fitting 0).
    case_bool_decide as Hne.
    + pose proof (take_group queue Hne) as Hg. fold k in Hg. destruct (takes (S n)).
      * destruct (IH (drop k queue)) as (groups & pend & rest & -> & Hq & Hgs). cbn [outcome_bind].
        exists (take k queue :: groups), pend, rest. split; [done|]. split; [|by constructor].
        cbn [concat]. by rewrite <- app_assoc, Hq, take_drop.
      * exists [], (Some (take k queue)), (drop k queue). split; [done|].
        split; [by rewrite <- (take_drop k queue) at 3|]. constructor; [exact Hg|constructor].
    + exists [], None, (drop k queue). split; [done|]. split; [|constructor].
      by rewrite Hne, drop_nil.
Qed.

(** What the loop has taken is on the wire, then refused, then queued. *)
Definition ack_loop_ok (src dst : Z) (groups : list (list AckData)) (l : ack_loop) : Prop :=
  exists pend,
    al_wire l = map (ack_dg src dst) groups /\ at_pending (al_task l) = ack_dg src dst <$> pend /\
    concat groups ++ default [] pend ++ at_queue (al_task l) = al_taken l /\
    Forall ack_group (groups ++ option_list pend).

Lemma read_ack_step_ok src dst l r groups :
  ack_loop_ok src dst groups l ->
  exists l' new, read_ack_step src dst l r = Ok l' /\ ack_loop_ok src dst (groups ++ new) l'.
Proof.
  intros (pend & Hw & Hp & Ht & Hg). unfold read_ack_step, read_ack_retry. rewrite Hp.
  assert (Hround : forall (t : AckTask) resent,
    at_pending t = None -> concat (groups ++ resent) ++ at_queue t = al_taken l ->
    Forall ack_group (groups ++ resent) ->
    exists l' new,
      (let? (t', sent) := read_ack_round src dst t (kr_batch r) (kr_takes r) in
       Ok {| al_task := t'; al_wire := al_wire l ++ map (ack_dg src dst) resent ++ sent;
             al_taken := al_taken l ++ kr_batch r |})%rust = Ok l' /\
      ack_loop_ok src dst (groups ++ new) l').
  { intros t resent Hn Hq Hr. unfold read_ack_round. destruct (kr_batch r) as [|a batch] eqn:Hb.
    - cbn [outcome_bind]. do 2 eexists. split; [done|]. exists None. cbn [al_wire al_task al_taken].
      rewrite Hw, app_nil_r, map_app. split_and!; [done|done|by rewrite app_nil_r|by rewrite app_nil_r].
    - rewrite <- Hb in *. clear Hb.
      destruct (read_ack_sends_groups src dst DATAGRAMS_PER_ROUND (at_queue t ++ kr_batch r) (kr_takes r))
        as (gs & pend' & rest & -> & Hq' & Hgs). cbn [outcome_bind].
      exists {| al_task := {| at_queue := rest; at_pending := ack_dg src dst <$> pend' |};
                al_wire := al_wire l ++ map (ack_dg src dst) resent ++ map (ack_dg src dst) gs;
                al_taken := al_taken l ++ kr_batch r |}, (resent ++ gs).
      split; [done|]. exists pend'. cbn [al_wire al_task al_taken at_pending at_queue]. split_and!.
      + by rewrite Hw, !map_app.
      + done.
      + rewrite (app_assoc groups), concat_app, <- (app_assoc (concat (groups ++ resent))), Hq'.
        by rewrite app_assoc, Hq.
      + rewrite (app_assoc groups), <- (app_assoc (groups ++ resent)). by apply Forall_app. }
  destruct pend as [g|]; cbn [fmap option_fmap option_map].
  - destruct (kr_retry r).
    + apply (Hround {| at_queue := at_queue (al_task l); at_pending := None |} [g]); [done| |done].
      rewrite concat_app, <- app_assoc. cbn [concat]. by rewrite app_nil_r.
    + exists l, []. split; [done|]. rewrite app_nil_r. by exists (Some g).
  - apply (Hround (al_task l) []); [done|by rewrite app_nil_r|by rewrite app_nil_r in *].
Qed.

Lemma read_ack_ok src dst rounds l groups :
  ack_loop_ok src dst groups l ->
  exists l' groups', read_ack src dst l rounds = Ok l' /\ ack_loop_ok src dst groups' l'.
Proof.
  revert l groups. induction rounds as [|r rounds IH]; intros l groups Hl; cbn [read_ack]; [by eauto|].
  destruct (read_ack_step_ok src dst l r groups Hl) as (l' & new & -> & Hl'). cbn [outcome_bind].
  by apply (IH l' (groups ++ new)).
Qed.

(** ** Into the window *)

(** A range of packet numbers the window can take. *)
Definition ack_valid (a : AckData) : Prop :=
  (0 <= ack_base_packet_num a)%Z /\ (0 < Z.of_nat (ack_num_packets_consumed a) < 2 ^ 16)%Z /\
  (ack_base_packet_num a + Z.of_nat (ack_num_packets_consumed a) < 2 ^ 64)%Z.

Definition covers (a : AckData) (n : Z) : Prop :=
  (ack_base_packet_num a <= n < ack_base_packet_num a + Z.of_nat (ack_num_packets_consumed a))%Z.

Lemma covers_base a : ack_valid a -> covers a (ack_base_packet_num a).
Proof. unfold ack_valid, covers. lia. Qed.

Definition insert_ack (w : SlidingWindow) (a : AckData) : SlidingWindow :=
  snd (SlidingWindow_insert_range w (ack_base_packet_num a) (Z.of_nat (ack_num_packets_consumed a))).

Lemma ack_count_u16 a : ack_valid a -> is_u16 (Z.of_nat (ack_num_packets_consumed a)).
Proof. intros (_ & Hc & _). int_lia. Qed.

Lemma ack_range_u64 a :
  ack_valid a ->
  Forall is_u64 (seqZ (ack_base_packet_num a) (Z.of_nat (ack_num_packets_consumed a))).
Proof. intros (Hb & _ & Hm). apply Forall_forall. intros n Hn. apply elem_of_seqZ in Hn. int_lia. Qed.

(** An insertion of one number or of several answers, it does not panic. *)
Lemma insert_each_answers w ns :
  wf_window w -> Forall is_u64 ns ->
  fst (insert_each w ns) = Ok tt \/ exists e, fst (insert_each w ns) = Err e.
Proof.
  intros Hwf Hns. revert w Hwf. induction Hns as [|n ns Hn _ IH]; intros w Hwf; simpl; [by left|].
  pose proof (insert_packet_number_spec w n Hwf Hn) as Hs.
  destruct (SlidingWindow_insert_packet_number w n) as [r w']. destruct Hs as (Hr & Hwf' & _).
  unfold insert_verdict in Hr. repeat case_decide; subst r; eauto.
Qed.

Lemma buffer_in_ack_packet_spec src dst ab a :
  wf_window (received_acks ab) -> ack_valid a ->
  exists r, AckBuffer_buffer_in_ack_packet ab (ack_pkt src dst a) =
    (r, with_acks ab (insert_ack (received_acks ab) a)) /\
  (r = Ok tt \/ exists e, r = Err e).
Proof.
  intros Hwf Ha. unfold AckBuffer_buffer_in_ack_packet, insert_ack. cbn [ack_pkt header].
  change (type_specific_payload (ack_header src dst a)) with (u16_wrap (Z.of_nat (ack_num_packets_consumed a))).
  change (packet_number (ack_header src dst a)) with (ack_base_packet_num a).
  rewrite u16_wrap_small by by apply ack_count_u16.
  assert (Hu : is_u64 (ack_base_packet_num a)) by (unfold ack_valid in Ha; int_lia).
  assert (Hm : (ack_base_packet_num a + Z.of_nat (ack_num_packets_consumed a) <= 2 ^ 64)%Z)
    by (unfold ack_valid in Ha; lia).
  rewrite insert_range_spec by (done || by apply ack_count_u16).
  repeat case_decide; [eauto using ack_range_u64..|].
  pose proof (insert_each_answers _ _ Hwf (ack_range_u64 a Ha)) as Hr.
  destruct (insert_each _ _) as [r w']. eauto.
Qed.

Lemma insert_ack_wf w a : wf_window w -> ack_valid a -> wf_window (insert_ack w a).
Proof.
  intros Hwf Ha. apply insert_range_wf; [done| |by apply ack_count_u16|]; unfold ack_valid in Ha; int_lia.
Qed.

Lemma ack_packets_loop_spec src dst g ab diag e :
  wf_window (received_acks ab) -> Forall ack_valid g ->
  exists e' evs, ack_packets_loop ab (map (ack_pkt src dst) g) diag e =
    (Ok e', with_acks ab (foldl insert_ack (received_acks ab) g), evs).
Proof.
  intros Hwf Hg. revert ab e Hwf. induction Hg as [|a g Ha _ IH]; intros ab e Hwf; cbn [map ack_packets_loop].
  - do 2 eexists. by destruct ab.
  - destruct (buffer_in_ack_packet_spec src dst ab a Hwf Ha) as (r & -> & Hr).
    assert (Hwf' : wf_window (received_acks (with_acks ab (insert_ack (received_acks ab) a))))
      by by apply insert_ack_wf.
    destruct Hr as [->|[e0 ->]].
    + destruct (IH _ e Hwf') as (e' & evs & ->). do 2 eexists. reflexivity.
    + destruct (IH _ (Some e0) Hwf') as (e' & evs & ->). do 2 eexists. reflexivity.
Qed.

Lemma ack_pkt_framed src dst a : is_u32 src -> is_u32 dst -> ack_valid a -> framed (ack_pkt src dst a).
Proof.
  intros Hs Hd Ha. pose proof (ack_count_u16 a Ha). unfold ack_valid in Ha.
  unfold framed, wf_header, wf_security, ack_pkt, ack_header. cbn.
  rewrite u16_wrap_small by done. split_and!; try done; int_lia.
Qed.

Lemma ack_dg_into src dst g packets :
  is_u32 src -> is_u32 dst -> g <> [] -> Forall ack_valid g ->
  BluefinPacket_from_bytes_into (ack_dg src dst g) packets =
    (Ok (length (map (ack_pkt src dst) g)), packets ++ map (ack_pkt src dst) g).
Proof.
  intros Hs Hd Hne Hg. apply from_bytes_into_datagram; [by destruct g| |].
  - apply Forall_map. eapply Forall_impl; [exact Hg|]. intros a Ha. by apply ack_pkt_framed.
  - intros p Hp [Ht _]. change (last (ack_pkt src dst <$> g) = Some p) in Hp. rewrite fmap_last in Hp.
    destruct (last g); [|done]. by injection Hp as <-.
Qed.

(** A received ack datagram goes into the window, ack by ack, and changes
    nothing else. *)
Lemma ack_datagram_round env s src dst g :
  is_u32 src -> is_u32 dst -> wf_window (received_acks (ack_buff s)) -> g <> [] -> Forall ack_valid g ->
  exists evs, recv_and_buffer_inline_round env s (ack_dg src dst g) =
    (Some (with_ack_buff s (with_acks (ack_buff s) (foldl insert_ack (received_acks (ack_buff s)) g))), evs).
Proof.
  intros Hs Hd Hwf Hne Hg. unfold recv_and_buffer_inline_round. rewrite ack_dg_into by done.
  cbn [app]. destruct g as [|a g]; [done|].
  destruct (ack_packets_loop_spec src dst (a :: g) (ack_buff s) (env_diag_tx env) None Hwf Hg) as (e & evs & Hl).
  unfold ConnReaderHandler_buffer_in_packets. cbn [map]. cbn [type_field header ack_pkt].
  unfold ConnReaderHandler_buffer_in_ack_packets. cbn [map] in Hl. rewrite Hl. unfold wake_then.
  destruct (take_waker_clone _) as [wk|], e as [err|]; by eexists.
Qed.

(** ** Arrivals and runs of the consumer, interleaved *)

Inductive ack_event : Type :=
  | AckArrives (dg : bytes)
  | ConsumerRuns.

Definition ack_do (env : reader_env) (cx : Waker) (st : ConnShared * Z) (ev : ack_event) :
    option (ConnShared * Z) :=
  let '(s, largest) := st in
  match ev with
  | AckArrives dg =>
      match recv_and_buffer_inline_round env s dg with
      | (Some s', _) => Some (s', largest)
      | (None, _) => None
      end
  | ConsumerRuns =>
      match AckConsumer_run cx (ack_buff s) largest with
      | Ok (ab, largest) => Some (with_ack_buff s ab, largest)
      | _ => None
      end
  end.

Fixpoint ack_history (env : reader_env) (cx : Waker) (st : ConnShared * Z) (evs : list ack_event) :
    option (ConnShared * Z) :=
  match evs with
  | [] => Some st
  | ev :: evs => st ← ack_do env cx st ev; ack_history env cx st evs
  end.

Lemma ack_history_app env cx st evs1 evs2 :
  ack_history env cx st (evs1 ++ evs2) =
    (st ← ack_history env cx st evs1; ack_history env cx st evs2).
Proof.
  revert st. induction evs1 as [|ev evs1 IH]; intros st; [done|]. cbn [app ack_history].
  destruct (ack_do env cx st ev) as [st'|]; [|done]. apply IH.
Qed.

(** The numbers a datagram acknowledges, read off its bytes, and those a
    history has acknowledged. *)
Definition acknowledges (dg : bytes) (n : Z) : Prop :=
  exists p, p ∈ snd (BluefinPacket_from_bytes_into dg []) /\
    (packet_number (header p) <= n < packet_number (header p) + type_specific_payload (header p))%Z.

Definition acked_in (evs : list ack_event) (n : Z) : Prop :=
  exists dg, AckArrives dg ∈ evs /\ acknowledges dg n.

(** The acks of a history made of groups of acks and runs of the consumer. *)
Definition event_of (src dst : Z) (h : option (list AckData)) : ack_event :=
  match h with Some g => AckArrives (ack_dg src dst g) | None => ConsumerRuns end.

Definition acks_of (hs : list (option (list AckData))) : list AckData := concat (omap id hs).

Definition covered (D : list AckData) (n : Z) : Prop := exists a, a ∈ D /\ covers a n.

Lemma covered_app D E n : covered (D ++ E) n <-> covered D n \/ covered E n.
Proof. unfold covered. setoid_rewrite elem_of_app. naive_solver. Qed.

Section Arrivals.
Context (src dst start : Z).
Hypothesis Hsrc : is_u32 src.
Hypothesis Hdst : is_u32 dst.
Hypothesis Hstart : is_u64 start.

Lemma acknowledges_group g n :
  g <> [] -> Forall ack_valid g -> acknowledges (ack_dg src dst g) n <-> covered g n.
Proof using Hsrc Hdst.
  intros Hne Hg. unfold acknowledges, covered, covers.
  rewrite ack_dg_into by done. cbn [snd app].
  rewrite Forall_forall in Hg.
  assert (Hp : forall a, a ∈ g -> type_specific_payload (header (ack_pkt src dst a)) =
    Z.of_nat (ack_num_packets_consumed a)) by (intros a Ha; apply u16_wrap_small, ack_count_u16; auto).
  split.
  - intros (p & Hin & Hn). apply list_elem_of_fmap in Hin as (a & -> & Ha). exists a. split; [done|].
    rewrite Hp in Hn by done. exact Hn.
  - intros (a & Ha & Hn). exists (ack_pkt src dst a). rewrite Hp by done.
    split; [by apply list_elem_of_fmap_2|done].
Qed.

Definition ack_history_ok (h : option (list AckData)) : Prop :=
  match h with Some g => g <> [] /\ Forall ack_valid g | None => True end.

Lemma acked_in_covered hs n :
  Forall ack_history_ok hs -> acked_in (map (event_of src dst) hs) n <-> covered (acks_of hs) n.
Proof using Hsrc Hdst.
  intros Hhs. unfold acked_in. induction Hhs as [|h hs Hh _ IH].
  - split; [intros (dg & Hdg & _)|intros (a & Ha & _)]; by apply not_elem_of_nil in Hdg || apply not_elem_of_nil in Ha.
  - cbn [map]. setoid_rewrite elem_of_cons. destruct h as [g|]; cbn [event_of].
    + destruct Hh as [Hne Hg]. change (acks_of (Some g :: hs)) with (g ++ acks_of hs).
      rewrite covered_app, <- IH, <- acknowledges_group by done. naive_solver.
    + change (acks_of (None :: hs)) with (acks_of hs). rewrite <- IH. naive_solver.
Qed.

(** ** The invariant *)

Definition numbers_below (w : SlidingWindow) (n : Z) : Prop :=
  (start <= n < smallest_expected_packet_number w)%Z \/ n ∈ ordered_packet_numbers w.

(** What the window has taken or holds has been acknowledged by [D], and the
    published number is the end of what it has taken. *)
Record ack_sound (largest0 : Z) (D : list AckData) (st : AckBuffer * Z) : Prop := {
  as_wf : wf_window (received_acks (fst st));
  as_max : below_max (ordered_packet_numbers (received_acks (fst st)));
  as_start : (start <= smallest_expected_packet_number (received_acks (fst st)))%Z;
  as_covered : forall n, numbers_below (received_acks (fst st)) n -> covered D n;
  as_largest :
    if decide (smallest_expected_packet_number (received_acks (fst st)) = start)
    then snd st = largest0
    else (snd st = smallest_expected_packet_number (received_acks (fst st)) - 1)%Z;
}.

Lemma ack_sound_new largest ab :
  received_acks ab = SlidingWindow_new start -> ack_sound largest [] (ab, largest).
Proof using Hstart.
  intros Hw. constructor; cbn [fst snd]; rewrite Hw; cbn.
  - by apply wf_window_new.
  - constructor.
  - lia.
  - intros n [Hn|Hn]; [cbn in Hn; lia|by apply not_elem_of_nil in Hn].
  - by rewrite decide_True.
Qed.

(** What one range changes. *)
Lemma insert_ack_subset w a :
  wf_window w -> ack_valid a ->
  smallest_expected_packet_number (insert_ack w a) = smallest_expected_packet_number w /\
  forall m, m ∈ ordered_packet_numbers (insert_ack w a) -> m ∈ ordered_packet_numbers w \/ covers a m.
Proof.
  intros Hwf Ha. apply insert_range_subset; [done| |by apply ack_count_u16|]; unfold ack_valid in Ha; int_lia.
Qed.

Lemma ack_sound_insert largest0 D ab largest a :
  ack_sound largest0 D (ab, largest) -> ack_valid a ->
  ack_sound largest0 (D ++ [a]) (with_acks ab (insert_ack (received_acks ab) a), largest).
Proof.
  intros [Hwf Hmax Hst Hcov Hl] Ha. cbn [fst snd] in *.
  destruct (insert_ack_subset _ a Hwf Ha) as [Hsm Hsub].
  constructor; cbn [fst snd received_acks with_acks]; rewrite ?Hsm; try done.
  - by apply insert_ack_wf.
  - unfold below_max in *. rewrite Forall_forall in *. intros m Hm.
    apply Hsub in Hm as [Hm|Hm]; [by apply Hmax|]. unfold covers, ack_valid in *. lia.
  - intros n Hn. apply covered_app. unfold numbers_below in *. rewrite Hsm in Hn.
    destruct Hn as [Hn|Hn]; [left; apply Hcov; by left|].
    apply Hsub in Hn as [Hn|Hn]; [left; apply Hcov; by right|right].
    exists a. split; [by apply list_elem_of_singleton|done].
Qed.

Lemma ack_sound_group largest0 g D ab largest :
  ack_sound largest0 D (ab, largest) -> Forall ack_valid g ->
  ack_sound largest0 (D ++ g) (with_acks ab (foldl insert_ack (received_acks ab) g), largest).
Proof.
  intros H Hg. revert D ab H. induction Hg as [|a g Ha _ IH]; intros D ab H; cbn [foldl].
  - rewrite app_nil_r. by destruct ab.
  - replace (D ++ a :: g) with ((D ++ [a]) ++ g) by by rewrite <- app_assoc.
    apply (IH (D ++ [a]) (with_acks ab (insert_ack (received_acks ab) a))). by apply ack_sound_insert.
Qed.

(** A run of the consumer: the window gives up its longest run, which changes
    no number that is below it or in it. *)
Lemma consumer_runs cx ab largest :
  wf_window (received_acks ab) -> below_max (ordered_packet_numbers (received_acks ab)) ->
  (start <= smallest_expected_packet_number (received_acks ab))%Z ->
  exists w' largest', AckConsumer_run cx ab largest = Ok ({| received_acks := w'; ack_waker := Some cx |}, largest') /\
    wf_window w' /\ below_max (ordered_packet_numbers w') /\
    (smallest_expected_packet_number (received_acks ab) <= smallest_expected_packet_number w')%Z /\
    (forall n, numbers_below w' n <-> numbers_below (received_acks ab) n) /\
    (smallest_expected_packet_number w' ∉ ordered_packet_numbers w') /\
    (if decide (smallest_expected_packet_number w' = smallest_expected_packet_number (received_acks ab))
     then largest' = largest else (largest' = smallest_expected_packet_number w' - 1)%Z).
Proof.
  intros Hwf Hmax Hst. pose proof (AckConsumer_run_spec cx ab largest Hwf Hmax) as Hrun.
  pose proof (consume_spec (received_acks ab) Hwf Hmax) as Hc. cbv zeta in Hc.
  destruct (SlidingWindow_consume (received_acks ab)) as [[r|] w'].
  - destruct Hc as (Hle & Hall & Hnin & _ & Hsm & Hel & Hwf').
    exists w', (largest_packet_number r). split; [exact Hrun|]. split_and!; [done| |lia| | |].
    + unfold below_max in *. rewrite Forall_forall in *. intros m Hm. by apply Hmax, Hel.
    + intros n. unfold numbers_below. rewrite Hel, Hsm. split.
      * intros [Hn|[Hn _]]; [|by right].
        destruct (decide (n < smallest_expected_packet_number (received_acks ab))%Z); [left; lia|].
        right. apply Hall. lia.
      * intros [Hn|Hn]; [left; lia|]. destruct (decide (largest_packet_number r < n)%Z); [by right|].
        left. destruct Hwf as (_ & _ & Hin). rewrite Forall_forall in Hin. specialize (Hin n Hn). lia.
    + rewrite Hel, Hsm. intros [? _]. by apply Hnin.
    + rewrite decide_False by lia. lia.
  - destruct Hc as [-> Hnin]. exists (received_acks ab), largest. split; [exact Hrun|].
    split_and!; try done. by rewrite decide_True.
Qed.

Lemma ack_sound_consume largest0 D cx ab largest :
  ack_sound largest0 D (ab, largest) ->
  exists st, AckConsumer_run cx ab largest = Ok st /\ ack_sound largest0 D st /\
    (forall n, numbers_below (received_acks (fst st)) n <-> numbers_below (received_acks ab) n) /\
    smallest_expected_packet_number (received_acks (fst st)) ∉ ordered_packet_numbers (received_acks (fst st)).
Proof.
  intros [Hwf Hmax Hst Hcov Hl]. cbn [fst snd] in *.
  destruct (consumer_runs cx ab largest Hwf Hmax Hst) as (w' & l' & Hrun & Hwf' & Hmax' & Hsm & Hn & Hnin & Hl').
  exists ({| received_acks := w'; ack_waker := Some cx |}, l'). split; [done|].
  split; [constructor; cbn [fst snd received_acks]|by split].
  - done.
  - done.
  - lia.
  - intros n H. by apply Hcov, Hn.
  - repeat case_decide; subst; try done; try lia; try congruence.
Qed.

(** One step of a history. *)
Lemma ack_sound_step largest0 D env cx s largest h :
  ack_sound largest0 D (ack_buff s, largest) -> ack_history_ok h ->
  exists ab' largest', ack_do env cx (s, largest) (event_of src dst h) = Some (with_ack_buff s ab', largest') /\
    ack_sound largest0 (D ++ default [] h) (ab', largest') /\
    match h with
    | Some g => received_acks ab' = foldl insert_ack (received_acks (ack_buff s)) g
    | None => (forall n, numbers_below (received_acks ab') n <-> numbers_below (received_acks (ack_buff s)) n) /\
        smallest_expected_packet_number (received_acks ab') ∉ ordered_packet_numbers (received_acks ab')
    end.
Proof using Hsrc Hdst.
  intros Hs Hh. destruct h as [g|]; cbn [event_of ack_do default].
  - destruct Hh as [Hne Hg].
    destruct (ack_datagram_round env s src dst g Hsrc Hdst (as_wf _ _ _ Hs) Hne Hg) as [evs ->].
    do 2 eexists. split; [done|]. split; [|done]. by apply ack_sound_group.
  - destruct (ack_sound_consume largest0 D cx _ _ Hs) as ([ab' l'] & -> & Hs' & Hn).
    do 2 eexists. split; [done|]. rewrite app_nil_r. by split.
Qed.

Lemma acks_of_cons h hs : acks_of (h :: hs) = default [] h ++ acks_of hs.
Proof. by destruct h. Qed.

Lemma with_ack_buff_twice s ab ab' : with_ack_buff (with_ack_buff s ab) ab' = with_ack_buff s ab'.
Proof. done. Qed.

Lemma with_ack_buff_id s : with_ack_buff s (ack_buff s) = s.
Proof. by destruct s. Qed.

Lemma ack_sound_history largest0 env cx hs D s largest :
  ack_sound largest0 D (ack_buff s, largest) -> Forall ack_history_ok hs ->
  exists ab' largest',
    ack_history env cx (s, largest) (map (event_of src dst) hs) = Some (with_ack_buff s ab', largest') /\
    ack_sound largest0 (D ++ acks_of hs) (ab', largest').
Proof using Hsrc Hdst.
  intros Hs Hhs. revert D s largest Hs. induction Hhs as [|h hs Hh _ IH]; intros D s largest Hs; cbn [map ack_history].
  - exists (ack_buff s), largest. rewrite with_ack_buff_id. split; [done|]. by rewrite app_nil_r.
  - destruct (ack_sound_step largest0 D env cx s largest h Hs Hh) as (ab' & l' & -> & Hs' & _). cbn [mbind option_bind].
    destruct (IH (D ++ default [] h) (with_ack_buff s ab') l' Hs') as (ab2 & l2 & -> & Hs2).
    exists ab2, l2. rewrite with_ack_buff_twice. split; [done|]. by rewrite acks_of_cons, app_assoc.
Qed.

(** ** Nothing is lost of disjoint acks that fit the window *)

Context (A : list AckData).
Hypothesis HA : Forall ack_valid A.
Hypothesis Hfit : Forall (fun a => start <= ack_base_packet_num a /\
  ack_base_packet_num a + Z.of_nat (ack_num_packets_consumed a) <= start + MAX_SLIDING_WINDOW_SIZE)%Z A.
Hypothesis Hdisj : forall a b n, a ∈ A -> b ∈ A -> covers a n -> covers b n -> a = b.

Definition ack_complete (D : list AckData) (w : SlidingWindow) : Prop :=
  forall n, covered D n -> numbers_below w n.

(** Numbers that are not there go in, all of them. *)
Lemma insert_each_fresh ns w :
  wf_window w -> NoDup ns ->
  Forall (fun n => is_u64 n /\ (smallest_expected_packet_number w <= n
                     < smallest_expected_packet_number w + MAX_SLIDING_WINDOW_SIZE)%Z /\
                   n ∉ ordered_packet_numbers w) ns ->
  forall m, m ∈ ordered_packet_numbers (snd (insert_each w ns)) <-> m ∈ ns \/ m ∈ ordered_packet_numbers w.
Proof.
  intros Hwf Hnd. revert w Hwf. induction Hnd as [|n ns Hn Hnd IH]; intros w Hwf Hns m; cbn [insert_each].
  - rewrite elem_of_nil. cbn [snd]. tauto.
  - apply Forall_cons in Hns as [(Hu & Hr & Hnin) Hns].
    pose proof (insert_packet_number_spec w n Hwf Hu) as Hs.
    destruct (SlidingWindow_insert_packet_number w n) as [r w']. destruct Hs as (Hv & Hwf' & Hw).
    unfold insert_verdict in Hv. rewrite decide_False in Hv by (intros [?|?]; [lia|done]).
    rewrite decide_False in Hv by lia. subst r. destruct Hw as [Hsm Hel].
    rewrite IH; [|done|].
    + rewrite Hel, elem_of_cons. tauto.
    + rewrite Forall_forall in Hns |- *. intros k Hk. destruct (Hns k Hk) as (? & ? & ?).
      rewrite Hsm, Hel. split_and!; [done|lia|lia|]. intros [->|?]; done.
Qed.

(** A range that is there is refused as a whole. *)
Lemma insert_ack_again w a :
  wf_window w -> ack_valid a -> numbers_below w (ack_base_packet_num a) -> insert_ack w a = w.
Proof.
  intros Hwf Ha Hn. unfold insert_ack. pose proof (ack_count_u16 a Ha) as Hc. unfold ack_valid in Ha.
  rewrite insert_range_spec; [|done|int_lia|done|lia]. repeat case_decide; try done.
  destruct Hn as [?|Hin]; [lia|]. rewrite seqZ_cons by lia. cbn [insert_each].
  pose proof (insert_packet_number_spec w (ack_base_packet_num a) Hwf ltac:(int_lia)) as Hs.
  destruct (SlidingWindow_insert_packet_number w _) as [r w']. destruct Hs as (Hr & _ & Hw).
  unfold insert_verdict in Hr. rewrite decide_True in Hr by auto. by subst r.
Qed.

Lemma ack_complete_insert largest0 D ab largest a :
  ack_sound largest0 D (ab, largest) -> ack_complete D (received_acks ab) ->
  (forall b, b ∈ D -> b ∈ A) -> a ∈ A ->
  ack_complete (D ++ [a]) (insert_ack (received_acks ab) a).
Proof using HA Hfit Hdisj Hstart.
  intros [Hwf _ Hst Hcov _] Hcomp HD Ha. cbn [fst] in *. set (w := received_acks ab) in *.
  pose proof (proj1 (Forall_forall _ _) HA a Ha) as Hv. pose proof (proj1 (Forall_forall _ _) Hfit a Ha) as Hf.
  cbn beta in Hf. assert (Hsing : forall n, covered [a] n -> covers a n).
  { intros n (b & Hb & Hbn). apply list_elem_of_singleton in Hb as ->. done. }
  intros n Hn. apply covered_app in Hn. destruct (decide (a ∈ D)) as [Hin|Hnin].
  - rewrite insert_ack_again; [|done|done|].
    + apply Hcomp. destruct Hn as [Hn|Hn]; [done|]. exists a. auto.
    + apply Hcomp. exists a. split; [done|]. by apply covers_base.
  - assert (Hfree : forall m, covers a m -> ~ numbers_below w m).
    { intros m Hm Hb. destruct (Hcov m Hb) as (b & Hb' & Hbm). apply Hnin.
      by rewrite (Hdisj a b m Ha (HD b Hb') Hm Hbm). }
    pose proof (Hfree _ (covers_base a Hv)) as Hbase. unfold numbers_below in Hbase.
    destruct (insert_ack_subset w a Hwf Hv) as [Hsm _].
    assert (Hel : forall m, m ∈ ordered_packet_numbers (insert_ack w a) <->
                            covers a m \/ m ∈ ordered_packet_numbers w).
    { intros m. pose proof (ack_count_u16 a Hv). pose proof Hv as (? & ? & ?).
      unfold insert_ack. rewrite insert_range_spec; [|done|int_lia|done|lia].
      rewrite !decide_False by lia. rewrite insert_each_fresh; [|done|apply NoDup_seqZ|].
      - unfold covers. by rewrite elem_of_seqZ.
      - apply Forall_forall. intros k Hk. apply elem_of_seqZ in Hk. specialize (Hfree k Hk).
        unfold numbers_below in Hfree. split_and!; [int_lia|lia|lia|tauto]. }
    unfold numbers_below. rewrite Hsm, Hel.
    destruct Hn as [Hn|Hn]; [|by right; left; apply Hsing].
    destruct (Hcomp n Hn) as [?|?]; auto.
Qed.

Lemma ack_complete_group largest0 g D ab largest :
  ack_sound largest0 D (ab, largest) -> ack_complete D (received_acks ab) ->
  (forall b, b ∈ D -> b ∈ A) -> (forall a, a ∈ g -> a ∈ A) ->
  ack_complete (D ++ g) (foldl insert_ack (received_acks ab) g).
Proof using HA Hfit Hdisj Hstart.
  revert D ab. induction g as [|a g IH]; intros D ab Hs Hc HD Hg; cbn [foldl]; [by rewrite app_nil_r|].
  assert (Ha : a ∈ A) by (apply Hg; left). assert (Hv : ack_valid a) by by apply (proj1 (Forall_forall _ _) HA).
  replace (D ++ a :: g) with ((D ++ [a]) ++ g) by by rewrite <- app_assoc.
  apply (IH (D ++ [a]) (with_acks ab (insert_ack (received_acks ab) a))).
  - by apply ack_sound_insert.
  - by apply (ack_complete_insert largest0 D ab largest).
  - intros b Hb. apply elem_of_app in Hb as [Hb|Hb]; [by apply HD|].
    by apply list_elem_of_singleton in Hb as ->.
  - intros b Hb. apply Hg. by right.
Qed.

Lemma ack_complete_history largest0 env cx hs D s largest :
  ack_sound largest0 D (ack_buff s, largest) -> ack_complete D (received_acks (ack_buff s)) ->
  (forall b, b ∈ D -> b ∈ A) -> (forall g a, Some g ∈ hs -> a ∈ g -> a ∈ A) -> Forall ack_history_ok hs ->
  exists ab' largest',
    ack_history env cx (s, largest) (map (event_of src dst) hs) = Some (with_ack_buff s ab', largest') /\
    ack_sound largest0 (D ++ acks_of hs) (ab', largest') /\ ack_complete (D ++ acks_of hs) (received_acks ab').
Proof using Hsrc Hdst HA Hfit Hdisj Hstart.
  intros Hs Hc HD Hg Hhs. revert D s largest Hs Hc HD.
  induction Hhs as [|h hs Hh _ IH]; intros D s largest Hs Hc HD; cbn [map ack_history].
  - exists (ack_buff s), largest. rewrite with_ack_buff_id, app_nil_r. done.
  - destruct (ack_sound_step largest0 D env cx s largest h Hs Hh) as (ab' & l' & -> & Hs' & Hw). cbn [mbind option_bind].
    destruct (IH ltac:(intros g a Hgh; apply Hg; by right) (D ++ default [] h) (with_ack_buff s ab') l' Hs') as (ab2 & l2 & -> & Hs2 & Hc2).
    + cbn [with_ack_buff ack_buff]. destruct h as [g|]; cbn [default].
      * rewrite Hw. apply (ack_complete_group largest0 g D (ack_buff s) largest); [done..|].
        intros a Ha. apply (Hg g); [by left|done].
      * rewrite app_nil_r. intros n Hn. apply (proj1 Hw). by apply Hc.
    + intros b Hb. apply elem_of_app in Hb as [Hb|Hb]; [by apply HD|]. destruct h as [g|]; [|by apply not_elem_of_nil in Hb].
      apply (Hg g); [by left|done].
    + exists ab2, l2. rewrite with_ack_buff_twice, acks_of_cons, app_assoc. done.
Qed.

(** After a last run of the consumer the published number is the end of the
    longest acknowledged run. *)
Lemma ack_published largest0 env cx hs s :
  received_acks (ack_buff s) = SlidingWindow_new start ->
  (forall g a, Some g ∈ hs -> a ∈ g -> a ∈ A) -> Forall ack_history_ok hs ->
  exists ab' L,
    ack_history env cx (s, largest0) (map (event_of src dst) (hs ++ [None])) = Some (with_ack_buff s ab', L) /\
    if decide (smallest_expected_packet_number (received_acks ab') = start)
    then L = largest0 /\ ~ covered (acks_of hs) start
    else (start <= L)%Z /\ (forall n, start <= n <= L -> covered (acks_of hs) n)%Z /\ ~ covered (acks_of hs) (L + 1)%Z.
Proof using Hsrc Hdst HA Hfit Hdisj Hstart.
  intros Hw Hg Hhs. pose proof (ack_sound_new largest0 (ack_buff s) Hw) as Hs.
  destruct (ack_complete_history largest0 env cx hs [] s largest0 Hs) as (ab & L & Hrun & Hs1 & Hc1);
    [|intros b Hb; by apply not_elem_of_nil in Hb|done|done|].
  { intros n (a & Ha & _). by apply not_elem_of_nil in Ha. }
  destruct (ack_sound_step largest0 _ env cx (with_ack_buff s ab) L None Hs1 I) as (ab' & L' & Hstep & Hs2 & Hn & Hnin).
  rewrite map_app, ack_history_app, Hrun. cbn [mbind option_bind map ack_history]. rewrite Hstep. cbn [mbind option_bind].
  exists ab', L'. rewrite with_ack_buff_twice. split; [done|].
  destruct Hs2 as [_ _ Hst Hcov Hl]. cbn [fst snd default] in *. rewrite app_nil_r in Hcov. cbn [app] in *.
  assert (Hend : ~ covered (acks_of hs) (smallest_expected_packet_number (received_acks ab'))).
  { intros Hx. apply Hc1, Hn in Hx as [?|?]; [lia|done]. }
  case_decide as Hsm; [split; [done|by rewrite Hsm in Hend]|]. subst L'. split_and!; [lia| |].
  - intros n Hr. apply Hcov. left. lia.
  - by replace (_ - 1 + 1)%Z with (smallest_expected_packet_number (received_acks ab')) by lia.
Qed.

End Arrivals.

(** Datagrams of a list of groups, as a history. *)
Lemma history_of_groups src dst (P : list AckData -> Prop) evs :
  (forall dg, AckArrives dg ∈ evs -> exists g, P g /\ dg = ack_dg src dst g) ->
  exists hs, evs = map (event_of src dst) hs /\ forall g, Some g ∈ hs -> P g.
Proof.
  induction evs as [|ev evs IH]; intros H; [exists []; split; [done|]; intros g Hg; by apply not_elem_of_nil in Hg|].
  destruct IH as (hs & -> & Hhs); [intros dg Hdg; apply H; by right|]. destruct ev as [dg|].
  - destruct (H dg) as (g & Hg & ->); [by left|]. exists (Some g :: hs). split; [done|].
    intros g' Hg'. apply elem_of_cons in Hg' as [[= ->]|Hg']; auto.
  - exists (None :: hs). split; [done|]. intros g Hg. apply elem_of_cons in Hg as [?|Hg]; [done|auto].
Qed.

(** ** Properties *)

(** The ack task.  Over every sequence of rounds, whatever the channel gives
    and the socket refuses, it does not fail; each datagram it has sent holds
    at least one ack and no more than fit, and the acks sent, those of the
    datagram the socket refused and those queued are, in this order, exactly
    the acks taken from the channel. *)
Theorem ack_task_in_order src dst rounds :
  exists l groups pend,
    read_ack src dst ack_loop_init rounds = Ok l /\
    al_wire l = map (ack_dg src dst) groups /\ at_pending (al_task l) = ack_dg src dst <$> pend /\
    concat groups ++ default [] pend ++ at_queue (al_task l) = al_taken l /\
    Forall (fun g => g <> [] /\ length (ack_dg src dst g) <= MAX_BLUEFIN_BYTES_IN_UDP_DATAGRAM) groups.
Proof.
  destruct (read_ack_ok src dst rounds ack_loop_init []) as (l & groups & Hrun & pend & Hw & Hp & Ht & Hg).
  { by exists None. }
  exists l, groups, pend. split_and!; try done. apply Forall_app in Hg as [Hg _].
  eapply Forall_impl; [exact Hg|]. intros g [Hne Hlen]. split; [done|].
  rewrite ack_dg_length. unfold acks_fitting in Hlen.
  pose proof (Nat.div_mod_eq (MAX_BLUEFIN_BYTES_IN_UDP_DATAGRAM - 0) 20). lia.
Qed.

(** A datagram of valid acks. *)
Definition ack_datagram (src dst : Z) (dg : bytes) : Prop :=
  exists g, (g <> [] /\ Forall ack_valid g) /\ dg = ack_dg src dst g.

(** Two acks with a gap between them, sent in a datagram each. *)
Definition ack_lo : AckData := {| ack_base_packet_num := 5; ack_num_packets_consumed := 2 |}.
Definition ack_hi : AckData := {| ack_base_packet_num := 9; ack_num_packets_consumed := 3 |}.

Definition two_rounds : list ack_round :=
  [{| kr_retry := false; kr_batch := [ack_lo]; kr_takes := fun _ => true |};
   {| kr_retry := false; kr_batch := [ack_hi]; kr_takes := fun _ => true |}].

Definition ack_loop_two : ack_loop :=
  {| al_task := {| at_queue := []; at_pending := None |};
     al_wire := [ack_dg 1 2 [ack_lo]; ack_dg 1 2 [ack_hi]]; al_taken := [ack_lo; ack_hi] |}.

(** They arrive the wrong way round, with the consumer in between. *)
Definition two_arrivals : list ack_event :=
  [AckArrives (ack_dg 1 2 [ack_hi]); ConsumerRuns; AckArrives (ack_dg 1 2 [ack_lo])].

Definition expects_five : ConnShared := ConnShared_new 1 Client 5.

Lemma two_arrivals_sent dg : AckArrives dg ∈ two_arrivals -> dg ∈ al_wire ack_loop_two.
Proof.
  unfold two_arrivals. rewrite !elem_of_cons, elem_of_nil. intros [[= ->]|[?|[[= ->]|[]]]]; [|done|].
  - right. left.
  - left.
Qed.

Lemma two_acks_valid : Forall ack_valid [ack_lo; ack_hi].
Proof. repeat constructor; cbn; lia. Qed.

(** No packet is taken for acknowledged that was not.  Let any datagrams of
    acks arrive, with ranges that overlap, repeat or leave gaps, in any order,
    and the consumer run in between.  The receive task and the consumer go on,
    nothing but the acknowledgement buffer changes, and every number from the
    first one up to the published one is acknowledged by a datagram that
    arrived. *)
Theorem published_was_acked src dst start env cx s largest evs :
  is_u32 src -> is_u32 dst -> is_u64 start -> received_acks (ack_buff s) = SlidingWindow_new start ->
  (forall dg, AckArrives dg ∈ evs -> ack_datagram src dst dg) ->
  exists ab' L, ack_history env cx (s, largest) evs = Some (with_ack_buff s ab', L) /\
    (L = largest \/ (forall n, start <= n <= L -> acked_in evs n)%Z).
Proof.
  intros Hsrc Hdst Hst Hw Hev.
  destruct (history_of_groups src dst (fun g => g <> [] /\ Forall ack_valid g) evs Hev) as (hs & -> & Hhs).
  assert (Hok : Forall ack_history_ok hs).
  { apply Forall_forall. intros [g|] Hh; [|done]. by apply Hhs. }
  destruct (ack_sound_history src dst start Hsrc Hdst largest env cx hs [] s largest) as (ab' & L & Hrun & Hs);
    [by apply ack_sound_new|done|].
  exists ab', L. split; [done|]. destruct Hs as [_ _ _ Hcov Hl]. cbn [fst snd] in *.
  case_decide; [by left|]. right. intros n Hn. apply acked_in_covered; [done..|]. apply Hcov. left. lia.
Qed.

Lemma published_was_acked_witness :
  exists ab' L,
    ack_history sample_env 3 (expects_five, 4%Z) two_arrivals = Some (with_ack_buff expects_five ab', L) /\
    (L = 4 \/ (forall n, 5 <= n <= L -> acked_in two_arrivals n))%Z.
Proof.
  apply (published_was_acked 1 2 5 sample_env 3 expects_five 4 two_arrivals); [int_lia..|reflexivity|].
  intros dg Hdg. apply two_arrivals_sent in Hdg. pose proof two_acks_valid as Hv.
  apply Forall_cons in Hv as [Hlo Hhi]. cbn [al_wire ack_loop_two] in Hdg.
  rewrite !elem_of_cons, elem_of_nil in Hdg. destruct Hdg as [->|[->|[]]].
  - exists [ack_lo]. split; [by split; [|constructor; [|constructor]]|done].
  - exists [ack_hi]. by split.
Defined.

(** C21: acknowledgements from one end to the other.  Let the acks the ack task
    has taken cover disjoint ranges within the window that starts at the number
    the sender expects.  However the task's rounds went, and whatever part of
    the datagrams it sent arrives, in any order and any number of times, with
    the consumer running in between: after a last run of it the published
    number is the end of the longest run of numbers acknowledged by what
    arrived, or the number before, when the first one is missing. *)
Theorem acks_published src dst start rounds l env cx s largest evs :
  is_u32 src -> is_u32 dst -> is_u64 start -> received_acks (ack_buff s) = SlidingWindow_new start ->
  read_ack src dst ack_loop_init rounds = Ok l -> Forall ack_valid (al_taken l) ->
  Forall (fun a => start <= ack_base_packet_num a /\
    ack_base_packet_num a + Z.of_nat (ack_num_packets_consumed a) <= start + MAX_SLIDING_WINDOW_SIZE)%Z (al_taken l) ->
  (forall a b n, a ∈ al_taken l -> b ∈ al_taken l -> covers a n -> covers b n -> a = b) ->
  (forall dg, AckArrives dg ∈ evs -> dg ∈ al_wire l) ->
  exists ab' L, ack_history env cx (s, largest) (evs ++ [ConsumerRuns]) = Some (with_ack_buff s ab', L) /\
    ((L = largest /\ ~ acked_in evs start) \/
     ((start <= L)%Z /\ (forall n, start <= n <= L -> acked_in evs n)%Z /\ ~ acked_in evs (L + 1)%Z)).
Proof.
  intros Hsrc Hdst Hst Hw Hrun HA Hfit Hdisj Hev.
  destruct (read_ack_ok src dst rounds ack_loop_init []) as (l' & groups & Hrun' & pend & Hwire & _ & Ht & Hg);
    [by exists None|]. rewrite Hrun in Hrun'. injection Hrun' as <-. apply Forall_app in Hg as [Hg _].
  assert (Htaken : forall g a, g ∈ groups -> a ∈ g -> a ∈ al_taken l).
  { intros g a Hgr Ha. rewrite <- Ht. apply elem_of_app. left. apply list_elem_of_In, in_concat.
    exists g. split; by apply list_elem_of_In. }
  destruct (history_of_groups src dst (fun g => g ∈ groups) evs) as (hs & -> & Hhs).
  { intros dg Hdg. apply Hev in Hdg. rewrite Hwire in Hdg. apply list_elem_of_fmap in Hdg as (g & -> & ?). eauto. }
  assert (Hok : Forall ack_history_ok hs).
  { apply Forall_forall. intros [g|] Hh; [|done]. apply Hhs in Hh. split.
    - by apply (proj1 (Forall_forall _ _) Hg).
    - apply Forall_forall. intros a Ha. apply (proj1 (Forall_forall _ _) HA). by apply (Htaken g). }
  destruct (ack_published src dst start Hsrc Hdst Hst (al_taken l) HA Hfit Hdisj largest env cx hs s Hw)
    as (ab' & L & Hhist & Hres); [eauto|done|].
  exists ab', L. rewrite map_app in Hhist. split; [exact Hhist|].
  assert (Hiff := fun n => acked_in_covered src dst Hsrc Hdst hs n Hok).
  case_decide; [left|right]; rewrite Hiff; [done|]. setoid_rewrite Hiff. done.
Qed.

Lemma acks_published_witness :
  exists ab' L,
    ack_history sample_env 3 (expects_five, 4%Z) (two_arrivals ++ [ConsumerRuns]) =
      Some (with_ack_buff expects_five ab', L) /\
    ((L = 4 /\ ~ acked_in two_arrivals 5) \/
     (5 <= L /\ (forall n, 5 <= n <= L -> acked_in two_arrivals n) /\ ~ acked_in two_arrivals (L + 1)))%Z.
Proof.
  apply (acks_published 1 2 5 two_rounds ack_loop_two sample_env 3 expects_five 4 two_arrivals);
    [int_lia..|reflexivity|vm_compute; reflexivity|exact two_acks_valid| | |exact two_arrivals_sent].
  - repeat constructor; cbn; unfold MAX_SLIDING_WINDOW_SIZE; lia.
  - intros a b n. cbn [al_taken ack_loop_two]. rewrite !elem_of_cons, !elem_of_nil. unfold covers.
    intros [->|[->|[]]] [->|[->|[]]]; [done|..|done]; cbn; intros; exfalso; lia.
Defined.

(** The published number there: 6, the last one before the gap. *)
Example two_arrivals_publish :
  snd <$> ack_history sample_env 3 (expects_five, 4%Z) (two_arrivals ++ [ConsumerRuns]) = Some 6%Z.
Proof. vm_compute. reflexivity. Qed.
