(* ===== verification/AckPolicy.v ===== *)
(** * Which packets are acknowledged

    A reading application and the acks its reads send
    (src/bluefin/src/worker/reader.rs, [ReaderRxChannel::read] and
    [read_bytes]), over any arrivals, against the acknowledgement window at the
    other end.  An ack covers the packets of the read that sends it and no
    others. *)
From stdpp Require Import base numbers list option strings.
From S2P Require Import Prelude Proto Header Packet Window OrderedBytes Close Buffers Net ConnReader Packetiser Writer Reader Acks.

(** ** Reads and arrivals *)

(** [rs_acked] are the acks handed to the ack task, [rs_silent] the packets
    released by the reads that sent none, both as ranges. *)
Record rx_state : Type := {
  rs_rx : ReaderRxChannel;
  rs_conn : ConnectionBuffer;
  rs_acked : list AckData;
  rs_silent : list AckData;
}.

Inductive rx_op : Type :=
  | RxArrive (p : BluefinPacket)
  | RxRead (fin : bool) (len : nat)
  | RxReadBytes (fin : bool) (max_packets : nat).

(** The packets between two states of the buffer. *)
Definition released (cb cb' : ConnectionBuffer) : AckData :=
  {| ack_base_packet_num := smallest_packet_number (ordered_bytes cb);
     ack_num_packets_consumed :=
       Z.to_nat (smallest_packet_number (ordered_bytes cb') - smallest_packet_number (ordered_bytes cb)) |}.

Definition rx_after {A : Type} (st : rx_state) (o : read_outcome A) : rx_state :=
  {| rs_rx := ro_rx o; rs_conn := ro_conn o; rs_acked := rs_acked st ++ option_list (ro_ack o);
     rs_silent := rs_silent st ++ match ro_ack o with Some _ => [] | None => [released (rs_conn st) (ro_conn o)] end |}.

(** [None]: the read panicked. *)
Definition rx_step (w : WriterHandler) (st : rx_state) (op : rx_op) : option rx_state :=
  match op with
  | RxArrive p =>
      Some {| rs_rx := rs_rx st; rs_conn := snd (ConnectionBuffer_buffer_in_bytes (rs_conn st) p);
              rs_acked := rs_acked st; rs_silent := rs_silent st |}
  | RxRead fin len =>
      match ReaderRxChannel_read (rs_rx st) w true (rs_conn st) fin len (replicate len 0%Z) with
      | Ok o => Some (rx_after st o)
      | _ => None
      end
  | RxReadBytes fin max_packets =>
      match ReaderRxChannel_read_bytes (rs_rx st) w true (rs_conn st) fin [] max_packets with
      | Ok o => Some (rx_after st o)
      | _ => None
      end
  end.

Fixpoint rx_run (w : WriterHandler) (st : rx_state) (ops : list rx_op) : option rx_state :=
  match ops with
  | [] => Some st
  | op :: ops => st ← rx_step w st op; rx_run w st ops
  end.

Definition rx_start (cb : ConnectionBuffer) : rx_state :=
  {| rs_rx := ReaderRxChannel_new false; rs_conn := cb; rs_acked := []; rs_silent := [] |}.

(** Packets whose number has a successor. *)
Definition op_numbered (op : rx_op) : Prop :=
  match op with RxArrive p => (0 <= packet_number (header p) < 2 ^ 64 - 1)%Z | _ => True end.

(** ** One read *)

(** What a read has released and what it has sent. *)
Definition read_released {A : Type} (cb : ConnectionBuffer) (o : read_outcome A) : Prop :=
  exists bs k, drained_conn cb (ro_conn o) bs k /\
    forall a, ro_ack o = Some a ->
      a = {| ack_base_packet_num := smallest_packet_number (ordered_bytes cb); ack_num_packets_consumed := k |} /\ 0 < k.

Lemma after_consume_released {A : Type} rx w cb cb' (out : A) bs k b n addr :
  drained_conn cb cb' bs k -> (0 < k -> b = smallest_packet_number (ordered_bytes cb)) ->
  read_released cb (after_consume rx w true cb' out
    {| num_packets_consumed := k; base_packet_number := b; bytes_consumed := n |} addr).
Proof.
  intros Hd Hb. exists bs, k. rewrite after_consume_conn. split; [done|]. intros [base count] Ha.
  apply after_consume_ack in Ha as (Hk & Hc & Hbase). cbn in *. split; [|done]. by rewrite Hc, Hbase, Hb.
Qed.

Lemma read_released_ok rx w cb fin addr len o :
  wf_ob (ordered_bytes cb) -> cb_addr cb = Some addr ->
  ReaderRxChannel_read rx w true cb fin len (replicate len 0%Z) = Ok o -> read_released cb o.
Proof.
  intros Hwf Ha Hread. pose proof (read_spec rx w true cb fin addr len (replicate len 0%Z) Hwf Ha) as H.
  rewrite length_replicate in H. specialize (H (le_n _)). cbv zeta in H. case_decide; [|case_decide].
  - rewrite Hread in H. injection H as ->. exists [], 0. split; [by apply drained_conn_none|done].
  - congruence.
  - destruct H as (cb' & k & b & Hd & Hb & H). rewrite Hread in H. injection H as ->.
    by eapply after_consume_released.
Qed.

Lemma read_bytes_released_ok rx w cb fin addr maxp o :
  wf_ob (ordered_bytes cb) -> cb_addr cb = Some addr ->
  ReaderRxChannel_read_bytes rx w true cb fin [] maxp = Ok o -> read_released cb o.
Proof.
  intros Hwf Ha. unfold ReaderRxChannel_read_bytes. rewrite (eof_addr_spec cb fin addr Hwf Ha).
  case_decide; [intros [= <-]; exists [], 0; split; [by apply drained_conn_none|done]|].
  unfold ConnectionBuffer_consume_bytes. rewrite Ha.
  destruct (consume_bytes_ok (ordered_bytes cb) [] maxp Hwf) as (r & ob' & k & b & -> & Hd & _ & Hb & ->).
  cbn [outcome_bind app]. case_decide; cbn [outcome_bind]; intros [= <-].
  - exists (concat (pushed (ordered_bytes cb) maxp)), k. split; [by split|done].
  - eapply after_consume_released; [by split|done].
Qed.

(** ** The invariant *)

Definition range_end (a : AckData) : Z := (ack_base_packet_num a + Z.of_nat (ack_num_packets_consumed a))%Z.

Definition packets_in (l : list AckData) : nat := sum_list_with ack_num_packets_consumed l.

Lemma packets_in_app l1 l2 : packets_in (l1 ++ l2) = packets_in l1 + packets_in l2.
Proof. apply sum_list_with_app. Qed.

(** Everything below the reader's place in the stream was acked or silent. *)
Record rx_inv (start : Z) (st : rx_state) : Prop := {
  ri_wf : wf_ob (ordered_bytes (rs_conn st));
  ri_addr : is_Some (cb_addr (rs_conn st));
  ri_below : Forall (fun a => start <= ack_base_packet_num a /\
               range_end a <= smallest_packet_number (ordered_bytes (rs_conn st)))%Z (rs_acked st ++ rs_silent st);
  ri_valid : Forall ack_valid (rs_acked st);
  ri_apart : forall a b, a ∈ rs_acked st -> b ∈ rs_silent st ->
               (range_end a <= ack_base_packet_num b \/ range_end b <= ack_base_packet_num a)%Z;
  ri_all : smallest_packet_number (ordered_bytes (rs_conn st)) =
             (start + Z.of_nat (packets_in (rs_acked st) + packets_in (rs_silent st)))%Z;
}.

Lemma rx_inv_start start cid addr cb :
  is_u64 start -> ordered_bytes cb = OrderedBytes_new cid start -> cb_addr cb = Some addr -> rx_inv start (rx_start cb).
Proof.
  intros Hs Hob Ha. split; cbn [rx_start rs_conn rs_acked rs_silent app]; rewrite ?Hob, ?Ha; [by apply wf_ob_new|done|constructor|constructor| |cbn; lia].
  intros a b H. by apply not_elem_of_nil in H.
Qed.

Lemma rx_inv_arrive start w st p st' :
  rx_inv start st -> op_numbered (RxArrive p) -> rx_step w st (RxArrive p) = Some st' -> rx_inv start st'.
Proof.
  intros [] Hp. cbn [rx_step]. intros [= <-].
  pose proof (buffer_in_packet_spec (ordered_bytes (rs_conn st)) ri_wf0 p Hp) as Hs.
  unfold ConnectionBuffer_buffer_in_bytes. destruct (OrderedBytes_buffer_in_packet _ p) as [r ob']. destruct Hs as [Hwf Hv].
  assert (Hsm : smallest_packet_number ob' = smallest_packet_number (ordered_bytes (rs_conn st))).
  { destruct (buffer_verdict _ _); [|destruct Hv as [_ ->]; done|done..]. by destruct Hv as (_ & _ & _ & _ & _ & ? & _). }
  split; cbn [rs_conn rs_acked rs_silent snd with_ordered_bytes ordered_bytes cb_addr]; rewrite ?Hsm; done.
Qed.

Lemma rx_inv_read start st {A : Type} (o : read_outcome A) :
  rx_inv start st -> read_released (rs_conn st) o -> rx_inv start (rx_after st o).
Proof.
  intros [] (bs & k & [Hd Hcb] & Hack). pose proof (dl_smallest _ _ _ _ Hd) as Hsm.
  pose proof (dl_wf _ _ _ _ Hd) as Hwf. pose proof (wf_smallest _ Hwf) as Hu. pose proof (wf_smallest _ ri_wf0) as Hu0.
  pose proof (dl_count _ _ _ _ Hd) as Hc. pose proof (length_ready (slots (ordered_bytes (rs_conn st)))) as Hl.
  rewrite (length_slots _ ri_wf0) in Hl. unfold MAX_BUFFER_SIZE in Hl.
  assert (Hbase : (start <= smallest_packet_number (ordered_bytes (rs_conn st)))%Z) by lia.
  assert (Hrel : released (rs_conn st) (ro_conn o) =
    {| ack_base_packet_num := smallest_packet_number (ordered_bytes (rs_conn st)); ack_num_packets_consumed := k |}).
  { unfold released. rewrite Hsm. f_equal. lia. }
  assert (Hbelow : Forall (fun a => start <= ack_base_packet_num a /\
    range_end a <= smallest_packet_number (ordered_bytes (ro_conn o)))%Z (rs_acked st ++ rs_silent st)).
  { eapply Forall_impl; [exact ri_below0|]. cbn. intros a. lia. }
  assert (Hnew : forall a, a ∈ rs_acked st ++ rs_silent st ->
    (range_end a <= smallest_packet_number (ordered_bytes (rs_conn st)))%Z).
  { intros a Ha. by apply (proj1 (Forall_forall _ _) ri_below0 a Ha). }
  unfold rx_after. destruct (ro_ack o) as [a|].
  - destruct (Hack a eq_refl) as [-> Hk]. set (a := {| ack_base_packet_num := _; ack_num_packets_consumed := k |}).
    split; cbn [rs_conn rs_acked rs_silent option_list]; rewrite ?app_nil_r; [done|by rewrite Hcb| | | |].
    + apply Forall_app in Hbelow as [H1 H2]. apply Forall_app. split; [apply Forall_app; split; [done|]|done].
      apply Forall_singleton. unfold a, range_end. cbn. lia.
    + apply Forall_app. split; [done|]. apply Forall_singleton. unfold a, ack_valid. cbn. int_lia.
    + intros x b Hx Hb. apply elem_of_app in Hx as [Hx|Hx]; [by apply ri_apart0|].
      apply list_elem_of_singleton in Hx as ->. right. unfold a. cbn. apply Hnew, elem_of_app. by right.
    + rewrite packets_in_app. unfold a. cbn. lia.
  - rewrite Hrel. set (a := {| ack_base_packet_num := _; ack_num_packets_consumed := k |}).
    split; cbn [rs_conn rs_acked rs_silent option_list]; rewrite ?app_nil_r; [done|by rewrite Hcb| |done| |].
    + rewrite app_assoc. apply Forall_app. split; [done|]. apply Forall_singleton. unfold a, range_end. cbn. lia.
    + intros x b Hx Hb. apply elem_of_app in Hb as [Hb|Hb]; [by apply ri_apart0|].
      apply list_elem_of_singleton in Hb as ->. left. unfold a. cbn. apply Hnew, elem_of_app. by left.
    + rewrite packets_in_app. unfold a. cbn. lia.
Qed.

Lemma rx_inv_run start w ops st st' :
  rx_inv start st -> Forall op_numbered ops -> rx_run w st ops = Some st' -> rx_inv start st'.
Proof.
  intros Hi Hops. revert st Hi. induction Hops as [|op ops Hop _ IH]; intros st Hi; cbn [rx_run]; [by intros [= <-]|].
  destruct (rx_step w st op) as [st1|] eqn:Hs; [|done]. cbn [mbind option_bind]. apply IH.
  destruct op as [p|fin len|fin maxp]; [by eapply rx_inv_arrive| |]; cbn [rx_step] in Hs; pose proof Hi as [? [addr Ha] _ _ _ _].
  - destruct (ReaderRxChannel_read _ _ _ _ _ _ _) as [o| | |] eqn:Ho; try done. injection Hs as <-.
    by eapply rx_inv_read, read_released_ok.
  - destruct (ReaderRxChannel_read_bytes _ _ _ _ _ _ _) as [o| | |] eqn:Ho; try done. injection Hs as <-.
    by eapply rx_inv_read, read_bytes_released_ok.
Qed.

(** ** Properties *)

(** C34: acknowledgements have holes.  Whatever packets arrive and however an
    application reads them, by either call, every packet that a read released
    is in the ack of that read or, when that read sent none, in no ack at all.
    So let any of the acks arrive at the sender, in any order and any number of
    times, and its consumer run in between: the number it publishes stays below
    every packet that was released by a read without an ack, for ever. *)
Theorem silent_reads_unacknowledged w start cid addr cb ops st src dst env cx s largest hs :
  is_u64 start -> ordered_bytes cb = OrderedBytes_new cid start -> cb_addr cb = Some addr ->
  Forall op_numbered ops -> rx_run w (rx_start cb) ops = Some st ->
  is_u32 src -> is_u32 dst -> received_acks (ack_buff s) = SlidingWindow_new start ->
  Forall (fun h => match h with Some g => g <> [] /\ g ⊆ rs_acked st | None => True end) hs ->
  smallest_packet_number (ordered_bytes (rs_conn st)) =
    (start + Z.of_nat (packets_in (rs_acked st) + packets_in (rs_silent st)))%Z /\
  (forall a b n, a ∈ rs_acked st -> b ∈ rs_silent st -> covers a n -> covers b n -> False) /\
  exists ab' L, ack_history env cx (s, largest) (map (event_of src dst) hs) = Some (with_ack_buff s ab', L) /\
    forall b n, b ∈ rs_silent st -> covers b n ->
      (smallest_expected_packet_number (received_acks ab') <= n)%Z /\ (L = largest \/ (L < n)%Z).
Proof.
  intros Hst Hob Ha Hops Hrun Hsrc Hdst Hw Hhs.
  pose proof (rx_inv_run start w ops _ _ (rx_inv_start start cid addr cb Hst Hob Ha) Hops Hrun) as [].
  assert (Hdisj : forall a b n, a ∈ rs_acked st -> b ∈ rs_silent st -> covers a n -> covers b n -> False).
  { intros a b n Hx Hy. pose proof (ri_apart0 a b Hx Hy). unfold covers, range_end in *. lia. }
  split_and!; [done|done|].
  destruct (ack_sound_history src dst start Hsrc Hdst largest env cx hs [] s largest) as (ab' & L & Hh & Hs);
    [by apply ack_sound_new| |].
  { eapply Forall_impl; [exact Hhs|]. intros [g|]; [|done]. intros [Hg Hsub]. split; [done|].
    apply Forall_forall. intros a Hin. apply (proj1 (Forall_forall _ _) ri_valid0), Hsub, Hin. }
  exists ab', L. split; [done|]. intros b n Hb Hn. destruct Hs as [_ _ _ Hcov Hl]. cbn [fst snd] in *.
  assert (Hsm : (smallest_expected_packet_number (received_acks ab') <= n)%Z).
  { destruct (Z.le_gt_cases (smallest_expected_packet_number (received_acks ab')) n) as [|Hgt]; [done|exfalso].
    destruct (Hcov n) as (a & Hin & Hc).
    - left. pose proof (proj1 (Forall_forall _ _) ri_below0 b ltac:(apply elem_of_app; by right)) as Hlow.
      cbn in Hlow. unfold covers in Hn. lia.
    - apply (Hdisj a b n); [|done..]. unfold acks_of in Hin. apply list_elem_of_In, in_concat in Hin as (g & Hg & Hin).
      apply list_elem_of_In, list_elem_of_omap in Hg as (h & Hh' & Heq). cbn in Heq. subst h.
      pose proof (proj1 (Forall_forall _ _) Hhs _ Hh') as [_ Hsub]. by apply Hsub, list_elem_of_In. }
  split; [done|]. case_decide; [by left|]. right. lia.
Qed.

(** Two packets of a byte each come and are read one at a time: no ack. *)
Definition silent_reads : list rx_op :=
  [RxArrive (sample_data_packet 100 [1%Z]); RxRead false 5; RxArrive (sample_data_packet 101 [2%Z]); RxReadBytes false 5].

Lemma silent_reads_unacknowledged_witness :
  exists st, rx_run sample_writer (rx_start (with_ordered_bytes sample_conn (OrderedBytes_new 1 100))) silent_reads = Some st /\
    packets_in (rs_silent st) = 2 /\
    exists ab' L, ack_history sample_env 3 (ConnShared_new 1 Client 100, 99%Z) (map (event_of 1 2) [None]) =
        Some (with_ack_buff (ConnShared_new 1 Client 100) ab', L) /\
      forall b n, b ∈ rs_silent st -> covers b n ->
        (smallest_expected_packet_number (received_acks ab') <= n)%Z /\ (L = 99 \/ L < n)%Z.
Proof.
  destruct (rx_run sample_writer (rx_start (with_ordered_bytes sample_conn (OrderedBytes_new 1 100))) silent_reads)
    as [st|] eqn:Hrun; [|vm_compute in Hrun; discriminate].
  exists st. split; [reflexivity|].
  split; [vm_compute in Hrun; injection Hrun as <-; reflexivity|].
  refine (proj2 (proj2 (silent_reads_unacknowledged sample_writer 100 1 (7, 8)%Z _ silent_reads st 1 2 sample_env 3
    (ConnShared_new 1 Client 100) 99 [None] _ _ _ _ Hrun _ _ _ _)));
    [int_lia|reflexivity|reflexivity|repeat constructor; cbn; lia|int_lia|int_lia|reflexivity|repeat constructor].
Defined.
