(* ===== verification/Recycle.v ===== *)
(** * The recycled datagram buffers of the writer

    [read_data] (src/bluefin/src/worker/writer.rs) packs its datagrams into a
    pool of twelve vectors, hands each full one to the sender task and takes a
    replacement from a channel through which the sender gives emptied vectors
    back.  Writer.v treats a datagram as a value; here the vectors themselves
    are in the state.  The system with the vectors does exactly what the one
    without does: no byte of an earlier datagram is sent again.  And no vector
    ever grows, so that none is reallocated. *)
From stdpp Require Import base numbers list option strings.
From S2P Require Import Prelude Proto Header Packet Window OrderedBytes Close Buffers Net Packetiser Writer.

Definition RECYCLE_CAPACITY : nat := 16.

(** A [Vec<u8>]. *)
Record buffer : Type := { buf_bytes : bytes; buf_capacity : nat }.

Definition buffer_new : buffer := {| buf_bytes := []; buf_capacity := MAX_BLUEFIN_BYTES_IN_UDP_DATAGRAM |}.

Definition buffer_clear (b : buffer) : buffer := {| buf_bytes := []; buf_capacity := buf_capacity b |}.

(** Its contents after bytes were appended; it grows when they do not fit. *)
Definition buffer_filled (b : buffer) (contents : bytes) : buffer :=
  {| buf_bytes := contents; buf_capacity := Nat.max (buf_capacity b) (length contents) |}.

(** The writer without its channel of datagrams, that channel, the pool, the
    channel back, and how many vectors were made beside the pool and dropped. *)
Record recycled : Type := {
  rc_rest : WriterSystem;
  rc_sending : list (buffer * nat);
  rc_pool : list buffer;
  rc_recycle : list buffer;
  rc_fresh : nat;
  rc_dropped : nat;
}.

Definition recycled_init (pn src dst : Z) : recycled :=
  {| rc_rest := writer_init pn src dst; rc_sending := []; rc_pool := replicate DATAGRAMS_PER_ROUND buffer_new;
     rc_recycle := []; rc_fresh := 0; rc_dropped := 0 |}.

Definition with_rest (r : recycled) (s : WriterSystem) : recycled :=
  {| rc_rest := s; rc_sending := rc_sending r; rc_pool := rc_pool r; rc_recycle := rc_recycle r;
     rc_fresh := rc_fresh r; rc_dropped := rc_dropped r |}.

Definition with_sending (s : WriterSystem) (l : list (bytes * nat)) : WriterSystem :=
  {| ws_handle := ws_handle s; ws_channel := ws_channel s; ws_phase := ws_phase s; ws_queue := ws_queue s;
     ws_next := ws_next s; ws_sending := l; ws_wire := ws_wire s; ws_events := ws_events s |}.

(** [recycle_rx.try_recv().unwrap_or_else(..)]: the vector, the rest of the
    channel and how many were made. *)
Definition replacement (recycle : list buffer) : buffer * list buffer * nat :=
  match recycle with
  | b :: recycle => (b, recycle, 0)
  | [] => (buffer_new, [], 1)
  end.

(** One round of [for i in 0..12].  A pool without slot [i] panics. *)
Definition recycled_pack (r : recycled) (i : nat) : outcome unit recycled :=
  let s := rc_rest r in
  match rc_pool r !! i with
  | None => Panic
  | Some b =>
      let b := buffer_clear b in
      match WriterHandler_consume_data_into (wh_src_conn_id (ws_handle s)) (wh_dst_conn_id (ws_handle s))
              (ws_queue s) (ws_next s) (buf_bytes b) with
      | Ok (payload_bytes, queue', next', contents) =>
          let b := buffer_filled b contents in
          let more := bool_decide (0 < payload_bytes) in
          let s' :=
            {| ws_handle := ws_handle s; ws_channel := ws_channel s;
               ws_phase := if more && bool_decide (S i < DATAGRAMS_PER_ROUND) then PumpPacking (S i) else PumpStoring;
               ws_queue := queue'; ws_next := next'; ws_sending := ws_sending s; ws_wire := ws_wire s;
               ws_events := if more then
                   ws_events s ++ diag_try_send (wh_diag_tx (ws_handle s))
                     (DataSent (ws_next s) (u64_sub next' (ws_next s)) payload_bytes)
                 else ws_events s |} in
          if more then
            let '(other, recycle, made) := replacement (rc_recycle r) in
            Ok {| rc_rest := s'; rc_sending := rc_sending r ++ [(b, payload_bytes)];
                  rc_pool := <[i := other]> (rc_pool r); rc_recycle := recycle;
                  rc_fresh := rc_fresh r + made; rc_dropped := rc_dropped r |}
          else
            Ok {| rc_rest := s'; rc_sending := rc_sending r; rc_pool := <[i := b]> (rc_pool r);
                  rc_recycle := rc_recycle r; rc_fresh := rc_fresh r; rc_dropped := rc_dropped r |}
      | _ => Err tt
      end
  end.

(** The sender task sends the first datagram and gives its vector back, unless
    the channel is full. *)
Definition recycled_transmit (r : recycled) (b : buffer) (n : nat) (rest : list (buffer * nat)) : recycled :=
  let s := rc_rest r in
  let full := bool_decide (RECYCLE_CAPACITY <= length (rc_recycle r)) in
  {| rc_rest := {| ws_handle := settle (ws_handle s) n; ws_channel := ws_channel s; ws_phase := ws_phase s;
                   ws_queue := ws_queue s; ws_next := ws_next s; ws_sending := ws_sending s;
                   ws_wire := ws_wire s ++ [(buf_bytes b, n)]; ws_events := ws_events s |};
     rc_sending := rest; rc_pool := rc_pool r;
     rc_recycle := if full then rc_recycle r else rc_recycle r ++ [buffer_clear b];
     rc_fresh := rc_fresh r; rc_dropped := if full then S (rc_dropped r) else rc_dropped r |}.

(** [Err tt]: the action is not possible now. *)
Definition recycled_step (r : recycled) (a : writer_action) : outcome unit recycled :=
  match a with
  | APack => match ws_phase (rc_rest r) with PumpPacking i => recycled_pack r i | _ => Err tt end
  | ATransmit => match rc_sending r with [] => Err tt | (b, n) :: rest => Ok (recycled_transmit r b n rest) end
  | a => match writer_step (rc_rest r) a with Some s => Ok (with_rest r s) | None => Err tt end
  end.

Fixpoint recycled_run (r : recycled) (acts : list writer_action) : outcome unit recycled :=
  match acts with
  | [] => Ok r
  | a :: acts => match recycled_step r a with Ok r' => recycled_run r' acts | o => o end
  end.

(** ** The writer it implements *)

Definition writer_of (r : recycled) : WriterSystem :=
  with_sending (rc_rest r) (map (fun bn => (buf_bytes (fst bn), snd bn)) (rc_sending r)).

Definition right_size (b : buffer) : Prop := buf_capacity b = MAX_BLUEFIN_BYTES_IN_UDP_DATAGRAM.

Record recycled_inv (r : recycled) : Prop := {
  ri_pool : length (rc_pool r) = DATAGRAMS_PER_ROUND;
  ri_phase : forall i, ws_phase (rc_rest r) = PumpPacking i -> i < DATAGRAMS_PER_ROUND;
  ri_next : is_u64 (ws_next (rc_rest r));
  ri_sizes : Forall right_size (rc_pool r ++ rc_recycle r ++ map fst (rc_sending r));
  ri_recycle : length (rc_recycle r) <= RECYCLE_CAPACITY;
  ri_count : rc_fresh r = length (rc_sending r) + length (rc_recycle r) + rc_dropped r;
}.

Lemma recycled_inv_init pn src dst : is_u64 pn -> recycled_inv (recycled_init pn src dst).
Proof.
  intros Hpn. split; cbn [recycled_init rc_pool rc_rest rc_recycle rc_sending rc_fresh rc_dropped]; try done.
  - rewrite app_nil_r. by apply Forall_replicate.
  - cbn. lia.
Qed.

(** The other actions do not look at the channel of datagrams. *)
Lemma writer_step_sending s l a :
  a <> APack -> a <> ATransmit ->
  writer_step (with_sending s l) a = (fun s' => with_sending s' l) <$> writer_step s a.
Proof.
  intros H1 H2. destruct a as [payload|n| | |]; try done; cbn [writer_step with_sending ws_handle ws_channel ws_phase].
  - destruct (WriterHandler_send_bytes _ _ _) as [[[] w] [msg|]]; done.
  - destruct (ws_phase s); [case_decide|..]; done.
  - destruct (ws_phase s); done.
Qed.

Lemma writer_step_other s a s' :
  a <> APack -> a <> ATransmit -> writer_step s a = Some s' ->
  ws_next s' = ws_next s /\ (forall i, ws_phase s' = PumpPacking i -> i < DATAGRAMS_PER_ROUND \/ ws_phase s = PumpPacking i).
Proof.
  intros H1 H2. destruct a as [payload|n| | |]; try done; cbn [writer_step].
  - destruct (WriterHandler_send_bytes _ _ _) as [[[] w] [msg|]]; try done. intros [= <-]. split; [done|auto].
  - destruct (ws_phase s); [case_decide|..]; try done. intros [= <-]. split; [done|]. intros i [= <-]. left.
    unfold DATAGRAMS_PER_ROUND. lia.
  - destruct (ws_phase s); try done. intros [= <-]. by split.
Qed.

Lemma recycled_other r a :
  a <> APack -> a <> ATransmit -> recycled_inv r ->
  match recycled_step r a with
  | Ok r' => writer_step (writer_of r) a = Some (writer_of r') /\ recycled_inv r'
  | Err _ => writer_step (writer_of r) a = None
  | _ => False
  end.
Proof.
  intros H1 H2 [Hp Hph Hn Hs Hr Hc]. unfold writer_of. rewrite writer_step_sending by done.
  assert (Hstep : recycled_step r a = match writer_step (rc_rest r) a with Some s => Ok (with_rest r s) | None => Err tt end)
    by (by destruct a). rewrite Hstep.
  destruct (writer_step (rc_rest r) a) as [s'|] eqn:Hw; [|done]. split; [done|].
  destruct (writer_step_other _ _ _ H1 H2 Hw) as [Hn' Hph'].
  split; cbn [with_rest rc_pool rc_rest rc_recycle rc_sending rc_fresh rc_dropped]; try done; [|by rewrite Hn'].
  intros i Hi. destruct (Hph' i Hi); auto.
Qed.

Lemma recycled_transmits r b n rest :
  rc_sending r = (b, n) :: rest -> recycled_inv r ->
  writer_step (writer_of r) ATransmit = Some (writer_of (recycled_transmit r b n rest)) /\
  recycled_inv (recycled_transmit r b n rest).
Proof.
  intros Hse [Hp Hph Hn Hs Hr Hc]. split; [unfold writer_of; rewrite Hse; done|].
  rewrite Hse in Hs, Hc. cbn [map fst length] in *. rewrite !Forall_app, Forall_cons in Hs. destruct Hs as (Hs1 & Hs2 & Hs3 & Hs4).
  split; cbn [recycled_transmit rc_pool rc_rest rc_recycle rc_sending rc_fresh rc_dropped ws_phase ws_next]; try done.
  - rewrite !Forall_app. split_and!; [done| |done]. case_bool_decide; [done|]. rewrite Forall_app, Forall_singleton. done.
  - case_bool_decide; [done|]. rewrite length_app. simpl. lia.
  - case_bool_decide; [lia|]. rewrite length_app. simpl. lia.
Qed.

(** A vector that was emptied takes a datagram without growing. *)
Lemma buffer_filled_size b contents :
  right_size b -> length contents <= MAX_BLUEFIN_BYTES_IN_UDP_DATAGRAM -> right_size (buffer_filled (buffer_clear b) contents).
Proof. unfold right_size. cbn. lia. Qed.

Lemma replacement_spec recycle b recycle' made :
  replacement recycle = (b, recycle', made) -> Forall right_size recycle ->
  right_size b /\ Forall right_size recycle' /\ length recycle' + 1 = length recycle + made /\ length recycle' <= length recycle.
Proof.
  unfold replacement. destruct recycle as [|x l]; intros [= <- <- <-] H.
  - split_and!; [done|constructor|simpl; lia..].
  - apply Forall_cons in H as [Hx Hl]. split_and!; [done|done|simpl; lia..].
Qed.

Lemma recycled_packs r i :
  ws_phase (rc_rest r) = PumpPacking i -> recycled_inv r ->
  exists r', recycled_pack r i = Ok r' /\ writer_step (writer_of r) APack = Some (writer_of r') /\ recycled_inv r'.
Proof.
  intros Hph [Hp Hphase Hn Hs Hr Hc]. pose proof (Hphase i Hph) as Hi. rewrite !Forall_app in Hs.
  destruct Hs as (Hs1 & Hs2 & Hs3).
  destruct (lookup_lt_is_Some_2 (rc_pool r) i) as [b Hb]; [by rewrite Hp|].
  assert (Hsize : right_size b) by (by apply (proj1 (Forall_lookup _ _) Hs1 i)).
  set (src := wh_src_conn_id (ws_handle (rc_rest r))). set (dst := wh_dst_conn_id (ws_handle (rc_rest r))).
  destruct (consume_data_into_ok src dst (ws_queue (rc_rest r)) (ws_next (rc_rest r)) [] Hn) as (q & Heq & _).
  assert (Hw : writer_step (writer_of r) APack = pump_pack (writer_of r) i) by (cbn; by rewrite Hph).
  rewrite Hw. unfold pump_pack, recycled_pack. rewrite Hb.
  change (wh_src_conn_id (ws_handle (writer_of r))) with src. change (wh_dst_conn_id (ws_handle (writer_of r))) with dst.
  fold src dst. cbn [buffer_clear buf_bytes]. cbn [writer_of with_sending ws_queue ws_next]. rewrite Heq. cbn [app].
  set (contents := datagram _). set (next' := u64_wrap _).
  assert (Hfill : right_size (buffer_filled (buffer_clear b) contents)).
  { apply buffer_filled_size; [done|]. apply datagram_size_bound. }
  assert (Hnext : forall (more : bool) j,
    (if more && bool_decide (S i < DATAGRAMS_PER_ROUND) then PumpPacking (S i) else PumpStoring) = PumpPacking j ->
    j < DATAGRAMS_PER_ROUND).
  { intros more j. destruct more; cbn [andb]; [|done]. case_bool_decide; [|done]. by intros [= <-]. }
  destruct (bool_decide (0 < length (take DATAGRAM_PAYLOAD (concat (ws_queue (rc_rest r)))))).
  - destruct (replacement (rc_recycle r)) as [[other recycle'] made] eqn:Hrep.
    destruct (replacement_spec _ _ _ _ Hrep Hs2) as (Ho & Hrc & Hlen & Hle).
    eexists. split; [done|]. split; [by unfold writer_of, with_sending; cbn; rewrite map_app|].
    split; cbn [rc_pool rc_rest rc_recycle rc_sending rc_fresh rc_dropped ws_phase ws_next]; try lia.
    + by rewrite length_insert.
    + apply (Hnext true).
    + apply u64_wrap_range.
    + rewrite map_app, !Forall_app. split_and!; [by apply Forall_insert|done|done|by apply Forall_singleton].
    + rewrite length_app. simpl. lia.
  - eexists. split; [done|]. split; [done|].
    split; cbn [rc_pool rc_rest rc_recycle rc_sending rc_fresh rc_dropped ws_phase ws_next]; try done.
    + by rewrite length_insert.
    + apply u64_wrap_range.
    + rewrite !Forall_app. split_and!; [by apply Forall_insert|done|done].
Qed.

Lemma recycled_step_ok r a :
  recycled_inv r ->
  match recycled_step r a with
  | Ok r' => writer_step (writer_of r) a = Some (writer_of r') /\ recycled_inv r'
  | Err _ => writer_step (writer_of r) a = None
  | _ => False
  end.
Proof.
  intros Hi. destruct a as [payload|n| | |]; [by apply recycled_other|by apply recycled_other| |by apply recycled_other|].
  - cbn [recycled_step]. destruct (ws_phase (rc_rest r)) as [|i|] eqn:Hph;
      [unfold writer_of, with_sending; cbn; by rewrite Hph| |unfold writer_of, with_sending; cbn; by rewrite Hph].
    destruct (recycled_packs r i Hph Hi) as (r' & -> & Hw & Hi'). done.
  - cbn [recycled_step]. destruct (rc_sending r) as [|[b n] rest] eqn:Hs; [unfold writer_of; by rewrite Hs|].
    by apply recycled_transmits.
Qed.

Lemma recycled_run_ok r acts :
  recycled_inv r ->
  match recycled_run r acts with
  | Ok r' => writer_run (writer_of r) acts = Some (writer_of r') /\ recycled_inv r'
  | Err _ => writer_run (writer_of r) acts = None
  | _ => False
  end.
Proof.
  revert r. induction acts as [|a acts IH]; intros r Hi; [done|]. cbn [recycled_run writer_run].
  pose proof (recycled_step_ok r a Hi) as Hs. destruct (recycled_step r a) as [r1| | |]; [|by rewrite Hs|done..].
  destruct Hs as [-> Hi1]. by apply IH.
Qed.

(** ** Property *)

(** C11: reusing the datagram vectors changes nothing.  From its start the writer
    with the pool and the channel of emptied vectors goes through exactly the
    histories of the writer whose datagrams are values, and puts the same
    bytes on the wire; it never indexes outside the pool, no vector ever grows,
    the channel back stays within its capacity, and every vector made beside
    the pool is on its way to the socket, on its way back or dropped. *)
Theorem recycling_refines_writer pn src dst acts :
  is_u64 pn ->
  match recycled_run (recycled_init pn src dst) acts with
  | Ok r =>
      writer_run (writer_init pn src dst) acts = Some (writer_of r) /\
      Forall right_size (rc_pool r ++ rc_recycle r ++ map fst (rc_sending r)) /\
      length (rc_pool r) = DATAGRAMS_PER_ROUND /\ length (rc_recycle r) <= RECYCLE_CAPACITY /\
      rc_fresh r = length (rc_sending r) + length (rc_recycle r) + rc_dropped r
  | Err _ => writer_run (writer_init pn src dst) acts = None
  | _ => False
  end.
Proof.
  intros Hpn. pose proof (recycled_run_ok (recycled_init pn src dst) acts (recycled_inv_init pn src dst Hpn)) as H.
  change (writer_of (recycled_init pn src dst)) with (writer_init pn src dst) in H.
  destruct (recycled_run (recycled_init pn src dst) acts) as [r| | |]; [|done..].
  destruct H as [Hw []]. done.
Qed.

(** Two sends, the first one's vector reused for the third datagram. *)
Definition reuse_history : list writer_action :=
  [ASend [1; 2]%Z; ARecv 1; APack; APack; AStore; ATransmit; ASend [3]%Z; ARecv 1; APack; APack; AStore; ATransmit].

Definition reuse_state : recycled :=
  match recycled_run (recycled_init 9 1 2) reuse_history with Ok r => r | _ => recycled_init 9 1 2 end.

Lemma recycling_refines_writer_witness :
  recycled_run (recycled_init 9 1 2) reuse_history = Ok reuse_state /\
  writer_run (writer_init 9 1 2) reuse_history = Some (writer_of reuse_state) /\ rc_fresh reuse_state = 1.
Proof.
  pose proof (recycling_refines_writer 9 1 2 reuse_history ltac:(int_lia)) as H.
  assert (Hr : recycled_run (recycled_init 9 1 2) reuse_history = Ok reuse_state) by (vm_compute; reflexivity).
  rewrite Hr in H. split; [exact Hr|]. split; [exact (proj1 H)|vm_compute; reflexivity].
Defined.
