(* ===== verification/UnitTests.v ===== *)
(** * The repository's unit tests on the model

    The [#[cfg(test)]] and [#[cfg(kani)]] modules of the implementation files
    (core/header.rs, core/packet.rs, utils/window.rs, utils/ring_buffer.rs,
    net/ordered_bytes.rs, net/close_handler.rs, worker/conn_reader.rs,
    worker/writer.rs under src/bluefin/src), each test a boolean function with
    the test's name, its calls and its assertions: [false] when an assertion
    fails or a call panics.  What a test draws at random, and what its cases
    list, are arguments; the theorems hold for all values of them, so the tests
    of the packetisers hold for every number and size of sends and every number
    of acks, and those of the reassembly buffer for every first number. *)
From stdpp Require Import base numbers list option strings gmap.
From S2P Require Import Prelude Proto Header Packet Window RingBuf OrderedBytes Reassembly Close Buffers Net ConnReader Packetiser.

Declare Scope test_scope.
Delimit Scope test_scope with test.

(** [assert!(b);], [let x = m.unwrap();] and their kin. *)
Notation "'assert' b ';;' k" := (andb b k) (at level 10, b at level 99, k at level 200) : test_scope.
Notation "'unwrap' x ':=' m 'in' k" := (match m with Ok x => k | _ => false end)
  (at level 10, x pattern, m at level 100, k at level 200) : test_scope.
Notation "x == y" := (bool_decide (x = y)) (at level 70, no associativity) : test_scope.
Notation "x != y" := (negb (bool_decide (x = y))) (at level 70, no associativity) : test_scope.
Local Open Scope test_scope.

(** [res.is_err_and(|e| e == x)]. *)
Definition is_err_and {A : Type} (m : BluefinResult A) (x : BluefinError) : bool :=
  match m with Err e => e == x | _ => false end.

#[export] Instance ConsumeResult_eq_dec : EqDecision SlidingWindowConsumeResult.
Proof. solve_decision. Defined.

(** ** core/header.rs *)

Definition bluefin_header_should_serialise_and_deserialise_properly : bool :=
  unwrap security_fields := BluefinSecurityFields_new true 0x1f in
  let header := BluefinHeader_new 0x01020304 0x04030201 UnencryptedServerHello 0x1234 security_fields in
  assert version header == 0x0%Z ;;
  assert type_field header == UnencryptedServerHello ;;
  assert type_specific_payload header == 0x1234%Z ;;
  let serialised := BluefinHeader_serialise header in
  assert length serialised == 20 ;;
  unwrap d_field := BluefinHeader_deserialise serialised in
  d_field == header.

Definition fin_packet_type_round_trips : bool :=
  unwrap security_fields := BluefinSecurityFields_new false 0x0 in
  let header := BluefinHeader_new 0xaaaabbbb 0xccccdddd Fin 0x0 security_fields in
  let header := BluefinHeader_with_packet_number header 0xdeadbeefcafebabe in
  let serialised := BluefinHeader_serialise header in
  assert length serialised == 20 ;;
  assert serialised !! 0 == Some 0x05%Z ;;
  unwrap deserialised := BluefinHeader_deserialise serialised in
  assert deserialised == header ;;
  type_field deserialised == Fin.

Definition fin_ack_packet_type_round_trips : bool :=
  unwrap security_fields := BluefinSecurityFields_new false 0x0 in
  let header := BluefinHeader_new 0x11112222 0x33334444 FinAck 0x0 security_fields in
  let header := BluefinHeader_with_packet_number header 42 in
  let serialised := BluefinHeader_serialise header in
  assert length serialised == 20 ;;
  assert serialised !! 0 == Some 0x06%Z ;;
  unwrap deserialised := BluefinHeader_deserialise serialised in
  assert deserialised == header ;;
  type_field deserialised == FinAck.

Definition fin_and_fin_ack_have_distinct_wire_codes : bool :=
  assert PacketType_as_u8 Fin == 0x05%Z ;;
  PacketType_as_u8 FinAck == 0x06%Z.

(** ** utils/ring_buffer.rs *)

Definition test_ring_buffer_basic : bool :=
  let rb := RingBuffer_new 0%Z 3 in
  assert RingBuffer_is_empty rb ;;
  assert RingBuffer_len rb == 0 ;;
  unwrap (full, rb) := RingBuffer_push_back rb 1%Z in
  assert full == None ;;
  unwrap (full, rb) := RingBuffer_push_back rb 2%Z in
  assert full == None ;;
  unwrap (full, rb) := RingBuffer_push_back rb 3%Z in
  assert full == None ;;
  assert RingBuffer_is_full rb ;;
  unwrap (full, rb) := RingBuffer_push_back rb 4%Z in
  assert full == Some 4%Z ;;
  unwrap (popped, rb) := RingBuffer_pop_front 0%Z rb in
  assert popped == Some 1%Z ;;
  unwrap (popped, rb) := RingBuffer_pop_front 0%Z rb in
  assert popped == Some 2%Z ;;
  unwrap (popped, rb) := RingBuffer_pop_front 0%Z rb in
  assert popped == Some 3%Z ;;
  assert RingBuffer_is_empty rb ;;
  unwrap (popped, rb) := RingBuffer_pop_front 0%Z rb in
  popped == None.

Definition test_ring_buffer_wraparound : bool :=
  let rb := RingBuffer_new 0%Z 3 in
  unwrap (_, rb) := RingBuffer_push_back rb 1%Z in
  unwrap (_, rb) := RingBuffer_push_back rb 2%Z in
  unwrap (popped, rb) := RingBuffer_pop_front 0%Z rb in
  assert popped == Some 1%Z ;;
  unwrap (_, rb) := RingBuffer_push_back rb 3%Z in
  unwrap (_, rb) := RingBuffer_push_back rb 4%Z in
  unwrap (popped, rb) := RingBuffer_pop_front 0%Z rb in
  assert popped == Some 2%Z ;;
  unwrap (popped, rb) := RingBuffer_pop_front 0%Z rb in
  assert popped == Some 3%Z ;;
  unwrap (popped, rb) := RingBuffer_pop_front 0%Z rb in
  assert popped == Some 4%Z ;;
  RingBuffer_is_empty rb.

(** ** utils/window.rs *)

(** [assert_eq!(w.insert_packet_number(n), Ok(()))] for each number in turn. *)
Fixpoint all_inserted (w : SlidingWindow) (ns : list Z) (k : SlidingWindow -> bool) : bool :=
  match ns with
  | [] => k w
  | n :: ns =>
      let '(r, w) := SlidingWindow_insert_packet_number w n in
      assert is_ok r ;;
      all_inserted w ns k
  end.

(** [assert_eq!(window.insert_range(base, count), Ok(()))]. *)
Definition range_inserted (w : SlidingWindow) (base count : Z) (k : SlidingWindow -> bool) : bool :=
  let '(r, w) := SlidingWindow_insert_range w base count in assert is_ok r ;; k w.

Definition sliding_window_behaves_as_expected : bool :=
  let w := SlidingWindow_new 100 in
  let '(c, w) := SlidingWindow_consume w in
  assert c == None ;;
  let '(insert_res, w) := SlidingWindow_insert_packet_number w 99 in
  assert is_err_and insert_res UnexpectedPacketNumberError ;;
  let '(c, w) := SlidingWindow_consume w in
  assert c == None ;;
  all_inserted w [101; 102; 103; 104; 106]%Z (fun w =>
  let '(c, w) := SlidingWindow_consume w in
  assert c == None ;;
  let '(insert_res, w) := SlidingWindow_insert_packet_number w 103 in
  assert is_err_and insert_res UnexpectedPacketNumberError ;;
  let '(insert_res, w) := SlidingWindow_insert_packet_number w (100 + MAX_SLIDING_WINDOW_SIZE) in
  assert is_err insert_res ;;
  all_inserted w [100]%Z (fun w =>
  let '(c, w) := SlidingWindow_consume w in
  assert c == Some {| largest_packet_number := 104; num_acks_consumed := 5 |} ;;
  let '(c, w) := SlidingWindow_consume w in
  assert c == None ;;
  all_inserted w [107; 110]%Z (fun w =>
  let '(c, w) := SlidingWindow_consume w in
  assert c == None ;;
  all_inserted w [105]%Z (fun w =>
  let '(c, w) := SlidingWindow_consume w in
  assert c == Some {| largest_packet_number := 107; num_acks_consumed := 3 |} ;;
  let '(c, w) := SlidingWindow_consume w in
  assert c == None ;;
  let '(insert_res, w) := SlidingWindow_insert_packet_number w (108 + MAX_SLIDING_WINDOW_SIZE) in
  assert is_err insert_res ;;
  let '(insert_res, w) := SlidingWindow_insert_packet_number w (107 + MAX_SLIDING_WINDOW_SIZE) in
  is_ok insert_res)))).

Definition sliding_window_insert_range_behaves_like_repeated_insert : bool :=
  let window := SlidingWindow_new 1000 in
  range_inserted window 1000 0 (fun window =>
  let '(c, window) := SlidingWindow_consume window in
  assert c == None ;;
  range_inserted window 1000 10 (fun window =>
  let '(consumed, window) := SlidingWindow_consume window in
  assert consumed == Some {| largest_packet_number := 1009; num_acks_consumed := 10 |} ;;
  range_inserted window 1015 5 (fun window =>
  range_inserted window 1020 5 (fun window =>
  let '(c, window) := SlidingWindow_consume window in
  assert c == None ;;
  range_inserted window 1010 5 (fun window =>
  let '(consumed, window) := SlidingWindow_consume window in
  assert consumed == Some {| largest_packet_number := 1024; num_acks_consumed := 15 |} ;;
  let '(r, window) := SlidingWindow_insert_range window 0 1 in
  assert is_err r ;;
  let '(r, window) := SlidingWindow_insert_range window 1025 (u16_wrap (MAX_SLIDING_WINDOW_SIZE + 1)) in
  assert is_err r ;;
  range_inserted window 1100 3 (fun window =>
  let '(r, window) := SlidingWindow_insert_range window 1100 5 in
  is_err r)))))).

(** ** core/packet.rs *)

(** [BluefinPacket::builder().header(h).payload(bs).build()]. *)
Definition build_packet (h : BluefinHeader) (bs : bytes) : BluefinResult BluefinPacket :=
  BluefinPacketBuilder_build (BluefinPacketBuilder_payload (BluefinPacketBuilder_header BluefinPacket_builder h) bs).

(** The assignments to a header's fields. *)
Definition set_header (h : BluefinHeader) (v : Z) (t : PacketType) (len src dst : Z) : BluefinHeader :=
  {| version := v; type_field := t; type_specific_payload := len; security_fields := security_fields h;
     source_connection_id := src; destination_connection_id := dst; packet_number := packet_number h |}.

Definition with_announced_length (p : BluefinPacket) (n : nat) : BluefinPacket :=
  {| header := with_type_specific_payload (header p) (u16_wrap (Z.of_nat n)); payload := payload p |}.

Definition cannot_deserialise_invalid_bytes_into_bluefin_packets (payload : bytes) : bool :=
  unwrap security_fields := BluefinSecurityFields_new false 0x0 in
  let header := BluefinHeader_new 0x0 0x0 Ack 13 security_fields in
  let header := set_header header 13 UnencryptedData 32 0 0 in
  unwrap packet := build_packet header payload in
  assert BluefinPacket_len packet == 52 ;;
  assert is_ok (BluefinPacket_from_bytes (BluefinPacket_serialise packet)) ;;
  let packet := with_announced_length packet (length payload + 1) in
  assert is_err_and (BluefinPacket_from_bytes (BluefinPacket_serialise packet))
           (ReadError "Cannot read all bytes specified by header") ;;
  let packet := with_announced_length packet (length payload - 1) in
  is_err_and (BluefinPacket_from_bytes (BluefinPacket_serialise packet))
    (ReadError "Was not able to read all bytes into bluefin packets").

(** The six packets of the test, the header changed from one to the next. *)
Definition six_packets (payload32 payload20 payload15 : bytes) : BluefinResult (list BluefinPacket) :=
  (let? security_fields := BluefinSecurityFields_new false 0x0 in
   let header := BluefinHeader_new 0x0 0x0 Ack 13 security_fields in
   let? p1 := BluefinPacketBuilder_build (BluefinPacketBuilder_header BluefinPacket_builder header) in
   let header := set_header header 13 UnencryptedData 32 0 0 in
   let? p2 := build_packet header payload32 in
   let header := set_header header 15 UnencryptedData 20 0 0x123 in
   let? p3 := build_packet header payload20 in
   let header := set_header header 15 Ack 20 0 0x123 in
   let? p4 := BluefinPacketBuilder_build (BluefinPacketBuilder_header BluefinPacket_builder header) in
   let header := set_header header 0 UnencryptedClientHello 20 0 0x123 in
   let? p5 := BluefinPacketBuilder_build (BluefinPacketBuilder_header BluefinPacket_builder header) in
   let header := set_header header 5 UnencryptedData 15 0xabc 0 in
   let? p6 := build_packet header payload15 in
   Ok [p1; p2; p3; p4; p5; p6])%rust.

Definition same_shown (expected actual : BluefinPacket) : bool :=
  assert source_connection_id (header expected) == source_connection_id (header actual) ;;
  assert destination_connection_id (header expected) == destination_connection_id (header actual) ;;
  assert version (header expected) == version (header actual) ;;
  payload expected == payload actual.

Definition able_to_deserialise_bytes_into_multiple_bluefin_packets_correctly
    (payload32 payload20 payload15 : bytes) : bool :=
  unwrap packets := six_packets payload32 payload20 payload15 in
  let bs := concat (map BluefinPacket_serialise packets) in
  assert length bs == 32 + 20 + 15 + 6 * 20 ;;
  unwrap rebuild_packets := BluefinPacket_from_bytes bs in
  assert length rebuild_packets == length packets ;;
  forallb (fun '(expected, actual) => same_shown expected actual) (zip packets rebuild_packets).

(** ** net/close_handler.rs *)

Definition control_packet (src dst : Z) (t : PacketType) (pn : Z) : BluefinResult BluefinPacket :=
  let header := BluefinHeader_new src dst t 0x0 BluefinSecurityFields_default in
  let header := BluefinHeader_with_packet_number header pn in
  BluefinPacketBuilder_build (BluefinPacketBuilder_header BluefinPacket_builder header).

Definition close_fin_packet (pn : Z) : BluefinResult BluefinPacket := control_packet 0x11112222 0x33334444 Fin pn.
Definition close_fin_ack_packet (pn : Z) : BluefinResult BluefinPacket := control_packet 0x11112222 0x33334444 FinAck pn.

Definition fresh_buffer_is_active : bool :=
  let flag := false in
  let buf := CloseBuffer_new in
  assert close_state buf == Active ;;
  assert pending_fin_ack_send buf == None ;;
  assert received_fin_ack_for buf == None ;;
  negb flag.

Definition fin_transitions_to_peer_fin_received_and_sets_flag : bool :=
  let flag := false in
  let buf := CloseBuffer_new in
  unwrap p := close_fin_packet 1234 in
  let '(buf, flag) := CloseBuffer_buffer_in_fin buf flag p in
  assert close_state buf == PeerFinReceived 1234 ;;
  assert pending_fin_ack_send buf == Some 1234%Z ;;
  flag.

Definition duplicate_fin_is_idempotent_and_re_arms_pending_ack : bool :=
  let flag := false in
  let buf := CloseBuffer_new in
  unwrap p := close_fin_packet 7 in
  let '(buf, flag) := CloseBuffer_buffer_in_fin buf flag p in
  let buf := with_pending buf None in
  unwrap p := close_fin_packet 7 in
  let '(buf, flag) := CloseBuffer_buffer_in_fin buf flag p in
  assert close_state buf == PeerFinReceived 7 ;;
  pending_fin_ack_send buf == Some 7%Z.

Definition mismatched_fin_pn_after_first_is_dropped : bool :=
  let flag := false in
  let buf := CloseBuffer_new in
  unwrap p := close_fin_packet 7 in
  let '(buf, flag) := CloseBuffer_buffer_in_fin buf flag p in
  let buf := with_pending buf None in
  unwrap p := close_fin_packet 99 in
  let '(buf, flag) := CloseBuffer_buffer_in_fin buf flag p in
  assert close_state buf == PeerFinReceived 7 ;;
  pending_fin_ack_send buf == None.

Definition fin_ack_records_packet_number : bool :=
  let buf := CloseBuffer_new in
  unwrap p := close_fin_ack_packet 42 in
  let buf := CloseBuffer_buffer_in_fin_ack buf p in
  received_fin_ack_for buf == Some 42%Z.

(** ** worker/conn_reader.rs *)

Definition LOCALHOST : Z := 0x7f000001.

(** No FIN-ACK channel and no diagnostics.  The packets are an argument, so the
    assertion that their vector is drained has no counterpart. *)
Definition test_env : reader_env := {| env_fin_ack_tx := false; env_diag_tx := false |}.

Definition make_managed_bufs : ConnShared :=
  let conn_buff := ConnectionBuffer_new 0xaaaabbbb Client in
  let '(_, conn_buff) := ConnectionBuffer_buffer_in_addr conn_buff (LOCALHOST, 1%Z) in
  {| conn_buff := conn_buff; ack_buff := AckBuffer_new 0; close_buff := CloseBuffer_new; peer_fin_observed := false |}.

(** The test's waker and whether it was invoked. *)
Definition counter : Waker := 0.
Definition woken (evs : list effect) : bool :=
  existsb (fun ev => match ev with WakeTask w => w =? counter | _ => false end) evs.

(** The vector of packets, which the source drains and then asserts to be empty,
    is passed by value here: that assertion has no counterpart. *)
Definition buffer_in_packets_routes_fin_to_close_buffer_and_wakes_data_waker : bool :=
  let bufs := make_managed_bufs in
  let bufs := with_conn_buff bufs (set_waker_if_changed (conn_buff bufs) counter) in
  unwrap p := control_packet 0x1 0x2 Fin 9999 in
  let '(res, bufs, evs) := ConnReaderHandler_buffer_in_packets test_env bufs [p] in
  assert is_ok res ;;
  assert peer_fin_observed bufs ;;
  assert close_state (close_buff bufs) == PeerFinReceived 9999 ;;
  woken evs.

Definition buffer_in_packets_routes_fin_ack_to_close_buffer_without_setting_peer_fin_flag : bool :=
  let bufs := make_managed_bufs in
  unwrap p := control_packet 0x1 0x2 FinAck 1234 in
  let '(res, bufs, _) := ConnReaderHandler_buffer_in_packets test_env bufs [p] in
  assert is_ok res ;;
  assert negb (peer_fin_observed bufs) ;;
  assert received_fin_ack_for (close_buff bufs) == Some 1234%Z ;;
  close_state (close_buff bufs) == Active.

Definition fin_with_no_data_waker_registered_is_still_ok : bool :=
  let bufs := make_managed_bufs in
  unwrap p := control_packet 0x1 0x2 Fin 5 in
  let '(res, bufs, _) := ConnReaderHandler_buffer_in_packets test_env bufs [p] in
  assert is_ok res ;;
  peer_fin_observed bufs.

Definition future_resolves_when_peer_fin_observed_with_empty_buffer : bool :=
  let bufs := make_managed_bufs in
  assert is_err (ConnectionBuffer_peek (conn_buff bufs)) ;;
  assert negb (peer_fin_observed bufs) ;;
  unwrap p := control_packet 0x1 0x2 Fin 1 in
  let '(res, bufs, _) := ConnReaderHandler_buffer_in_packets test_env bufs [p] in
  assert is_ok res ;;
  assert peer_fin_observed bufs ;;
  assert is_err (ConnectionBuffer_peek (conn_buff bufs)) ;;
  cb_addr (conn_buff bufs) != None.

(** The tests without anything random or listed. *)
Definition fixed_tests : list bool :=
  [bluefin_header_should_serialise_and_deserialise_properly; fin_packet_type_round_trips;
   fin_ack_packet_type_round_trips; fin_and_fin_ack_have_distinct_wire_codes;
   test_ring_buffer_basic; test_ring_buffer_wraparound;
   sliding_window_behaves_as_expected; sliding_window_insert_range_behaves_like_repeated_insert;
   fresh_buffer_is_active; fin_transitions_to_peer_fin_received_and_sets_flag;
   duplicate_fin_is_idempotent_and_re_arms_pending_ack; mismatched_fin_pn_after_first_is_dropped;
   fin_ack_records_packet_number;
   buffer_in_packets_routes_fin_to_close_buffer_and_wakes_data_waker;
   buffer_in_packets_routes_fin_ack_to_close_buffer_without_setting_peer_fin_flag;
   fin_with_no_data_waker_registered_is_still_ok;
   future_resolves_when_peer_fin_observed_with_empty_buffer].

Lemma fixed_tests_hold : forallb id fixed_tests = true.
Proof. vm_compute. reflexivity. Qed.

(** ** net/ordered_bytes.rs *)

Definition consumed (c : ConsumeResult) (base : Z) (num_packets num_bytes : nat) : bool :=
  assert base_packet_number c == base ;;
  assert num_packets_consumed c == num_packets ;;
  bytes_consumed c == num_bytes.

Definition ordered_bytes_carry_over_behaves_as_expected (start_packet_num : Z) (payload second_payload : bytes) : bool :=
  let ob := OrderedBytes_new 0x0 start_packet_num in
  assert is_err_and (OrderedBytes_peek ob) BufferEmptyError ;;
  unwrap security_fields := BluefinSecurityFields_new false 0x0 in
  let header := BluefinHeader_new 0x0 0x0 UnencryptedData 0 security_fields in
  let header := BluefinHeader_with_packet_number header start_packet_num in
  unwrap packet := build_packet header payload in
  let '(r, ob) := OrderedBytes_buffer_in_packet ob packet in
  assert is_ok r ;;
  let buf := replicate 100 0%Z in
  unwrap (consume_res, ob, buf) := OrderedBytes_consume ob 100 buf in
  unwrap consume := consume_res in
  assert consumed consume start_packet_num 1 100 ;;
  assert take 100 payload == take 100 buf ;;
  let header := BluefinHeader_with_packet_number header (u64_add start_packet_num 1) in
  unwrap packet := build_packet header second_payload in
  let '(r, ob) := OrderedBytes_buffer_in_packet ob packet in
  assert is_ok r ;;
  unwrap (consume_res, ob, buf) := OrderedBytes_consume ob 100 buf in
  unwrap consume := consume_res in
  assert consumed consume 0 0 100 ;;
  assert slice 100 200 payload == take 100 buf ;;
  let buf := replicate 1400 0%Z in
  unwrap (consume_res, ob, buf) := OrderedBytes_consume ob 1400 buf in
  unwrap consume := consume_res in
  assert consumed consume (u64_add start_packet_num 1) 1 1400 ;;
  assert drop 200 payload == take 1300 buf ;;
  take 100 second_payload == drop 1300 buf.

(** [assert!(ordered_bytes.buffer_in_packet(packet.clone()).is_ok())] and what
    [peek] must say next. *)
Definition arrives (ob : OrderedBytes) (header : BluefinHeader) (n : Z) (ready : bool) (k : OrderedBytes -> bool) : bool :=
  unwrap packet := build_packet (BluefinHeader_with_packet_number header n) [1; 2; 3]%Z in
  let '(r, ob) := OrderedBytes_buffer_in_packet ob packet in
  assert is_ok r ;;
  assert (if ready then is_ok (OrderedBytes_peek ob) else is_err_and (OrderedBytes_peek ob) BufferEmptyError) ;;
  k ob.

(** A read, its counts and the slice it leaves. *)
Definition reads (ob : OrderedBytes) (len : nat) (buf : bytes) (num_packets num_bytes : nat) (left : bytes)
    (k : ConsumeResult -> OrderedBytes -> bytes -> bool) : bool :=
  unwrap (consume_res, ob, buf) := OrderedBytes_consume ob len buf in
  unwrap consume := consume_res in
  assert num_packets_consumed consume == num_packets ;;
  assert bytes_consumed consume == num_bytes ;;
  assert buf == left ;;
  k consume ob buf.

Definition ordered_bytes_consume_behaves_as_expected (start_packet_num : Z) : bool :=
  let ob := OrderedBytes_new 0x0 start_packet_num in
  assert is_err_and (OrderedBytes_peek ob) BufferEmptyError ;;
  unwrap security_fields := BluefinSecurityFields_new false 0x0 in
  let header := BluefinHeader_new 0x0 0x0 UnencryptedData 0 security_fields in
  arrives ob header (u64_add start_packet_num 1) false (fun ob =>
  arrives ob header (u64_add start_packet_num 2) false (fun ob =>
  arrives ob header (u64_add start_packet_num 3) false (fun ob =>
  arrives ob header (u64_add start_packet_num 5) false (fun ob =>
  arrives ob header start_packet_num true (fun ob =>
  reads ob 1 (replicate 10 0%Z) 1 1 [1; 0; 0; 0; 0; 0; 0; 0; 0; 0]%Z (fun consume ob buf =>
  assert base_packet_number consume == start_packet_num ;;
  reads ob 1 buf 0 1 [2; 0; 0; 0; 0; 0; 0; 0; 0; 0]%Z (fun _ ob buf =>
  reads ob 3 buf 1 3 [3; 1; 2; 0; 0; 0; 0; 0; 0; 0]%Z (fun _ ob buf =>
  reads ob 4 buf 1 4 [3; 1; 2; 3; 0; 0; 0; 0; 0; 0]%Z (fun _ ob _ =>
  reads ob 10 (replicate 10 0%Z) 1 3 [1; 2; 3; 0; 0; 0; 0; 0; 0; 0]%Z (fun _ ob buf =>
  assert is_err_and (OrderedBytes_peek ob) BufferEmptyError ;;
  unwrap (consume_res, _, _) := OrderedBytes_consume ob 1 buf in
  is_err consume_res)))))))))).

(** ** The reassembly buffer as a list of slots *)

(** [ob] expects [n], holds [l] from there on and has [c] left over. *)
Definition shows (ob : OrderedBytes) (n : Z) (l : list (option BluefinPacket)) (c : option bytes) : Prop :=
  exists s, holds ob s /\ rs_next s = n /\ rs_carry s = c /\ length l < MAX_BUFFER_SIZE /\
    forall i, rs_held s !! (n + Z.of_nat i)%Z = mjoin (l !! i).

Definition fill (i : nat) (p : BluefinPacket) (l : list (option BluefinPacket)) : list (option BluefinPacket) :=
  <[i := Some p]> (l ++ replicate (S i - length l) None).

Lemma fill_lookup i p l j : mjoin (fill i p l !! j) = if decide (j = i) then Some p else mjoin (l !! j).
Proof.
  unfold fill. case_decide as Hj.
  - subst j. rewrite list_lookup_insert_eq; [done|]. rewrite length_app, length_replicate. lia.
  - rewrite list_lookup_insert_ne by done. destruct (decide (j < length l)) as [Hl|Hl].
    + by rewrite lookup_app_l.
    + rewrite lookup_app_r, (lookup_ge_None_2 l j) by lia.
      destruct (replicate _ _ !! _) as [o|] eqn:Ho; [|done]. by apply lookup_replicate in Ho as [-> _].
Qed.

Lemma in_order_ready held most n l :
  (forall i, held !! (n + Z.of_nat i)%Z = mjoin (l !! i)) -> length l < most -> in_order held n most = ready l.
Proof.
  revert n l. induction most as [|most IH]; intros n l Hl Hlen; [lia|]. cbn [in_order].
  pose proof (Hl 0) as H0. rewrite Z.add_0_r in H0. rewrite H0. destruct l as [|[p|] l]; [done| |done].
  cbn [ready mjoin option_join lookup list_lookup]. simpl. f_equal. apply IH; [|simpl in Hlen; lia].
  intros i. specialize (Hl (S i)). simpl in Hl. rewrite <- Hl. f_equal. lia.
Qed.

Lemma shows_ready s n l : rs_next s = n -> length l < MAX_BUFFER_SIZE ->
  (forall i, rs_held s !! (n + Z.of_nat i)%Z = mjoin (l !! i)) -> rs_ready s = ready l.
Proof. intros <- Hl Hi. by apply in_order_ready. Qed.

Section Shows.
Context (ob : OrderedBytes) (n : Z) (l : list (option BluefinPacket)) (c : option bytes).
Hypothesis Hob : shows ob n l c.

Lemma shows_peek :
  OrderedBytes_peek ob = if decide (c = None /\ ready l = []) then Err BufferEmptyError else Ok tt.
Proof using Hob.
  destruct Hob as (s & Hh & <- & <- & Hlen & Hl). rewrite (holds_peek ob s Hh). unfold rs_peek.
  pose proof (Hl 0) as H0. rewrite Z.add_0_r in H0. rewrite H0. destruct l as [|[p|] l']; simpl;
    repeat case_decide; naive_solver.
Qed.

Lemma shows_arrival p i :
  packet_number (header p) = (n + Z.of_nat i)%Z -> (0 <= n)%Z -> (n + Z.of_nat i < 2 ^ 64 - 1)%Z ->
  S i < MAX_BUFFER_SIZE -> mjoin (l !! i) = None ->
  exists ob', OrderedBytes_buffer_in_packet ob p = (Ok tt, ob') /\ shows ob' n (fill i p l) c.
Proof using Hob.
  intros Hp Hn Hmax Hi Hfree. destruct Hob as (s & Hh & Hnext & Hc & Hlen & Hl).
  destruct (holds_buffer ob s p Hh ltac:(lia)) as (r & ob' & -> & -> & Hh' & _). exists ob'.
  assert (Hb : rs_buffer s p = (Ok tt, {| rs_next := rs_next s; rs_held := <[(n + Z.of_nat i)%Z := p]> (rs_held s);
                                          rs_carry := rs_carry s |})).
  { unfold rs_buffer. rewrite Hp, Hl, Hfree. rewrite !decide_False by lia. done. }
  rewrite Hb in *. split; [done|]. eexists. split; [exact Hh'|]. cbn [rs_next rs_held rs_carry snd].
  split_and!; [done|done| |].
  - unfold fill. rewrite length_insert, length_app, length_replicate. lia.
  - intros j. rewrite fill_lookup. case_decide as Hj; [subst j; by rewrite lookup_insert_eq|].
    rewrite lookup_insert_ne by lia. apply Hl.
Qed.

(** What is left of the carried bytes is handed out first. *)
Lemma shows_carry len buf cs :
  c = Some cs -> len < length cs -> len <= length buf ->
  exists ob', OrderedBytes_consume ob len buf =
      Ok (Ok {| num_packets_consumed := 0; base_packet_number := 0; bytes_consumed := len |}, ob',
          take len cs ++ drop len buf) /\
    shows ob' n l (Some (drop len cs)).
Proof using Hob.
  intros Hcs Hlt Hbuf. destruct Hob as (s & Hh & Hnext & Hc & Hlen & Hl).
  pose proof (holds_consume ob s len buf Hh Hbuf) as H. unfold rs_consume in H. rewrite Hc, Hcs in H.
  cbn [from_option id] in H. rewrite decide_True in H by done. destruct H as (ob' & -> & Hh'). exists ob'.
  rewrite length_take, Nat.min_l by lia. split; [done|]. eexists. split; [exact Hh'|]. done.
Qed.

Lemma shows_read len buf k bs c' :
  length (default [] c) <= len <= length buf -> default [] c ++ bs <> [] ->
  drain (len - length (default [] c)) (ready l) = (k, bs, c') ->
  exists ob' b, OrderedBytes_consume ob len buf =
      Ok (Ok {| num_packets_consumed := k; base_packet_number := b; bytes_consumed := length (default [] c ++ bs) |}, ob',
          (default [] c ++ bs) ++ drop (length (default [] c ++ bs)) buf) /\
    (ready l <> [] -> b = n) /\ shows ob' (n + Z.of_nat k) (drop k l) c'.
Proof using Hob.
  intros Hlens Hne Hd. destruct Hob as (s & Hh & Hnext & Hc & Hlen & Hl).
  pose proof (holds_consume ob s len buf Hh ltac:(lia)) as H. unfold rs_consume in H. rewrite Hc in H.
  rewrite (shows_ready s n l Hnext Hlen Hl), Hd in H. rewrite decide_False in H by lia. rewrite decide_False in H by done.
  destruct H as (ob' & -> & Hh'). exists ob', (rs_base s). split; [done|]. split.
  - intros Hr. unfold rs_base. pose proof (Hl 0) as H0. rewrite Z.add_0_r, <- Hnext in H0. rewrite H0.
    destruct l as [|[p|] l']; simpl in *; done.
  - eexists. split; [exact Hh'|]. cbn [released rs_next rs_held rs_carry]. rewrite Hnext. split_and!; [done|done| |].
    + rewrite length_drop. lia.
    + intros i. rewrite lookup_drop, <- Hl. replace (n + Z.of_nat (k + i))%Z with (n + Z.of_nat k + Z.of_nat i)%Z by lia.
      destruct (rs_held s !! _) as [p|] eqn:Hp.
      * apply map_lookup_filter_Some. split; [done|]. simpl. lia.
      * apply map_lookup_filter_None. by left.
Qed.

Lemma shows_nothing len buf :
  c = None -> ready l = [] -> len <= length buf ->
  exists ob', OrderedBytes_consume ob len buf = Ok (Err BufferEmptyError, ob', buf).
Proof using Hob.
  intros Hcn Hr Hbuf. destruct Hob as (s & Hh & Hnext & Hc & Hlen & Hl).
  pose proof (holds_consume ob s len buf Hh Hbuf) as H. unfold rs_consume in H. rewrite Hc, Hcn in H.
  rewrite (shows_ready s n l Hnext Hlen Hl), Hr in H. cbn [from_option length drain app] in H.
  rewrite decide_False in H by lia. destruct H as (ob' & H & _). rewrite decide_True in H by done. by exists ob'.
Qed.
End Shows.

Lemma shows_new conn_id start : is_u64 start -> shows (OrderedBytes_new conn_id start) start [] None.
Proof. intros Hs. exists (rs_new start). split_and!; [by apply holds_new|done|done|apply MAX_BUFFER_SIZE_pos|done]. Qed.

Lemma drain_part n p ps :
  0 < n < length (payload p) -> drain n (p :: ps) = (1, take n (payload p), Some (drop n (payload p))).
Proof. intros Hn. cbn [drain]. by rewrite decide_False, decide_True by lia. Qed.

Lemma take_some (n : nat) (l : bytes) : 0 < n <= length l -> take n l <> [].
Proof. intros Hn He. apply (f_equal length) in He. rewrite length_take in He. simpl in He. lia. Qed.

Lemma security_plain : BluefinSecurityFields_new false 0x0 = Ok BluefinSecurityFields_default.
Proof. reflexivity. Qed.

Lemma build_packet_ok h bs : build_packet h bs = Ok {| header := h; payload := bs |}.
Proof. reflexivity. Qed.

(** An assertion of a test. *)
Ltac checked := apply andb_true_intro; split; [try first [done | apply bool_decide_eq_true_2; try done]|].

Lemma consumed_ok base k m n :
  n = m -> consumed {| num_packets_consumed := k; base_packet_number := base; bytes_consumed := n |} base k m = true.
Proof. intros ->. unfold consumed. cbn. by rewrite !bool_decide_true. Qed.

Lemma carry_over_test start payload second_payload :
  (0 <= start < 2 ^ 64 - 2)%Z -> length payload = 1500 -> length second_payload = 1500 ->
  ordered_bytes_carry_over_behaves_as_expected start payload second_payload = true.
Proof.
  intros Hs Hp1 Hp2. unfold ordered_bytes_carry_over_behaves_as_expected.
  assert (Hu : u64_add start 1 = (start + 1)%Z) by (apply u64_add_small; int_lia). rewrite Hu, security_plain, !build_packet_ok.
  pose proof (shows_new 0 start ltac:(int_lia)) as H0. set (ob0 := OrderedBytes_new 0 start) in *.
  rewrite (shows_peek _ _ _ _ H0), decide_True by done. checked.
  set (h := BluefinHeader_with_packet_number _ start).
  destruct (shows_arrival _ _ _ _ H0 {| header := h; payload := payload |} 0) as (ob1 & -> & H1);
    [simpl; lia|lia|lia|unfold MAX_BUFFER_SIZE; lia|done|]. checked. cbn in H1.
  destruct (shows_read _ _ _ _ H1 100 (replicate 100 0%Z) 1 (take 100 payload) (Some (drop 100 payload)))
    as (ob2 & b & -> & Hb & H2); [rewrite length_replicate; simpl; lia|apply take_some; lia|apply drain_part; simpl; lia|].
  rewrite Hb by done. cbn [from_option app].
  rewrite length_take, Nat.min_l, (drop_ge (replicate _ _)), app_nil_r by (rewrite ?length_replicate; lia).
  checked; [by apply consumed_ok|]. checked; [by rewrite take_take|].
  set (h2 := BluefinHeader_with_packet_number _ (start + 1)).
  destruct (shows_arrival _ _ _ _ H2 {| header := h2; payload := second_payload |} 0) as (ob3 & -> & H3);
    [simpl; lia|lia|lia|unfold MAX_BUFFER_SIZE; lia|done|]. checked. cbn in H3.
  destruct (shows_carry _ _ _ _ H3 100 (take 100 payload) (drop 100 payload)) as (ob4 & -> & H4);
    [done|rewrite length_drop; lia|rewrite length_take; lia|].
  rewrite (drop_ge (take _ _)), app_nil_r by (rewrite length_take; lia). checked.
  checked; [by rewrite take_take|]. rewrite drop_drop in H4. cbn [Nat.add] in H4.
  destruct (shows_read _ _ _ _ H4 1400 (replicate 1400 0%Z) 1 (take 100 second_payload) (Some (drop 100 second_payload)))
    as (ob5 & b' & -> & Hb' & _); cbn [from_option id];
    [rewrite length_replicate, length_drop; lia| |rewrite length_drop, Hp1; apply drain_part; simpl; lia|].
  { intros [_ He]%app_nil. by apply take_some in He; [|lia]. }
  rewrite Hb' by done. rewrite length_app, length_drop, length_take, Hp1, Nat.min_l by lia.
  rewrite (drop_ge (replicate _ _)), app_nil_r by (rewrite length_replicate; lia).
  checked; [by apply consumed_ok|].
  rewrite take_app_length', drop_app_length' by (rewrite length_drop; lia). checked. by rewrite bool_decide_true.
Qed.

Lemma arrives_ok ob n l c header m i flag k :
  shows ob n l c -> m = (n + Z.of_nat i)%Z -> (0 <= n)%Z -> (n + Z.of_nat i < 2 ^ 64 - 1)%Z -> S i < MAX_BUFFER_SIZE ->
  mjoin (l !! i) = None -> c = None ->
  let p := {| header := BluefinHeader_with_packet_number header m; payload := [1; 2; 3]%Z |} in
  bool_decide (ready (fill i p l) <> []) = flag ->
  (forall ob', shows ob' n (fill i p l) None -> k ob' = true) ->
  arrives ob header m flag k = true.
Proof.
  intros Hob -> Hn Hmax Hi Hfree -> p Hflag Hk. unfold arrives. rewrite build_packet_ok.
  destruct (shows_arrival _ _ _ _ Hob p i) as (ob' & Hb & Hob'); [done..|]. unfold p in Hb at 1. rewrite Hb. checked.
  rewrite (shows_peek _ _ _ _ Hob'). checked; [|by apply Hk]. rewrite <- Hflag.
  destruct (decide (ready (fill i p l) = [])) as [He|He].
  - rewrite bool_decide_false, decide_True by (done || tauto). done.
  - rewrite bool_decide_true, decide_False by (done || tauto). done.
Qed.

Lemma reads_ok ob n l c len buf num_packets num_bytes left k bs c' :
  shows ob n l c -> length (default [] c) <= len <= length buf -> default [] c ++ bs <> [] ->
  drain (len - length (default [] c)) (ready l) = (num_packets, bs, c') ->
  length (default [] c ++ bs) = num_bytes -> (default [] c ++ bs) ++ drop num_bytes buf = left ->
  (forall b ob', (ready l <> [] -> b = n) -> shows ob' (n + Z.of_nat num_packets) (drop num_packets l) c' ->
     k {| num_packets_consumed := num_packets; base_packet_number := b; bytes_consumed := num_bytes |} ob' left = true) ->
  reads ob len buf num_packets num_bytes left k = true.
Proof.
  intros Hob Hlen Hne Hd <- <- Hk. unfold reads.
  destruct (shows_read _ _ _ _ Hob len buf _ _ _ Hlen Hne Hd) as (ob' & b & -> & Hb & Hob').
  do 3 checked. by apply Hk.
Qed.

Lemma reads_carry ob n l cs len buf left k :
  shows ob n l (Some cs) -> len < length cs -> len <= length buf -> take len cs ++ drop len buf = left ->
  (forall ob', shows ob' n l (Some (drop len cs)) ->
     k {| num_packets_consumed := 0; base_packet_number := 0; bytes_consumed := len |} ob' left = true) ->
  reads ob len buf 0 len left k = true.
Proof.
  intros Hob Hlt Hlen <- Hk. unfold reads.
  destruct (shows_carry _ _ _ _ Hob len buf cs eq_refl Hlt Hlen) as (ob' & -> & Hob'). do 3 checked. by apply Hk.
Qed.

(** The packet [i] after the expected one arrives. *)
Ltac arrival i H H' :=
  eapply (arrives_ok _ _ _ _ _ _ i);
    [exact H|lia|lia|lia|unfold MAX_BUFFER_SIZE; lia|done|done|done|intros ? H'; cbv beta; cbn in H'].

(** A read that takes whole what was carried over. *)
Ltac reading H b Hb H' :=
  eapply reads_ok;
    [exact H|cbn; lia| |reflexivity|reflexivity|reflexivity|intros b ? Hb H'; cbv beta; cbn in H']; [done|].

Lemma consume_test start :
  (0 <= start < 2 ^ 64 - 6)%Z -> ordered_bytes_consume_behaves_as_expected start = true.
Proof.
  intros Hs. unfold ordered_bytes_consume_behaves_as_expected. rewrite security_plain.
  assert (Hu : forall i, (0 <= i <= 5)%Z -> u64_add start i = (start + i)%Z) by (intros; apply u64_add_small; int_lia).
  rewrite !Hu by lia. pose proof (shows_new 0 start ltac:(int_lia)) as H0.
  rewrite (shows_peek _ _ _ _ H0), decide_True by done. checked.
  arrival 1 H0 H1. arrival 2 H1 H2. arrival 3 H2 H3. arrival 5 H3 H4. arrival 0 H4 H5.
  reading H5 b Hb H6. rewrite Hb by done. checked.
  eapply reads_carry; [exact H6|cbn; lia|cbn; lia|reflexivity|intros ob7 H7; cbv beta; cbn in H7].
  reading H7 b1 Hb1 H8. reading H8 b2 Hb2 H9. reading H9 b3 Hb3 H10.
  rewrite (shows_peek _ _ _ _ H10), decide_True by done. checked.
  destruct (shows_nothing _ _ _ _ H10 1 [1; 2; 3; 0; 0; 0; 0; 0; 0; 0]%Z) as (ob8 & ->); [done|done|cbn; lia|done].
Qed.

(** ** The tests of the packet parser *)

Lemma invalid_bytes_test payload :
  length payload = 32 -> cannot_deserialise_invalid_bytes_into_bluefin_packets payload = true.
Proof. intros Hl. do 32 (destruct payload as [|? payload]; [done|]). destruct payload; [|done]. vm_compute. reflexivity. Qed.

Lemma same_shown_all ps : forallb (fun '(expected, actual) => same_shown expected actual) (zip ps ps) = true.
Proof. induction ps as [|p ps IH]; [done|]. cbn. rewrite IH. unfold same_shown. by rewrite !bool_decide_true. Qed.

Lemma multiple_packets_test payload32 payload20 payload15 :
  length payload32 = 32 -> length payload20 = 20 -> length payload15 = 15 ->
  Forall is_u8 payload32 -> Forall is_u8 payload20 -> Forall is_u8 payload15 ->
  able_to_deserialise_bytes_into_multiple_bluefin_packets_correctly payload32 payload20 payload15 = true.
Proof.
  intros H32 H20 H15 U32 U20 U15. unfold able_to_deserialise_bytes_into_multiple_bluefin_packets_correctly.
  destruct (six_packets payload32 payload20 payload15) as [ps| | |] eqn:Hps; [|done..].
  injection Hps as <-. set (ps := [_; _; _; _; _; _]). fold (datagram ps).
  assert (Hlen : length (datagram ps) = 32 + 20 + 15 + 6 * 20).
  { unfold ps. rewrite !datagram_cons, !length_app, !length_BluefinPacket_serialise. cbn [payload length datagram map concat]. lia. }
  checked. rewrite from_bytes_datagram; [|done| |].
  - checked. apply same_shown_all.
  - assert (Hd : forall h bs, wf_header h -> type_field h = UnencryptedData ->
      type_specific_payload h = Z.of_nat (length bs) -> Forall is_u8 bs -> framed {| header := h; payload := bs |}).
    { intros h bs Hw Ht Hs Hb. split_and!; [done..|]. cbn. by rewrite Ht. }
    repeat (apply Forall_cons_2;
      [first [apply Hd; [apply (bool_decide_unpack _); vm_compute; exact I|done|cbn; lia|done]
             |apply (bool_decide_unpack _); vm_compute; exact I]|]). apply Forall_nil_2.
  - intros p [= <-] [_ He]. cbn in He. by rewrite He in H15.
Qed.

(** ** All of them *)

(** The repository's unit tests of the codecs, the window, the ring buffer, the
    reassembly buffer, the close state and the receive worker hold of the model:
    the fixed ones by evaluation, those that draw a first packet number for each
    below 2^64 - 6 and those that draw payloads for each of their length. *)
Theorem unit_tests_pass start payload second_payload payload32 payload20 payload15 :
  (0 <= start < 2 ^ 64 - 6)%Z -> length payload = 1500 -> length second_payload = 1500 ->
  length payload32 = 32 -> length payload20 = 20 -> length payload15 = 15 ->
  Forall is_u8 payload32 -> Forall is_u8 payload20 -> Forall is_u8 payload15 ->
  Forall (fun test => test = true)
    (fixed_tests ++
     [cannot_deserialise_invalid_bytes_into_bluefin_packets payload32;
      able_to_deserialise_bytes_into_multiple_bluefin_packets_correctly payload32 payload20 payload15;
      ordered_bytes_carry_over_behaves_as_expected start payload second_payload;
      ordered_bytes_consume_behaves_as_expected start]).
Proof.
  intros Hs H1 H2 H32 H20 H15 U32 U20 U15. apply Forall_app_2.
  - apply Forall_forall. intros t Ht%list_elem_of_In. apply (proj1 (forallb_forall _ _) fixed_tests_hold t Ht).
  - repeat (apply Forall_cons_2; [|]); [..|apply Forall_nil_2].
    + by apply invalid_bytes_test.
    + by apply multiple_packets_test.
    + apply carry_over_test; [lia|done..].
    + by apply consume_test.
Qed.

Lemma unit_tests_pass_witness :
  Forall (fun test => test = true) fixed_tests /\
  ordered_bytes_consume_behaves_as_expected 17 = true.
Proof.
  assert (Hu8 : forall n, Forall is_u8 (replicate n 7%Z)) by (intros n; apply Forall_replicate; int_lia).
  pose proof (unit_tests_pass 17 (replicate 1500 3%Z) (replicate 1500 5%Z) (replicate 32 7%Z) (replicate 20 7%Z)
    (replicate 15 7%Z) ltac:(lia) (length_replicate _ _) (length_replicate _ _) eq_refl eq_refl eq_refl
    (Hu8 32) (Hu8 20) (Hu8 15)) as H.
  apply Forall_app in H as [H1 H2]. split; [exact H1|]. apply Forall_cons in H2 as [_ H2].
  apply Forall_cons in H2 as [_ H2]. apply Forall_cons in H2 as [_ H2]. by apply Forall_cons in H2 as [H2 _].
Defined.
