(* ===== verification/WriterTests.v ===== *)
(** * The repository's tests of the packetisers on the model

    The [#[cfg(test)]] and [#[cfg(kani)]] modules of
    src/bluefin/src/worker/writer.rs, written like the tests of UnitTests.v.
    The cases a test lists are its arguments, and the theorems hold for all of
    them that its first assertions admit. *)
From stdpp Require Import base numbers list option strings.
From S2P Require Import Prelude Proto Header Packet OrderedBytes Close Net Packetiser Writer Acks UnitTests.
Local Open Scope test_scope.

(** ** worker/writer.rs *)

(** [a.div_ceil(b)]. *)
Definition div_ceil (a b : nat) : nat := if decide (0 < a mod b) then a / b + 1 else a / b.

Definition kani_writer_queue_consume_empty_data_behaves_as_expected (next_packet_num src dst : Z) : bool :=
  let prev := next_packet_num in
  unwrap (consume_res, _, next_packet_num) := WriterHandler_consume_data src dst [] next_packet_num in
  assert consume_res == None ;;
  next_packet_num == prev.

Definition kani_writer_queue_consume_empty_ack_behaves_as_expected (src dst : Z) : bool :=
  unwrap (consume_res, _) := WriterHandler_consume_acks src dst [] in
  consume_res == None.

(** What the tests ask of an ack packet. *)
Definition ack_shows (src dst : Z) (p : BluefinPacket) (base : Z) (num_packets : nat) : bool :=
  assert type_field (header p) == Ack ;;
  assert source_connection_id (header p) == src ;;
  assert destination_connection_id (header p) == dst ;;
  assert Z.to_nat (type_specific_payload (header p)) == num_packets ;;
  packet_number (header p) == base.

Definition writer_queue_consume_ack_for_one_datagram_behaves_as_expected (num_acks : nat) : bool :=
  let expected_byte_size := num_acks * 20 in
  assert expected_byte_size != 0 ;;
  assert expected_byte_size <=? MAX_BLUEFIN_BYTES_IN_UDP_DATAGRAM ;;
  let queue := replicate num_acks {| ack_base_packet_num := 1; ack_num_packets_consumed := 3 |} in
  unwrap (consume_res, queue) := WriterHandler_consume_acks 0xbcd 0x521 queue in
  match consume_res with
  | None => false
  | Some consume =>
      assert length consume == expected_byte_size ;;
      unwrap packets := BluefinPacket_from_bytes consume in
      assert length packets == num_acks ;;
      assert forallb (fun p => assert BluefinPacket_len p == 20 ;; ack_shows 0xbcd 0x521 p 1 3) packets ;;
      unwrap (consume_res, _) := WriterHandler_consume_acks 0x0 0x0 queue in
      consume_res == None
  end.

(** The packets of one datagram of the second ack test: the [ix]-th is the ack
    for [first + ix]. *)
Definition acks_from (src dst : Z) (first : nat) (packets : list BluefinPacket) : bool :=
  forallb (fun '(ix, p) =>
    assert BluefinPacket_len p <=? 20 ;;
    ack_shows src dst p (Z.of_nat (ix + first)) (ix + first + 1)) (zip (seq 0 (length packets)) packets).

(** [while counter <= 10 && consume_res.is_some()]. *)
Fixpoint fetch_acks (rounds : nat) (queue : list AckData) (consume_res : option bytes) (p_num actual_num_acks : nat)
    (k : nat -> bool) : bool :=
  match rounds, consume_res with
  | S rounds, Some consume =>
      unwrap packets := BluefinPacket_from_bytes consume in
      assert acks_from 0x0 0x0 (p_num + 1) packets ;;
      unwrap (consume_res, queue) := WriterHandler_consume_acks 0x0 0x0 queue in
      fetch_acks rounds queue consume_res (p_num + length packets) (actual_num_acks + length packets) k
  | _, _ => k actual_num_acks
  end.

Definition writer_queue_consume_ack_for_multiple_datagrams_behaves_as_expected (num_acks : nat) : bool :=
  let expected_byte_size := num_acks * 20 in
  let num_datagrams := div_ceil expected_byte_size MAX_BLUEFIN_BYTES_IN_UDP_DATAGRAM in
  assert expected_byte_size != 0 ;;
  assert MAX_BLUEFIN_BYTES_IN_UDP_DATAGRAM <? expected_byte_size ;;
  assert (1 <? num_datagrams) && (num_datagrams <=? 10) ;;
  let queue := map (fun ix => {| ack_base_packet_num := Z.of_nat ix; ack_num_packets_consumed := ix + 1 |}) (seq 0 num_acks) in
  unwrap (consume_res, queue) := WriterHandler_consume_acks 0xbcd 0x521 queue in
  match consume_res with
  | None => false
  | Some consume =>
      assert length consume == MAX_BLUEFIN_BYTES_IN_UDP_DATAGRAM ;;
      unwrap packets := BluefinPacket_from_bytes consume in
      assert acks_from 0xbcd 0x521 0 packets ;;
      let p_num := length packets - 1 in
      assert p_num != 0 ;;
      let actual_num_acks := length packets in
      unwrap (consume_res, queue) := WriterHandler_consume_acks 0x0 0x0 queue in
      fetch_acks 11 queue consume_res p_num actual_num_acks (fun actual_num_acks => num_acks == actual_num_acks)
  end.

(** [vec![ix as u8; payload_size]] for each iteration. *)
Definition data_queue (num_iterations payload_size : nat) : list bytes :=
  map (fun ix => replicate payload_size (u8_wrap (Z.of_nat ix))) (seq 0 num_iterations).

(** What the tests ask of a data packet. *)
Definition data_shows (src dst : Z) (p : BluefinPacket) : bool :=
  assert BluefinPacket_len p <=? MAX_BLUEFIN_PAYLOAD_SIZE_BYTES + 20 ;;
  assert type_field (header p) == UnencryptedData ;;
  assert source_connection_id (header p) == src ;;
  assert destination_connection_id (header p) == dst ;;
  Z.to_nat (type_specific_payload (header p)) == length (payload p).

Definition writer_queue_consume_data_for_one_datagram_behaves_as_expected (num_iterations payload_size : nat) : bool :=
  let payload_size_total := num_iterations * payload_size in
  let num_packets_total := div_ceil payload_size_total MAX_BLUEFIN_PAYLOAD_SIZE_BYTES in
  let bytes_total := payload_size_total + 20 * num_packets_total in
  assert bytes_total <=? MAX_BLUEFIN_BYTES_IN_UDP_DATAGRAM ;;
  let queue := data_queue num_iterations payload_size in
  let src_conn_id := 0x123%Z in
  let dst_conn_id := 0xabc%Z in
  unwrap (consume_res, queue, next_packet_num) := WriterHandler_consume_data src_conn_id dst_conn_id queue 0 in
  match consume_res with
  | None => false
  | Some consume =>
      let bluefin_packets_created := div_ceil (num_iterations * payload_size) MAX_BLUEFIN_PAYLOAD_SIZE_BYTES in
      assert bluefin_packets_created != 0 ;;
      assert next_packet_num == Z.of_nat bluefin_packets_created ;;
      assert length consume == num_iterations * payload_size + 20 * bluefin_packets_created ;;
      unwrap packets := BluefinPacket_from_bytes consume in
      assert length packets == bluefin_packets_created ;;
      assert forallb (data_shows src_conn_id dst_conn_id) packets ;;
      assert sum_list (map (fun p => length (payload p)) packets) == num_iterations * payload_size ;;
      assert length consume <=? MAX_BLUEFIN_BYTES_IN_UDP_DATAGRAM ;;
      unwrap (consume_res, _, _) := WriterHandler_consume_data 0x123 0x456 queue next_packet_num in
      consume_res == None
  end.

(** [while counter < 10 && consume_res.is_some()]. *)
Fixpoint fetch_data (rounds : nat) (src dst : Z) (queue : list bytes) (next_packet_num : Z) (consume_res : option bytes)
    (counter : nat) (actual_data : bytes) (k : nat -> bytes -> bool) : bool :=
  match rounds, consume_res with
  | S rounds, Some consume =>
      assert length consume != 0 ;;
      unwrap packets := BluefinPacket_from_bytes consume in
      assert length packets != 0 ;;
      assert forallb (data_shows src dst) packets ;;
      unwrap (consume_res, queue, next_packet_num) := WriterHandler_consume_data src dst queue next_packet_num in
      fetch_data rounds src dst queue next_packet_num consume_res (counter + 1) (actual_data ++ payloads packets) k
  | _, _ => k counter actual_data
  end.

Definition writer_queue_consume_data_for_multiple_datagram_behaves_as_expected (num_iterations payload_size : nat) : bool :=
  let payload_size_total := num_iterations * payload_size in
  let num_packets_total := div_ceil payload_size_total MAX_BLUEFIN_PAYLOAD_SIZE_BYTES in
  let bytes_total := payload_size_total + 20 * num_packets_total in
  assert MAX_BLUEFIN_BYTES_IN_UDP_DATAGRAM <? bytes_total ;;
  let num_datagrams := div_ceil bytes_total MAX_BLUEFIN_BYTES_IN_UDP_DATAGRAM in
  assert (1 <=? num_datagrams) && (num_datagrams <=? 10) ;;
  let queue := data_queue num_iterations payload_size in
  let expected_data := concat queue in
  let src_conn_id := 0x123%Z in
  let dst_conn_id := 0xabc%Z in
  unwrap (consume_res, queue, next_packet_num) := WriterHandler_consume_data src_conn_id dst_conn_id queue 0 in
  match consume_res with
  | None => false
  | Some consume =>
      assert length consume == MAX_BLUEFIN_BYTES_IN_UDP_DATAGRAM ;;
      unwrap packets := BluefinPacket_from_bytes consume in
      assert length packets == MAX_BLUEFIN_PACKETS_IN_UDP_DATAGRAM ;;
      assert forallb (data_shows src_conn_id dst_conn_id) packets ;;
      let actual_data := payloads packets in
      unwrap (consume_res, queue, next_packet_num) :=
        WriterHandler_consume_data src_conn_id dst_conn_id queue next_packet_num in
      fetch_data 10 src_conn_id dst_conn_id queue next_packet_num consume_res 0 actual_data (fun counter actual_data =>
      assert num_datagrams == 1 + counter ;;
      expected_data == actual_data)
  end.

(** ** Counting packets and datagrams *)

Lemma div_ceil_spec a b : 0 < b -> 0 < a -> b * div_ceil a b < a + b /\ a <= b * div_ceil a b.
Proof.
  intros Hb Ha. unfold div_ceil. pose proof (Nat.div_mod a b ltac:(lia)). pose proof (Nat.mod_upper_bound a b ltac:(lia)).
  case_decide; nia.
Qed.

Lemma div_ceil_0 b : 0 < b -> div_ceil 0 b = 0.
Proof. intros Hb. unfold div_ceil. rewrite Nat.Div0.mod_0_l, Nat.Div0.div_0_l. by rewrite decide_False by lia. Qed.

Lemma div_ceil_unique a b c : 0 < b -> 0 < a -> b * c < a + b -> a <= b * c -> div_ceil a b = c.
Proof. intros Hb Ha H1 H2. destruct (div_ceil_spec a b Hb Ha). nia. Qed.

Lemma div_ceil_more a b : 0 < b -> b < a -> div_ceil a b = S (div_ceil (a - b) b).
Proof.
  intros Hb Ha. destruct (div_ceil_spec (a - b) b Hb ltac:(lia)). apply div_ceil_unique; [done|lia|nia|nia].
Qed.

Lemma length_chunks_ceil {A : Type} n (l : list A) : 0 < n -> length (chunks n l) = div_ceil (length l) n.
Proof.
  intros Hn. induction l as [|l Hl IH] using (chunks_ind n Hn); [by rewrite chunks_nil, div_ceil_0|].
  rewrite chunks_step by done. cbn [length]. rewrite IH, length_drop.
  assert (0 < length l) by (destruct l; [done|simpl; lia]). destruct (decide (length l <= n)).
  - replace (length l - n) with 0 by lia. rewrite div_ceil_0 by done. symmetry. apply div_ceil_unique; lia.
  - symmetry. apply div_ceil_more; lia.
Qed.

Lemma sizes_unfolded :
  MAX_BLUEFIN_PAYLOAD_SIZE_BYTES = 1500 /\ DATAGRAM_PAYLOAD = 10 * 1500 /\ MAX_BLUEFIN_BYTES_IN_UDP_DATAGRAM = 10 * 1520 /\
  MAX_BLUEFIN_PACKETS_IN_UDP_DATAGRAM = 10.
Proof. by vm_compute. Qed.

(** ** Data *)

Definition packets_of (src dst pn : Z) (stream : bytes) : list BluefinPacket := numbered src dst pn (cut stream).

Section Datagram.
Context (src dst pn : Z) (stream : bytes).
Hypotheses (Hsrc : is_u32 src) (Hdst : is_u32 dst) (Hu8 : Forall is_u8 stream) (Hne : stream <> []).

Lemma length_packets_of :
  length (packets_of src dst pn stream) = div_ceil (length stream `min` DATAGRAM_PAYLOAD) MAX_BLUEFIN_PAYLOAD_SIZE_BYTES.
Proof using Type.
  unfold packets_of, numbered, cut. rewrite length_imap, length_chunks_ceil by apply PAY_pos. f_equal. rewrite length_take. lia.
Qed.

Lemma payloads_packets_of : payloads (packets_of src dst pn stream) = take DATAGRAM_PAYLOAD stream.
Proof using Type. unfold packets_of. by rewrite payloads_numbered, concat_cut. Qed.

Lemma length_datagram_of :
  length (datagram (packets_of src dst pn stream)) =
    20 * length (packets_of src dst pn stream) + length stream `min` DATAGRAM_PAYLOAD.
Proof using Type.
  unfold packets_of. rewrite length_datagram_numbered, concat_cut, length_take. unfold numbered. rewrite length_imap. lia.
Qed.

Lemma datagram_of_parses : BluefinPacket_from_bytes (datagram (packets_of src dst pn stream)) = Ok (packets_of src dst pn stream).
Proof using Hsrc Hdst Hu8 Hne. by apply packetised_datagram_parses. Qed.

Lemma data_shows_all : forallb (data_shows src dst) (packets_of src dst pn stream) = true.
Proof using Type.
  apply forallb_forall. intros p Hp%list_elem_of_In. apply list_elem_of_lookup in Hp as [i Hp]. apply numbered_lookup in Hp as (c & Hc & ->).
  pose proof (cut_sizes stream) as Hs. rewrite Forall_lookup in Hs. specialize (Hs i c Hc).
  unfold data_shows. checked; [apply Nat.leb_le; unfold BluefinPacket_len; cbn [payload data_pkt]; lia|].
  do 3 checked. apply bool_decide_eq_true_2. cbn. destruct sizes_unfolded as (HP & _). rewrite HP in Hs.
  rewrite u16_wrap_small by int_lia. lia.
Qed.
End Datagram.

(** [consume_data] on any queue. *)
Lemma consume_data_of src dst queue pn :
  is_u64 pn ->
  exists queue', WriterHandler_consume_data src dst queue pn =
      Ok (if decide (concat queue = []) then None else Some (datagram (packets_of src dst pn (concat queue))), queue',
          u64_wrap (pn + Z.of_nat (length (packets_of src dst pn (concat queue))))) /\
    concat queue' = drop DATAGRAM_PAYLOAD (concat queue).
Proof.
  intros Hpn. destruct (consume_data_ok src dst queue pn Hpn) as (queue' & -> & Hd & _). exists queue'. split; [|done].
  unfold packets_of, numbered. by rewrite length_imap.
Qed.

Lemma fetch_data_ok src dst k rounds :
  is_u32 src -> is_u32 dst ->
  forall queue pn counter actual consume_res queue' pn', is_u64 pn -> Forall is_u8 (concat queue) ->
    length (concat queue) <= rounds * DATAGRAM_PAYLOAD ->
    WriterHandler_consume_data src dst queue pn = Ok (consume_res, queue', pn') ->
    fetch_data rounds src dst queue' pn' consume_res counter actual k =
      k (counter + div_ceil (length (concat queue)) DATAGRAM_PAYLOAD) (actual ++ concat queue).
Proof.
  intros Hs Hd. induction rounds as [|rounds IH]; intros queue pn counter actual res queue' pn' Hpn Hu8 Hlen Hc;
    destruct (consume_data_of src dst queue pn Hpn) as (q & Hq & Hdrop); rewrite Hq in Hc; simplify_eq;
    destruct (decide (concat queue = [])) as [He|He].
  - rewrite He, div_ceil_0, Nat.add_0_r, app_nil_r by apply DATAGRAM_PAYLOAD_pos. done.
  - destruct He. apply length_zero_iff_nil. lia.
  - rewrite He, div_ceil_0, Nat.add_0_r, app_nil_r by apply DATAGRAM_PAYLOAD_pos. done.
  - cbn [fetch_data]. set (stream := concat queue) in *. set (ps := packets_of src dst pn stream).
    assert (Hps : 0 < length ps).
    { unfold ps. rewrite length_packets_of. destruct (div_ceil_spec (length stream `min` DATAGRAM_PAYLOAD)
        MAX_BLUEFIN_PAYLOAD_SIZE_BYTES PAY_pos); pose proof DATAGRAM_PAYLOAD_pos;
        (destruct stream; [done|simpl length in *; nia]). }
    rewrite (bool_decide_false (length (datagram ps) = 0)) by (unfold ps; rewrite length_datagram_of; fold ps; lia).
    unfold ps at 1. rewrite datagram_of_parses by done. fold ps. rewrite (bool_decide_false (length ps = 0)) by lia.
    unfold ps at 1. rewrite data_shows_all. fold ps. cbn [negb andb].
    destruct (consume_data_of src dst queue' (u64_wrap (pn + Z.of_nat (length ps))) (u64_wrap_range _)) as (q2 & Hq2 & _).
    rewrite Hq2. erewrite IH; [|apply u64_wrap_range| | |exact Hq2]; rewrite Hdrop.
    + unfold ps. rewrite payloads_packets_of, <- app_assoc, take_drop, length_drop. f_equal. rewrite <- Nat.add_assoc. f_equal.
      destruct (decide (length stream <= DATAGRAM_PAYLOAD)).
      * replace (length stream - DATAGRAM_PAYLOAD) with 0 by lia. pose proof DATAGRAM_PAYLOAD_pos.
        assert (0 < length stream) by (destruct stream; [done|simpl; lia]).
        rewrite div_ceil_0 by done. symmetry. apply div_ceil_unique; lia.
      * rewrite (div_ceil_more (length stream)) by (pose proof DATAGRAM_PAYLOAD_pos; lia). lia.
    + by apply Forall_drop.
    + rewrite length_drop. lia.
Qed.

(** An assertion of a test, left to be proved without running it. *)
Ltac asserted := apply andb_true_intro; split; [try apply bool_decide_eq_true_2|].

Lemma length_data_queue n size : length (concat (data_queue n size)) = n * size.
Proof.
  unfold data_queue. rewrite length_concat, map_map. rewrite (map_ext _ (fun _ => size)) by (intros; apply length_replicate).
  generalize 0. induction n as [|n IH]; intros i; [done|]. cbn. by rewrite IH.
Qed.

Lemma data_queue_u8 n size : Forall is_u8 (concat (data_queue n size)).
Proof.
  apply Forall_concat, Forall_map, Forall_forall. intros i _. apply Forall_replicate.
  unfold is_u8, in_range, u8_wrap. apply Z.mod_pos_bound. lia.
Qed.

Lemma sum_payloads ps : sum_list (map (fun p => length (payload p)) ps) = length (payloads ps).
Proof. unfold payloads. rewrite length_concat, map_map. done. Qed.

(** The size of the datagrams a stream is sent in, headers included, against
    the size of the stream. *)
Lemma datagrams_needed T :
  0 < T ->
  let total := T + 20 * div_ceil T MAX_BLUEFIN_PAYLOAD_SIZE_BYTES in
  div_ceil total MAX_BLUEFIN_BYTES_IN_UDP_DATAGRAM = div_ceil T DATAGRAM_PAYLOAD /\
  (total <= MAX_BLUEFIN_BYTES_IN_UDP_DATAGRAM <-> T <= DATAGRAM_PAYLOAD).
Proof.
  intros HT total. destruct sizes_unfolded as (HP & HD & HM & _). unfold total. rewrite HP, HD, HM.
  pose proof (div_ceil_spec T 1500 ltac:(lia) HT). pose proof (div_ceil_spec T (10 * 1500) ltac:(lia) HT).
  split; [apply div_ceil_unique; lia|lia].
Qed.

Lemma one_datagram_test n size :
  0 < n * size -> n * size <= DATAGRAM_PAYLOAD ->
  writer_queue_consume_data_for_one_datagram_behaves_as_expected n size = true.
Proof.
  intros HT Hfit. unfold writer_queue_consume_data_for_one_datagram_behaves_as_expected.
  destruct (datagrams_needed (n * size) HT) as [_ Hle]. asserted; [by apply Nat.leb_le, Hle|].
  pose proof (length_data_queue n size) as Hlen. pose proof (data_queue_u8 n size) as Hu8.
  destruct (consume_data_of 0x123 0xabc (data_queue n size) 0 ltac:(int_lia)) as (queue' & -> & Hdrop).
  set (stream := concat (data_queue n size)) in *.
  assert (Hne : stream <> []) by (intros He; rewrite He in Hlen; simpl in Hlen; lia).
  rewrite decide_False by done. set (ps := packets_of 0x123 0xabc 0 stream).
  assert (Hps : length ps = div_ceil (n * size) MAX_BLUEFIN_PAYLOAD_SIZE_BYTES).
  { unfold ps. rewrite length_packets_of, Hlen. f_equal. lia. }
  rewrite <- Hps. pose proof (div_ceil_spec (n * size) MAX_BLUEFIN_PAYLOAD_SIZE_BYTES PAY_pos HT) as Hdc. rewrite <- Hps in Hdc.
  destruct sizes_unfolded as (HP & HD & HM & _). rewrite HP in Hdc.
  asserted; [rewrite bool_decide_false; [done|lia]|].
  asserted; [rewrite u64_wrap_small; [done|int_lia]|].
  asserted; [unfold ps; rewrite length_datagram_of, Hlen; fold ps; lia|].
  unfold ps at 1. rewrite datagram_of_parses by (exact Hu8 || exact Hne || int_lia). fold ps. asserted; [reflexivity|].
  asserted; [apply data_shows_all|].
  asserted; [rewrite sum_payloads; unfold ps; rewrite payloads_packets_of, length_take; lia|].
  asserted; [apply Nat.leb_le, datagram_size_bound|].
  destruct (consume_data_of 0x123 0x456 queue' (u64_wrap (0 + Z.of_nat (length ps))) (u64_wrap_range _)) as (q2 & -> & _).
  rewrite decide_True; [done|]. rewrite Hdrop. apply drop_ge. lia.
Qed.

Lemma multiple_datagram_test n size :
  DATAGRAM_PAYLOAD < n * size -> n * size <= 10 * DATAGRAM_PAYLOAD ->
  writer_queue_consume_data_for_multiple_datagram_behaves_as_expected n size = true.
Proof.
  intros HT Hmax. unfold writer_queue_consume_data_for_multiple_datagram_behaves_as_expected.
  pose proof DATAGRAM_PAYLOAD_pos as Hpos. destruct (datagrams_needed (n * size) ltac:(lia)) as [Hcount Hle].
  asserted; [apply Nat.ltb_lt; lia|]. rewrite Hcount.
  pose proof (div_ceil_spec (n * size) DATAGRAM_PAYLOAD Hpos ltac:(lia)) as Hdc.
  asserted; [apply andb_true_intro; split; apply Nat.leb_le; nia|].
  pose proof (length_data_queue n size) as Hlen. pose proof (data_queue_u8 n size) as Hu8.
  destruct (consume_data_of 0x123 0xabc (data_queue n size) 0 ltac:(int_lia)) as (queue' & -> & Hdrop).
  set (stream := concat (data_queue n size)) in *.
  assert (Hne : stream <> []) by (intros He; rewrite He in Hlen; simpl in Hlen; lia).
  rewrite decide_False by done. set (ps := packets_of 0x123 0xabc 0 stream).
  destruct sizes_unfolded as (HP & HD & HM & HN).
  assert (Hps : length ps = 10).
  { unfold ps. rewrite length_packets_of, Hlen, Nat.min_r, HP, HD by lia. reflexivity. }
  asserted; [unfold ps; rewrite length_datagram_of; fold ps; rewrite Hps, Hlen, HM; lia|].
  unfold ps at 1. rewrite datagram_of_parses by (exact Hu8 || exact Hne || int_lia). fold ps. asserted; [exact Hps|]. asserted; [apply data_shows_all|].
  destruct (consume_data_of 0x123 0xabc queue' (u64_wrap (0 + Z.of_nat (length ps))) (u64_wrap_range _)) as (q2 & Hq2 & _).
  rewrite Hq2. erewrite fetch_data_ok; [|int_lia|int_lia|apply u64_wrap_range| | |exact Hq2]; rewrite Hdrop.
  - unfold ps. rewrite payloads_packets_of, take_drop, length_drop, Hlen, div_ceil_more by lia. asserted; [reflexivity|].
    by rewrite bool_decide_true.
  - by apply Forall_drop.
  - rewrite length_drop. lia.
Qed.

(** ** Acknowledgements *)

Lemma acks_fitting_all : acks_fitting 0 = 760.
Proof. by vm_compute. Qed.

Lemma consume_acks_of src dst queue :
  WriterHandler_consume_acks src dst queue =
    Ok (if decide (queue = []) then None else Some (ack_dg src dst (take 760 queue)), drop 760 queue).
Proof. rewrite <- acks_fitting_all. apply consume_acks_functional. Qed.

Lemma length_ack_dg src dst g : length (ack_dg src dst g) = 20 * length g.
Proof.
  unfold ack_dg. induction g as [|a g IH]; [done|]. cbn [map]. rewrite datagram_cons, length_app, IH.
  rewrite length_BluefinPacket_serialise. cbn [payload ack_pkt length]. lia.
Qed.

Lemma ack_dg_parses src dst g :
  is_u32 src -> is_u32 dst -> g <> [] -> Forall ack_valid g ->
  BluefinPacket_from_bytes (ack_dg src dst g) = Ok (map (ack_pkt src dst) g).
Proof.
  intros Hs Hd Hne Hg. apply from_bytes_datagram; [by destruct g| |].
  - apply Forall_map. eapply Forall_impl; [exact Hg|]. intros a Ha. by apply ack_pkt_framed.
  - intros p Hp [Ht _]. change (last (ack_pkt src dst <$> g) = Some p) in Hp. rewrite fmap_last in Hp.
    destruct (last g); [|done]. by injection Hp as <-.
Qed.

Lemma ack_shows_ok src dst a base k :
  ack_base_packet_num a = base -> ack_num_packets_consumed a = k -> (Z.of_nat k < 2 ^ 16)%Z ->
  ack_shows src dst (ack_pkt src dst a) base k = true.
Proof.
  intros Hb Hk Hlt. unfold ack_shows. do 3 checked. asserted; [|by apply bool_decide_eq_true_2].
  cbn. rewrite u16_wrap_small by int_lia. lia.
Qed.

Definition one_ack (ix : nat) : AckData := {| ack_base_packet_num := Z.of_nat ix; ack_num_packets_consumed := ix + 1 |}.

Lemma acks_from_ok src dst first m :
  (Z.of_nat (first + m) < 2 ^ 16)%Z ->
  acks_from src dst first (map (ack_pkt src dst) (map one_ack (seq first m))) = true.
Proof.
  intros Hlt. unfold acks_from. apply forallb_forall. intros [ix p] Hin%list_elem_of_In.
  apply list_elem_of_lookup in Hin as [i Hi]. rewrite lookup_zip_with in Hi.
  destruct (seq 0 _ !! i) as [j|] eqn:Hj; [|done]. apply lookup_seq in Hj as [-> Hj]. cbn [mbind option_bind] in Hi.
  destruct (map _ _ !! i) as [q|] eqn:Hq; [|done]. cbn in Hi. injection Hi as <- <-.
  rewrite map_map in Hq. apply list_lookup_fmap_Some in Hq as (x & -> & Hx). apply lookup_seq in Hx as [-> Hx].
  checked. apply ack_shows_ok; cbn; lia.
Qed.

Lemma acks_valid first m :
  (Z.of_nat (first + m) < 2 ^ 16)%Z -> Forall ack_valid (map one_ack (seq first m)).
Proof.
  intros Hlt. apply Forall_map, Forall_forall. intros i Hi%elem_of_seq. unfold ack_valid, one_ack. cbn. lia.
Qed.

Lemma take_acks first m : take 760 (map one_ack (seq first m)) = map one_ack (seq first (760 `min` m)).
Proof. by rewrite <- fmap_take, take_seq. Qed.

Lemma drop_acks first m : drop 760 (map one_ack (seq first m)) = map one_ack (seq (first + 760) (m - 760)).
Proof. by rewrite <- fmap_drop, drop_seq. Qed.

Lemma fetch_acks_ok k rounds : forall first m p_num actual,
  first = p_num + 1 -> (Z.of_nat (first + m) < 2 ^ 16)%Z -> m <= rounds * 760 ->
  fetch_acks rounds (drop 760 (map one_ack (seq first m)))
    (if decide (map one_ack (seq first m) = []) then None else Some (ack_dg 0x0 0x0 (take 760 (map one_ack (seq first m)))))
    p_num actual k = k (actual + m).
Proof.
  induction rounds as [|rounds IH]; intros first m p_num actual -> Hlt Hm.
  - destruct m; [|lia]. cbn. by rewrite Nat.add_0_r.
  - destruct (decide (m = 0)) as [->|Hm0]; [cbn; by rewrite Nat.add_0_r|].
    rewrite decide_False by (destruct m; done). cbn [fetch_acks].
    rewrite take_acks, ack_dg_parses; [|int_lia|int_lia|destruct m; [done|by destruct (760 `min` S m) eqn:?; [lia|]]|].
    2: { apply acks_valid. lia. }
    rewrite acks_from_ok by lia. cbn [andb]. rewrite consume_acks_of, drop_acks.
    rewrite !length_map, length_seq. destruct (decide (m <= 760)) as [Hle|Hgt].
    + replace (m - 760) with 0 by lia. rewrite Nat.min_r by lia. by destruct rounds.
    + rewrite Nat.min_l by lia. rewrite IH by lia. f_equal. lia.
Qed.

Lemma acks_one_datagram_test num_acks :
  0 < num_acks <= 760 -> writer_queue_consume_ack_for_one_datagram_behaves_as_expected num_acks = true.
Proof.
  intros Hn. unfold writer_queue_consume_ack_for_one_datagram_behaves_as_expected.
  destruct sizes_unfolded as (_ & _ & HM & _). set (a := {| ack_base_packet_num := 1; ack_num_packets_consumed := 3 |}).
  asserted; [rewrite bool_decide_false by lia; done|]. asserted; [apply Nat.leb_le; lia|].
  rewrite consume_acks_of, decide_False, take_ge by (try rewrite length_replicate; try lia; by destruct num_acks; [lia|]).
  asserted; [rewrite length_ack_dg, length_replicate; lia|].
  rewrite ack_dg_parses; [|int_lia|int_lia|by destruct num_acks; [lia|]|apply Forall_replicate; unfold ack_valid; cbn; lia].
  asserted; [by rewrite length_map, length_replicate|]. asserted.
  - apply forallb_forall. intros p [b [<- Hb%list_elem_of_In%elem_of_replicate]]%in_map_iff. destruct Hb as [-> _].
    checked. by apply ack_shows_ok.
  - rewrite consume_acks_of, decide_True; [done|]. apply drop_ge. rewrite length_replicate. lia.
Qed.

Lemma acks_multiple_datagrams_test num_acks :
  760 < num_acks -> num_acks <= 10 * 760 ->
  writer_queue_consume_ack_for_multiple_datagrams_behaves_as_expected num_acks = true.
Proof.
  intros Hn Hmax. unfold writer_queue_consume_ack_for_multiple_datagrams_behaves_as_expected.
  destruct sizes_unfolded as (_ & _ & HM & _).
  pose proof (div_ceil_spec (num_acks * 20) MAX_BLUEFIN_BYTES_IN_UDP_DATAGRAM ltac:(lia) ltac:(lia)) as Hdc.
  asserted; [rewrite bool_decide_false by lia; done|]. asserted; [apply Nat.ltb_lt; lia|].
  asserted; [rewrite HM in Hdc |- *; apply andb_true_intro; split; [apply Nat.ltb_lt|apply Nat.leb_le]; lia|].
  change (fun ix => {| ack_base_packet_num := Z.of_nat ix |}) with one_ack.
  rewrite consume_acks_of, take_acks, Nat.min_l, drop_acks by lia.
  rewrite decide_False by (by destruct num_acks; [lia|]).
  apply andb_true_intro; split; [apply bool_decide_eq_true_2; rewrite length_ack_dg, length_map, length_seq; lia|].
  rewrite ack_dg_parses; [|int_lia|int_lia|done|apply acks_valid; lia].
  apply andb_true_intro; split; [apply acks_from_ok; lia|]. rewrite !length_map, length_seq. asserted; [reflexivity|].
  rewrite consume_acks_of, fetch_acks_ok by lia. apply bool_decide_eq_true_2. lia.
Qed.

Lemma kani_empty_data_test pn src dst :
  is_u64 pn -> kani_writer_queue_consume_empty_data_behaves_as_expected pn src dst = true.
Proof.
  intros Hpn. unfold kani_writer_queue_consume_empty_data_behaves_as_expected.
  destruct (consume_data_of src dst [] pn Hpn) as (q & -> & _). rewrite decide_True by done. checked.
  apply bool_decide_eq_true_2. cbn. rewrite Z.add_0_r. by apply u64_wrap_small.
Qed.

Lemma kani_empty_ack_test src dst : kani_writer_queue_consume_empty_ack_behaves_as_expected src dst = true.
Proof. done. Qed.

(** ** The cases the tests list *)

Definition ack_one_datagram_cases : list nat := [550; 1; 10; 760].
Definition ack_multiple_datagrams_cases : list nat := [1000; 761; 1234; 763; 2000].

Definition data_one_datagram_cases : list (Z * Z) :=
  [(6, 550); (20, 700); (1, 10000); (2, 5000); (1, 15000); (1, 1); (10000, 1); (5555, 1); (5432, 2); (100, 100);
   (57, 57); (55, 56); (3, 2000); (10, 123)]%Z.

Definition data_multiple_datagram_cases : list (Z * Z) :=
  [(30, 550); (1, 15200); (15200, 1); (577, 43); (2, 15200); (5, 15200); (1, 15001); (87, 292); (9, 15001);
   (1, 150000); (432, 234)]%Z.

Lemma one_case n size :
  (0 <= n)%Z -> (0 < n * size <= 15000)%Z ->
  writer_queue_consume_data_for_one_datagram_behaves_as_expected (Z.to_nat n) (Z.to_nat size) = true.
Proof.
  intros Hn Hle. destruct sizes_unfolded as (_ & HD & _). apply one_datagram_test; rewrite <- Z2Nat.inj_mul by nia; lia.
Qed.

Lemma multiple_case n size :
  (0 <= n)%Z -> (15000 < n * size <= 150000)%Z ->
  writer_queue_consume_data_for_multiple_datagram_behaves_as_expected (Z.to_nat n) (Z.to_nat size) = true.
Proof.
  intros Hn Hle. destruct sizes_unfolded as (_ & HD & _). apply multiple_datagram_test; rewrite <- Z2Nat.inj_mul by nia; lia.
Qed.

Lemma listed_cases_hold :
  Forall (fun '(n, size) =>
    writer_queue_consume_data_for_one_datagram_behaves_as_expected (Z.to_nat n) (Z.to_nat size) = true)
    data_one_datagram_cases /\
  Forall (fun '(n, size) =>
    writer_queue_consume_data_for_multiple_datagram_behaves_as_expected (Z.to_nat n) (Z.to_nat size) = true)
    data_multiple_datagram_cases /\
  Forall (fun n => writer_queue_consume_ack_for_one_datagram_behaves_as_expected n = true) ack_one_datagram_cases /\
  Forall (fun n => writer_queue_consume_ack_for_multiple_datagrams_behaves_as_expected n = true)
    ack_multiple_datagrams_cases.
Proof.
  split_and!.
  - repeat (apply Forall_cons_2; [apply one_case; lia|]). apply Forall_nil_2.
  - repeat (apply Forall_cons_2; [apply multiple_case; lia|]). apply Forall_nil_2.
  - repeat (apply Forall_cons_2; [apply acks_one_datagram_test; lia|]). apply Forall_nil_2.
  - repeat (apply Forall_cons_2; [apply acks_multiple_datagrams_test; lia|]). apply Forall_nil_2.
Qed.

(** ** Properties *)

(** C17: the repository's tests of the packetisers hold for every number and size
    of sends and every number of acks that their first assertions admit, not
    only for the cases they list: one datagram holds what fits and nothing is
    left, more takes the number of datagrams the size asks for, ten packets in
    each full one, every packet parses back with its type, ids, number and
    length, and the bytes of all of them are the bytes sent.  The two proof
    harnesses for empty queues hold for all their inputs. *)
Theorem packetiser_tests_pass num_iterations payload_size num_acks :
  let payload_size_total := num_iterations * payload_size in
  let bytes_total := payload_size_total + 20 * div_ceil payload_size_total MAX_BLUEFIN_PAYLOAD_SIZE_BYTES in
  let ack_bytes := num_acks * 20 in
  (0 < payload_size_total -> bytes_total <= MAX_BLUEFIN_BYTES_IN_UDP_DATAGRAM ->
   writer_queue_consume_data_for_one_datagram_behaves_as_expected num_iterations payload_size = true) /\
  (MAX_BLUEFIN_BYTES_IN_UDP_DATAGRAM < bytes_total -> div_ceil bytes_total MAX_BLUEFIN_BYTES_IN_UDP_DATAGRAM <= 10 ->
   writer_queue_consume_data_for_multiple_datagram_behaves_as_expected num_iterations payload_size = true) /\
  (0 < ack_bytes <= MAX_BLUEFIN_BYTES_IN_UDP_DATAGRAM ->
   writer_queue_consume_ack_for_one_datagram_behaves_as_expected num_acks = true) /\
  (MAX_BLUEFIN_BYTES_IN_UDP_DATAGRAM < ack_bytes -> div_ceil ack_bytes MAX_BLUEFIN_BYTES_IN_UDP_DATAGRAM <= 10 ->
   writer_queue_consume_ack_for_multiple_datagrams_behaves_as_expected num_acks = true) /\
  (forall next_packet_num src dst, is_u64 next_packet_num ->
   kani_writer_queue_consume_empty_data_behaves_as_expected next_packet_num src dst = true) /\
  (forall src dst, kani_writer_queue_consume_empty_ack_behaves_as_expected src dst = true).
Proof.
  cbv zeta. destruct sizes_unfolded as (HP & HD & HM & _). split_and!.
  - intros HT Hle. apply one_datagram_test; [done|]. by apply datagrams_needed.
  - intros Hgt H10. assert (HT : 0 < num_iterations * payload_size).
    { destruct (num_iterations * payload_size); [|lia]. rewrite div_ceil_0 in Hgt by apply PAY_pos. lia. }
    destruct (datagrams_needed _ HT) as [Hc Hle]. rewrite Hc in H10.
    pose proof (div_ceil_spec _ DATAGRAM_PAYLOAD DATAGRAM_PAYLOAD_pos HT) as Hd. rewrite HD in *.
    apply multiple_datagram_test; rewrite HD; lia.
  - intros Hle. apply acks_one_datagram_test. lia.
  - intros Hgt H10. pose proof (div_ceil_spec (num_acks * 20) MAX_BLUEFIN_BYTES_IN_UDP_DATAGRAM ltac:(lia) ltac:(lia)).
    apply acks_multiple_datagrams_test; rewrite HM in *; lia.
  - exact kani_empty_data_test.
  - exact kani_empty_ack_test.
Qed.

Lemma packetiser_tests_pass_witness :
  writer_queue_consume_data_for_one_datagram_behaves_as_expected 6 550 = true /\
  writer_queue_consume_data_for_multiple_datagram_behaves_as_expected 577 43 = true /\
  writer_queue_consume_ack_for_one_datagram_behaves_as_expected 550 = true /\
  writer_queue_consume_ack_for_multiple_datagrams_behaves_as_expected 1000 = true.
Proof.
  assert (Hmore := datagrams_needed (577 * 43) ltac:(lia)). destruct sizes_unfolded as (HP & HD & HM & _).
  assert (H1 := div_ceil_spec (577 * 43) DATAGRAM_PAYLOAD DATAGRAM_PAYLOAD_pos ltac:(lia)).
  assert (H2 := div_ceil_spec (1000 * 20) MAX_BLUEFIN_BYTES_IN_UDP_DATAGRAM ltac:(lia) ltac:(lia)).
  rewrite HD in H1. rewrite HM in H2.
  pose proof (packetiser_tests_pass 6 550 550) as (Hone & _ & Hack & _ & _).
  pose proof (packetiser_tests_pass 577 43 1000) as (_ & Hmany & _ & Hacks & _).
  split; [|split; [|split]].
  - apply Hone; [lia|]. apply (datagrams_needed (6 * 550)); lia.
  - apply Hmany; [lia|]. rewrite (proj1 Hmore), HD. lia.
  - apply Hack. lia.
  - apply Hacks; [lia|]. rewrite HM. lia.
Defined.
