(* ===== verification/Tasks.v ===== *)
(** * The tasks of an endpoint

    Which tasks an endpoint and its connections start ([build_and_start_tx],
    [build_and_start_conn_reader_tx_channels] and
    [build_and_start_ack_consumer_workers] of src/bluefin/src/net/mod.rs,
    [ConnReaderHandler::start] of src/bluefin/src/worker/conn_reader.rs,
    [WriterHandler::start] of src/bluefin/src/worker/writer.rs,
    [BluefinConnection::new] of src/bluefin/src/net/connection.rs), and how the
    several receive tasks of a connection work together: each parses what it
    receives and hands it through one channel to the task that buffers it. *)
From stdpp Require Import base numbers list option strings.
From S2P Require Import Prelude Proto Header Packet Window OrderedBytes Close Buffers Net ConnReader Packetiser Writer Io Handshake Transfer.

(** ** What is spawned *)

Inductive task : Type :=
  | ReaderTx (id : Z)              (* [ReaderTxChannel::run] *)
  | AckConsumerTask                (* [AckConsumer::run] *)
  | WriterPump                     (* [read_data] *)
  | WriterSender                   (* the task [read_data] starts *)
  | WriterAck                      (* [read_ack] *)
  | FinAckSender                   (* the drainer of [fin_ack_rx] *)
  | ConnInline                     (* [recv_and_buffer_inline] *)
  | ConnTx                         (* [tx_impl] *)
  | ConnRx.                        (* [rx_impl] *)

#[export] Instance task_eq_dec : EqDecision task.
Proof. solve_decision. Defined.

Definition DEFAULT_NUMBER_OF_TASKS_TO_SPAWN : nat := 3.

(** [cores]: what [available_parallelism] returns, a [NonZeroUsize] or an error. *)
Definition get_number_of_tx_tasks (tgt : target) (cores : option positive) : nat :=
  match tgt, cores with
  | Linux, Some num_cpu_cores => Pos.to_nat num_cpu_cores
  | MacOS, _ => 1
  | _, _ => DEFAULT_NUMBER_OF_TASKS_TO_SPAWN
  end.

Definition ConnReaderHandler_start (tgt : target) (cores : option positive) : list task :=
  let n := get_number_of_tx_tasks tgt cores in
  if n =? 1 then [ConnInline] else replicate n ConnTx ++ [ConnRx].

Definition build_and_start_conn_reader_tx_channels : target -> option positive -> list task :=
  ConnReaderHandler_start.

Definition build_and_start_ack_consumer_workers (num_ack_consumer_workers : nat) : list task :=
  replicate num_ack_consumer_workers AckConsumerTask.

(** The ids of [for id in 0..num_tx_workers]. *)
Definition build_and_start_tx (num_tx_workers : Z) : list task :=
  map ReaderTx (seqZ 0 num_tx_workers).

Definition WriterHandler_start_tasks : list task := [WriterPump; WriterSender; WriterAck].

(** A connection whose socket could be made. *)
Definition BluefinConnection_new_tasks (tgt : target) (cores : option positive) : list task :=
  build_and_start_ack_consumer_workers 1 ++ WriterHandler_start_tasks ++ [FinAckSender] ++
  build_and_start_conn_reader_tx_channels tgt cores.

(** The two places that start routing workers. *)
Definition BluefinServer_bind_tasks (s : BluefinServer) (socket : BluefinResult unit) : list task :=
  match socket with Ok _ => build_and_start_tx (sv_num_reader_workers s) | _ => [] end.

Definition BluefinClient_connect_tasks (c : BluefinClient) (d : connect_draws) (socket : BluefinResult unit) :
    list task :=
  match socket, HandshakeHandler_begin (fst (draw_begin d)) (snd (draw_begin d)) (cl_handshake_handler c) with
  | Ok _, (Ok _, _) => build_and_start_tx (cl_num_reader_workers c)
  | _, _ => []
  end.

(** ** Several receive tasks *)

Definition CHANNEL_CAPACITY : nat := 1024.

(** Where a [tx_impl] task is: in [recv], in [tx.send(..).await], or returned. *)
Inductive tx_state : Type :=
  | TxRecv
  | TxSend (packets : list BluefinPacket)
  | TxEnded.

(** [pl_rx] is [None] once the buffering task has panicked: the channel is then
    closed and what is sent is dropped. *)
Record pool : Type := {
  pl_tx : list tx_state;
  pl_channel : list (list BluefinPacket);
  pl_rx : option ConnShared;
  pl_effects : list effect;
}.

Definition pool_start (n : nat) (s : ConnShared) : pool :=
  {| pl_tx := replicate n TxRecv; pl_channel := []; pl_rx := Some s; pl_effects := [] |}.

Inductive pool_action : Type :=
  | PoolRecv (i : nat) (answer : option bytes)      (* [None]: [recv] failed *)
  | PoolSend (i : nat)
  | PoolBuffer.

Definition with_tx (p : pool) (i : nat) (t : tx_state) : pool :=
  {| pl_tx := <[i := t]> (pl_tx p); pl_channel := pl_channel p; pl_rx := pl_rx p; pl_effects := pl_effects p |}.

(** [None]: the action is not enabled. *)
Definition pool_step (env : reader_env) (p : pool) (a : pool_action) : option pool :=
  match a with
  | PoolRecv i answer =>
      match pl_tx p !! i with
      | Some TxRecv =>
          Some (with_tx p i match answer with
                            | Some dg => match tx_impl_round dg with
                                         | Some packets => TxSend packets
                                         | None => TxEnded
                                         end
                            | None => TxEnded
                            end)
      | _ => None
      end
  | PoolSend i =>
      match pl_tx p !! i, pl_rx p with
      | Some (TxSend packets), Some _ =>
          if length (pl_channel p) <? CHANNEL_CAPACITY then
            Some {| pl_tx := <[i := TxRecv]> (pl_tx p); pl_channel := pl_channel p ++ [packets];
                    pl_rx := pl_rx p; pl_effects := pl_effects p |}
          else None
      | Some (TxSend _), None => Some (with_tx p i TxRecv)
      | _, _ => None
      end
  | PoolBuffer =>
      match pl_rx p, pl_channel p with
      | Some s, packets :: rest =>
          match rx_impl_round env s packets with
          | (Some s', evs) => Some {| pl_tx := pl_tx p; pl_channel := rest; pl_rx := Some s';
                                      pl_effects := pl_effects p ++ evs |}
          | (None, evs) => Some {| pl_tx := pl_tx p; pl_channel := []; pl_rx := None;
                                   pl_effects := pl_effects p ++ evs |}
          end
      | _, _ => None
      end
  end.

Fixpoint pool_run (env : reader_env) (p : pool) (acts : list pool_action) : option pool :=
  match acts with
  | [] => Some p
  | a :: acts => p ← pool_step env p a; pool_run env p acts
  end.

(** The datagrams the tasks have received. *)
Definition pool_received (acts : list pool_action) : list bytes :=
  omap (fun a => match a with PoolRecv _ answer => answer | _ => None end) acts.

(** Nothing is on its way from a receive task to the buffers. *)
Definition pool_quiet (p : pool) : bool :=
  forallb (fun t => match t with TxSend _ => false | _ => true end) (pl_tx p) &&
  match pl_channel p with [] => true | _ => false end.

(** ** The single task on the same datagrams *)

Lemma inline_task_app env s l1 l2 :
  inline_task env s (l1 ++ l2) =
    match inline_task env s l1 with
    | (Some s1, e1) => let '(r, e2) := inline_task env s1 l2 in (r, e1 ++ e2)
    | (None, e1) => (None, e1)
    end.
Proof.
  revert s. induction l1 as [|d l1 IH]; intros s; cbn [app inline_task]; [by destruct (inline_task env s l2)|].
  destruct (recv_and_buffer_inline_round env s d) as [[s1|] e]; [|done]. rewrite IH.
  destruct (inline_task env s1 l1) as [[s2|] e1]; [|done].
  destruct (inline_task env s2 l2) as [r e2]. by rewrite app_assoc.
Qed.

(** A datagram with a header of a reserved type: it ends any receive task. *)
Definition parse_panics (dg : bytes) : Prop := fst (BluefinPacket_from_bytes_into dg []) = Panic.

Lemma inline_round_parsed env s dg packets :
  tx_impl_round dg = Some packets -> recv_and_buffer_inline_round env s dg = rx_impl_round env s packets.
Proof.
  unfold tx_impl_round, recv_and_buffer_inline_round, rx_impl_round.
  destruct (BluefinPacket_from_bytes_into dg []) as [[]]; try done. by intros [= ->].
Qed.

Lemma from_bytes_into_fuel dg ps :
  Forall is_u8 dg -> fst (BluefinPacket_from_bytes_into dg ps) <> NoFuel.
Proof.
  intros H. pose proof (from_bytes_into_spec dg ps H) as Hs.
  destruct (BluefinPacket_from_bytes dg); [by rewrite Hs|destruct Hs as [? ->]; done|by rewrite Hs|done].
Qed.

Lemma inline_round_malformed env s dg :
  Forall is_u8 dg -> ~ parse_panics dg -> tx_impl_round dg = None ->
  recv_and_buffer_inline_round env s dg = (Some s, []).
Proof.
  intros Hu Hp. pose proof (from_bytes_into_fuel dg [] Hu) as Hf.
  unfold parse_panics in Hp. unfold tx_impl_round, recv_and_buffer_inline_round.
  by destruct (BluefinPacket_from_bytes_into dg []) as [[]].
Qed.

(** ** The invariant

    [order] is the order in which the datagrams handled so far have taken
    effect; [chan] and [held] are the datagrams whose packets are in the
    channel and in the hands of the receive tasks. *)
Definition tx_holds (t : tx_state) (h : option bytes) : Prop :=
  match t, h with
  | TxSend packets, Some dg => tx_impl_round dg = Some packets
  | TxSend _, None => False
  | _, _ => h = None
  end.

Record pool_inv (env : reader_env) (s : ConnShared) (received : list bytes) (p : pool)
    (order chan : list bytes) (held : list (option bytes)) : Prop := {
  pi_all : order ++ chan ++ omap id held ≡ₚ received;
  pi_run : inline_task env s order = (pl_rx p, pl_effects p);
  pi_chan : map tx_impl_round chan = map Some (pl_channel p);
  pi_held : Forall2 tx_holds (pl_tx p) held;
}.

Lemma pool_inv_start env n s : pool_inv env s [] (pool_start n s) [] [] (replicate n None).
Proof.
  constructor; cbn; [|done|done|by apply Forall2_replicate].
  by replace (omap id (replicate n (None (A := bytes)))) with ([] : list bytes) by (by induction n).
Qed.

(** A slot that gets or gives a datagram. *)
Lemma held_put (held : list (option bytes)) i dg :
  held !! i = Some None -> omap id (<[i := Some dg]> held) ≡ₚ dg :: omap id held.
Proof.
  intros Hi. pose proof (lookup_lt_Some _ _ _ Hi). rewrite insert_take_drop by done.
  rewrite <- (take_drop_middle held i None Hi) at 3. rewrite !omap_app. cbn [omap list_omap id].
  by rewrite Permutation_middle.
Qed.

Lemma held_take (held : list (option bytes)) i dg :
  held !! i = Some (Some dg) -> omap id held ≡ₚ dg :: omap id (<[i := None]> held).
Proof.
  intros Hi. pose proof (lookup_lt_Some _ _ _ Hi) as Hlt.
  rewrite <- (held_put (<[i := None]> held) i dg) by by apply list_lookup_insert_eq.
  rewrite list_insert_insert_eq. by rewrite list_insert_id.
Qed.

Lemma held_none (held : list (option bytes)) i :
  held !! i = Some None -> omap id (<[i := None]> held) = omap id held.
Proof. intros Hi. by rewrite list_insert_id. Qed.

(** The run on more datagrams: after a panic they change nothing, and one that
    does not parse changes nothing at all. *)
Lemma inline_task_ended env s order more effects :
  inline_task env s order = (None, effects) -> inline_task env s (order ++ more) = (None, effects).
Proof. intros H. by rewrite inline_task_app, H. Qed.

Lemma inline_task_snoc env s order dg s1 e1 :
  inline_task env s order = (Some s1, e1) ->
  inline_task env s (order ++ [dg]) =
    (fst (recv_and_buffer_inline_round env s1 dg), e1 ++ snd (recv_and_buffer_inline_round env s1 dg)).
Proof.
  intros H. rewrite inline_task_app, H. cbn [inline_task].
  destruct (recv_and_buffer_inline_round env s1 dg) as [[s2|] e2]; cbn [fst snd]; by rewrite ?app_nil_r.
Qed.

Section Step.
Context (env : reader_env) (s : ConnShared) (received : list bytes) (p : pool)
  (order chan : list bytes) (held : list (option bytes)).
Hypothesis Hinv : pool_inv env s received p order chan held.

Lemma held_at i t : pl_tx p !! i = Some t -> exists h, held !! i = Some h /\ tx_holds t h.
Proof using Hinv. intros Hi. exact (Forall2_lookup_l _ _ _ _ _ (pi_held _ _ _ _ _ _ _ Hinv) Hi). Qed.

Lemma pool_inv_recv i packets dg :
  pl_tx p !! i = Some TxRecv -> tx_impl_round dg = Some packets ->
  pool_inv env s (received ++ [dg]) (with_tx p i (TxSend packets)) order chan (<[i := Some dg]> held).
Proof using Hinv.
  intros Hi Hp. destruct (held_at i _ Hi) as (h & Hh & ->). destruct Hinv as [Hall Hrun Hchan Hheld].
  constructor; [|done|done|by apply Forall2_insert].
  rewrite held_put by done. rewrite <- Hall. solve_Permutation.
Qed.

Lemma pool_inv_ended i :
  pl_tx p !! i = Some TxRecv -> pool_inv env s received (with_tx p i TxEnded) order chan (<[i := None]> held).
Proof using Hinv.
  intros Hi. destruct (held_at i _ Hi) as (h & Hh & ->). destruct Hinv as [Hall Hrun Hchan Hheld].
  constructor; [by rewrite held_none|done|done|by apply Forall2_insert].
Qed.

Lemma pool_inv_dropped dg :
  Forall is_u8 dg -> ~ parse_panics dg -> tx_impl_round dg = None ->
  pool_inv env s (received ++ [dg]) p (order ++ [dg]) chan held.
Proof using Hinv.
  intros Hu Hp Hd. destruct Hinv as [Hall Hrun Hchan Hheld]. constructor; [|..]; try done.
  - rewrite <- Hall. solve_Permutation.
  - destruct (pl_rx p) as [s1|]; [|by apply inline_task_ended].
    rewrite (inline_task_snoc _ _ _ _ s1 (pl_effects p)) by done.
    rewrite inline_round_malformed by done. cbn [fst snd]. by rewrite app_nil_r.
Qed.

Lemma pool_inv_send i p' :
  pool_step env p (PoolSend i) = Some p' ->
  exists order' chan' held', pool_inv env s received p' order' chan' held'.
Proof using Hinv.
  cbn [pool_step]. destruct (pl_tx p !! i) as [[|packets|]|] eqn:Hi; [destruct (pl_rx p); done| |destruct (pl_rx p); done..].
  destruct (held_at i _ Hi) as (h & Hh & Hmatch). destruct h as [dg|]; [|done]. cbn [tx_holds] in Hmatch.
  destruct Hinv as [Hall Hrun Hchan Hheld]. pose proof (held_take held i dg Hh) as Htake.
  destruct (pl_rx p) as [s1|] eqn:Hrx.
  - destruct (_ <? _); [|done]. intros [= <-].
    exists order, (chan ++ [dg]), (<[i := None]> held). constructor; cbn [pl_rx pl_effects pl_channel pl_tx].
    + rewrite <- Hall, Htake. solve_Permutation.
    + exact Hrun.
    + by rewrite !map_app, Hchan; cbn [map]; rewrite Hmatch.
    + by apply Forall2_insert.
  - intros [= <-]. exists (order ++ [dg]), chan, (<[i := None]> held).
    constructor; [|by rewrite (inline_task_ended _ _ _ _ (pl_effects p)); [cbn; rewrite Hrx|]|done|by apply Forall2_insert].
    rewrite <- Hall, Htake. solve_Permutation.
Qed.

Lemma pool_inv_buffer p' :
  pool_step env p PoolBuffer = Some p' ->
  exists order' chan' held', pool_inv env s received p' order' chan' held'.
Proof using Hinv.
  cbn [pool_step]. destruct Hinv as [Hall Hrun Hchan Hheld].
  destruct (pl_rx p) as [s1|]; [|done]. destruct (pl_channel p) as [|packets rest] eqn:Hc; [done|].
  destruct chan as [|dg chan']; [done|]. injection Hchan as Hdg Hrest.
  pose proof (inline_task_snoc env s order dg s1 (pl_effects p) Hrun) as Hsnoc.
  rewrite (inline_round_parsed env s1 dg packets Hdg) in Hsnoc.
  destruct (rx_impl_round env s1 packets) as [[s2|] e2]; intros [= <-]; cbn [fst snd] in Hsnoc.
  - exists (order ++ [dg]), chan', held. constructor; cbn [pl_rx pl_effects pl_channel pl_tx]; try done.
    rewrite <- Hall. solve_Permutation.
  - exists ((order ++ [dg]) ++ chan'), [], held. constructor; cbn [pl_rx pl_effects pl_channel pl_tx]; try done.
    + rewrite <- Hall. solve_Permutation.
    + by apply inline_task_ended.
Qed.
End Step.

Lemma pool_inv_step env s received p order chan held a p' :
  pool_inv env s received p order chan held -> pool_step env p a = Some p' ->
  Forall (fun dg => tx_impl_round dg = None -> Forall is_u8 dg /\ ~ parse_panics dg) (pool_received [a]) ->
  exists order' chan' held', pool_inv env s (received ++ pool_received [a]) p' order' chan' held'.
Proof.
  intros Hinv Hstep Hok. destruct a as [i answer|i|].
  - cbn [pool_step] in Hstep. destruct (pl_tx p !! i) as [[| |]|] eqn:Hi; try done. injection Hstep as <-.
    destruct answer as [dg|]; cbn [pool_received omap list_omap] in *.
    + apply Forall_cons in Hok as [Hok _]. destruct (tx_impl_round dg) as [packets|] eqn:Hdg.
      * do 3 eexists. by apply pool_inv_recv.
      * destruct (Hok eq_refl) as [Hu Hp]. do 3 eexists. apply pool_inv_ended; [|done].
        by apply pool_inv_dropped.
    + rewrite app_nil_r. do 3 eexists. by apply pool_inv_ended.
  - rewrite app_nil_r. by apply (pool_inv_send _ _ _ _ _ _ _ Hinv i).
  - rewrite app_nil_r. by apply (pool_inv_buffer _ _ _ _ _ _ _ Hinv).
Qed.

Lemma pool_inv_run env s acts received p order chan held p' :
  pool_inv env s received p order chan held -> pool_run env p acts = Some p' ->
  Forall (fun dg => tx_impl_round dg = None -> Forall is_u8 dg /\ ~ parse_panics dg) (pool_received acts) ->
  exists order' chan' held', pool_inv env s (received ++ pool_received acts) p' order' chan' held'.
Proof.
  revert received p order chan held. induction acts as [|a acts IH]; intros received p order chan held Hinv Hrun Hok.
  - injection Hrun as <-. cbn. rewrite app_nil_r. eauto.
  - cbn [pool_run] in Hrun. destruct (pool_step env p a) as [p1|] eqn:Hstep; [|done]. cbn [mbind option_bind] in Hrun.
    change (a :: acts) with ([a] ++ acts) in *. unfold pool_received in *. rewrite omap_app in *.
    apply Forall_app in Hok as [Hok1 Hok2].
    destruct (pool_inv_step _ _ _ _ _ _ _ a p1 Hinv Hstep Hok1) as (o & c & h & Hinv1).
    rewrite app_assoc. by apply (IH _ _ _ _ _ Hinv1).
Qed.

(** Nothing on its way. *)
Lemma pool_inv_quiet env s received p order chan held :
  pool_inv env s received p order chan held -> pool_quiet p = true -> order ≡ₚ received.
Proof.
  intros [Hall _ Hchan Hheld] Hq. apply andb_prop in Hq as [Htx Hch].
  destruct (pl_channel p); [|done]. destruct chan; [|done].
  assert (Hnone : omap id held = []).
  { clear -Htx Hheld. induction Hheld as [|t h ts hs Hth _ IH]; [done|]. cbn [forallb] in Htx.
    apply andb_prop in Htx as [Ht Htx]. destruct t; [| |]; cbn in *; [subst h; by apply IH|done|subst h; by apply IH]. }
  rewrite Hnone, !app_nil_r in Hall. done.
Qed.

Lemma pool_order env n s acts p :
  pool_run env (pool_start n s) acts = Some p -> pool_quiet p = true ->
  Forall (fun dg => tx_impl_round dg = None -> Forall is_u8 dg /\ ~ parse_panics dg) (pool_received acts) ->
  exists order, order ≡ₚ pool_received acts /\ inline_task env s order = (pl_rx p, pl_effects p).
Proof.
  intros Hrun Hq Hok.
  destruct (pool_inv_run env s acts _ _ _ _ _ p (pool_inv_start env n s) Hrun Hok) as (o & c & h & Hinv).
  exists o. split; [by apply (pool_inv_quiet _ _ _ _ _ _ _ Hinv)|apply (pi_run _ _ _ _ _ _ _ Hinv)].
Qed.

(** ** Receive tasks that have ended *)












(** ** Properties *)

(** C20: several receive tasks refine the single one.  However the kernel deals
    the datagrams to them and however they and the buffering task interleave,
    once nothing is on its way the connection and everything emitted are as if
    the single-task loop had received the same datagrams in some order, the
    malformed ones included; no datagram with a reserved type code among them. *)
Theorem pool_refines_inline env n s acts p :
  pool_run env (pool_start n s) acts = Some p -> pool_quiet p = true ->
  Forall (fun dg => Forall is_u8 dg /\ ~ parse_panics dg) (pool_received acts) ->
  exists order, order ≡ₚ pool_received acts /\ inline_task env s order = (pl_rx p, pl_effects p).
Proof.
  intros Hrun Hq Hok. apply (pool_order env n); [done|done|]. eapply Forall_impl; [exact Hok|]. auto.
Qed.

(** Two tasks: one hands a packet over, the other ends on a malformed datagram. *)
Definition pool_sample : list pool_action :=
  [PoolRecv 0 (Some (datagram [sample_packet 1])); PoolRecv 1 (Some [1%Z]); PoolSend 0; PoolBuffer].

Lemma pool_refines_inline_witness :
  exists p order, pool_run sample_env (pool_start 2 sample_shared) pool_sample = Some p /\
    order ≡ₚ pool_received pool_sample /\ inline_task sample_env sample_shared order = (pl_rx p, pl_effects p).
Proof.
  destruct (pool_run sample_env (pool_start 2 sample_shared) pool_sample) as [p|] eqn:Hrun;
    [|vm_compute in Hrun; discriminate].
  assert (Hq : pool_quiet p = true) by (vm_compute in Hrun; injection Hrun as <-; reflexivity).
  assert (Hok : Forall (fun dg => Forall is_u8 dg /\ ~ parse_panics dg) (pool_received pool_sample)).
  { repeat constructor; try (apply (bool_decide_unpack _); vm_compute; exact I);
      intros H; vm_compute in H; discriminate. }
  destruct (pool_refines_inline sample_env 2 sample_shared pool_sample p Hrun Hq Hok) as (order & H1 & H2).
  exists p, order. auto.
Defined.



(** C19: end to end with several receive tasks.  Once [flush] lets the sender go
    on, let every datagram it put on the wire reach one of the peer's receive
    tasks, in any order and any number of times, and let the tasks run in any
    interleaving until nothing is on its way: the buffering task is still
    there, and a read hands the application exactly the bytes that were sent.
    Nothing is read meanwhile, so this is for at most the 2000 packets the
    buffer holds: a packet that finds it full is refused and not sent again. *)
Theorem stream_delivered_to_pool pn src dst acts s env s0 cid n pacts p buf :
  is_u64 pn -> is_u32 src -> is_u32 dst -> Forall is_u8 (accepted_bytes acts) ->
  (Z.of_nat (length (accepted_bytes acts)) < 2 ^ 64)%Z ->
  writer_run (writer_init pn src dst) acts = Some s -> WriterHandler_flush_check (ws_handle s) = true ->
  (pn + Z.of_nat (ws_packets s) < 2 ^ 64)%Z -> ws_packets s <= MAX_BUFFER_SIZE ->
  ordered_bytes (conn_buff s0) = OrderedBytes_new cid pn ->
  pool_run env (pool_start n s0) pacts = Some p -> pool_quiet p = true ->
  (forall dg, dg ∈ pool_received pacts <-> dg ∈ map fst (ws_wire s)) ->
  length (accepted_bytes acts) <= length buf ->
  exists s1 r ob',
    pl_rx p = Some s1 /\
    OrderedBytes_consume (ordered_bytes (conn_buff s1)) (length (accepted_bytes acts)) buf =
      Ok (r, ob', accepted_bytes acts ++ drop (length (accepted_bytes acts)) buf) /\
    available ob' = [].
Proof.
  intros Hpn Hsrc Hdst Hu8 Hlen Hrun Hflush Hroom Hfit Hob Hpool Hq Hd Hbuf.
  destruct (pool_order env n s0 pacts p Hpool Hq) as (order & Hperm & Hinl).
  { apply Forall_forall. intros dg Hdg Hnone. apply Hd in Hdg.
    destruct (wire_parses pn src dst acts s dg) as [ps Hps]; [done..|]. congruence. }
  destruct (delivered_stream pn src dst acts s env s0 cid order buf) as (s1 & evs & r & ob' & Ht & Hc & Ha); try done.
  { intros dg. by rewrite Hperm. }
  exists s1, r, ob'. split; [congruence|done].
Qed.

(** The same datagram at both tasks. *)
Definition pool_twice : list pool_action :=
  let dg := datagram (numbered 1 2 9 [[1; 2; 3]%Z]) in
  [PoolRecv 1 (Some dg); PoolRecv 0 (Some dg); PoolSend 0; PoolSend 1; PoolBuffer; PoolBuffer].

Lemma stream_delivered_to_pool_witness :
  exists p s1 r ob',
    pool_run sample_env (pool_start 2 (with_conn_buff sample_shared (start_at 9))) pool_twice = Some p /\
    pl_rx p = Some s1 /\
    OrderedBytes_consume (ordered_bytes (conn_buff s1)) 3 [0; 0; 0; 0]%Z = Ok (r, ob', [1; 2; 3; 0]%Z) /\
    available ob' = [].
Proof.
  destruct (writer_run (writer_init 9 1 2) small_history) as [s|] eqn:Hrun;
    [|vm_compute in Hrun; discriminate].
  destruct (pool_run sample_env (pool_start 2 (with_conn_buff sample_shared (start_at 9))) pool_twice) as [p|] eqn:Hp;
    [|vm_compute in Hp; discriminate].
  assert (Hq : pool_quiet p = true) by (vm_compute in Hp; injection Hp as <-; reflexivity).
  exists p. pose proof (stream_delivered_to_pool 9 1 2 small_history s sample_env
    (with_conn_buff sample_shared (start_at 9)) 1 2 pool_twice p [0; 0; 0; 0]%Z
    ltac:(int_lia) ltac:(int_lia) ltac:(int_lia)) as H.
  specialize (H ltac:(apply (bool_decide_unpack _); vm_compute; exact I) ltac:(vm_compute; reflexivity) Hrun).
  vm_compute in Hrun. injection Hrun as <-.
  destruct H as (s1 & r & ob' & H1 & H2 & H3); [reflexivity|cbn; int_lia|apply Nat.leb_le; vm_compute; reflexivity|
    reflexivity|exact Hp|exact Hq| |simpl; lia|by exists s1, r, ob'].
  intros dg. cbn [ws_wire map fst]. change (datagram _) with (datagram (numbered 1 2 9 [[1; 2; 3]%Z])).
  unfold pool_twice. cbn [pool_received omap list_omap]. rewrite !elem_of_cons. tauto.
Defined.

Definition count (t : task) (ts : list task) : nat := length (filter (t =.) ts).

Lemma count_app t ts us : count t (ts ++ us) = count t ts + count t us.
Proof. unfold count. by rewrite filter_app, length_app. Qed.

Lemma count_replicate t u n : count t (replicate n u) = if decide (t = u) then n else 0.
Proof.
  unfold count. induction n as [|n IH]; cbn [replicate]; [by destruct (decide (t = u))|].
  rewrite filter_cons. case_decide; cbn [length]; by rewrite IH.
Qed.

(** Every connection has exactly one task that puts packets into its buffers,
    as many that read its socket as [get_number_of_tx_tasks] says, at least
    one, and one of each other kind. *)
Theorem connection_tasks tgt cores :
  let ts := BluefinConnection_new_tasks tgt cores in
  count ConnInline ts + count ConnRx ts = 1 /\
  count ConnInline ts + count ConnTx ts = get_number_of_tx_tasks tgt cores /\
  0 < get_number_of_tx_tasks tgt cores /\
  Forall (fun t => count t ts = 1) [AckConsumerTask; WriterPump; WriterSender; WriterAck; FinAckSender].
Proof.
  cbv zeta. unfold BluefinConnection_new_tasks, build_and_start_conn_reader_tx_channels, ConnReaderHandler_start.
  assert (Hpos : 0 < get_number_of_tx_tasks tgt cores).
  { destruct tgt, cores; cbn; unfold DEFAULT_NUMBER_OF_TASKS_TO_SPAWN; lia. }
  destruct (Nat.eqb_spec (get_number_of_tx_tasks tgt cores) 1) as [->|Hn]; [by repeat constructor|].
  repeat first [split | apply Forall_cons | apply Forall_nil]; try done;
    rewrite !count_app, !count_replicate; cbv -[Nat.add get_number_of_tx_tasks]; lia.
Qed.
