(* ===== verification/Endpoint.v ===== *)
(** * One end of a connection

    Puts the parts of one end of an established connection together: the writer
    with its tasks (Writer.v), the ack task (Acks.v), the receive task
    (ConnReader.v), the consumer of acknowledgements (Buffers.v), the reads of
    the application (Reader.v), [close] and the task that answers FINs
    (Close.v, Connection.v).  Every step of a task is one action; the invariant
    says what is true of an end whatever its peer's datagrams bring, and every
    action keeps it. *)
From stdpp Require Import base numbers list option strings.
From S2P Require Import Prelude Proto Header Packet Window OrderedBytes Close Buffers Net ConnReader Packetiser Writer Reader Routing Handshake Connection Transfer Acks.

(** ** One end *)

Record endpoint : Type := {
  ep_writer : WriterSystem;
  ep_fin : option Z;                  (* the number of the FIN once [close] has sent it *)
  ep_shared : ConnShared;
  ep_rx : ReaderRxChannel;
  ep_ready : bool;                    (* the read future was ready, its body has not run *)
  ep_parked : bool;                   (* the reading task waits to be woken *)
  ep_read : bytes;                    (* what the application has got *)
  ep_eofs : nat;                      (* reads that returned [Ok(0)] *)
  ep_ack_channel : list AckData;      (* from the reads to the ack task *)
  ep_acks : ack_loop;
  ep_largest : Z;                     (* [largest_recv_acked_packet_num] *)
  ep_idle : bool;                     (* the consumer of acknowledgements waits to be woken *)
  ep_requests : list Z;               (* [fin_ack_rx] *)
  ep_answers : list bytes;            (* FIN-ACK datagrams sent *)
  ep_receiving : bool;                (* the receive task has not returned *)
}.

Definition FIN_ACK_CAPACITY : nat := 8.

(** The task that polls a read, and the one that consumes acknowledgements. *)
Definition reader_task : Waker := 0.
Definition consumer_task : Waker := 1.

Definition ep_start (pn src dst : Z) (s : ConnShared) : endpoint :=
  {| ep_writer := writer_init pn src dst; ep_fin := None; ep_shared := s; ep_rx := ReaderRxChannel_new false;
     ep_ready := false; ep_parked := false; ep_read := []; ep_eofs := 0; ep_ack_channel := [];
     ep_acks := ack_loop_init; ep_largest := 0; ep_idle := false; ep_requests := []; ep_answers := []; ep_receiving := true |}.

Definition ep_src (e : endpoint) : Z := wh_src_conn_id (ws_handle (ep_writer e)).
Definition ep_dst (e : endpoint) : Z := wh_dst_conn_id (ws_handle (ep_writer e)).

(** Everything this end has given to its socket; a FIN that is sent again is
    the same datagram, and one that could not be sent is one that is lost. *)
Definition ep_fins (e : endpoint) : list bytes :=
  match ep_fin e with
  | Some pn => option_list (fst <$> ok_of (WriterHandler_send_fin (ws_handle (ep_writer e)) pn (Ok tt)))
  | None => []
  end.

Definition ep_sent (e : endpoint) : list bytes :=
  map fst (ws_wire (ep_writer e)) ++ al_wire (ep_acks e) ++ ep_fins e ++ ep_answers e.

Inductive ep_action : Type :=
  | EWriter (a : writer_action)       (* a send, the pump or the sender task *)
  | EPoll                             (* the application polls a read *)
  | ERead (len : nat)                 (* the body of [read] *)
  | EReadBytes (max_packets : nat)    (* the body of [read_bytes] *)
  | EAckRound (retry : bool) (n : nat) (takes : nat -> bool)
  | EConsume                          (* the consumer of acknowledgements runs *)
  | EClose                            (* [close] has flushed and sends its FIN *)
  | EClosed                           (* [close] ends *)
  | EFinAck (sent : BluefinResult unit)   (* a FIN is answered *)
  | EArrive (dg : bytes)              (* the receive task gets a datagram *)
  | ERecvFails.                       (* its [recv] fails, and it returns *)

Definition with_ep_writer (e : endpoint) (w : WriterSystem) : endpoint :=
  {| ep_writer := w; ep_fin := ep_fin e; ep_shared := ep_shared e; ep_rx := ep_rx e; ep_ready := ep_ready e;
     ep_parked := ep_parked e; ep_read := ep_read e; ep_eofs := ep_eofs e; ep_ack_channel := ep_ack_channel e; ep_acks := ep_acks e;
     ep_largest := ep_largest e; ep_idle := ep_idle e; ep_requests := ep_requests e; ep_answers := ep_answers e; ep_receiving := ep_receiving e |}.

Definition with_ep_shared (e : endpoint) (s : ConnShared) : endpoint :=
  {| ep_writer := ep_writer e; ep_fin := ep_fin e; ep_shared := s; ep_rx := ep_rx e; ep_ready := ep_ready e;
     ep_parked := ep_parked e; ep_read := ep_read e; ep_eofs := ep_eofs e; ep_ack_channel := ep_ack_channel e; ep_acks := ep_acks e;
     ep_largest := ep_largest e; ep_idle := ep_idle e; ep_requests := ep_requests e; ep_answers := ep_answers e; ep_receiving := ep_receiving e |}.

Definition with_ep_parked (e : endpoint) (s : ConnShared) : endpoint :=
  {| ep_writer := ep_writer e; ep_fin := ep_fin e; ep_shared := s; ep_rx := ep_rx e; ep_ready := ep_ready e;
     ep_parked := true; ep_read := ep_read e; ep_eofs := ep_eofs e; ep_ack_channel := ep_ack_channel e; ep_acks := ep_acks e;
     ep_largest := ep_largest e; ep_idle := ep_idle e; ep_requests := ep_requests e; ep_answers := ep_answers e; ep_receiving := ep_receiving e |}.

Definition with_ep_ready (e : endpoint) : endpoint :=
  {| ep_writer := ep_writer e; ep_fin := ep_fin e; ep_shared := ep_shared e; ep_rx := ep_rx e; ep_ready := true;
     ep_parked := false; ep_read := ep_read e; ep_eofs := ep_eofs e; ep_ack_channel := ep_ack_channel e; ep_acks := ep_acks e;
     ep_largest := ep_largest e; ep_idle := ep_idle e; ep_requests := ep_requests e; ep_answers := ep_answers e; ep_receiving := ep_receiving e |}.

Definition with_ep_fin (e : endpoint) (pn : Z) (s : ConnShared) : endpoint :=
  {| ep_writer := ep_writer e; ep_fin := Some pn; ep_shared := s; ep_rx := ep_rx e; ep_ready := ep_ready e;
     ep_parked := ep_parked e; ep_read := ep_read e; ep_eofs := ep_eofs e; ep_ack_channel := ep_ack_channel e; ep_acks := ep_acks e;
     ep_largest := ep_largest e; ep_idle := ep_idle e; ep_requests := ep_requests e; ep_answers := ep_answers e; ep_receiving := ep_receiving e |}.

(** The end of a read: what it returned, its bookkeeping and its ack. *)
Definition after_read (e : endpoint) (rx : ReaderRxChannel) (cb : ConnectionBuffer) (bs : bytes)
    (eof : bool) (ack : option AckData) : endpoint :=
  {| ep_writer := ep_writer e; ep_fin := ep_fin e; ep_shared := with_conn_buff (ep_shared e) cb; ep_rx := rx;
     ep_ready := false; ep_parked := ep_parked e; ep_read := ep_read e ++ bs; ep_eofs := if eof then S (ep_eofs e) else ep_eofs e;
     ep_ack_channel := ep_ack_channel e ++ option_list ack; ep_acks := ep_acks e;
     ep_largest := ep_largest e; ep_idle := ep_idle e; ep_requests := ep_requests e; ep_answers := ep_answers e; ep_receiving := ep_receiving e |}.

Definition after_acks (e : endpoint) (l : ack_loop) (channel : list AckData) : endpoint :=
  {| ep_writer := ep_writer e; ep_fin := ep_fin e; ep_shared := ep_shared e; ep_rx := ep_rx e; ep_ready := ep_ready e;
     ep_parked := ep_parked e; ep_read := ep_read e; ep_eofs := ep_eofs e; ep_ack_channel := channel; ep_acks := l;
     ep_largest := ep_largest e; ep_idle := ep_idle e; ep_requests := ep_requests e; ep_answers := ep_answers e; ep_receiving := ep_receiving e |}.

Definition after_consumer (e : endpoint) (ab : AckBuffer) (largest : Z) : endpoint :=
  {| ep_writer := ep_writer e; ep_fin := ep_fin e; ep_shared := with_ack_buff (ep_shared e) ab; ep_rx := ep_rx e;
     ep_ready := ep_ready e; ep_parked := ep_parked e; ep_read := ep_read e; ep_eofs := ep_eofs e; ep_ack_channel := ep_ack_channel e;
     ep_acks := ep_acks e; ep_largest := largest; ep_idle := true; ep_requests := ep_requests e; ep_answers := ep_answers e; ep_receiving := ep_receiving e |}.

(** Whether a task is woken by what a datagram made happen. *)
Definition wakes (evs : list effect) (w : Waker) : bool :=
  existsb (fun ev => match ev with WakeTask v => v =? w | _ => false end) evs.

Definition after_arrival (e : endpoint) (s : ConnShared) (evs : list effect) : endpoint :=
  {| ep_writer := ep_writer e; ep_fin := ep_fin e; ep_shared := s; ep_rx := ep_rx e; ep_ready := ep_ready e;
     ep_parked := ep_parked e && negb (wakes evs reader_task); ep_read := ep_read e; ep_eofs := ep_eofs e;
     ep_ack_channel := ep_ack_channel e; ep_acks := ep_acks e; ep_largest := ep_largest e;
     ep_idle := ep_idle e && negb (wakes evs consumer_task);
     ep_requests := ep_requests e ++ fin_ack_requests evs; ep_answers := ep_answers e; ep_receiving := ep_receiving e |}.

Definition after_recv_failed (e : endpoint) : endpoint :=
  {| ep_writer := ep_writer e; ep_fin := ep_fin e; ep_shared := ep_shared e; ep_rx := ep_rx e; ep_ready := ep_ready e;
     ep_parked := ep_parked e; ep_read := ep_read e; ep_eofs := ep_eofs e; ep_ack_channel := ep_ack_channel e; ep_acks := ep_acks e;
     ep_largest := ep_largest e; ep_idle := ep_idle e; ep_requests := ep_requests e; ep_answers := ep_answers e;
     ep_receiving := false |}.

Definition after_answer (e : endpoint) (requests : list Z) (answers : list bytes) : endpoint :=
  {| ep_writer := ep_writer e; ep_fin := ep_fin e; ep_shared := ep_shared e; ep_rx := ep_rx e; ep_ready := ep_ready e;
     ep_parked := ep_parked e; ep_read := ep_read e; ep_eofs := ep_eofs e; ep_ack_channel := ep_ack_channel e; ep_acks := ep_acks e;
     ep_largest := ep_largest e; ep_idle := ep_idle e; ep_requests := requests; ep_answers := ep_answers e ++ answers; ep_receiving := ep_receiving e |}.

Definition ep_env (e : endpoint) : reader_env :=
  {| env_fin_ack_tx := bool_decide (length (ep_requests e) < FIN_ACK_CAPACITY); env_diag_tx := false |}.

(** A send is refused once [close] has marked the writer closed, which it does
    before it sends its FIN. *)
Definition send_refused (e : endpoint) (a : writer_action) : bool :=
  match a, ep_fin e with ASend _, Some _ => true | _, _ => false end.

(** [Err tt]: the action is not possible now. *)
Definition ep_step (e : endpoint) (network : list bytes) (a : ep_action) : outcome unit endpoint :=
  let s := ep_shared e in
  let w := ws_handle (ep_writer e) in
  match a with
  | EWriter a =>
      if send_refused e a then Err tt
      else match writer_step (ep_writer e) a with Some ws => Ok (with_ep_writer e ws) | None => Err tt end
  | EPoll =>
      match ReaderRxChannelFuture_poll (conn_buff s) (peer_fin_observed s) reader_task with
      | (Ready _, _) => Ok (with_ep_ready e)
      | (Pending, cb) => Ok (with_ep_parked e (with_conn_buff s cb))
      end
  | ERead len =>
      if ep_ready e then
        match ReaderRxChannel_read (ep_rx e) w true (conn_buff s) (peer_fin_observed s) len (replicate len 0%Z) with
        | Ok o =>
            match ro_result o with
            | Ok (size, _) => Ok (after_read e (ro_rx o) (ro_conn o) (take size (ro_out o)) (size =? 0) (ro_ack o))
            | _ => Panic
            end
        | _ => Panic
        end
      else Err tt
  | EReadBytes max_packets =>
      if ep_ready e then
        match ReaderRxChannel_read_bytes (ep_rx e) w true (conn_buff s) (peer_fin_observed s) [] max_packets with
        | Ok o =>
            match ro_result o with
            | Ok (size, _) => Ok (after_read e (ro_rx o) (ro_conn o) (concat (ro_out o)) (size =? 0) (ro_ack o))
            | Err _ => Ok (after_read e (ro_rx o) (ro_conn o) (concat (ro_out o)) false (ro_ack o))
            | _ => Panic
            end
        | _ => Panic
        end
      else Err tt
  | EAckRound retry n takes =>
      match read_ack_step (ep_src e) (ep_dst e) (ep_acks e)
              {| kr_retry := retry; kr_batch := take n (ep_ack_channel e); kr_takes := takes |} with
      | Ok l =>
          Ok (after_acks e l (if fst (fst (read_ack_retry (al_task (ep_acks e)) retry))
                              then drop n (ep_ack_channel e) else ep_ack_channel e))
      | _ => Panic
      end
  | EConsume =>
      match AckConsumer_run consumer_task (ack_buff s) (ep_largest e) with
      | Ok (ab, largest) => Ok (after_consumer e ab largest)
      | _ => Panic
      end
  | EClose =>
      match ep_fin e with
      | Some _ => Err tt
      | None =>
          if WriterHandler_flush_check w then
            let pn := fst (WriterHandler_reserve_close_packet_num w) in
            Ok (with_ep_fin e pn (with_close_buff s (CloseBuffer_record_local_fin_sent (close_buff s) pn)
                                    (peer_fin_observed s)))
          else Err tt
      end
  | EClosed =>
      match ep_fin e with
      | Some _ => Ok (with_ep_shared e (with_close_buff s (CloseBuffer_mark_closed (close_buff s)) (peer_fin_observed s)))
      | None => Err tt
      end
  | EFinAck sent =>
      match ep_requests e with
      | [] => Err tt
      | pn :: rest => Ok (after_answer e rest (fin_ack_task w sent [pn]))
      end
  | EArrive dg =>
      if ep_receiving e && bool_decide (dg ∈ network) then
        match recv_and_buffer_inline_turn (ep_env e) s (Some dg) with
        | Ok (s', evs) => Ok (after_arrival e s' evs)
        | _ => Panic
        end
      else Err tt
  | ERecvFails =>
      if ep_receiving e then
        match recv_and_buffer_inline_turn (ep_env e) s None with
        | Err _ => Ok (after_recv_failed e)
        | _ => Panic
        end
      else Err tt
  end.

(** ** Arrivals at a buffer that is being read *)

Definition full_slots (ob : OrderedBytes) : Prop := forall i p, slots ob !! i = Some (Some p) -> payload p <> [].

(** What arrivals keep: the place in the stream and what was there. *)
Record grows (ob ob' : OrderedBytes) : Prop := {
  gr_smallest : smallest_packet_number ob' = smallest_packet_number ob;
  gr_carry : carry_over_bytes ob' = carry_over_bytes ob;
  gr_slots : forall i p, slots ob !! i = Some (Some p) -> slots ob' !! i = Some (Some p);
}.

Definition filled (ob : OrderedBytes) (n : Z) : Prop :=
  exists i q, n = (smallest_packet_number ob + Z.of_nat i)%Z /\ slots ob !! i = Some (Some q).

Lemma grows_refl ob : grows ob ob.
Proof. by split. Qed.

Lemma grows_trans ob1 ob2 ob3 : grows ob1 ob2 -> grows ob2 ob3 -> grows ob1 ob3.
Proof. intros [H1 H2 H3] [H4 H5 H6]. split; [congruence..|auto]. Qed.

Lemma grows_filled ob ob' n : grows ob ob' -> filled ob n -> filled ob' n.
Proof. intros [H1 _ H3] (i & q & -> & Hq). exists i, q. rewrite H1. auto. Qed.

(** A packet number that the buffer has taken: already released, or waiting. *)
Definition kept (ob : OrderedBytes) (n : Z) : Prop := (n < smallest_packet_number ob)%Z \/ filled ob n.

(** What every step of an end does to its buffer: nothing that was taken is
    given up. *)
Record advances (ob ob' : OrderedBytes) : Prop := {
  ad_smallest : (smallest_packet_number ob <= smallest_packet_number ob')%Z;
  ad_kept : forall n, kept ob n -> kept ob' n;
}.

Lemma advances_refl ob : advances ob ob.
Proof. by split. Qed.

Lemma grows_advances ob ob' : grows ob ob' -> advances ob ob'.
Proof.
  intros Hg. pose proof (gr_smallest _ _ Hg) as Hs. split; [lia|].
  intros n [Hn|Hn]; [left; lia|right; by eapply grows_filled].
Qed.

Lemma delivers_advances ob ob' bs k : delivers ob ob' bs k -> advances ob ob'.
Proof.
  intros Hd. pose proof (dl_smallest _ _ _ _ Hd) as Hs. split; [lia|]. intros n [Hn|(i & q & -> & Hq)]; [left; lia|].
  destruct (decide (i < k)) as [Hi|Hi]; [left; lia|]. right. exists (i - k), q. split; [lia|].
  rewrite (dl_slots _ _ _ _ Hd). apply lookup_app_l_Some. rewrite lookup_drop. by replace (k + (i - k)) with i by lia.
Qed.

Lemma arrive_one ob p :
  wf_ob ob -> (0 <= packet_number (header p) < 2 ^ 64 - 1)%Z -> full_slots ob -> payload p <> [] ->
  let ob' := snd (OrderedBytes_buffer_in_packet ob p) in
  grows ob ob' /\ full_slots ob' /\
  ((smallest_packet_number ob <= packet_number (header p) <
    smallest_packet_number ob + Z.of_nat MAX_BUFFER_SIZE)%Z -> filled ob' (packet_number (header p))).
Proof.
  intros Hwf Hr Hfull Hp. pose proof (buffer_in_packet_spec ob Hwf p Hr) as H. cbv zeta.
  destruct (OrderedBytes_buffer_in_packet ob p) as [r ob']. cbn [snd]. destruct H as [_ H].
  unfold buffer_verdict in H. repeat case_decide.
  - destruct H as [_ ->]. split; [apply grows_refl|]. split; [done|lia].
  - destruct H as [_ ->]. split; [apply grows_refl|]. split; [done|lia].
  - set (i := Z.to_nat (packet_number (header p) - smallest_packet_number ob)) in *.
    destruct (slots ob !! i) as [[q|]|] eqn:Hq.
    + destruct H as [_ ->]. split; [apply grows_refl|]. split; [done|]. intros _. exists i, q. split; [lia|done].
    + destruct H as (_ & Hi & _ & Hn & Hs & Hsm & Hc). split_and!.
      * split; [done..|]. intros j q Hj. rewrite Hs, list_lookup_insert_ne; [done|]. intros <-. congruence.
      * intros j q. rewrite Hs. destruct (decide (i = j)) as [<-|Hne].
        -- rewrite list_lookup_insert_eq by (by rewrite length_slots). by intros [= <-].
        -- rewrite list_lookup_insert_ne by done. apply Hfull.
      * intros _. exists i, p. rewrite Hsm, Hs. split; [lia|].
        apply list_lookup_insert_eq. by rewrite length_slots.
    + destruct H as (_ & _ & Hn & _). congruence.
Qed.

Lemma arrive_all_keeps start pay ps ob delivered :
  stream_inv start pay (ob, delivered) -> full_slots ob ->
  Forall (fun p => genuine start pay p /\ payload p <> []) ps ->
  let ob' := arrive_all ob ps in
  stream_inv start pay (ob', delivered) /\ full_slots ob' /\ grows ob ob' /\
  forall p, p ∈ ps -> (smallest_packet_number ob <= packet_number (header p) <
    smallest_packet_number ob + Z.of_nat MAX_BUFFER_SIZE)%Z -> filled ob' (packet_number (header p)).
Proof.
  intros Hinv Hfull Hps. revert ob Hinv Hfull. induction Hps as [|p ps [Hg Hp] _ IH]; intros ob Hinv Hfull.
  - split_and!; [done|done|apply grows_refl|]. intros p Hp. by apply not_elem_of_nil in Hp.
  - destruct (arrive_one ob p) as (H1 & H2 & H3); [apply Hinv|apply Hg|done|done|].
    pose proof (stream_inv_arrive start pay ob delivered p Hinv Hg) as Harr.
    change (arrive_all ob (p :: ps)) with (arrive_all (snd (OrderedBytes_buffer_in_packet ob p)) ps). cbv zeta.
    destruct (OrderedBytes_buffer_in_packet ob p) as [r ob1]. cbn [snd] in *. destruct Harr as [_ Hinv1].
    destruct (IH ob1 Hinv1 H2) as (H4 & H5 & H6 & H7). split_and!; [done|done|by eapply grows_trans|].
    intros q Hq Hn. apply elem_of_cons in Hq as [->|Hq]; [eapply grows_filled; [done|auto]|].
    apply H7; [done|]. destruct H1 as [-> _ _]. done.
Qed.

Lemma ready_keeps l l' :
  (forall i (p : BluefinPacket), l !! i = Some (Some p) -> l' !! i = Some (Some p)) -> ready l <> [] -> ready l' <> [].
Proof.
  intros H. destruct l as [|[p|] l]; [done| |done]. intros _. specialize (H 0 p eq_refl).
  destruct l' as [|[]]; simplify_eq/=; done.
Qed.

(** ** What is sent to an end *)

Definition ack_within (hi : Z) (a : AckData) : Prop :=
  ack_valid a /\ (ack_base_packet_num a + Z.of_nat (ack_num_packets_consumed a) <= hi)%Z.

Lemma ack_within_le hi hi' a : (hi <= hi')%Z -> ack_within hi a -> ack_within hi' a.
Proof. intros Hle [Hv Hb]. split; [done|lia]. Qed.

Definition is_control (t : PacketType) : Prop := t = Fin \/ t = FinAck.

(** A datagram of the peer: packets of its stream, acks for packets below
    [hi], a FIN or a FIN-ACK. *)
Inductive peer_datagram (start : Z) (pay : nat -> bytes) (hi : Z) : bytes -> Prop :=
  | peer_data ps :
      ps <> [] -> Forall data_packet ps -> Forall (genuine start pay) ps -> peer_datagram start pay hi (datagram ps)
  | peer_acks src dst g :
      is_u32 src -> is_u32 dst -> g <> [] -> Forall (ack_within hi) g -> peer_datagram start pay hi (ack_dg src dst g)
  | peer_control w t pn :
      is_u32 (wh_src_conn_id w) -> is_u32 (wh_dst_conn_id w) -> is_u64 pn -> is_control t ->
      peer_datagram start pay hi (fin_datagram w t pn).

Lemma fin_ack_requests_app evs evs' : fin_ack_requests (evs ++ evs') = fin_ack_requests evs ++ fin_ack_requests evs'.
Proof. apply omap_app. Qed.

Lemma wakes_app evs evs' w : wakes (evs ++ evs') w = wakes evs w || wakes evs' w.
Proof. apply existsb_app. Qed.

(** Buffering acks asks for no FIN-ACK and wakes no task before its end. *)
Lemma ack_loop_quiet packets ab diag e :
  let evs := snd (ack_packets_loop ab packets diag e) in
  fin_ack_requests evs = [] /\ forall w, wakes evs w = false.
Proof.
  revert ab e. induction packets as [|p packets IH]; intros ab e; [done|]. cbn [ack_packets_loop].
  destruct (AckBuffer_buffer_in_ack_packet ab p) as [[] ab']; [|apply IH|done..].
  specialize (IH ab' e). destruct (ack_packets_loop ab' packets diag e) as [[r ab''] evs]. cbn [snd] in *.
  destruct IH as [IH1 IH2]. rewrite fin_ack_requests_app, IH1. split; [by destruct diag|].
  intros w. rewrite wakes_app, IH2. by destruct diag.
Qed.

(** A datagram of acks wakes the consumer. *)
Lemma ack_round_effects env s src dst g :
  is_u32 src -> is_u32 dst -> wf_window (received_acks (ack_buff s)) -> g <> [] -> Forall ack_valid g ->
  let evs := snd (recv_and_buffer_inline_round env s (ack_dg src dst g)) in
  fin_ack_requests evs = [] /\ forall w, ack_waker (ack_buff s) = Some w -> wakes evs w = true.
Proof.
  intros Hs Hd Hwf Hne Hg. unfold recv_and_buffer_inline_round. rewrite ack_dg_into by done. cbn [app].
  pose proof (ack_packets_loop_spec src dst g (ack_buff s) (env_diag_tx env) None Hwf Hg) as (e' & evs & Hl).
  pose proof (ack_loop_quiet (map (ack_pkt src dst) g) (ack_buff s) (env_diag_tx env) None) as H.
  rewrite Hl in H. cbn [snd] in H. destruct H as [H1 H2].
  destruct g as [|a g]; [done|]. cbn [map ConnReaderHandler_buffer_in_packets] in *.
  change (type_field (header (ack_pkt src dst a))) with Ack. cbv iota.
  unfold ConnReaderHandler_buffer_in_ack_packets. rewrite Hl. unfold wake_then. cbn [take_waker_clone AckBuffer_Wakeable with_acks ack_waker].
  destruct (ack_waker (ack_buff s)) as [k|], e'; cbv beta iota zeta; cbn [snd]; rewrite fin_ack_requests_app, H1;
    (split; [done|]); intros w Hw; simplify_eq; rewrite wakes_app; cbn; by rewrite Nat.eqb_refl, orb_true_r.
Qed.

Lemma buffer_in_fin_ack_datagram env s p :
  type_field (header p) = FinAck ->
  exists evs, ConnReaderHandler_buffer_in_packets env s [p] =
    (Ok tt, with_close_buff s (CloseBuffer_buffer_in_fin_ack (close_buff s) p) (peer_fin_observed s), evs) /\
  fin_ack_requests evs = [].
Proof.
  intros Ht. unfold ConnReaderHandler_buffer_in_packets, ConnReaderHandler_buffer_in_close_packets.
  cbn [close_packets_loop]. rewrite Ht. eexists. split; [done|]. by destruct (env_diag_tx env).
Qed.

(** The consumer of acknowledgements has something to publish. *)
Definition consumable (ab : AckBuffer) : Prop :=
  smallest_expected_packet_number (received_acks ab) ∈ ordered_packet_numbers (received_acks ab).

Definition ep_ob (e : endpoint) : OrderedBytes := ordered_bytes (conn_buff (ep_shared e)).

Section Endpoint.
(** The first number of the peer's stream and the stream; the first number the
    window of acks expects. *)
Context (start : Z) (pay : nat -> bytes) (expected : Z).

Record ep_inv (hi : Z) (e : endpoint) : Prop := {
  ei_ids : is_u32 (ep_src e) /\ is_u32 (ep_dst e);
  ei_next : is_u64 (ws_next (ep_writer e)) /\ is_u64 (next_packet_num_shared (ws_handle (ep_writer e)));
  ei_fin : forall n, ep_fin e = Some n -> is_u64 n;
  ei_stream : stream_inv start pay (ep_ob e, ep_read e);
  ei_full : full_slots (ep_ob e);
  ei_addr : exists addr, cb_addr (conn_buff (ep_shared e)) = Some addr;
  ei_close : close_settled (ep_shared e);
  ei_ready : ep_ready e = true -> readable (conn_buff (ep_shared e)) (peer_fin_observed (ep_shared e));
  ei_parked : ep_parked e = true ->
    ~ readable (conn_buff (ep_shared e)) (peer_fin_observed (ep_shared e)) /\
    cb_waker (conn_buff (ep_shared e)) = Some reader_task;
  ei_idle : ep_idle e = true ->
    ~ consumable (ack_buff (ep_shared e)) /\ ack_waker (ack_buff (ep_shared e)) = Some consumer_task;
  ei_acks : Forall (ack_within (smallest_packet_number (ep_ob e))) (al_taken (ep_acks e) ++ ep_ack_channel e);
  ei_loop : exists groups, ack_loop_ok (ep_src e) (ep_dst e) groups (ep_acks e);
  ei_sound : exists D, ack_sound expected 0 D (ack_buff (ep_shared e), ep_largest e) /\ Forall (ack_within hi) D;
  ei_requests : Forall is_u64 (ep_requests e);
  ei_answers : Forall (fun dg => exists n, is_u64 n /\ dg = fin_datagram (ws_handle (ep_writer e)) FinAck n) (ep_answers e);
}.

Lemma ep_inv_le hi hi' e : (hi <= hi')%Z -> ep_inv hi e -> ep_inv hi' e.
Proof.
  intros Hle []. split; try done. destruct ei_sound0 as (D & HD & Hhi). exists D. split; [done|].
  eapply Forall_impl; [exact Hhi|]. intros a. by apply ack_within_le.
Qed.

(** What an end sends, its data apart. *)
Lemma ep_sent_good hi e other pays :
  ep_inv hi e ->
  Forall (peer_datagram other pays (smallest_packet_number (ep_ob e))) (map fst (ws_wire (ep_writer e))) ->
  Forall (peer_datagram other pays (smallest_packet_number (ep_ob e))) (ep_sent e).
Proof.
  intros Hi Hdata. destruct (ei_ids _ _ Hi) as [Hs Hd]. unfold ep_sent. rewrite !Forall_app. split_and!; [done|..].
  - destruct (ei_loop _ _ Hi) as (groups & pend & -> & _ & Ht & Hg). apply Forall_app in Hg as [Hg _].
    apply Forall_forall. intros dg Hdg. apply list_elem_of_fmap in Hdg as (g & -> & Hin). apply peer_acks; [done..| |].
    + by apply (proj1 (Forall_forall _ _) Hg).
    + apply Forall_forall. intros a Ha. apply (proj1 (Forall_forall _ _) (ei_acks _ _ Hi)). rewrite <- Ht.
      rewrite !elem_of_app. left. left. apply list_elem_of_In, in_concat. exists g. split; by apply list_elem_of_In.
  - unfold ep_fins. destruct (ep_fin e) as [n|] eqn:Hn; [|constructor].
    unfold WriterHandler_send_fin. rewrite send_control_eq. cbn. constructor; [|constructor].
    apply peer_control; [done|done|by apply (ei_fin _ _ Hi)|by left].
  - eapply Forall_impl; [apply (ei_answers _ _ Hi)|]. intros dg (n & Hn & ->). apply peer_control; [done..|by right].
Qed.

(** ** Each action keeps the invariant *)

Lemma readable_grows cb cb' flag flag' :
  grows (ordered_bytes cb) (ordered_bytes cb') -> (flag = true -> flag' = true) ->
  readable cb flag -> readable cb' flag'.
Proof.
  intros [_ Hc Hs] Hf [Hr|Hr]; [left|right; auto]. rewrite Hc. intros [H1 H2]. apply Hr. split; [done|].
  destruct (decide (ready (slots (ordered_bytes cb)) = [])) as [|Hne]; [done|].
  by destruct (ready_keeps _ _ Hs Hne).
Qed.

(** An arrival that changes what a parked task waits for wakes it. *)
Definition arrival_wakes (e : endpoint) (s' : ConnShared) (evs : list effect) : Prop :=
  (cb_waker (conn_buff (ep_shared e)) = Some reader_task ->
   wakes evs reader_task = true \/
   (conn_buff s' = conn_buff (ep_shared e) /\ peer_fin_observed s' = peer_fin_observed (ep_shared e))) /\
  (ack_waker (ack_buff (ep_shared e)) = Some consumer_task ->
   wakes evs consumer_task = true \/ ack_buff s' = ack_buff (ep_shared e)).

Lemma ep_inv_arrival hi e s' evs :
  ep_inv hi e -> stream_inv start pay (ordered_bytes (conn_buff s'), ep_read e) ->
  full_slots (ordered_bytes (conn_buff s')) -> grows (ep_ob e) (ordered_bytes (conn_buff s')) ->
  cb_addr (conn_buff s') = cb_addr (conn_buff (ep_shared e)) -> close_settled s' ->
  (peer_fin_observed (ep_shared e) = true -> peer_fin_observed s' = true) ->
  (exists D, ack_sound expected 0 D (ack_buff s', ep_largest e) /\ Forall (ack_within hi) D) ->
  arrival_wakes e s' evs -> Forall is_u64 (fin_ack_requests evs) -> ep_inv hi (after_arrival e s' evs).
Proof.
  intros [] Hst Hfull Hgr Ha Hc Hf HD [Hw1 Hw2] Hr.
  split; unfold ep_ob, ep_src, ep_dst in *; cbn [after_arrival ep_writer ep_fin ep_shared ep_ready ep_read ep_parked
    ep_idle ep_acks ep_ack_channel ep_largest ep_requests ep_answers]; try done.
  - by rewrite Ha.
  - intros Hready. eapply readable_grows; [done|done|auto].
  - intros [Hp Hn]%andb_true_iff. destruct (ei_parked0 Hp) as [H1 H2].
    destruct (Hw1 H2) as [Hx|[-> ->]]; [by rewrite Hx in Hn|done].
  - intros [Hp Hn]%andb_true_iff. destruct (ei_idle0 Hp) as [H1 H2].
    destruct (Hw2 H2) as [Hx| ->]; [by rewrite Hx in Hn|done].
  - by rewrite (gr_smallest _ _ Hgr).
  - by apply Forall_app.
Qed.

Lemma ep_arrive_data hi e env ps :
  ep_inv hi e -> ps <> [] -> Forall data_packet ps -> Forall (genuine start pay) ps ->
  exists s' evs, recv_and_buffer_inline_round env (ep_shared e) (datagram ps) = (Some s', evs) /\
    s' = with_conn_buff (ep_shared e) (with_ordered_bytes (conn_buff (ep_shared e)) (arrive_all (ep_ob e) ps)) /\
    ep_inv hi (after_arrival e s' evs) /\
    forall p, p ∈ ps -> (smallest_packet_number (ep_ob e) <= packet_number (header p) <
      smallest_packet_number (ep_ob e) + Z.of_nat MAX_BUFFER_SIZE)%Z ->
      filled (ordered_bytes (conn_buff s')) (packet_number (header p)).
Proof.
  intros Hi Hne Hps Hg. pose proof Hi as [].
  destruct (inline_round_data env (ep_shared e) ps) as [_ ->]; [apply ei_stream0|done|done|].
  destruct (arrive_all_keeps start pay ps (ep_ob e) (ep_read e)) as (H1 & H2 & H3 & H4); [done|done| |].
  { apply Forall_and. split; [done|]. eapply Forall_impl; [exact Hps|]. intros p (_ & _ & Hp & _). exact Hp. }
  do 2 eexists. split; [done|]. split; [done|]. split; [|exact H4].
  apply ep_inv_arrival; try done; [|destruct (cb_waker _); constructor].
  split; [|by right]. intros ->. by left.
Qed.

Lemma ep_arrive_acks hi e env src dst g :
  ep_inv hi e -> is_u32 src -> is_u32 dst -> g <> [] -> Forall (ack_within hi) g ->
  exists s' evs, recv_and_buffer_inline_round env (ep_shared e) (ack_dg src dst g) = (Some s', evs) /\
    ordered_bytes (conn_buff s') = ep_ob e /\ ep_inv hi (after_arrival e s' evs).
Proof.
  intros Hi Hs Hd Hne Hg. pose proof Hi as []. destruct ei_sound0 as (D & HD & Hhi).
  assert (Hv : Forall ack_valid g) by (eapply Forall_impl; [exact Hg|]; by intros a []).
  pose proof (ack_round_effects env (ep_shared e) src dst g Hs Hd (as_wf _ _ _ _ HD) Hne Hv) as Hreq.
  destruct (ack_datagram_round env (ep_shared e) src dst g) as [evs Hround]; [done|done|apply HD|done|done|].
  rewrite Hround in *. cbn [snd] in Hreq. destruct Hreq as [Hreq Hwake].
  eexists _, evs. split; [done|]. split; [done|]. apply ep_inv_arrival; try done.
  - exists (D ++ g). split; [by apply ack_sound_group|by apply Forall_app].
  - split; [by right|]. intros Hw. left. by apply Hwake.
  - by rewrite Hreq.
Qed.

(** A FIN is observed unless the connection is closed here. *)
Lemma fin_observed s pn :
  close_settled s -> close_state (close_buff s) <> Closed -> fin_answered (close_buff s) pn || peer_fin_observed s = true.
Proof.
  intros [_ Hf] Hc. unfold fin_answered. destruct (close_state (close_buff s)) as [|m|m|]; [done| |done..].
  by rewrite (Hf m eq_refl), orb_true_r.
Qed.

Lemma ep_arrive_control hi e env w t pn :
  ep_inv hi e -> is_u32 (wh_src_conn_id w) -> is_u32 (wh_dst_conn_id w) -> is_u64 pn -> is_control t ->
  exists s' evs, recv_and_buffer_inline_round env (ep_shared e) (fin_datagram w t pn) = (Some s', evs) /\
    ordered_bytes (conn_buff s') = ep_ob e /\ ep_inv hi (after_arrival e s' evs) /\
    (t = Fin -> close_state (close_buff (ep_shared e)) <> Closed -> peer_fin_observed s' = true).
Proof.
  intros Hi Hs Hd Hpn Ht. pose proof Hi as []. unfold recv_and_buffer_inline_round.
  rewrite (fin_datagram_parses w t pn []) by (done || by destruct Ht as [->| ->]). cbn [app].
  set (p := empty_packet _ _ _ _). destruct Ht as [-> | ->].
  - destruct (buffer_in_fin_datagram env (ep_shared e) p eq_refl ei_close0)
      as (s' & -> & Hc' & Hcb & Hab & Hfl & _).
    do 2 eexists. split; [done|]. split; [by rewrite Hcb|].
    split; [|intros _ Hcl; rewrite Hfl; by apply fin_observed].
    apply ep_inv_arrival; rewrite ?Hcb, ?Hab, ?Hfl; try done.
    + by intros ->; rewrite orb_true_r.
    + split; [|by right]. intros Hw. left. rewrite !wakes_app, Hw. cbn. by rewrite !orb_true_r.
    + rewrite !fin_ack_requests_app.
      repeat apply Forall_app_2; [destruct (env_diag_tx env)|destruct (_ && _)|destruct (cb_waker _)];
        (apply Forall_nil_2 || by apply Forall_singleton).
  - destruct (buffer_in_fin_ack_datagram env (ep_shared e) p eq_refl) as (evs & -> & Hreq).
    eexists _, evs. split; [done|]. split; [done|]. split; [|done].
    apply ep_inv_arrival; try done; [|by rewrite Hreq]. split; by right.
Qed.

(** A datagram of the peer never ends the receive task. *)
Lemma ep_arrive hi e env dg :
  ep_inv hi e -> peer_datagram start pay hi dg ->
  exists s' evs, recv_and_buffer_inline_round env (ep_shared e) dg = (Some s', evs) /\
    grows (ep_ob e) (ordered_bytes (conn_buff s')) /\
    ep_inv hi (after_arrival e s' evs).
Proof.
  intros Hi [ps Hne Hps Hg|src dst g Hs Hd Hne Hg|w t pn Hs Hd Hpn Ht].
  - destruct (ep_arrive_data hi e env ps Hi Hne Hps Hg) as (s' & evs & Hr & -> & Hi' & _).
    do 2 eexists. split; [exact Hr|]. split; [|exact Hi'].
    apply arrive_all_keeps with (start := start) (pay := pay) (delivered := ep_read e); [apply Hi|apply Hi|].
    apply Forall_and. split; [done|]. eapply Forall_impl; [exact Hps|]. intros p (_ & _ & Hp & _). exact Hp.
  - destruct (ep_arrive_acks hi e env src dst g) as (s' & evs & Hr & Hob & Hi'); [done..|].
    do 2 eexists. split; [exact Hr|]. rewrite Hob. split; [apply grows_refl|exact Hi'].
  - destruct (ep_arrive_control hi e env w t pn) as (s' & evs & Hr & Hob & Hi' & _); [done..|].
    do 2 eexists. split; [exact Hr|]. rewrite Hob. split; [apply grows_refl|exact Hi'].
Qed.

(** A read: what it takes is the next part of the stream, and the ack it asks
    for covers packets it has released. *)
Lemma ep_inv_read hi e rx cb' bs k eof ack :
  ep_inv hi e -> ep_ready e = true -> drained_conn (conn_buff (ep_shared e)) cb' bs k ->
  (forall a, ack = Some a -> 0 < ack_num_packets_consumed a <= k /\
     ack_base_packet_num a = smallest_packet_number (ep_ob e)) ->
  ep_inv hi (after_read e rx cb' bs eof ack) /\ advances (ep_ob e) (ordered_bytes cb').
Proof.
  intros [] Hrd [Hd Hcb] Hack. pose proof (dl_smallest _ _ _ _ Hd) as Hsm.
  pose proof (wf_smallest _ (dl_wf _ _ _ _ Hd)) as Hu. fold (ep_ob e) in *.
  split; [|by eapply delivers_advances]. split; unfold ep_ob, ep_src, ep_dst in *;
    cbn [after_read ep_writer ep_fin ep_shared ep_ready ep_parked ep_idle ep_read ep_acks ep_ack_channel ep_largest
         ep_requests ep_answers with_conn_buff conn_buff ack_buff peer_fin_observed]; try done.
  - by eapply stream_inv_delivers.
  - intros i p. rewrite (dl_slots _ _ _ _ Hd). intros Hi. apply lookup_app_Some in Hi as [Hi|[_ Hi]].
    + rewrite lookup_drop in Hi. by apply (ei_full0 (k + i)).
    + apply lookup_replicate in Hi as [? _]. done.
  - by rewrite Hcb.
  - intros Hp. destruct (ei_parked0 Hp) as [Hn _]. by destruct Hn; apply ei_ready0.
  - rewrite app_assoc. apply Forall_app. split.
    + eapply Forall_impl; [exact ei_acks0|]. intros a. apply ack_within_le. lia.
    + destruct ack as [a|]; [|constructor]. destruct (Hack a eq_refl) as [Hk Hb]. apply Forall_singleton.
      pose proof (dl_count _ _ _ _ Hd) as Hc. pose proof (length_ready (slots (ep_ob e))) as Hl.
      pose proof (proj1 ei_stream0) as Hwf. unfold ep_ob in *. rewrite (length_slots _ Hwf) in Hl.
      pose proof (wf_smallest _ Hwf). unfold MAX_BUFFER_SIZE in Hl. unfold ack_within, ack_valid. rewrite Hb. int_lia.
Qed.

Lemma full_payloads ps : Forall (fun p => payload p <> []) ps -> payloads ps = [] -> ps = [].
Proof. intros [|p l Hp _]; [done|]. unfold payloads. cbn [map concat]. by destruct (payload p). Qed.

(** With room for the whole buffer [consume_bytes] leaves nothing ready. *)
Lemma pushed_all ob ob' maxp k :
  wf_ob ob -> full_slots ob -> MAX_BUFFER_SIZE < maxp -> delivers ob ob' (concat (pushed ob maxp)) k ->
  carry_over_bytes ob' = None -> ready (slots ob') = [].
Proof.
  intros Hwf Hfull Hm Hd Hc. rewrite (delivers_ready _ _ _ _ Hd). apply full_payloads.
  - apply Forall_forall. intros p Hp. apply list_elem_of_lookup in Hp as [i Hi]. rewrite lookup_drop in Hi.
    by apply (Hfull (k + i)), ready_lookup.
  - pose proof (dl_bytes _ _ _ _ Hd) as Hb. rewrite Hc in Hb. cbn [from_option] in Hb. rewrite app_nil_r in Hb.
    pose proof (length_ready (slots ob)) as Hl. rewrite (length_slots ob Hwf) in Hl.
    assert (Hp : concat (pushed ob maxp) = default [] (carry_over_bytes ob) ++ payloads (ready (slots ob))).
    { unfold pushed. rewrite concat_app, take_ge by (destruct (carry_over_bytes ob); simpl; lia).
      f_equal. destruct (carry_over_bytes ob); [apply app_nil_r|done]. }
    rewrite Hp in Hb. apply app_inv_head in Hb. rewrite <- (take_drop k (ready (slots ob))) in Hb at 1.
    rewrite payloads_app in Hb. apply (f_equal length) in Hb. rewrite length_app in Hb.
    apply length_zero_iff_nil. lia.
Qed.

(** The body of [read_bytes] on every branch. *)
Lemma read_bytes_spec rx w accepted cb flag addr maxp :
  wf_ob (ordered_bytes cb) -> cb_addr cb = Some addr ->
  exists o cb' k bs,
    ReaderRxChannel_read_bytes rx w accepted cb flag [] maxp = Ok o /\ ro_conn o = cb' /\
    concat (ro_out o) = bs /\ drained_conn cb cb' bs k /\
    (forall a, ro_ack o = Some a -> 0 < ack_num_packets_consumed a <= k /\
       ack_base_packet_num a = smallest_packet_number (ordered_bytes cb)) /\
    ((exists r, ro_result o = Ok r) \/ ro_result o = Err BufferEmptyError) /\
    (MAX_BUFFER_SIZE < maxp -> full_slots (ordered_bytes cb) ->
     ready (slots (ordered_bytes cb')) = [] /\ carry_over_bytes (ordered_bytes cb') = None).
Proof.
  intros Hwf Ha. unfold ReaderRxChannel_read_bytes. rewrite (eof_addr_spec cb flag addr Hwf Ha).
  case_decide as Heof.
  { do 4 eexists. split; [done|]. cbn. split_and!; [done|done|by apply drained_conn_none|done|eauto|tauto]. }
  unfold ConnectionBuffer_consume_bytes. rewrite Ha.
  destruct (consume_bytes_ok (ordered_bytes cb) [] maxp Hwf) as (r & ob' & k & b & -> & Hd & Hc & Hb & ->).
  cbn [outcome_bind app].
  assert (Hall : MAX_BUFFER_SIZE < maxp -> full_slots (ordered_bytes cb) ->
    ready (slots ob') = [] /\ carry_over_bytes ob' = None) by (intros; split; [by eapply pushed_all|done]).
  case_decide as Hn; cbn [outcome_bind].
  - do 4 eexists. split; [done|]. cbn. split_and!; [done|done|by split|done|eauto|done].
  - do 4 eexists. split; [done|]. rewrite after_consume_conn, after_consume_out, after_consume_result.
    split_and!; [done|done|by split| |eauto|done].
    intros a Hack. apply after_consume_ack in Hack as (H1 & -> & ->). cbn in *. split; [lia|auto].
Qed.

(** Nothing happens to the close handshake. *)
Definition same_close (e e' : endpoint) : Prop :=
  close_buff (ep_shared e') = close_buff (ep_shared e) /\
  peer_fin_observed (ep_shared e') = peer_fin_observed (ep_shared e).

Lemma ep_poll hi e :
  ep_inv hi e -> exists e', ep_step e [] EPoll = Ok e' /\ ep_inv hi e' /\ ep_ob e' = ep_ob e /\ ep_read e' = ep_read e /\
    ep_eofs e' = ep_eofs e /\ same_close e e' /\
    (readable (conn_buff (ep_shared e)) (peer_fin_observed (ep_shared e)) -> ep_ready e' = true).
Proof.
  intros Hi. pose proof Hi as []. destruct ei_addr0 as [addr Ha]. cbn [ep_step].
  destruct (poll_ready_iff (conn_buff (ep_shared e)) (peer_fin_observed (ep_shared e)) reader_task addr)
    as [[Hr ->]|(Hn & cb' & Hp & Hw & Hob)]; [apply ei_stream0|done|..].
  - eexists. split; [done|]. split; [|done]. split; try done. eauto.
  - rewrite Hp. eexists. split; [done|]. split; [|done].
    split; unfold ep_ob in *; cbn [with_ep_parked with_conn_buff ep_shared conn_buff]; rewrite ?Hob; try done.
    + unfold ReaderRxChannelFuture_poll in Hp. destruct (ConnectionBuffer_peek _), (peer_fin_observed _);
        simplify_eq/=; eauto.
    + intros Hr. by apply ei_ready0 in Hr.
    + intros _. split; [|done]. unfold readable in *. by rewrite Hob.
Qed.

Lemma full_ready ob : full_slots ob -> Forall (fun p => payload p <> []) (ready (slots ob)).
Proof.
  intros Hfull. apply Forall_forall. intros p Hp. apply list_elem_of_lookup in Hp as [i Hi].
  by apply (Hfull i), ready_lookup.
Qed.

Lemma ep_read_step hi e net len :
  ep_inv hi e -> 0 < len -> ep_ready e = true ->
  exists e', ep_step e net (ERead len) = Ok e' /\ ep_inv hi e' /\ advances (ep_ob e) (ep_ob e').
Proof.
  intros Hi Hlen Hrd. pose proof Hi as []. destruct ei_addr0 as [addr Ha]. cbn [ep_step]. rewrite Hrd.
  pose proof (proj1 ei_stream0) as Hwf. unfold ep_ob in Hwf.
  pose proof (read_spec (ep_rx e) (ws_handle (ep_writer e)) true (conn_buff (ep_shared e))
                (peer_fin_observed (ep_shared e)) addr len (replicate len 0%Z) Hwf Ha) as H.
  rewrite length_replicate in H. specialize (H (le_n _)). cbv zeta in H. case_decide as Heof; [|case_decide as Hnone].
  - rewrite H. cbn [ro_result ro_rx ro_conn ro_out ro_ack]. eexists. split; [done|].
    rewrite take_0. by apply (ep_inv_read hi e _ _ [] 0); [| |by apply drained_conn_none|].
  - exfalso. destruct Hnone as [Hbs Hc].
    assert (Hr : ready (slots (ep_ob e)) <> []).
    { intros Hr. destruct (ei_ready0 Hrd) as [Hx|Hx]; [apply Hx; done|apply Heof; done]. }
    apply Hr, full_payloads; [by apply full_ready|]. unfold available in Hbs. rewrite Hc in Hbs.
    cbn [from_option app] in Hbs. unfold ep_ob. destruct (payloads _); [done|]. by destruct len; [lia|].
  - destruct H as (cb' & k & b & Hd & Hb & ->). rewrite after_consume_result. eexists. split; [done|].
    rewrite after_consume_conn, after_consume_out. cbn [bytes_consumed]. rewrite take_app_length.
    apply (ep_inv_read hi e _ _ _ k); [done|done|done|]. intros a Hack.
    apply after_consume_ack in Hack as (H1 & -> & ->). cbn in *. split; [lia|auto].
Qed.

(** With nothing left to read and the peer's FIN observed a read returns zero. *)
Lemma ep_read_eof hi e net len :
  ep_inv hi e -> ep_ready e = true -> peer_fin_observed (ep_shared e) = true ->
  carry_over_bytes (ep_ob e) = None -> ready (slots (ep_ob e)) = [] ->
  exists e', ep_step e net (ERead len) = Ok e' /\ ep_inv hi e' /\ ep_read e' = ep_read e /\ ep_eofs e' = S (ep_eofs e).
Proof.
  intros Hi Hrd Hfl Hc Hr. pose proof Hi as []. destruct ei_addr0 as [addr Ha]. cbn [ep_step]. rewrite Hrd.
  pose proof (proj1 ei_stream0) as Hwf. unfold ep_ob in *.
  pose proof (read_spec (ep_rx e) (ws_handle (ep_writer e)) true (conn_buff (ep_shared e))
                (peer_fin_observed (ep_shared e)) addr len (replicate len 0%Z) Hwf Ha) as H.
  rewrite length_replicate in H. specialize (H (le_n _)). cbv zeta in H. rewrite decide_True in H by done.
  rewrite H. cbn [ro_result ro_rx ro_conn ro_out ro_ack]. eexists. split; [done|]. rewrite take_0.
  split; [by apply (ep_inv_read hi e _ _ [] 0); [| |by apply drained_conn_none|]|].
  split; [apply app_nil_r|done].
Qed.

Lemma ep_read_bytes_step hi e net maxp :
  ep_inv hi e -> ep_ready e = true ->
  exists e', ep_step e net (EReadBytes maxp) = Ok e' /\ ep_inv hi e' /\ same_close e e' /\ advances (ep_ob e) (ep_ob e') /\
    (MAX_BUFFER_SIZE < maxp -> ep_read e' = ep_read e ++ available (ep_ob e)).
Proof.
  intros Hi Hrd. pose proof Hi as []. destruct ei_addr0 as [addr Ha]. cbn [ep_step]. rewrite Hrd.
  pose proof (proj1 ei_stream0) as Hwf. unfold ep_ob in Hwf.
  destruct (read_bytes_spec (ep_rx e) (ws_handle (ep_writer e)) true (conn_buff (ep_shared e))
              (peer_fin_observed (ep_shared e)) addr maxp Hwf Ha) as (o & cb' & k & bs & -> & Hcb & Hout & Hd & Hack & Hr & Hm).
  assert (Hinv := fun eof => ep_inv_read hi e (ro_rx o) cb' bs k eof (ro_ack o) Hi Hrd Hd Hack).
  destruct Hr as [[[size a] ->]| ->]; eexists; (split; [done|]); rewrite Hcb, Hout;
    (split; [apply Hinv|]; split; [done|]; split; [by apply (Hinv false)|]); intros Hmax;
    destruct (Hm Hmax ei_full0) as [Hnone Hcarry]; unfold ep_ob;
    rewrite (delivers_available _ _ _ _ (proj1 Hd)); unfold available; rewrite Hnone, Hcarry; cbn [from_option payloads map concat];
    by rewrite !app_nil_r.
Qed.

Lemma ep_ack_round hi e net retry n takes :
  ep_inv hi e ->
  exists e', ep_step e net (EAckRound retry n takes) = Ok e' /\ ep_inv hi e' /\ ep_ob e' = ep_ob e.
Proof.
  intros Hi. pose proof Hi as []. destruct ei_loop0 as (groups & Hloop). cbn [ep_step].
  set (r := {| kr_retry := retry; kr_batch := take n (ep_ack_channel e); kr_takes := takes |}).
  destruct (read_ack_step_ok (ep_src e) (ep_dst e) (ep_acks e) r groups Hloop) as (l' & new & Hstep & Hl').
  rewrite Hstep. eexists. split; [done|]. split; [|done]. split; try done; [|by exists (groups ++ new)].
  cbn [after_acks ep_acks ep_ack_channel ep_ob ep_shared]. unfold read_ack_step in Hstep. cbn [kr_retry r] in Hstep.
  destruct (read_ack_retry (al_task (ep_acks e)) retry) as [[go t] resent]. cbn [fst]. destruct go.
  - destruct (read_ack_round _ _ _ _ _) as [[t' sent]| | |]; simplify_eq/=.
    rewrite <- app_assoc, take_drop. exact ei_acks0.
  - injection Hstep as <-. exact ei_acks0.
Qed.

Lemma ep_consume hi e net :
  ep_inv hi e -> exists e', ep_step e net EConsume = Ok e' /\ ep_inv hi e' /\ ep_ob e' = ep_ob e.
Proof.
  intros Hi. pose proof Hi as []. destruct ei_sound0 as (D & HD & Hhi). cbn [ep_step].
  destruct (ack_sound_consume expected 0 D consumer_task _ _ HD) as ([ab l] & Hrun & HD' & _ & Hnin).
  destruct (consumer_runs expected consumer_task _ (ep_largest e) (as_wf _ _ _ _ HD) (as_max _ _ _ _ HD) (as_start _ _ _ _ HD))
    as (w' & l' & Hrun' & _). cbn [fst] in Hrun'. rewrite Hrun in Hrun' |- *. injection Hrun' as -> ->.
  eexists. split; [done|]. split; [|done]. split; try done. by exists D.
Qed.

Lemma ep_answer hi e net pn rest sent :
  ep_inv hi e -> ep_requests e = pn :: rest ->
  exists e', ep_step e net (EFinAck sent) = Ok e' /\ ep_inv hi e' /\ ep_ob e' = ep_ob e.
Proof.
  intros Hi Hreq. pose proof Hi as []. cbn [ep_step]. rewrite Hreq in *. apply Forall_cons in ei_requests0 as [Hpn Hrest].
  eexists. split; [done|]. split; [|done]. split; try done.
  cbn [after_answer ep_answers ep_writer]. apply Forall_app. split; [done|].
  unfold fin_ack_task, WriterHandler_send_fin_ack. cbn [omap list_omap]. rewrite send_control_eq.
  destruct sent; cbn [outcome_bind]; [|constructor..]. apply Forall_singleton. eauto.
Qed.

Lemma ep_writer_step hi e net a e' :
  ep_inv hi e -> ep_step e net (EWriter a) = Ok e' ->
  ep_inv hi e' /\ ep_ob e' = ep_ob e.
Proof.
  intros Hi. cbn [ep_step]. destruct (send_refused e a); [done|].
  destruct (writer_step (ep_writer e) a) as [w|] eqn:Hw; [|done]. intros [= <-]. split; [|done].
  destruct (writer_step_keeps _ _ _ Hw) as (Hs & Hd & Hsh & _). destruct Hi.
  split; unfold ep_src, ep_dst in *; cbn [with_ep_writer ep_writer ep_fin ep_shared ep_ready ep_read ep_acks
    ep_ack_channel ep_largest ep_requests ep_answers]; rewrite ?Hs, ?Hd; try done.
  - by apply Hsh.
  - unfold fin_datagram. by rewrite Hs, Hd.
Qed.

Lemma ep_close hi e net a e' :
  a = EClose \/ a = EClosed -> ep_inv hi e -> ep_step e net a = Ok e' -> ep_inv hi e' /\ ep_ob e' = ep_ob e.
Proof.
  intros Ha Hi. pose proof Hi as []. destruct Ha as [-> | ->]; cbn [ep_step].
  - destruct (ep_fin e); [done|]. destruct (WriterHandler_flush_check _); [|done]. intros [= <-].
    split; [|done]. split; try done.
    + cbn. intros n [= <-]. apply ei_next0.
    + destruct ei_close0 as [H1 H2]. unfold close_settled, CloseBuffer_record_local_fin_sent. cbn.
      destruct (close_state (close_buff (ep_shared e))) eqn:Hc; cbn; rewrite ?Hc; split; done || apply H2.
  - destruct (ep_fin e) eqn:Hf; [|done]. intros [= <-]. split; [|done]. split; try done.
    + cbn. rewrite Hf. done.
    + destruct ei_close0 as [H1 _]. by split.
Qed.

(** A read asks for something. *)
Definition asks (a : ep_action) : Prop := match a with ERead len => 0 < len | _ => True end.

Lemma ep_step_inv hi e net a :
  ep_inv hi e -> Forall (peer_datagram start pay hi) net -> asks a ->
  match ep_step e net a with
  | Ok e' => ep_inv hi e' /\ advances (ep_ob e) (ep_ob e')
  | Err _ => True
  | _ => False
  end.
Proof.
  intros Hi Hnet Hask.
  destruct a as [a| |len|maxp|retry n takes| | | |sent|dg|].
  - pose proof (ep_writer_step hi e net a) as H. cbn [ep_step] in *.
    destruct (send_refused e a); [done|]. destruct (writer_step (ep_writer e) a); [|done].
    destruct (H _ Hi eq_refl) as [? ->]. by split.
  - destruct (ep_poll hi e Hi) as (e' & Hs & Hi' & Hob & _). change (ep_step e net EPoll) with (ep_step e [] EPoll).
    rewrite Hs, Hob. by split.
  - destruct (ep_ready e) eqn:Hr; [|cbn [ep_step]; by rewrite Hr].
    destruct (ep_read_step hi e net len Hi Hask Hr) as (e' & -> & H). done.
  - destruct (ep_ready e) eqn:Hr; [|cbn [ep_step]; by rewrite Hr].
    destruct (ep_read_bytes_step hi e net maxp Hi Hr) as (e' & -> & ? & _ & ? & _). done.
  - destruct (ep_ack_round hi e net retry n takes Hi) as (e' & -> & ? & ->). by split.
  - destruct (ep_consume hi e net Hi) as (e' & -> & ? & ->). by split.
  - pose proof (ep_close hi e net EClose) as H. destruct (ep_step e net EClose) eqn:Hs; [|done|..].
    + destruct (H a (or_introl eq_refl) Hi eq_refl) as [? ->]. by split.
    + cbn [ep_step] in Hs. destruct (ep_fin e); [done|]. by destruct (WriterHandler_flush_check _).
    + cbn [ep_step] in Hs. destruct (ep_fin e); [done|]. by destruct (WriterHandler_flush_check _).
  - pose proof (ep_close hi e net EClosed) as H. destruct (ep_step e net EClosed) eqn:Hs; [|done|..].
    + destruct (H a (or_intror eq_refl) Hi eq_refl) as [? ->]. by split.
    + cbn [ep_step] in Hs. by destruct (ep_fin e).
    + cbn [ep_step] in Hs. by destruct (ep_fin e).
  - destruct (ep_requests e) as [|pn rest] eqn:Hr; [cbn [ep_step]; by rewrite Hr|].
    destruct (ep_answer hi e net pn rest sent Hi Hr) as (e' & -> & ? & ->). by split.
  - cbn [ep_step recv_and_buffer_inline_turn]. destruct (ep_receiving e); [|done]. cbn [andb].
    case_bool_decide as Hin; [|done].
    destruct (ep_arrive hi e (ep_env e) dg Hi) as (s' & evs & -> & Hgr & Hi'); [by apply (proj1 (Forall_forall _ _) Hnet)|].
    split; [done|by apply grows_advances].
  - cbn [ep_step recv_and_buffer_inline_turn]. destruct (ep_receiving e); [|done]. split; [|apply advances_refl]. by destruct Hi.
Qed.

End Endpoint.
