(* ===== verification/Duplex.v ===== *)
(** * A connection with both its ends

    Two ends (Endpoint.v) and between them a network that loses, repeats and
    reorders datagrams.  A history is any interleaving of the actions of both
    ends. *)
From stdpp Require Import base numbers list option strings.
From S2P Require Import Prelude Proto Header Packet Window OrderedBytes Close Buffers Net ConnReader Packetiser Writer Reader Routing Handshake Connection Transfer Acks Endpoint.

(** ** Both ends *)

Definition duplex : Type := endpoint * endpoint.

(** The side that acts: [true] is the first end. *)
Definition duplex_step (d : duplex) (sa : bool * ep_action) : outcome unit duplex :=
  let '(a, b) := d in
  match sa with
  | (true, act) => match ep_step a (ep_sent b) act with Ok a' => Ok (a', b) | Err e => Err e | _ => Panic end
  | (false, act) => match ep_step b (ep_sent a) act with Ok b' => Ok (a, b') | Err e => Err e | _ => Panic end
  end.

Fixpoint duplex_run (d : duplex) (acts : list (bool * ep_action)) : outcome unit duplex :=
  match acts with
  | [] => Ok d
  | sa :: acts => match duplex_step d sa with Ok d' => duplex_run d' acts | Err e => Err e | _ => Panic end
  end.

(** What the writer of one side did. *)
Definition writer_acts (side : bool) (acts : list (bool * ep_action)) : list writer_action :=
  omap (fun sa => match sa with
                  | (sd, EWriter a) => if Bool.eqb sd side then Some a else None
                  | _ => None
                  end) acts.

(** ** Both ends, from the start *)

Definition end_of (d : duplex) (side : bool) : endpoint := if side then fst d else snd d.

Lemma duplex_step_iff d side act d' :
  duplex_step d (side, act) = Ok d' <->
  ep_step (end_of d side) (ep_sent (end_of d (negb side))) act = Ok (end_of d' side) /\
  end_of d' (negb side) = end_of d (negb side).
Proof.
  destruct d as [a b], d' as [a' b'], side; cbn [duplex_step end_of negb fst snd].
  - destruct (ep_step a (ep_sent b) act); naive_solver.
  - destruct (ep_step b (ep_sent a) act); naive_solver.
Qed.

Lemma duplex_step_panics d side act :
  duplex_step d (side, act) = Panic \/ duplex_step d (side, act) = NoFuel ->
  match ep_step (end_of d side) (ep_sent (end_of d (negb side))) act with Ok _ | Err _ => False | _ => True end.
Proof.
  destruct d as [a b], side; cbn [duplex_step end_of negb fst snd].
  - destruct (ep_step a (ep_sent b) act); naive_solver.
  - destruct (ep_step b (ep_sent a) act); naive_solver.
Qed.

(** The part of a connection's shared state that the handshake leaves. *)
Record fresh (own peer : Z) (s : ConnShared) : Prop := {
  fr_bytes : exists cid, ordered_bytes (conn_buff s) = OrderedBytes_new cid peer;
  fr_acks : received_acks (ack_buff s) = SlidingWindow_new own;
  fr_addr : exists addr, cb_addr (conn_buff s) = Some addr;
  fr_close : close_buff s = CloseBuffer_new /\ peer_fin_observed s = false;
}.

Lemma ep_inv_start own peer src dst s pay hi :
  is_u64 own -> is_u64 peer -> is_u32 src -> is_u32 dst -> fresh own peer s ->
  ep_inv peer pay own hi (ep_start own src dst s).
Proof.
  intros Ho Hp Hs Hd [[cid Hob] Hacks Ha [Hc Hf]].
  split; unfold ep_ob; cbn [ep_start ep_shared ep_read]; rewrite ?Hob; try done.
  - by apply stream_inv_new.
  - intros i p. rewrite slots_new. intros H. apply lookup_replicate in H as [? _]. done.
  - split; rewrite Hc; done.
  - by exists [], None.
  - exists []. split; [by apply ack_sound_new|constructor].
Qed.

Definition ep_writes (a : ep_action) : list writer_action := match a with EWriter a => [a] | _ => [] end.

Lemma writer_acts_cons side sd act acts :
  writer_acts side ((sd, act) :: acts) = (if Bool.eqb sd side then ep_writes act else []) ++ writer_acts side acts.
Proof. unfold writer_acts. cbn [omap list_omap]. by destruct act, (Bool.eqb sd side). Qed.

(** The only action that ends a task. *)
Definition recv_fails (a : ep_action) : bool := match a with ERecvFails => true | _ => false end.

(** What an action does to the writer, and to the receive task. *)
Lemma ep_step_effect e net a e' :
  ep_step e net a = Ok e' ->
  writer_run (ep_writer e) (ep_writes a) = Some (ep_writer e') /\
  ep_receiving e' = ep_receiving e && negb (recv_fails a).
Proof.
  rewrite (andb_comm (ep_receiving e)).
  destruct a; cbn [ep_step ep_writes writer_run recv_fails negb andb].
  - destruct (send_refused e a); [done|]. destruct (writer_step (ep_writer e) a); [|done]. by intros [= <-].
  - destruct (ReaderRxChannelFuture_poll _ _ _) as [[] cb]; by intros [= <-].
  - destruct (ep_ready e); [|done]. destruct (ReaderRxChannel_read _ _ _ _ _ _ _) as [o| | |]; try done.
    destruct (ro_result o) as [[]| | |]; try done. by intros [= <-].
  - destruct (ep_ready e); [|done]. destruct (ReaderRxChannel_read_bytes _ _ _ _ _ _ _) as [o| | |]; try done.
    destruct (ro_result o) as [[]| | |]; try done; by intros [= <-].
  - destruct (read_ack_step _ _ _ _); try done. by intros [= <-].
  - destruct (AckConsumer_run _ _ _) as [[]| | |]; try done. by intros [= <-].
  - destruct (ep_fin e); [done|]. destruct (WriterHandler_flush_check _); [|done]. by intros [= <-].
  - destruct (ep_fin e); [|done]. by intros [= <-].
  - destruct (ep_requests e); [done|]. by intros [= <-].
  - destruct (ep_receiving e && bool_decide _); [|done].
    destruct (recv_and_buffer_inline_turn _ _ _) as [[s' evs]| | |]; try done. by intros [= <-].
  - destruct (ep_receiving e); [|done]. destruct (recv_and_buffer_inline_turn _ _ _); try done. by intros [= <-].
Qed.

Lemma duplex_run_writes d acts d' side :
  duplex_run d acts = Ok d' ->
  writer_run (ep_writer (end_of d side)) (writer_acts side acts) = Some (ep_writer (end_of d' side)).
Proof.
  revert d. induction acts as [|[sd act] acts IH]; intros d; [by intros [= <-]|]. cbn [duplex_run].
  destruct (duplex_step d (sd, act)) as [d1| | |] eqn:Hs; try done. intros Hrun.
  apply duplex_step_iff in Hs as [Hs Ho]. rewrite writer_acts_cons.
  destruct (Bool.eqb_spec sd side) as [->|Hne].
  - rewrite writer_run_app, (proj1 (ep_step_effect _ _ _ _ Hs)). by apply IH.
  - assert (side = negb sd) as -> by (by destruct sd, side). cbn [app]. rewrite <- Ho. by apply IH.
Qed.



Lemma writer_run_wire s acts s' : writer_run s acts = Some s' -> exists new, ws_wire s' = ws_wire s ++ new.
Proof.
  revert s. induction acts as [|a acts IH]; intros s; cbn [writer_run].
  - intros [= <-]. exists []. by rewrite app_nil_r.
  - destruct (writer_step s a) as [s1|] eqn:Ha; [|done]. intros Hrun.
    apply writer_step_keeps in Ha as (_ & _ & _ & new & Hw). destruct (IH s1 Hrun) as [new' ->].
    rewrite Hw, <- app_assoc. eauto.
Qed.

(** Whether the buffer of an end has room for a datagram that arrives now: no
    packet of it is numbered past the last slot. *)
Definition has_room (e : endpoint) (dg : bytes) : bool :=
  forallb (fun p => packet_number (header p) <? smallest_packet_number (ep_ob e) + Z.of_nat MAX_BUFFER_SIZE)%Z (packets_of dg).

(** A datagram of one side was received by the other, at a time it had room. *)
Fixpoint taken_in (side : bool) (dg : bytes) (d : duplex) (acts : list (bool * ep_action)) : bool :=
  match acts with
  | [] => false
  | (sd, act) :: acts =>
      match act with
      | EArrive g => Bool.eqb sd (negb side) && bool_decide (g = dg) && has_room (end_of d (negb side)) dg
      | _ => false
      end ||
      match duplex_step d (sd, act) with Ok d' => taken_in side dg d' acts | _ => false end
  end.

(** Every datagram of data one side has put on the wire, in the history that
    leads from [d0] to [d], was received by the other at a time it had room. *)
Definition all_taken (d0 : duplex) (side : bool) (acts : list (bool * ep_action)) (d : duplex) : bool :=
  forallb (fun out => taken_in side (fst out) d0 acts) (ws_wire (ep_writer (end_of d side))).

(** The pieces of a stream, by the index of their packet. *)
Definition piece (chunks : list bytes) (i : nat) : bytes := default [] (chunks !! i).

(** Packets of the stream [pay], which starts at number [start]. *)
Definition data_of (start : Z) (pay : nat -> bytes) (dg : bytes) : Prop :=
  exists ps, dg = datagram ps /\ ps <> [] /\ Forall data_packet ps /\ Forall (genuine start pay) ps.

Lemma data_of_peer start pay hi dg : data_of start pay dg -> peer_datagram start pay hi dg.
Proof. intros (ps & -> & Hne & Hd & Hg). by apply peer_data. Qed.

Lemma length_concat_ge (chunks : list bytes) :
  Forall (fun c : bytes => 0 < length c <= MAX_BLUEFIN_PAYLOAD_SIZE_BYTES) chunks ->
  length chunks <= length (concat chunks).
Proof. intros H. induction H as [|c l Hc _ IH]; [done|]. cbn [concat length]. rewrite length_app. lia. Qed.

Section Sender.
Context (pn src dst : Z) (accepted : bytes) (groups : list (list BluefinPacket)) (chunks : list bytes) (s : WriterSystem).
Hypothesis Hi : writer_inv pn src dst accepted groups chunks s.
Hypothesis Hpn : is_u64 pn.
Hypothesis Hsrc : is_u32 src.
Hypothesis Hdst : is_u32 dst.
Hypothesis Hu8 : Forall is_u8 accepted.
Hypothesis Hroom : (pn + Z.of_nat (length accepted) < 2 ^ 64)%Z.

Lemma sender_room : (pn + Z.of_nat (length chunks) < 2 ^ 64)%Z.
Proof using Hi Hroom.
  pose proof (length_concat_ge chunks (wi_chunks _ _ _ _ _ _ _ Hi)) as Hl.
  rewrite <- (wi_stream _ _ _ _ _ _ _ Hi), length_app in Hroom. lia.
Qed.

Lemma sender_bytes : Forall is_u8 (concat chunks).
Proof using Hi Hu8. rewrite <- (wi_stream _ _ _ _ _ _ _ Hi) in Hu8. by apply Forall_app in Hu8 as [? _]. Qed.

Lemma sender_group g : g ∈ groups ->
  g <> [] /\ Forall data_packet g /\ Forall (genuine pn (piece chunks)) g.
Proof using Hi Hpn Hsrc Hdst Hu8 Hroom.
  intros Hg. pose proof sender_room as Hr. pose proof sender_bytes as Hb.
  destruct Hi as [_ _ _ _ Hgr Hpk Hck _ _ _ _].
  assert (Hne : Forall (fun ps : list BluefinPacket => ps <> []) groups)
    by (eapply Forall_impl; [exact Hgr|]; by intros ps [? _]).
  destruct (group_ok pn src dst groups chunks Hpn Hsrc Hdst Hpk Hne Hck Hb Hr g Hg) as [H1 H2].
  split_and!; [done|done|]. apply Forall_forall. intros p Hp. split.
  - apply data_packet_number. by apply (proj1 (Forall_forall _ _) H2).
  - intros i Hin. destruct (wire_packet pn src dst groups chunks Hpn Hpk Hr p) as (j & c & Hc & ->).
    + apply list_elem_of_In, in_concat. exists g. split; by apply list_elem_of_In.
    + cbn in Hin. assert (i = j) as -> by lia. unfold piece. by rewrite Hc.
Qed.

Lemma sender_wire : Forall (data_of pn (piece chunks)) (map fst (ws_wire s)).
Proof using Hi Hpn Hsrc Hdst Hu8 Hroom.
  assert (Hall : Forall (data_of pn (piece chunks)) (map fst (ws_wire s ++ ws_sending s))).
  { rewrite (wi_datagrams _ _ _ _ _ _ _ Hi), map_map. apply Forall_forall. intros dg Hdg.
    apply list_elem_of_fmap in Hdg as (g & -> & Hg). exists g. split; [done|]. by apply sender_group. }
  rewrite map_app in Hall. by apply Forall_app in Hall as [? _].
Qed.
End Sender.

Section Run.
(** By side: the first number of its stream the other end takes and the stream
    from there; the first acknowledgement it expects. *)
Context (starts : bool -> Z) (pays : bool -> nat -> bytes) (expected : bool -> Z).

(** Each end against what the other one has released to its application. *)
Definition duplex_inv (d : duplex) : Prop :=
  forall side, ep_inv (starts (negb side)) (pays (negb side)) (expected side)
                 (smallest_packet_number (ep_ob (end_of d (negb side)))) (end_of d side).

Definition wires_of (d : duplex) : Prop :=
  forall side, Forall (data_of (starts side) (pays side)) (map fst (ws_wire (ep_writer (end_of d side)))).

Lemma duplex_inv_step d side act :
  duplex_inv d -> wires_of d -> asks act ->
  match duplex_step d (side, act) with
  | Ok d' => duplex_inv d' /\ forall sd, advances (ep_ob (end_of d sd)) (ep_ob (end_of d' sd))
  | Err _ => True
  | _ => False
  end.
Proof.
  intros Hinv Hw Ha. assert (Hnet : Forall (peer_datagram (starts (negb side)) (pays (negb side))
      (smallest_packet_number (ep_ob (end_of d (negb side))))) (ep_sent (end_of d (negb side)))).
  { eapply ep_sent_good; [apply Hinv|]. eapply Forall_impl; [apply Hw|]. intros dg. apply data_of_peer. }
  pose proof (ep_step_inv _ _ _ _ _ _ act (Hinv side) Hnet Ha) as Hstep.
  destruct (duplex_step d (side, act)) as [d'| | |] eqn:Hd; [|done|..].
  - apply duplex_step_iff in Hd as [Hs Ho]. rewrite Hs in Hstep. destruct Hstep as [Hi Had]. split; intros sd.
    all: destruct (Bool.bool_dec sd side) as [->|Hne]; [by rewrite ?Ho|].
    all: assert (sd = negb side) as -> by (by destruct sd, side); rewrite Ho.
    2: apply advances_refl.
    rewrite negb_involutive. eapply ep_inv_le; [apply Had|]. pose proof (Hinv (negb side)) as H. by rewrite negb_involutive in H.
  - pose proof (duplex_step_panics d side act (or_introl Hd)) as Hx.
    by destruct (ep_step (end_of d side) _ act).
  - pose proof (duplex_step_panics d side act (or_intror Hd)) as Hx.
    by destruct (ep_step (end_of d side) _ act).
Qed.

Lemma wires_of_earlier d acts d' : duplex_run d acts = Ok d' -> wires_of d' -> wires_of d.
Proof.
  intros Hrun Hw side. destruct (writer_run_wire _ _ _ (duplex_run_writes _ _ _ side Hrun)) as [new Hnew].
  specialize (Hw side). rewrite Hnew, map_app in Hw. by apply Forall_app in Hw as [? _].
Qed.

Lemma duplex_inv_run d acts d' :
  duplex_run d acts = Ok d' -> duplex_inv d -> wires_of d' -> Forall (fun sa => asks (snd sa)) acts -> duplex_inv d'.
Proof.
  revert d. induction acts as [|[side act] acts IH]; intros d Hrun Hinv Hw Hask; [by injection Hrun as <-|].
  apply Forall_cons in Hask as [Ha Hask]. pose proof (wires_of_earlier _ _ _ Hrun Hw) as Hwd.
  cbn [duplex_run] in Hrun. pose proof (duplex_inv_step d side act Hinv Hwd Ha) as Hs.
  destruct (duplex_step d (side, act)) as [d1| | |] eqn:Hd; try done. destruct Hs as [Hs _]. by apply (IH d1).
Qed.

(** What a buffer has taken it keeps. *)
Lemma duplex_run_kept d acts d' side n :
  duplex_run d acts = Ok d' -> duplex_inv d -> wires_of d' -> Forall (fun sa => asks (snd sa)) acts ->
  kept (ep_ob (end_of d side)) n -> kept (ep_ob (end_of d' side)) n.
Proof.
  revert d. induction acts as [|[sd act] acts IH]; intros d Hrun Hinv Hw Hask Hk; [by injection Hrun as <-|].
  apply Forall_cons in Hask as [Ha Hask]. pose proof (wires_of_earlier _ _ _ Hrun Hw) as Hwd.
  cbn [duplex_run] in Hrun. pose proof (duplex_inv_step d sd act Hinv Hwd Ha) as Hs.
  destruct (duplex_step d (sd, act)) as [d1| | |] eqn:Hd; try done. destruct Hs as [Hi Had].
  apply (IH d1); [done..|]. by apply (Had side).
Qed.

(** A datagram that came when there was room for its packets. *)
Lemma duplex_taken d acts d' side g p :
  duplex_run d acts = Ok d' -> duplex_inv d -> wires_of d' -> Forall (fun sa => asks (snd sa)) acts ->
  g <> [] -> Forall data_packet g -> Forall (genuine (starts side) (pays side)) g -> p ∈ g ->
  taken_in side (datagram g) d acts = true -> kept (ep_ob (end_of d' (negb side))) (packet_number (header p)).
Proof.
  intros Hrun Hinv Hw Hask Hne Hd Hg Hp. revert d Hrun Hinv. induction acts as [|[sd act] acts IH]; intros d Hrun Hinv; [done|].
  apply Forall_cons in Hask as [Ha Hask]. pose proof (wires_of_earlier _ _ _ Hrun Hw) as Hwd.
  cbn [duplex_run taken_in] in *. pose proof (duplex_inv_step d sd act Hinv Hwd Ha) as Hs.
  destruct (duplex_step d (sd, act)) as [d1| | |] eqn:Hd1; try done. destruct Hs as [Hi Had].
  intros [Hin|Hin]%orb_true_iff; [|by apply (IH Hask d1)]. eapply duplex_run_kept; [done..|].
  destruct act as [| | | | | | | | |dg|]; try done. apply andb_true_iff in Hin as [[->%eqb_prop ->%bool_decide_eq_true]%andb_true_iff Hroom].
  apply duplex_step_iff in Hd1 as [Hst _]. rewrite negb_involutive in Hst. cbn [ep_step recv_and_buffer_inline_turn] in Hst.
  destruct (ep_receiving _ && _); [|done]. pose proof (Hinv (negb side)) as Hi0. rewrite negb_involutive in Hi0.
  destruct (ep_arrive_data _ _ _ _ _ (ep_env (end_of d (negb side))) g Hi0 Hne Hd Hg) as (s' & evs & Hr & _ & _ & Hfill).
  rewrite Hr in Hst. injection Hst as Hst.
  unfold has_room, packets_of in Hroom. rewrite data_datagram_parses in Hroom by done. cbn [snd app] in Hroom.
  assert (Hn : (packet_number (header p) < smallest_packet_number (ep_ob (end_of d (negb side))) + Z.of_nat MAX_BUFFER_SIZE)%Z).
  { apply Z.ltb_lt. rewrite forallb_forall in Hroom. by apply Hroom, list_elem_of_In. }
  destruct (decide (packet_number (header p) < smallest_packet_number (ep_ob (end_of d (negb side)))))%Z as [Hlt|Hge].
  - apply (ad_kept _ _ (Had (negb side))). by left.
  - right. rewrite <- Hst. apply Hfill; [done|lia].
Qed.
End Run.

Lemma duplex_run_app d acts1 acts2 :
  duplex_run d (acts1 ++ acts2) =
    match duplex_run d acts1 with Ok d1 => duplex_run d1 acts2 | r => r end.
Proof.
  revert d. induction acts1 as [|sa acts1 IH]; intros d; [done|]. cbn [app duplex_run].
  destruct (duplex_step d sa) as [d1| | |]; [apply IH|done..].
Qed.

(** What the application at one side has sent. *)
Definition sent_by (side : bool) (acts : list (bool * ep_action)) : bytes := accepted_bytes (writer_acts side acts).

Definition duplex_start (pa pb src dst : Z) (sa sb : ConnShared) : duplex :=
  (ep_start pa src dst sa, ep_start pb dst src sb).

(** The two first numbers, by side. *)
Definition firsts (pa pb : Z) (side : bool) : Z := if side then pa else pb.

(** Two ends that the handshake has put together. *)
Record paired (pa pb src dst : Z) (sa sb : ConnShared) : Prop := {
  pr_first : is_u64 pa /\ is_u64 pb;
  pr_ids : is_u32 src /\ is_u32 dst;
  pr_a : fresh pa pb sa;
  pr_b : fresh pb pa sb;
}.

(** What is asked of the applications: they send bytes, not more than there
    are packet numbers, and no read is for zero bytes. *)
Record usage (pa pb : Z) (acts : list (bool * ep_action)) : Prop := {
  us_bytes : forall side, Forall is_u8 (sent_by side acts);
  us_room : forall side, (firsts pa pb side + Z.of_nat (length (sent_by side acts)) < 2 ^ 64)%Z;
  us_asks : Forall (fun sa => asks (snd sa)) acts;
}.

Lemma sent_by_app side acts1 acts2 : sent_by side (acts1 ++ acts2) = sent_by side acts1 ++ sent_by side acts2.
Proof. unfold sent_by, writer_acts, accepted_bytes. by rewrite !omap_app, concat_app. Qed.

Lemma usage_app pa pb acts1 acts2 : usage pa pb (acts1 ++ acts2) -> usage pa pb acts1.
Proof.
  intros [H1 H2 H3]. split.
  - intros side. specialize (H1 side). rewrite sent_by_app in H1. by apply Forall_app in H1 as [? _].
  - intros side. specialize (H2 side). rewrite sent_by_app, length_app in H2. lia.
  - by apply Forall_app in H3 as [? _].
Qed.

Lemma stream_prefix_piece (chunks : list bytes) k : stream_prefix (piece chunks) k = concat (take k chunks).
Proof.
  unfold stream_prefix. revert k. induction chunks as [|c chunks IH] using rev_ind; intros k.
  - rewrite take_nil. cbn [concat]. induction (seq 0 k) as [|i l IHl]; [done|]. cbn [map concat]. by rewrite IHl.
  - destruct (decide (k <= length chunks)) as [Hk|Hk].
    + rewrite take_app_le, <- IH by done. f_equal. apply map_ext_in. intros i Hi%in_seq.
      unfold piece. by rewrite lookup_app_l by lia.
    + rewrite take_ge by (rewrite length_app; simpl; lia).
      replace k with (length (chunks ++ [c]) + (k - length (chunks ++ [c]))) by (rewrite length_app in *; simpl in *; lia).
      rewrite seq_app, map_app, concat_app. fold (stream_prefix (piece (chunks ++ [c])) (length (chunks ++ [c]))).
      unfold piece at 1. rewrite stream_prefix_pieces. rewrite <- (app_nil_r (concat (chunks ++ [c]))) at 2. f_equal.
      generalize (k - length (chunks ++ [c])). intros n.
      assert (H : forall i, i ∈ seq (0 + length (chunks ++ [c])) n -> piece (chunks ++ [c]) i = []).
      { intros i Hi%elem_of_seq. unfold piece. by rewrite lookup_ge_None_2 by lia. }
      induction (seq _ n) as [|i l IHl]; [done|]. cbn [map concat].
      rewrite IHl by (intros j Hj; apply H; by right). by rewrite H by left.
Qed.

(** ** Getting everything across *)

Fixpoint ep_run (e : endpoint) (net : list bytes) (acts : list ep_action) : outcome unit endpoint :=
  match acts with
  | [] => Ok e
  | a :: acts => match ep_step e net a with Ok e' => ep_run e' net acts | r => r end
  end.

Lemma ep_run_duplex d side acts e' :
  ep_run (end_of d side) (ep_sent (end_of d (negb side))) acts = Ok e' ->
  exists d', duplex_run d (map (pair side) acts) = Ok d' /\ end_of d' side = e' /\
    end_of d' (negb side) = end_of d (negb side).
Proof.
  revert d. induction acts as [|a acts IH]; intros d; cbn [ep_run map duplex_run].
  - intros [= <-]. eauto.
  - destruct (ep_step _ _ a) as [e1| | |] eqn:Hs; try done. intros Hrun.
    set (d1 := if side then (e1, snd d) else (fst d, e1)).
    assert (Hd1 : end_of d1 side = e1 /\ end_of d1 (negb side) = end_of d (negb side)) by (by destruct side).
    destruct Hd1 as [H1 H2]. assert (Hstep : duplex_step d (side, a) = Ok d1).
    { apply duplex_step_iff. by rewrite H1. }
    rewrite Hstep, <- H2. apply IH. by rewrite H1, H2.
Qed.

Section Finish.
Context (start : Z) (pay : nat -> bytes) (expected hi : Z) (net : list bytes).

(** The receive task, while it runs, takes what is there. *)
Lemma ep_arrive_step e dg s' evs :
  ep_receiving e = true -> dg ∈ net -> recv_and_buffer_inline_round (ep_env e) (ep_shared e) dg = (Some s', evs) ->
  ep_step e net (EArrive dg) = Ok (after_arrival e s' evs).
Proof. intros Hrc Hin Hr. cbn [ep_step recv_and_buffer_inline_turn]. by rewrite Hrc, bool_decide_true, Hr by done. Qed.

(** A read of everything that can be read. *)
Definition reads_all : list ep_action := [EPoll; EReadBytes (S MAX_BUFFER_SIZE)].

Lemma ep_takes_all e :
  ep_inv start pay expected hi e -> available (ep_ob e) <> [] ->
  exists e', ep_run e net reads_all = Ok e' /\ ep_read e' = ep_read e ++ available (ep_ob e).
Proof.
  intros Hi Hn. destruct (ep_poll start pay expected hi e Hi) as (e1 & Hs1 & Hi1 & Hob & Hread & _ & _ & Hready).
  assert (Hrd : ep_ready e1 = true).
  { apply Hready. left. intros [Hc Hr]. apply Hn. unfold available. unfold ep_ob. by rewrite Hc, Hr. }
  destruct (ep_read_bytes_step start pay expected hi e1 net (S MAX_BUFFER_SIZE) Hi1 Hrd) as (e2 & Hs2 & _ & _ & _ & Hall).
  exists e2. rewrite (Hall ltac:(lia)), Hread, Hob. split; [|done]. cbn [ep_run reads_all].
  change (ep_step e net EPoll) with (ep_step e [] EPoll). by rewrite Hs1, Hs2.
Qed.

Lemma nothing_available e :
  ep_inv start pay expected hi e -> available (ep_ob e) = [] ->
  carry_over_bytes (ep_ob e) = None /\ ready (slots (ep_ob e)) = [].
Proof.
  intros Hi. unfold available. intros [Hc Hr]%app_eq_nil. pose proof (wf_carry _ (proj1 (ei_stream _ _ _ _ _ Hi))) as Hwf.
  split; [by destruct (carry_over_bytes (ep_ob e)) as [[]|]|]. apply full_payloads; [apply full_ready, Hi|done].
Qed.

(** With nothing left and the peer's FIN observed, a read ends the stream. *)
Lemma ep_reports_end e :
  ep_inv start pay expected hi e -> available (ep_ob e) = [] -> peer_fin_observed (ep_shared e) = true ->
  exists e', ep_run e net [EPoll; ERead 1] = Ok e' /\ ep_read e' = ep_read e /\ ep_eofs e' = S (ep_eofs e).
Proof.
  intros Hi Ha Hfl. destruct (nothing_available e Hi Ha) as [Hc Hr].
  destruct (ep_poll start pay expected hi e Hi) as (e1 & Hs1 & Hi1 & Hob & Hread & Heof & [_ Hfl1] & Hready).
  specialize (Hready (or_intror Hfl)).
  destruct (ep_read_eof start pay expected hi e1 net 1 Hi1 Hready) as (e2 & Hs2 & _ & Hread2 & Heof2);
    [by rewrite Hfl1|by rewrite Hob..|].
  exists e2. rewrite Hread2, Heof2, Hread, Heof. split; [|done]. cbn [ep_run].
  change (ep_step e net EPoll) with (ep_step e [] EPoll). by rewrite Hs1, Hs2.
Qed.

Lemma filled_ready ob n :
  (forall m, smallest_packet_number ob <= m < smallest_packet_number ob + Z.of_nat n -> filled ob m)%Z ->
  n <= length (ready (slots ob)).
Proof.
  intros H. apply ready_filled. intros i Hi.
  destruct (H (smallest_packet_number ob + Z.of_nat i)%Z) as (j & q & Hj & Hq); [lia|].
  assert (i = j) as -> by lia. eauto.
Qed.

(** With nothing to read now, the peer's FIN makes the next read report the end
    of the stream. *)
Definition gets_fin (w : WriterHandler) (pn : Z) : list ep_action := [EArrive (fin_datagram w Fin pn); EPoll; ERead 1].

Lemma ep_end_stream e w pn :
  ep_inv start pay expected hi e -> ep_receiving e = true -> available (ep_ob e) = [] ->
  is_u32 (wh_src_conn_id w) -> is_u32 (wh_dst_conn_id w) -> is_u64 pn -> fin_datagram w Fin pn ∈ net ->
  close_state (close_buff (ep_shared e)) <> Closed ->
  exists e', ep_run e net (gets_fin w pn) = Ok e' /\ ep_read e' = ep_read e /\ ep_eofs e' = S (ep_eofs e).
Proof.
  intros Hi Hrc Ha Hs Hd Hpn Hin Hcl.
  destruct (ep_arrive_control start pay expected hi e (ep_env e) w Fin pn Hi Hs Hd Hpn (or_introl eq_refl))
    as (s' & evs & Harr & Hob & Hi1 & Hfl).
  destruct (ep_reports_end (after_arrival e s' evs) Hi1) as (e' & Hrun & Hread & Heof);
    [unfold ep_ob in *; cbn [after_arrival ep_shared]; by rewrite Hob|by apply Hfl|].
  exists e'. split; [|done]. unfold gets_fin. cbn [ep_run] in *. by rewrite (ep_arrive_step e _ s' evs).
Qed.
End Finish.

(** The ids by side. *)
Definition side_src (src dst : Z) (side : bool) : Z := if side then src else dst.

Lemma firsts_u64 pa pb side : is_u64 pa /\ is_u64 pb -> is_u64 (firsts pa pb side).
Proof. intros []. by destruct side. Qed.

Lemma side_src_u32 src dst side : is_u32 src /\ is_u32 dst -> is_u32 (side_src src dst side).
Proof. intros []. by destruct side. Qed.

(** What the writers have done, whatever arrived. *)
Definition writers_inv (pa pb src dst : Z) (acts : list (bool * ep_action)) (d : duplex)
    (groups : bool -> list (list BluefinPacket)) (chunks : bool -> list bytes) : Prop :=
  forall side, writer_inv (firsts pa pb side) (side_src src dst side) (side_src src dst (negb side)) (sent_by side acts)
                 (groups side) (chunks side) (ep_writer (end_of d side)).

Lemma duplex_writers pa pb src dst sa sb acts d :
  is_u64 pa /\ is_u64 pb -> is_u32 src /\ is_u32 dst -> usage pa pb acts ->
  duplex_run (duplex_start pa pb src dst sa sb) acts = Ok d ->
  exists groups chunks, writers_inv pa pb src dst acts d groups chunks /\
    wires_of (firsts pa pb) (fun side => piece (chunks side)) d.
Proof.
  intros Hf Hids Hu Hrun.
  assert (Hw : forall side, exists groups chunks,
    writer_inv (firsts pa pb side) (side_src src dst side) (side_src src dst (negb side))
      (sent_by side acts) groups chunks (ep_writer (end_of d side))).
  { intros side. pose proof (duplex_run_writes _ _ _ side Hrun) as Hr. pose proof (us_room _ _ _ Hu side).
    pose proof (firsts_u64 pa pb side Hf). apply writer_inv_run; [done|unfold sent_by in *; int_lia|].
    by destruct side. }
  destruct (Hw true) as (ga & ca & Ha), (Hw false) as (gb & cb & Hb).
  exists (fun side : bool => if side then ga else gb), (fun side : bool => if side then ca else cb).
  split; [by intros [|]|].
  intros [|]; eapply sender_wire; (eassumption || by apply firsts_u64 || by apply side_src_u32 || apply Hu).
Qed.

Section Connected.
Context (pa pb src dst : Z) (sa sb : ConnShared).
Hypothesis Hpair : paired pa pb src dst sa sb.

(** Everything that holds of a reached state. *)
Definition reached (acts : list (bool * ep_action)) (d : duplex)
    (groups : bool -> list (list BluefinPacket)) (chunks : bool -> list bytes) : Prop :=
  writers_inv pa pb src dst acts d groups chunks /\
  duplex_inv (firsts pa pb) (fun side => piece (chunks side)) (firsts pa pb) d /\
  wires_of (firsts pa pb) (fun side => piece (chunks side)) d.

Lemma start_inv pays : duplex_inv (firsts pa pb) pays (firsts pa pb) (duplex_start pa pb src dst sa sb).
Proof using Hpair. intros side. destruct Hpair as [[] [] Ha Hb]. destruct side; by apply ep_inv_start. Qed.

Lemma duplex_reached acts d :
  usage pa pb acts -> duplex_run (duplex_start pa pb src dst sa sb) acts = Ok d ->
  exists groups chunks, reached acts d groups chunks.
Proof using Hpair.
  intros Hu Hrun. destruct Hpair as [Hf Hids Ha Hb].
  destruct (duplex_writers pa pb src dst sa sb acts d Hf Hids Hu Hrun) as (groups & chunks & Hw & Hwires).
  exists groups, chunks. split; [done|]. split; [|done].
  eapply duplex_inv_run; [exact Hrun|by apply start_inv|done|apply Hu].
Qed.


(** What the application at the other side has, and what is carried over. *)
Lemma reached_read acts d groups chunks side :
  reached acts d groups chunks ->
  exists k, smallest_packet_number (ep_ob (end_of d (negb side))) = (firsts pa pb side + Z.of_nat k)%Z /\
    ep_read (end_of d (negb side)) ++ default [] (carry_over_bytes (ep_ob (end_of d (negb side)))) =
      concat (take k (chunks side)).
Proof.
  intros (_ & Hinv & _). pose proof (ei_stream _ _ _ _ _ (Hinv (negb side))) as [_ (k & Hsm & _ & Hd)].
  rewrite negb_involutive, ?stream_prefix_piece in *. eauto.
Qed.

Lemma reached_sent acts d groups chunks side :
  reached acts d groups chunks ->
  sent_by side acts = concat (chunks side) ++ concat (ws_queue (ep_writer (end_of d side))) ++
                      concat (ws_channel (ep_writer (end_of d side))).
Proof. intros (Hw & _). symmetry. apply (wi_stream _ _ _ _ _ _ _ (Hw side)). Qed.

Lemma reached_prefix acts d groups chunks side :
  reached acts d groups chunks -> ep_read (end_of d (negb side)) `prefix_of` sent_by side acts.
Proof.
  intros Hr. destruct (reached_read acts d groups chunks side Hr) as (k & _ & Hk).
  rewrite (reached_sent acts d groups chunks side Hr). apply prefix_app_r.
  transitivity (concat (take k (chunks side))); [rewrite <- Hk; by apply prefix_app_r|].
  rewrite <- (take_drop k (chunks side)) at 2. rewrite concat_app. by apply prefix_app_r.
Qed.

(** The published number of acknowledged packets. *)
Lemma reached_acked acts d groups chunks side :
  reached acts d groups chunks ->
  ep_largest (end_of d side) = 0%Z \/
  (ep_largest (end_of d side) < smallest_packet_number (ep_ob (end_of d (negb side))))%Z.
Proof.
  intros (_ & Hinv & _). destruct (ei_sound _ _ _ _ _ (Hinv side)) as (D & [_ _ Hst Hcov Hl] & Hhi).
  cbn [fst snd] in *. case_decide as Hd; [by left|right].
  destruct (Hcov (ep_largest (end_of d side))) as (a & Ha & Hc); [left; lia|].
  destruct (proj1 (Forall_forall _ _) Hhi a Ha) as [_ Hb]. unfold covers in Hc. lia.
Qed.


Lemma reached_numbers acts d groups chunks side i p :
  usage pa pb acts -> reached acts d groups chunks -> concat (groups side) !! i = Some p ->
  packet_number (header p) = (firsts pa pb side + Z.of_nat i)%Z.
Proof using Hpair.
  intros Hu (Hw & _) Hp. specialize (Hw side). rewrite (wi_packets _ _ _ _ _ _ _ Hw) in Hp.
  apply numbered_lookup in Hp as (c & Hc & ->). apply lookup_lt_Some in Hc.
  pose proof (sender_room _ _ _ _ _ _ _ Hw (us_room _ _ _ Hu side)) as Hr. pose proof (firsts_u64 pa pb side (pr_first _ _ _ _ _ _ Hpair)) as Hf.
  cbn. apply u64_wrap_small. int_lia.
Qed.

Lemma reached_taken acts d groups chunks side i :
  usage pa pb acts -> duplex_run (duplex_start pa pb src dst sa sb) acts = Ok d -> reached acts d groups chunks ->
  ws_sending (ep_writer (end_of d side)) = [] -> all_taken (duplex_start pa pb src dst sa sb) side acts d = true -> i < length (chunks side) ->
  kept (ep_ob (end_of d (negb side))) (firsts pa pb side + Z.of_nat i).
Proof using Hpair.
  intros Hu Hrun Hr Hsend Hall Hi. pose proof Hr as (Hw & _ & Hwires). specialize (Hw side).
  destruct (lookup_lt_is_Some_2 (concat (groups side)) i) as [p Hp].
  { rewrite (wi_packets _ _ _ _ _ _ _ Hw). unfold numbered. by rewrite length_imap. }
  rewrite <- (reached_numbers acts d groups chunks side i p Hu Hr Hp).
  apply list_elem_of_lookup_2, list_elem_of_In, in_concat in Hp as (g & Hg & Hpg). apply list_elem_of_In in Hg, Hpg.
  destruct (sender_group _ _ _ _ _ _ _ Hw (firsts_u64 pa pb side (pr_first _ _ _ _ _ _ Hpair))
              (side_src_u32 src dst side (pr_ids _ _ _ _ _ _ Hpair))
              (side_src_u32 src dst (negb side) (pr_ids _ _ _ _ _ _ Hpair))
              (us_bytes _ _ _ Hu side) (us_room _ _ _ Hu side) g Hg) as (H1 & H2 & H3).
  eapply (duplex_taken _ _ (firsts pa pb)); [exact Hrun|by apply start_inv|exact Hwires|apply Hu|done..|].
  unfold all_taken in Hall. rewrite forallb_forall in Hall. pose proof (wi_datagrams _ _ _ _ _ _ _ Hw) as Hd.
  rewrite Hsend, app_nil_r in Hd. rewrite Hd in Hall. apply (Hall (outgoing g)). apply in_map. by apply list_elem_of_In.
Qed.

(** Everything a flushed writer has sent, when nothing of it was lost or refused. *)
Lemma duplex_delivered acts d side :
  usage pa pb acts -> duplex_run (duplex_start pa pb src dst sa sb) acts = Ok d ->
  WriterHandler_flush_check (ws_handle (ep_writer (end_of d side))) = true -> all_taken (duplex_start pa pb src dst sa sb) side acts d = true ->
  ep_read (end_of d (negb side)) ++ available (ep_ob (end_of d (negb side))) = sent_by side acts.
Proof using Hpair.
  intros Hu Hrun Hf Hall. destruct (duplex_reached acts d Hu Hrun) as (groups & chunks & Hr).
  pose proof Hr as (Hw & Hinv & _). destruct (flushed _ _ _ _ _ _ _ (Hw side) Hf) as [Hsend <-].
  pose proof (ei_stream _ _ _ _ _ (Hinv (negb side))) as [_ (k & Hk & Hp & Hd)]. rewrite negb_involutive in *.
  set (ob := ep_ob (end_of d (negb side))) in *. set (n := length (ready (slots ob))).
  unfold available. rewrite app_assoc, Hd.
  rewrite <- (take_ge (ready (slots ob)) n) by done.
  rewrite (ready_stream (piece (chunks side)) (slots ob) k n) by done.
  unfold stream_prefix. rewrite <- concat_app, <- map_app, <- seq_app. fold (stream_prefix (piece (chunks side)) (k + n)).
  rewrite stream_prefix_piece, take_ge; [done|].
  assert (length (chunks side) - k <= n); [|lia]. apply filled_ready. intros m Hm.
  destruct (reached_taken acts d groups chunks side (Z.to_nat (m - firsts pa pb side)) Hu Hrun Hr Hsend Hall) as [Hx|Hx]; [lia| |];
    fold ob in Hx; [lia|]. by replace (firsts pa pb side + Z.of_nat (Z.to_nat (m - firsts pa pb side)))%Z with m in Hx by lia.
Qed.

Lemma duplex_side_inv acts d side :
  usage pa pb acts -> duplex_run (duplex_start pa pb src dst sa sb) acts = Ok d ->
  exists pay, ep_inv (firsts pa pb side) pay (firsts pa pb (negb side))
                (smallest_packet_number (ep_ob (end_of d side))) (end_of d (negb side)).
Proof using Hpair.
  intros Hu Hrun. destruct (duplex_reached acts d Hu Hrun) as (groups & chunks & _ & Hinv & _).
  specialize (Hinv (negb side)). rewrite negb_involutive in Hinv. eauto.
Qed.

Lemma fin_sent e n : ep_fin e = Some n -> fin_datagram (ws_handle (ep_writer e)) Fin n ∈ ep_sent e.
Proof.
  intros Hn. unfold ep_sent, ep_fins. rewrite Hn. unfold WriterHandler_send_fin. rewrite send_control_eq.
  rewrite !elem_of_app. right. right. left. by apply list_elem_of_singleton.
Qed.

Lemma run_side d side more e' :
  ep_run (end_of d (negb side)) (ep_sent (end_of d side)) more = Ok e' ->
  exists d', duplex_run d (map (pair (negb side)) more) = Ok d' /\ end_of d' (negb side) = e' /\ end_of d' side = end_of d side.
Proof.
  intros Hrun. destruct (ep_run_duplex d (negb side) more e') as (d' & Hd & H1 & H2); [by rewrite negb_involutive|].
  rewrite negb_involutive in H2. eauto.
Qed.

(** All of it is read, or one more read gets the rest. *)
Lemma duplex_delivered_read acts d side :
  usage pa pb acts -> duplex_run (duplex_start pa pb src dst sa sb) acts = Ok d ->
  WriterHandler_flush_check (ws_handle (ep_writer (end_of d side))) = true ->
  all_taken (duplex_start pa pb src dst sa sb) side acts d = true ->
  ep_read (end_of d (negb side)) ++ available (ep_ob (end_of d (negb side))) = sent_by side acts /\
  (available (ep_ob (end_of d (negb side))) <> [] ->
   exists d', duplex_run d (map (pair (negb side)) reads_all) = Ok d' /\
     ep_read (end_of d' (negb side)) = sent_by side acts).
Proof using Hpair.
  intros Hu Hrun Hf Hall. pose proof (duplex_delivered acts d side Hu Hrun Hf Hall) as Hsent. split; [done|]. intros Ha.
  destruct (duplex_side_inv acts d side Hu Hrun) as [pay Hinv].
  destruct (ep_takes_all _ _ _ _ (ep_sent (end_of d side)) _ Hinv Ha) as (e' & He & Hread).
  destruct (run_side d side _ e' He) as (d' & Hd & H1 & _). exists d'. by rewrite H1, Hread.
Qed.

End Connected.

(** ** Properties *)

(** A connection whose ends number from 10 and from 20. *)
Definition sample_end (own peer : Z) : ConnShared :=
  with_conn_buff (ConnShared_new 1 Client own)
    {| ordered_bytes := OrderedBytes_new 1 peer; cb_addr := Some (7, 8)%Z; cb_waker := None; cb_packet := None;
       cb_dst_conn_id := 2; cb_host_type := Client; set_start_packet_number := true |}.

Lemma sample_end_fresh own peer : fresh own peer (sample_end own peer).
Proof. split; [by eexists|done|by eexists|done]. Qed.

Lemma sample_paired : paired 10 20 1 2 (sample_end 10 20) (sample_end 20 10).
Proof. split; [int_lia..|apply sample_end_fresh|apply sample_end_fresh]. Qed.

Definition sample_start : duplex := duplex_start 10 20 1 2 (sample_end 10 20) (sample_end 20 10).

(** The first end sends three bytes, flushes and closes. *)
Definition sends_and_closes : list (bool * ep_action) :=
  map (fun a => (true, a))
    [EWriter (ASend [1; 2; 3]%Z); EWriter (ARecv 1); EWriter APack; EWriter APack; EWriter AStore; EWriter ATransmit; EClose].

Definition reads_some (dg : bytes) : list (bool * ep_action) :=
  map (fun a => (false, a)) [EArrive dg; EPoll; ERead 10].

Definition the_data : bytes := datagram [data_pkt 1 2 10 [1; 2; 3]%Z].

Definition sample_run : list (bool * ep_action) := sends_and_closes ++ reads_some the_data.

Definition state_after (acts : list (bool * ep_action)) : duplex :=
  match duplex_run sample_start acts with Ok d => d | _ => sample_start end.

Lemma sample_usage : usage 10 20 sample_run.
Proof.
  split; [intros [|]; vm_compute; repeat constructor; done|intros [|]; vm_compute; done|].
  repeat (apply Forall_cons_2; [cbn; (exact I || lia)|]). apply Forall_nil_2.
Qed.

(** C2: a connection keeps what it promises in both directions at once.  Let the
    two ends run from the handshake's outcome with any interleaving of sends,
    packetising, transmissions, reads of both kinds, ack rounds, runs of the ack
    consumer, closes and arrivals, over a network that loses, repeats and
    reorders.  Then what each application has read is the beginning of what the
    other one sent, and the acknowledged number an end has published is a
    number of a packet the other end has released to its application. *)
Theorem connection_safety pa pb src dst sa sb acts d side :
  paired pa pb src dst sa sb -> usage pa pb acts ->
  duplex_run (duplex_start pa pb src dst sa sb) acts = Ok d ->
  ep_read (end_of d (negb side)) `prefix_of` sent_by side acts /\
  (ep_largest (end_of d side) = 0%Z \/
   (ep_largest (end_of d side) < smallest_packet_number (ep_ob (end_of d (negb side))))%Z).
Proof.
  intros Hp Hu Hrun. destruct (duplex_reached _ _ _ _ _ _ Hp acts d Hu Hrun) as (groups & chunks & Hr).
  split; [by eapply reached_prefix|by eapply reached_acked].
Qed.

Lemma connection_safety_witness :
  duplex_run sample_start sample_run = Ok (state_after sample_run) /\
  ep_read (snd (state_after sample_run)) = [1; 2; 3]%Z /\
  ep_read (snd (state_after sample_run)) `prefix_of` sent_by true sample_run.
Proof.
  assert (Hrun : duplex_run sample_start sample_run = Ok (state_after sample_run)) by (vm_compute; reflexivity).
  split; [exact Hrun|]. split; [vm_compute; reflexivity|].
  exact (proj1 (connection_safety 10 20 1 2 _ _ sample_run (state_after sample_run) true
                  sample_paired sample_usage Hrun)).
Defined.







(** C3: what is not lost is delivered.  Nothing is ever sent again, and a
    packet that arrives when the buffer has no slot for it is refused; but once
    an end's [flush] would return, and each datagram of data it has put on the
    wire has come to the other end at a time its 2000 slots had room, in
    whatever order and how often, the other application has all of it: what it
    has read and what it can read now is what was sent, one [read_bytes] gets
    the rest, and after that and the peer's FIN a read returns [Ok(0)]. *)
Theorem connection_delivers pa pb src dst sa sb acts d side :
  paired pa pb src dst sa sb -> usage pa pb acts ->
  duplex_run (duplex_start pa pb src dst sa sb) acts = Ok d ->
  WriterHandler_flush_check (ws_handle (ep_writer (end_of d side))) = true ->
  all_taken (duplex_start pa pb src dst sa sb) side acts d = true ->
  let e := end_of d (negb side) in
  ep_read e ++ available (ep_ob e) = sent_by side acts /\
  (available (ep_ob e) <> [] ->
   exists d', duplex_run d (map (pair (negb side)) reads_all) = Ok d' /\
     ep_read (end_of d' (negb side)) = sent_by side acts) /\
  (available (ep_ob e) = [] -> peer_fin_observed (ep_shared e) = true ->
   exists d', duplex_run d (map (pair (negb side)) [EPoll; ERead 1]) = Ok d' /\
     ep_read (end_of d' (negb side)) = sent_by side acts /\
     ep_eofs (end_of d' (negb side)) = S (ep_eofs e)).
Proof.
  intros Hp Hu Hrun Hf Hall e.
  destruct (duplex_delivered_read _ _ _ _ _ _ Hp acts d side Hu Hrun Hf Hall) as [Hsent Hread]. split; [done|]. split; [done|].
  intros Ha Hfl. fold e in Hsent. rewrite Ha, app_nil_r in Hsent.
  destruct (duplex_side_inv _ _ _ _ _ _ Hp acts d side Hu Hrun) as [pay Hinv].
  destruct (ep_reports_end _ _ _ _ (ep_sent (end_of d side)) e Hinv Ha Hfl) as (e' & He & Hr & Heof).
  destruct (run_side d side _ e' He) as (d' & Hd & H1 & _). exists d'. by rewrite H1, Hr.
Qed.

(** The second of two packets comes first. *)
Definition sends_two : list (bool * ep_action) :=
  map (fun a => (true, EWriter a))
    [ASend [1; 2; 3]%Z; ARecv 1; APack; APack; AStore; ASend [4; 5]%Z; ARecv 1; APack; APack; AStore; ATransmit; ATransmit].

Definition gets_both : list (bool * ep_action) :=
  map (fun dg => (false, EArrive dg)) [datagram [data_pkt 1 2 11 [4; 5]%Z]; datagram [data_pkt 1 2 10 [1; 2; 3]%Z]].

Lemma connection_delivers_witness :
  exists d', duplex_run (state_after (sends_two ++ gets_both)) (map (pair false) reads_all) = Ok d' /\
    ep_read (end_of d' false) = [1; 2; 3; 4; 5]%Z.
Proof.
  assert (Hu : usage 10 20 (sends_two ++ gets_both)).
  { split; [intros [|]; vm_compute; repeat constructor; done|intros [|]; vm_compute; done|].
    repeat (apply Forall_cons_2; [cbn; (exact I || lia)|]). apply Forall_nil_2. }
  destruct (connection_delivers 10 20 1 2 (sample_end 10 20) (sample_end 20 10) (sends_two ++ gets_both)
              (state_after (sends_two ++ gets_both)) true sample_paired Hu) as (_ & H & _);
    [vm_compute; reflexivity|vm_compute; reflexivity|vm_compute; reflexivity|].
  apply H. vm_compute. discriminate.
Defined.

(** C32: the end of the stream is reported early when the FIN overtakes data.
    Whatever is still on its way, if the peer's FIN comes to an open end that has
    nothing to read at that moment, the next [recv] returns zero bytes, with
    what was read so far unchanged; and the stream was not over: the datagrams
    that come later are taken as ever, so that when all have come the rest can
    be read after that zero. *)
Theorem eof_before_data pa pb src dst sa sb acts d side n :
  paired pa pb src dst sa sb -> usage pa pb acts ->
  duplex_run (duplex_start pa pb src dst sa sb) acts = Ok d ->
  let e := end_of d (negb side) in
  ep_fin (end_of d side) = Some n -> available (ep_ob e) = [] -> ep_receiving e = true ->
  close_state (close_buff (ep_shared e)) <> Closed ->
  let fin := map (pair (negb side)) (gets_fin (ws_handle (ep_writer (end_of d side))) n) in
  exists d1, duplex_run d fin = Ok d1 /\
    ep_eofs (end_of d1 (negb side)) = S (ep_eofs e) /\ ep_read (end_of d1 (negb side)) = ep_read e /\
    forall later d2, usage pa pb (acts ++ fin ++ later) -> duplex_run d1 later = Ok d2 ->
      WriterHandler_flush_check (ws_handle (ep_writer (end_of d2 side))) = true ->
      all_taken (duplex_start pa pb src dst sa sb) side (acts ++ fin ++ later) d2 = true ->
      ep_read (end_of d2 (negb side)) ++ available (ep_ob (end_of d2 (negb side))) = sent_by side (acts ++ fin ++ later).
Proof.
  intros Hp Hu Hrun e Hn Ha Hrc Hcl fin.
  destruct (duplex_reached _ _ _ _ _ _ Hp acts d Hu Hrun) as (groups & chunks & _ & Hinv & _).
  pose proof (Hinv side) as Hi. specialize (Hinv (negb side)). fold e in Hinv.
  destruct (ep_end_stream _ _ _ _ (ep_sent (end_of d side)) e (ws_handle (ep_writer (end_of d side))) n Hinv Hrc Ha)
    as (e1 & He & Hread & Heof); [apply (ei_ids _ _ _ _ _ Hi)..|by apply (ei_fin _ _ _ _ _ Hi)|by apply fin_sent|done|].
  destruct (run_side d side _ e1 He) as (d1 & Hd & H1 & _). exists d1. rewrite H1. split_and!; [done..|].
  intros later d2 Hu2 Hrun2 Hf Hall. apply (duplex_delivered _ _ _ _ _ _ Hp); [done| |done|done].
  fold fin in Hd. by rewrite duplex_run_app, Hrun, duplex_run_app, Hd.
Qed.

(** The FIN comes before the three bytes. *)
Lemma eof_before_data_witness :
  exists d1, duplex_run (state_after sends_and_closes)
               (map (pair false) (gets_fin (ws_handle (ep_writer (end_of (state_after sends_and_closes) true))) 11)) = Ok d1 /\
    ep_eofs (end_of d1 false) = 1 /\ ep_read (end_of d1 false) = [].
Proof.
  destruct (eof_before_data 10 20 1 2 (sample_end 10 20) (sample_end 20 10) sends_and_closes
              (state_after sends_and_closes) true 11 sample_paired (usage_app _ _ _ _ sample_usage))
    as (d1 & H1 & H2 & H3 & _); [vm_compute; reflexivity..|vm_compute; discriminate|].
  exists d1. split; [exact H1|]. split; [exact H2|exact H3].
Defined.

(** After it the bytes are read. *)
Example data_after_eof :
  let d := state_after (sends_and_closes ++ reads_some (fin_datagram (ws_handle (writer_init 10 1 2)) Fin 11) ++
                        reads_some the_data) in
  ep_eofs (snd d) = 1 /\ ep_read (snd d) = [1; 2; 3]%Z.
Proof. vm_compute. split; reflexivity. Qed.
