(* ===== verification/Session.v ===== *)
(** * A whole session

    The handshake (Handshake.v) and the connection it makes (Duplex.v): the two
    ends are built from what [connect] and [accept] return and what they leave
    in the hosts, and then run.  A hello that reaches a waiting [accept] gives
    a connection that keeps its promises; one that came before [accept] was
    called gives a connection on which the server never sees the beginning of
    the client's stream. *)
From stdpp Require Import base numbers list option strings gmap.
From S2P Require Import Prelude Proto Header Packet Window OrderedBytes Close Buffers Net ConnReader Packetiser Writer Reader Routing Handshake Connection Transfer Acks Endpoint Duplex.

(** The tasks [WriterHandler::start] spawns, around a handle. *)
Definition writer_started (w : WriterHandler) : WriterSystem :=
  {| ws_handle := w; ws_channel := []; ws_phase := PumpIdle; ws_queue := []; ws_next := wh_next_packet_num w;
     ws_sending := []; ws_wire := []; ws_events := [] |}.

(** One end: the connection the caller got and the shared parts its host keeps. *)
Definition connection_end (h : Host) (conn : BluefinConnection) : option endpoint :=
  s ← heap h !! bc_shared conn;
  Some {| ep_writer := writer_started (bc_writer conn); ep_fin := None; ep_shared := s; ep_rx := bc_reader conn;
          ep_ready := false; ep_parked := false; ep_read := []; ep_eofs := 0; ep_ack_channel := [];
          ep_acks := ack_loop_init; ep_largest := 0; ep_idle := false; ep_requests := []; ep_answers := []; ep_receiving := true |}.

(** The client is the first end. *)
Definition session_of (r : handshake_result) : option duplex :=
  a ← connection_end (cl_host (hr_client r)) (hr_client_conn r);
  b ← connection_end (sv_host (hr_server r)) (hr_server_conn r);
  Some (a, b).

Definition session (queued : bool) (caddr saddr : SocketAddr) (draws : connect_draws) (sid ps : Z) : option duplex :=
  r ← handshake queued caddr saddr draws sid ps; session_of r.

Section Session.
Context (caddr saddr : SocketAddr) (b1 b2 cid pc sid ps : Z).
Hypothesis Hcid : (0 < cid < 2 ^ 32)%Z.
Hypothesis Hsid : (0 < sid < 2 ^ 32)%Z.
Hypothesis Hpc : (0 < pc < 2 ^ 64 - 3)%Z.
Hypothesis Hps : (0 < ps < 2 ^ 64 - 3)%Z.

Let draws : connect_draws :=
  {| draw_begin := (b1, b2); draw_src_conn_id := cid; draw_packet_number := pc |}.

(** The two ends start as Duplex.v has them, whichever buffer the server had. *)
Lemma session_starts queued cb :
  (exists ac s1,
    server_gets_hello queued (server0 saddr) sid ps (BluefinPacket_serialise (client_hello cid pc)) caddr =
      Some (ac, (client_hello cid pc, caddr), s1) /\ server_ready saddr sid ps s1 ac cb) ->
  cb_packet cb = None ->
  (match cb_addr cb with Some a => a = caddr | None => True end) ->
  exists sa sb, session queued caddr saddr draws sid ps = Some (duplex_start (pc + 2) (ps + 1) cid sid sa sb) /\
    fresh (pc + 2) (ps + 1) sa /\
    sb = with_conn_buff (server_shared0 sid ps) (with_packet (hello_buffered cb (client_ack cid pc sid) caddr) None).
Proof using Hcid Hsid Hpc Hps.
  intros Hgets Hp Ha.
  destruct (exchange_run caddr saddr b1 b2 cid pc sid ps Hcid Hsid Hpc Hps queued cb Hgets Hp Ha)
    as (r & Hr & _ & _ & Hh1 & Hh2 & Hc & Hs).
  rewrite u64_add_small in Hc by int_lia. rewrite u64_add_small in Hs by int_lia.
  rewrite u64_add_small in Hh1 by int_lia.
  unfold session. fold draws in Hr. rewrite Hr. cbn [mbind option_bind]. unfold session_of, connection_end.
  injection Hc as <-. injection Hs as <-. cbn [bc_shared]. rewrite Hh1, Hh2. cbn [mbind option_bind].
  do 2 eexists. split; [reflexivity|]. split; [|reflexivity]. split; [|done|by eexists|done].
  exists cid. cbn. by rewrite u64_add_small by int_lia.
Qed.

(** The hello that finds a waiting [accept]. *)
Lemma session_routed :
  exists sa sb, session false caddr saddr draws sid ps = Some (duplex_start (pc + 2) (ps + 1) cid sid sa sb) /\
    paired (pc + 2) (ps + 1) cid sid sa sb.
Proof using Hcid Hsid Hpc Hps.
  destruct (session_starts false _ (server_routed_hello caddr saddr cid pc sid ps Hcid Hpc))
    as (sa & sb & Hs & Hfr & ->); [done|done|].
  do 2 eexists. split; [exact Hs|]. split; [int_lia|int_lia|done|]. split; [|cbn|by eexists|done].
  - exists sid. cbn. by rewrite u64_add_small by int_lia.
  - by rewrite u64_add_small by int_lia.
Qed.

(** The hello that had to wait: the server's buffer starts one packet late. *)
Lemma session_queued :
  exists sa sb, session true caddr saddr draws sid ps = Some (duplex_start (pc + 2) (ps + 1) cid sid sa sb) /\
    fresh (pc + 2) (ps + 1) sa /\ fresh (ps + 1) (pc + 3) sb.
Proof using Hcid Hsid Hpc Hps.
  destruct (session_starts true _ (server_queued_hello caddr saddr cid pc sid ps Hcid Hpc))
    as (sa & sb & Hs & Hfr & ->); [done|done|].
  do 2 eexists. split; [exact Hs|]. split; [done|]. split; [|cbn|by eexists|done].
  - exists sid. cbn. rewrite (u64_add_small pc 1) by int_lia. rewrite u64_add_small by int_lia.
    by replace (pc + 1 + 2)%Z with (pc + 3)%Z by lia.
  - by rewrite u64_add_small by int_lia.
Qed.
End Session.

(** ** The stream from its second packet on *)

Lemma piece_tail (chunks : list bytes) i : piece chunks (S i) = piece (tail chunks) i.
Proof. by destruct chunks. Qed.

Lemma data_of_tail start chunks dg : data_of start (piece chunks) dg -> data_of (start + 1) (piece (tail chunks)) dg.
Proof.
  intros (ps & -> & Hne & Hd & Hg). exists ps. split_and!; [done..|]. eapply Forall_impl; [exact Hg|].
  intros p [Hr Hp]. split; [done|]. intros i Hi. rewrite <- piece_tail. apply Hp. lia.
Qed.

(** What a server reads whose buffer starts one packet late. *)
Lemma late_reads pa pb src dst sa sb acts d :
  is_u64 pa /\ is_u64 pb -> is_u64 (pa + 1) -> is_u32 src /\ is_u32 dst -> fresh pa pb sa -> fresh pb (pa + 1) sb ->
  usage pa pb acts -> duplex_run (duplex_start pa pb src dst sa sb) acts = Ok d ->
  exists n, 0 < n <= MAX_BLUEFIN_PAYLOAD_SIZE_BYTES /\ ep_read (snd d) `prefix_of` drop n (sent_by true acts).
Proof.
  intros Hf Hlate Hids Ha Hb Hu Hrun.
  destruct (duplex_writers pa pb src dst sa sb acts d Hf Hids Hu Hrun) as (groups & chunks & Hw & Hwires).
  set (starts := firsts (pa + 1) pb). set (pays := fun side : bool => piece (if side then tail (chunks true) else chunks false)).
  assert (Hinv : duplex_inv starts pays (firsts pa pb) d).
  { eapply duplex_inv_run; [exact Hrun| | |apply Hu].
    - intros side. destruct Hf, Hids. destruct side; by apply ep_inv_start.
    - intros [|]; [|exact (Hwires false)]. eapply Forall_impl; [apply (Hwires true)|]. intros dg. apply data_of_tail. }
  destruct (ei_stream _ _ _ _ _ (Hinv false)) as [_ (k & _ & _ & Hk)]. cbn [negb] in Hk.
  unfold pays in Hk. rewrite stream_prefix_piece in Hk.
  rewrite <- (wi_stream _ _ _ _ _ _ _ (Hw true)). pose proof (wi_chunks _ _ _ _ _ _ _ (Hw true)) as Hc.
  destruct (chunks true) as [|c rest]; cbn [tail concat] in *.
  - rewrite take_nil in Hk. apply app_eq_nil in Hk as [Hk _]. exists 1. split; [unfold MAX_BLUEFIN_PAYLOAD_SIZE_BYTES; lia|].
    change (snd d) with (end_of d false). rewrite Hk. apply prefix_nil.
  - apply Forall_cons in Hc as [Hc _]. exists (length c). split; [done|].
    rewrite <- app_assoc, drop_app_length. apply prefix_app_r. rewrite <- (take_drop k rest), concat_app, <- Hk.
    apply prefix_app_r, prefix_app_r. done.
Qed.

(** ** Properties *)

(** C1: a whole session.  A client hello that reaches a waiting [accept] gives
    two connections; however their applications, their tasks and the network
    go on from there, what each application has read is the beginning of what
    the other one sent; and once an end's [flush] would return and each datagram
    of data it sent has reached the other end at a time its buffer had room, the
    other application has read all of it or has the rest in its buffer, where
    one [read_bytes] gets it.  (What is lost or refused is never sent again, and
    a hello that came before [accept] is another matter: see
    [late_accept_loses_data].) *)
Theorem session_delivers caddr saddr b1 b2 cid pc sid ps :
  (0 < cid < 2 ^ 32)%Z -> (0 < sid < 2 ^ 32)%Z -> (0 < pc < 2 ^ 64 - 3)%Z -> (0 < ps < 2 ^ 64 - 3)%Z ->
  exists d0,
    session false caddr saddr
      {| draw_begin := (b1, b2); draw_src_conn_id := cid; draw_packet_number := pc |} sid ps = Some d0 /\
    forall acts d side, usage (pc + 2) (ps + 1) acts -> duplex_run d0 acts = Ok d ->
      let e := end_of d (negb side) in
      ep_read e `prefix_of` sent_by side acts /\
      (WriterHandler_flush_check (ws_handle (ep_writer (end_of d side))) = true -> all_taken d0 side acts d = true ->
       ep_read e ++ available (ep_ob e) = sent_by side acts /\
       (available (ep_ob e) <> [] ->
        exists d', duplex_run d (map (pair (negb side)) reads_all) = Ok d' /\
          ep_read (end_of d' (negb side)) = sent_by side acts)).
Proof.
  intros Hcid Hsid Hpc Hps.
  destruct (session_routed caddr saddr b1 b2 cid pc sid ps Hcid Hsid Hpc Hps) as (sa & sb & Hs & Hp).
  eexists. split; [exact Hs|]. intros acts d side Hu Hrun e.
  destruct (duplex_reached _ _ _ _ _ _ Hp acts d Hu Hrun) as (groups & chunks & Hr).
  split; [by eapply reached_prefix|]. intros Hf Hall. destruct (duplex_delivered_read _ _ _ _ _ _ Hp acts d side Hu Hrun Hf Hall). done.
Qed.

Definition sample_session (queued : bool) : option duplex :=
  session queued (1, 80)%Z (2, 81)%Z {| draw_begin := (5, 6)%Z; draw_src_conn_id := 7; draw_packet_number := 100 |} 9 500.

(** The client sends three bytes and then four, in a packet each. *)
Definition client_sends : list (bool * ep_action) :=
  map (fun a => (true, EWriter a))
    [ASend [1; 2; 3]%Z; ARecv 1; APack; APack; AStore; ASend [4; 5; 6; 7]%Z; ARecv 1; APack; APack; AStore; ATransmit; ATransmit].

Definition server_gets : list (bool * ep_action) :=
  map (fun a => (false, a))
    [EArrive (datagram [data_pkt 7 9 103 [4; 5; 6; 7]%Z]); EArrive (datagram [data_pkt 7 9 102 [1; 2; 3]%Z]); EPoll; ERead 10].

Lemma session_usage : usage 102 501 (client_sends ++ server_gets).
Proof.
  split; [intros [|]; vm_compute; repeat constructor; done|intros [|]; vm_compute; done|].
  repeat (apply Forall_cons_2; [cbn; (exact I || lia)|]). apply Forall_nil_2.
Qed.

Definition server_receives : list (bool * ep_action) := take 2 server_gets.

Lemma receives_usage : usage 102 501 (client_sends ++ server_receives).
Proof. apply usage_app with (acts2 := drop 2 server_gets). rewrite <- app_assoc. exact session_usage. Qed.

Lemma session_delivers_witness :
  exists d0, sample_session false = Some d0 /\
    exists d d', duplex_run d0 (client_sends ++ server_receives) = Ok d /\
      duplex_run d (map (pair false) reads_all) = Ok d' /\ ep_read (end_of d' false) = [1; 2; 3; 4; 5; 6; 7]%Z.
Proof.
  destruct (session_delivers (1, 80)%Z (2, 81)%Z 5 6 7 100 9 500) as (d0 & Hs & H); [lia..|].
  exists d0. split; [exact Hs|]. vm_compute in Hs. injection Hs as <-. eexists.
  destruct (H _ _ true receives_usage ltac:(vm_compute; reflexivity)) as [_ Hall].
  destruct (Hall ltac:(vm_compute; reflexivity) ltac:(vm_compute; reflexivity)) as [_ Hread].
  destruct Hread as (d' & H1 & H2); [vm_compute; discriminate|].
  exists d'. split; [vm_compute; reflexivity|]. split; [exact H1|exact H2].
Defined.

(** The run there reads all of it. *)
Example session_reads_all :
  match sample_session false with
  | Some d0 => match duplex_run d0 (client_sends ++ server_gets) with Ok d => ep_read (snd d) | _ => [] end
  | None => []
  end = [1; 2; 3; 4; 5; 6; 7]%Z.
Proof. vm_compute. reflexivity. Qed.

(** C31: a session whose hello arrived before [accept] was called loses the
    beginning of the client's stream, whatever happens later: the server's
    application never reads the first bytes, those of the client's first
    packet, and what it reads is the stream after them. *)
Theorem late_accept_loses_data caddr saddr b1 b2 cid pc sid ps :
  (0 < cid < 2 ^ 32)%Z -> (0 < sid < 2 ^ 32)%Z -> (0 < pc < 2 ^ 64 - 3)%Z -> (0 < ps < 2 ^ 64 - 3)%Z ->
  exists d0,
    session true caddr saddr
      {| draw_begin := (b1, b2); draw_src_conn_id := cid; draw_packet_number := pc |} sid ps = Some d0 /\
    forall acts d, usage (pc + 2) (ps + 1) acts -> duplex_run d0 acts = Ok d ->
      exists n, 0 < n <= MAX_BLUEFIN_PAYLOAD_SIZE_BYTES /\ ep_read (snd d) `prefix_of` drop n (sent_by true acts).
Proof.
  intros Hcid Hsid Hpc Hps.
  destruct (session_queued caddr saddr b1 b2 cid pc sid ps Hcid Hsid Hpc Hps) as (sa & sb & Hs & Ha & Hb).
  eexists. split; [exact Hs|]. intros acts d. apply late_reads; [int_lia..|done|].
  by replace (pc + 2 + 1)%Z with (pc + 3)%Z by lia.
Qed.

Lemma late_accept_loses_data_witness :
  exists d0, sample_session true = Some d0 /\
    forall d, duplex_run d0 (client_sends ++ server_gets) = Ok d ->
      exists n, 0 < n <= MAX_BLUEFIN_PAYLOAD_SIZE_BYTES /\ ep_read (snd d) `prefix_of` drop n [1; 2; 3; 4; 5; 6; 7]%Z.
Proof.
  destruct (late_accept_loses_data (1, 80)%Z (2, 81)%Z 5 6 7 100 9 500) as (d0 & Hs & H); [lia..|].
  exists d0. split; [exact Hs|]. intros d Hd. exact (H _ d session_usage Hd).
Defined.

(** The same run as above reads only the second packet. *)
Example late_session_reads :
  match sample_session true with
  | Some d0 => match duplex_run d0 (client_sends ++ server_gets) with Ok d => ep_read (snd d) | _ => [] end
  | None => []
  end = [4; 5; 6; 7]%Z.
Proof. vm_compute. reflexivity. Qed.
